(* ===== verification/_CoqProject ===== *)
-Q . S2P
Prelude.v
Bech32.v
Sdk.v
SdkRef.v
Rat.v
Float.v
Bank.v
Keepers.v
Admin.v
Registry.v
RegistryModule.v
AdminModule.v
ClpTypes.v
ClpMath.v
ClpKeeper.v
Pages.v
ClpPolicy.v
ClpRewards.v
ClpLiquidity.v
ClpMsgs.v
ClpServer.v
ClpModule.v
ClpQuery.v
MarginTypes.v
Margin.v
MarginServer.v
MarginQuery.v
Oracle.v
EthBridge.v
EthBridgeQuery.v
Disp.v
Ibc.v
Ante.v
Migrations.v
Messages.v
Relayer.v
RelayerSub.v
RelayerText.v
World.v
ClpMathSpec.v
ClpStoreSpec.v
ClpUnits.v
ClpExec.v
ClpSettings.v
ClpEffects.v
MarginExec.v
MarginEffects.v
MarginInv.v
MarginBlock.v
Scenario.v
BridgeWorld.v
DispWorld.v
IbcWorld.v
AnteWorld.v
RelayerWorld.v
ClpParams.v
ClpUnitsSpec.v
ClpBalanceSpec.v
MarginBacked.v
MarginSpec.v
MarginRateSpec.v
ClpPolicySpec.v
ClpQuerySpec.v
MarginQuerySpec.v
PmtpSpec.v
RegistrySpec.v
AdminSpec.v
OracleSpec.v
EthBridgeSpec.v
EthBridgeQuerySpec.v
MessagesSpec.v
MigrationsSpec.v
DispSpec.v
IbcSpec.v
AnteSpec.v
RelayerSpec.v
RelayerEthSpec.v
RelayerReplaySpec.v
