(* ===== verification/Prelude.v ===== *)
(** * A verification development of the black chain (offsideswap/black)

    The repository is a Cosmos SDK application in Go.  Its core is a decentralised exchange,
    x/clp, whose pools pair an external asset with the native asset "fury", and a leveraged
    trading module, x/margin, that borrows from those pools.  Around them: x/tokenregistry (the
    tokens and what may be done with them), x/admin (who may administer what), x/oracle and
    x/ethbridge (coins to and from Ethereum), x/dispensation (airdrops and rewards),
    x/ibctransfer (tokens over IBC) and app/ante (what a transaction must satisfy to run).
    cmd/ebrelayer is the program beside the chain with which a validator carries locks, burns and
    events between it and Ethereum.

    ** How the parts interact

    A transaction carries messages.  x/clp/handler.go ([ClpModule.NewHandler]) and the margin
    message service hand each to a handler; a message that fails or panics leaves the store as
    it was ([Scenario.deliver]).  Each block starts with the begin blockers of x/clp and x/margin
    and ends with the end blocker of x/clp; these are not rolled back.  x/clp asks x/margin
    which pools are open for margin and how healthy they are; x/margin swaps through the pools of
    x/clp and keeps what its positions hold inside them (custody, liabilities).  Both ask
    x/tokenregistry for decimals and permissions and x/admin for the roles of the signer.
    x/ethbridge hands claims to x/oracle and mints what the oracle decides.  x/dispensation keeps
    what distributors owe in its own account and pays it when their runner asks; each block it
    mints for the ecosystem pool.  x/ibctransfer stands before and behind the transfer module of
    ibc-go: it asks x/tokenregistry whether a token may leave or enter, and exchanges a received
    token for its unit.  Before any message runs, the checks of app/ante ask x/admin for the fee
    of a proposal and x/staking and the bank for the share of a validator.  The relayer reads the
    events that x/ethbridge emits with a lock or a burn ([Relayer.lock_event]) and calls the
    contracts of the other side; of the contracts' logs it makes the claims of x/ethbridge.

    ** How the code is modelled

    - A function that returns an error or panics returns [res]: [Ok], [Err] with the codespace
      and code of the error, or [Panic].  Texts of errors are not modelled.
    - A function that reads or writes the chain runs in [M W]: state passing over the whole
      chain state [W], which keeps the writes made before an error, as a block handler does.  A
      handler gets the [Ctx] of the block where it uses it.
    - A module's state is a record with one map per key prefix of its KVStore, keyed by the rest
      of the key, and found in [W] through [HasStore S W] (a lens with its laws).
    - Functions of x/margin that change their caller's pool and position through pointers run in
      [Margin.Env]: the chain together with the two variables, which also survive errors.
    - In x/clp/keeper/rewards.go the pools behind pointers are a list and a pointer is an index.
    - sdk.Int, sdk.Uint and sdk.Dec are integers with the bounds of the library (256 bits; 315
      bits and 18 decimals), operations that leave them panic.  int64, uint64, int16 and uint8
      arithmetic wraps.  big.Rat is [Q] in lowest terms.  float64 values are rationals rounded to
      53 bits (Float.v).
    - The relayer runs in the same monad over its own state ([RelayerSub.RelayerState]): its
      database, the number of calls it made, and the list of what it did.  Its loop over blocks,
      which asks a node until it answers, runs on fuel; a bound on the tries per block gives a
      bound on the fuel, for which it is proved to end (RelayerSpec).
    - Strings are byte strings; keys that the code separates with an underscore are kept so.

    ** What is a parameter

    Code that is not in the repository is a type class, with its laws in a second class, and
    an instance of both in SdkRef.v, World.v, BridgeWorld.v, DispWorld.v, IbcWorld.v,
    AnteWorld.v or RelayerWorld.v shows that the laws can hold:
    [Sdk]/[SdkLaws] (decimal arithmetic and parsing of cosmos-sdk/types, the regular expression of denoms),
    [CoinLib] and [BankKeeper] (coins and the bank), [MintKeeper], [Paginator] and [Pages]
    (the pagination of queries over a store prefix), [ClpJson], [BridgeJson] and [AdminJson] (the JSON of the queries of x/clp and x/ethbridge and of the genesis
    of x/admin), [SignJson] (the amino JSON that is signed), [GenesisJson] (the JSON of the genesis of both versions), [GoRange] (the order in which Go visits a map, any
    permutation), [PolicyFloat] and [MarginFloat] (the printed text of one floating point power
    each), [ValAddressLib], [StakingKeeper], [AccountKeeper], [EthLib], [ProphecyJson] and
    [ClaimJson] (validator addresses, x/staking, x/auth, go-ethereum's addresses, and the JSON of
    prophecies and claims, which is that of library types), [CoinsLib] (sets of coins),
    [QuerierJson] (requests and answers of queries), [RegistryJson], [SdkTruncate], [IbcLib] and
    [SdkTransferKeeper] (truncating decimals, denomination traces and the transfer module of
    ibc-go), [AnteLib] and [StakingPools] (the decorators of cosmos-sdk, tokens and pools of
    x/staking), [BiMapLib] (a map with its inverse and the JSON of symbols) and [Outside] (the nodes
    of both chains, keys, contracts and their decoder, any of which may fail at any call).  The reference instance of the
    decimal power loop runs on fuel: 64 steps, one per bit of a uint64 exponent, and trimming a
    string on its length; neither can run out.

    ** Files

    - Prelude: errors, results, the monad, maps under keys,
      the frame hints ([preserves]) and the generic lemmas.
    - Sdk, SdkRef: the numbers of cosmos-sdk, and a reference instance of them.
    - Rat: math/big.Rat.  Float: float64.  Bank: coins and the bank keeper.  Keepers: what the
      modules ask of x/tokenregistry and x/admin.
    - Admin, Registry: x/admin and x/tokenregistry, keepers and message servers.  AdminModule,
      RegistryModule: their dispatch, genesis, queries and migrations.
    - ClpTypes, ClpMath, ClpKeeper, ClpPolicy, ClpRewards, ClpLiquidity, ClpMsgs, ClpServer,
      ClpModule: x/clp/types, and of x/clp/keeper the arithmetic (calculations.go,
      pureCalculation.go), the store operations, ratio shifting and liquidity protection
      (pmtp.go, liquidityprotection.go, abci.go), rewards and provider distribution, the
      executors and the removal queue, the messages, the message server, and dispatch, genesis
      and the registered invariants.
    - Pages: requests and answers of listings page by page, the laws of the pagination with a
      reference instance, and what a client that follows the keys sees.
    - ClpQuery, MarginQuery, EthBridgeQuery: the queries of x/clp, x/margin and x/ethbridge and the
      legacy queriers (grpc_query.go, querier.go).
    - MarginTypes, Margin, MarginServer: x/margin/types, the keeper, and the message server with
      administration, begin blocker and genesis.
    - Oracle, EthBridge: x/oracle (prophecies, claims and the consensus on them) and x/ethbridge
      (claims from Ethereum, coins leaving for it), keepers, message server and genesis.
    - Disp: x/dispensation, keeper, message server, block handler, queries and genesis.
    - Ibc: x/ibctransfer, conversions, outgoing transfers and received packets.
    - Ante: app/ante, fees, limits of validators, and the chain of checks.
    - Migrations: the migrations of the stores of x/clp and x/margin (keeper/migrations.go), and of
      a genesis of version 0.39 (legacy/, cmd/blackfuryd/cmd/migrate.go).
    - Messages: what all messages have in common as parts of a transaction, and their constructors
      (types/msgs.go of every module).
    - Relayer, RelayerSub: cmd/ebrelayer, the texts, symbols and claims (types/, txs/parser.go,
      internal/), and the loops over the blocks of both chains (relayer/, txs/relayTo*.go).
    - World: one chain state with all modules, the instances of every interface.
    - ClpMathSpec, ClpStoreSpec, ClpUnits, ClpExec, ClpSettings, ClpEffects, and MarginExec,
      MarginEffects, MarginInv, MarginBlock: what the operations do, a lemma each, and the
      invariants kept by every write.  The properties are proved from these only.
    - RelayerText: numerals and symbols as texts.
    - Scenario, BridgeWorld, DispWorld, IbcWorld, AnteWorld, RelayerWorld: a concrete chain on which
      witnesses run, and the library code of its oracle, bridge, distributions, transfers, checks
      and relayer.
    - ClpParams, ClpUnitsSpec, ClpBalanceSpec, MarginBacked, MarginSpec, MarginRateSpec,
      ClpPolicySpec, ClpQuerySpec, MarginQuerySpec, PmtpSpec, RegistrySpec, AdminSpec, OracleSpec,
      EthBridgeSpec, EthBridgeQuerySpec, MessagesSpec, MigrationsSpec, DispSpec, IbcSpec, AnteSpec, RelayerSpec, RelayerEthSpec, RelayerReplaySpec: the properties.

    ** What the properties show

    - Books and coins (ClpUnitsSpec, ClpBalanceSpec): for every sequence of messages, the units
      of a pool are those of its providers, and the coins of the module beyond what the pools
      book never decrease; the registered checks test exactly this; what a swap pays.
    - Arithmetic (ClpMathSpec): swaps, pool units, withdrawals and the amount swapped before an
      asymmetric add, against the documented formulas; bounds, monotonicity, machine widths.
    - Settings (ClpParams, ClpPolicySpec, PmtpSpec): which messages change which settings, the
      liquidity protection threshold, how a ratio-shifting policy runs and ends, and a setting
      that halts the chain.
    - Queries (ClpQuerySpec, MarginQuerySpec, EthBridgeQuerySpec): an estimate is what the add then
      does, the balances shown are what leaving pays, the pages of a listing are the whole listing,
      a claim is shown as it was made, and queries write nothing.
    - Messages and migrations (MessagesSpec, MigrationsSpec): a message that was constructed or
      passed its check names who has to sign it, and no migration breaks the books of a pool.
    - Margin (MarginSpec, MarginRateSpec): the positions are well formed under every message and
      block, the pools' custody and liabilities are those of the positions, the module stays
      solvent, what a close pays, the bounds and the movement of the interest rate, the keys,
      and genesis.
    - Registry and roles (RegistrySpec, AdminSpec): the registry implements a map from denoms
      under every sequence of messages, and only its administrators change it; roles change only
      by an ADMIN.
    - Oracle (OracleSpec): a decided prophecy stays decided, a validator votes once, and the
      outcome does not depend on the order in which Go visits maps.
    - Bridge (EthBridgeSpec): a decided claim is paid exactly and once, what leaves is destroyed
      exactly, the pause and the blacklist stop it.

    - Distributions (DispSpec): the module's account always holds what its records promise, a
      record is paid once, running a distribution finishes it, minting stops at its limit.
    - Transfers over IBC (IbcSpec): what a received packet pays, the exactness of converting
      decimals there and back, which transfers leave.
    - Checks before a message runs (AnteSpec): what a transaction that passes has paid, and the
      limits its messages to x/staking kept, in exact integers.

    - Relayer (RelayerSpec, RelayerEthSpec, RelayerReplaySpec): no block of either chain is left out,
      also over restarts at any moment, and messages of this chain go out in order, at most five
      times each and once if the other side answers; locks, burns and claims keep their numbers on
      the way through texts; what a replay takes for relayed.

    Findings made on the way are theorems where they can be stated: the price impact that is
    always zero, the setting that halts the chain, the position opened in one asset that gains
    from the pool, and the genesis that forgets positions.

    ** Not modelled

    Command lines and REST gateways (cobra, viper and grpc-gateway over the messages and queries
    that are modelled); protobuf code and generated bindings; event attributes (but those the
    relayer reads); gas; amino and JSON codecs; the module wiring of app/app.go and of each
    module.go (delegation, but for the genesis and the registered migrations); reading and writing
    the file of a migrated genesis; how the relayer connects, logs and waits, and its command line;
    the tools that drive a running chain (cmd/blacktest, tools/). *)

From stdpp Require Export base gmap sets list strings sorting pretty.
From Stdlib Require Export ZArith Lia.

#[export] Set Default Goal Selector "!".

(** ** Errors, results and panics

    A Go [error] of this code base is either an [sdkerrors.Error], identified by
    its codespace (the module's name) and code, or an anonymous error made by
    [errors.New] or [fmt.Errorf].  [sdkerrors.Wrap e msg] keeps the identity of [e]:
    only the text changes, and texts are not modelled. *)

Record error := mkErr { codespace : string; code : Z }.

#[export] Instance error_eq_dec : EqDecision error.
Proof. solve_decision. Defined.

(** [errors.New], [fmt.Errorf]: an error with no registered identity. *)
Definition ErrAnonymous : error := mkErr "undefined" 1.

(** What a Go function returns: values, an error, or no return at all ([panic]). *)
Inductive res (A : Type) : Type :=
| Ok (a : A)
| Err (e : error)
| Panic.
Arguments Ok {A} a.
Arguments Err {A} e.
Arguments Panic {A}.

#[export] Instance res_ret : MRet res := @Ok.
#[export] Instance res_bind : MBind res := λ A B f r,
  match r with Ok a => f a | Err e => Err e | Panic => Panic end.
#[export] Instance res_fmap : FMap res := λ A B f r,
  match r with Ok a => Ok (f a) | Err e => Err e | Panic => Panic end.

#[export] Instance res_eq_dec `{EqDecision A} : EqDecision (res A).
Proof. solve_decision. Defined.

Definition is_ok {A} (r : res A) : bool := match r with Ok _ => true | _ => false end.

(** Stateful code threads a world [W].  An [Err] keeps the writes made before it, as
    the Go code does: rolling back a failed message is the business of the caller
    (baseapp), and [BeginBlock]/[EndBlock] code is not rolled back at all. *)
Definition M (W A : Type) : Type := W → res A * W.

#[export] Instance M_ret {W} : MRet (M W) := λ A a w, (Ok a, w).
#[export] Instance M_bind {W} : MBind (M W) := λ A B f m w,
  match m w with
  | (Ok a, w') => f a w'
  | (Err e, w') => (Err e, w')
  | (Panic, w') => (Panic, w')
  end.

Section monad_ops.
Context {W : Type}.

Definition get : M W W := λ w, (Ok w, w).
Definition gets {A} (f : W → A) : M W A := λ w, (Ok (f w), w).
Definition modify (f : W → W) : M W unit := λ w, (Ok tt, f w).
Definition throw {A} (e : error) : M W A := λ w, (Err e, w).
Definition panic {A} : M W A := λ w, (Panic, w).
Definition lift {A} (r : res A) : M W A := λ w, (r, w).

(** [if c { return err }] *)
Definition throw_if (c : bool) (e : error) : M W unit :=
  if c then throw e else mret tt.

(** [x, err := m; if err != nil { handler }] *)
Definition on_err {A} (m : M W A) (h : error → M W A) : M W A := λ w,
  match m w with
  | (Err e, w') => h e w'
  | rw => rw
  end.

(** [if err != nil { return sdkerrors.Wrap(e, ...) }]: the error is replaced. *)
Definition wrap_err {A} (e : error) (m : M W A) : M W A := on_err m (λ _, throw e).

(** [x, err := m]: the error becomes a value. *)
Definition try {A} (m : M W A) : M W (error + A) := λ w,
  match m w with
  | (Ok a, w') => (Ok (inr a), w')
  | (Err e, w') => (Ok (inl e), w')
  | (Panic, w') => (Panic, w')
  end.

(** [_ = m]: the error is discarded. *)
Definition ignore_err (m : M W unit) : M W unit := on_err m (λ _, mret tt).

(** [for _, x := range l { acc = f(acc, x) }]; an error or panic leaves the loop. *)
Fixpoint foldM {A B} (f : B → A → M W B) (acc : B) (l : list A) : M W B :=
  match l with
  | [] => mret acc
  | x :: l' => acc' ← f acc x; foldM f acc' l'
  end.

Definition forM {A} (f : A → M W unit) (l : list A) : M W unit :=
  foldM (λ _ x, f x) tt l.
End monad_ops.

(** ** Texts: [strings.ToLower] on ASCII texts, [strings.Contains] *)
Definition lower_ascii (c : Ascii.ascii) : Ascii.ascii :=
  let n := Ascii.nat_of_ascii c in
  if (65 <=? n)%nat && (n <=? 90)%nat then Ascii.ascii_of_nat (n + 32) else c.
Fixpoint ToLower (s : string) : string :=
  match s with EmptyString => EmptyString | String c s => String (lower_ascii c) (ToLower s) end.
Fixpoint Contains (s substr : string) : bool :=
  String.prefix substr s || match s with EmptyString => false | String _ s => Contains s substr end.
Definition ascii_only (s : string) : bool :=
  forallb (λ c, (Ascii.nat_of_ascii c <? 128)%nat) (String.list_ascii_of_string s).

Lemma string_app_nil s : "" +:+ s = s.
Proof. done. Qed.
Lemma string_app_cons x s t : String x s +:+ t = String x (s +:+ t).
Proof. done. Qed.

Lemma string_length_app a b : String.length (a +:+ b) = (String.length a + String.length b)%nat.
Proof. induction a as [|x a IH]; [done|]. rewrite string_app_cons. simpl. by rewrite IH. Qed.

(** The same loop in a pure, possibly panicking computation. *)
Fixpoint foldR {A B} (f : B → A → res B) (acc : B) (l : list A) : res B :=
  match l with
  | [] => Ok acc
  | x :: l' => acc' ← f acc x; foldR f acc' l'
  end.

(** ** Reading a run backwards

    Every lemma has the shape "this piece of code ended with [Ok]": the tactic
    [inv_ok] below uses them to turn a successful run of a handler into the list of
    the steps it made. *)
Section inversion.
Context {W : Type}.

Lemma bind_ok {A B} (m : M W A) (f : A → M W B) w b w' :
  (m ≫= f) w = (Ok b, w') → ∃ a w1, m w = (Ok a, w1) ∧ f a w1 = (Ok b, w').
Proof.
  unfold mbind, M_bind. destruct (m w) as [[a|e|] w1]; intros H; simplify_eq; eauto.
Qed.

(** Forwards: one step of a sequence. *)
Lemma bind_run {A B} (m : M W A) (f : A → M W B) w a w1 :
  m w = (Ok a, w1) → (m ≫= f) w = f a w1.
Proof. unfold mbind, M_bind. by intros ->. Qed.

Lemma ret_ok {A} (a b : A) (w w' : W) : (mret a : M W A) w = (Ok b, w') ↔ a = b ∧ w = w'.
Proof. unfold mret, M_ret. split; [intros [= -> ->] | intros [-> ->]]; auto. Qed.

Lemma gets_ok {A} (f : W → A) w a w' : gets f w = (Ok a, w') ↔ a = f w ∧ w' = w.
Proof. unfold gets. split; [intros [= <- <-] | intros [-> ->]]; auto. Qed.

Lemma get_ok w a w' : get (W := W) w = (Ok a, w') ↔ a = w ∧ w' = w.
Proof. unfold get. split; [intros [= <- <-] | intros [-> ->]]; auto. Qed.

Lemma modify_ok (f : W → W) w a w' : modify f w = (Ok a, w') ↔ w' = f w.
Proof. unfold modify. destruct a. split; [intros [= <-] | intros ->]; auto. Qed.

Lemma lift_ok {A} (r : res A) (w : W) a w' : lift r w = (Ok a, w') ↔ r = Ok a ∧ w' = w.
Proof. unfold lift. split; [intros [= -> <-] | intros [-> ->]]; auto. Qed.

Lemma throw_ok {A} e (w : W) (a : A) w' : throw e w = (Ok a, w') ↔ False.
Proof. unfold throw. split; [intros [=] | done]. Qed.

Lemma panic_ok {A} (w : W) (a : A) w' : panic w = (Ok a, w') ↔ False.
Proof. unfold panic. split; [intros [=] | done]. Qed.

Lemma throw_if_ok c e (w : W) a w' : throw_if c e w = (Ok a, w') ↔ c = false ∧ w' = w.
Proof.
  unfold throw_if, throw, mret, M_ret. destruct a, c; split; intros H; simplify_eq; auto;
    destruct H as [? ->]; congruence.
Qed.

Lemma on_err_ok {A} (m : M W A) h w a w' :
  on_err m h w = (Ok a, w') ↔
  m w = (Ok a, w') ∨ ∃ e w1, m w = (Err e, w1) ∧ h e w1 = (Ok a, w').
Proof.
  unfold on_err. destruct (m w) as [[b|e|] w1]; split; intros H; eauto 6;
    destruct H as [?|(?&?&?&?)]; simplify_eq; auto.
Qed.

Lemma wrap_err_ok {A} e (m : M W A) w a w' :
  wrap_err e m w = (Ok a, w') ↔ m w = (Ok a, w').
Proof.
  unfold wrap_err. rewrite on_err_ok. split; [|auto].
  intros [?|(?&?&?&?%throw_ok)]; done.
Qed.

Lemma try_ok {A} (m : M W A) w r w' :
  try m w = (Ok r, w') ↔
  (∃ a, r = inr a ∧ m w = (Ok a, w')) ∨ (∃ e, r = inl e ∧ m w = (Err e, w')).
Proof.
  unfold try. destruct (m w) as [[b|e|] w1]; split; intros H; simplify_eq; eauto;
    destruct H as [(?&?&?)|(?&?&?)]; simplify_eq; auto.
Qed.
End inversion.

Lemma rbind_ok {A B} (m : res A) (f : A → res B) b :
  (m ≫= f) = Ok b → ∃ a, m = Ok a ∧ f a = Ok b.
Proof. destruct m; simpl; intros H; simplify_eq; eauto. Qed.

Lemma Ok_inj {A} (a b : A) : Ok a = Ok b → a = b.
Proof. congruence. Qed.

Lemma rbind_Ok {A B} (a : A) (f : A → res B) : (Ok a ≫= f) = f a.
Proof. done. Qed.

Ltac inv_ok_step :=
  match goal with
  | H : _ ∧ _ |- _ => destruct H
  | H : ∃ _, _ |- _ => destruct H
  | H : False |- _ => destruct H
  | H : (mbind (M := M _) _ _) _ = (Ok _, _) |- _ =>
      let a := fresh "a" in let w := fresh "w" in let E := fresh "E" in
      apply bind_ok in H as (a & w & E & H)
  | H : mret _ _ = (Ok _, _) |- _ => apply ret_ok in H as [H ?]; subst
  | H : gets _ _ = (Ok _, _) |- _ => apply gets_ok in H as [? ?]; subst
  | H : get _ = (Ok _, _) |- _ => apply get_ok in H as [? ?]; subst
  | H : modify _ _ = (Ok _, _) |- _ => apply modify_ok in H; subst
  | H : lift _ _ = (Ok _, _) |- _ => apply lift_ok in H as [H ?]; subst
  | H : throw _ _ = (Ok _, _) |- _ => apply throw_ok in H; destruct H
  | H : panic _ = (Ok _, _) |- _ => apply panic_ok in H; destruct H
  | H : throw_if _ _ _ = (Ok _, _) |- _ => apply throw_if_ok in H as [H ?]; subst
  | H : wrap_err _ _ _ = (Ok _, _) |- _ => apply wrap_err_ok in H
  | H : mbind (M := res) _ _ = Ok _ |- _ =>
      let a := fresh "a" in let E := fresh "E" in apply rbind_ok in H as (a & E & H)
  | H : Ok _ = Ok _ |- _ => apply Ok_inj in H
  | H : Err _ = Ok _ |- _ => discriminate H
  | H : Panic = Ok _ |- _ => discriminate H
  | H : (let '(_, _) := ?p in _) _ = (Ok _, _) |- _ => destruct p eqn:?
  | H : (let '(_, _) := ?p in _) = Ok _ |- _ => destruct p eqn:?
  end.
(** Decompose every successful run in the context into its successful steps. *)
Ltac inv_ok := repeat (progress (repeat inv_ok_step; simpl in *; simplify_eq)).

(** Same, also splitting on the conditions of [if]s and [match]es. *)
Ltac inv_ok_if :=
  repeat (inv_ok;
    match goal with
    | H : (if ?c then _ else _) _ = (Ok _, _) |- _ => destruct c eqn:?
    | H : (if ?c then _ else _) = Ok _ |- _ => destruct c eqn:?
    | H : (match ?c with _ => _ end) _ = (Ok _, _) |- _ => destruct c eqn:?
    | H : (match ?c with _ => _ end) = Ok _ |- _ => destruct c eqn:?
    end); inv_ok.

(** ** Frames: code that leaves a part of the world alone

    [preserves f m]: whatever way [m] ends, the view [f] of the world is the same after it. *)
Definition preserves {W A X} (f : W → X) (m : M W A) : Prop := ∀ w, f (m w).2 = f w.

(** [maintains P m]: [P] survives every run of [m], also one that ends in an error or a panic. *)
Definition maintains {W A} (P : W → Prop) (m : M W A) : Prop := ∀ w, P w → P (m w).2.

Create HintDb frame.
#[export] Hint Constants Opaque : frame.

Section frames.
Context {W X : Type} (f : W → X).

Lemma preserves_ok {A} (m : M W A) w r w' : preserves f m → m w = (r, w') → f w' = f w.
Proof. intros Hp E. specialize (Hp w). by rewrite E in Hp. Qed.

Lemma preserves_ret {A} (a : A) : preserves f (mret a).
Proof. done. Qed.
Lemma preserves_gets {A} (g : W → A) : preserves f (gets g).
Proof. done. Qed.
Lemma preserves_get : preserves f get.
Proof. done. Qed.
Lemma preserves_lift {A} (r : res A) : preserves f (lift r).
Proof. done. Qed.
Lemma preserves_throw {A} e : preserves f (throw (A := A) e).
Proof. done. Qed.
Lemma preserves_panic {A} : preserves f (panic (A := A)).
Proof. done. Qed.
Lemma preserves_throw_if c e : preserves f (throw_if c e).
Proof. by destruct c. Qed.
Lemma preserves_modify (g : W → W) : (∀ w, f (g w) = f w) → preserves f (modify g).
Proof. intros H w. apply H. Qed.
Lemma preserves_bind {A B} (m : M W A) (k : A → M W B) :
  preserves f m → (∀ a, preserves f (k a)) → preserves f (m ≫= k).
Proof.
  intros Hm Hk w. specialize (Hm w). unfold mbind, M_bind.
  destruct (m w) as [[a|e|] w1]; simpl in *; [rewrite Hk|..]; done.
Qed.
Lemma preserves_on_err {A} (m : M W A) h :
  preserves f m → (∀ e, preserves f (h e)) → preserves f (on_err m h).
Proof.
  intros Hm Hh w. specialize (Hm w). unfold on_err.
  destruct (m w) as [[a|e|] w1]; simpl in *; [|rewrite Hh|]; done.
Qed.
Lemma preserves_wrap_err {A} e (m : M W A) : preserves f m → preserves f (wrap_err e m).
Proof. intros Hm. apply preserves_on_err; [done|]. intros. apply preserves_throw. Qed.
Lemma preserves_ignore_err (m : M W unit) : preserves f m → preserves f (ignore_err m).
Proof. intros Hm. apply preserves_on_err; [done|]. intros. apply preserves_ret. Qed.
Lemma preserves_try {A} (m : M W A) : preserves f m → preserves f (try m).
Proof.
  intros Hm w. specialize (Hm w). unfold try. by destruct (m w) as [[a|e|] w1].
Qed.
Lemma preserves_foldM {A B} (k : B → A → M W B) b l :
  (∀ b a, preserves f (k b a)) → preserves f (foldM k b l).
Proof.
  intros Hk. revert b. induction l as [|x l IH]; intros b; simpl; [done|].
  apply preserves_bind; auto.
Qed.
Lemma preserves_forM {A} (k : A → M W unit) l :
  (∀ a, preserves f (k a)) → preserves f (forM k l).
Proof. intros Hk. apply preserves_foldM. auto. Qed.
End frames.

#[export] Hint Resolve preserves_ret preserves_gets preserves_get preserves_lift preserves_throw
  preserves_panic preserves_throw_if preserves_bind preserves_on_err preserves_wrap_err
  preserves_ignore_err preserves_try preserves_foldM preserves_forM : frame.
#[export] Hint Extern 1 (preserves _ (modify _)) => (apply preserves_modify; done) : frame.
#[export] Hint Extern 2 (preserves _ (if ?c then _ else _)) => destruct c : frame.
#[export] Hint Extern 3 (preserves _ (match ?c with _ => _ end)) => destruct c : frame.

(** Proves that a handler leaves a part of the world alone. *)
Ltac solve_frame := intros; eauto 60 with frame nocore.

(** The same for long handlers: along the sequence of steps first. *)
Ltac walk_frame := intros;
  repeat match goal with
         | |- preserves _ (mbind _ _) => apply preserves_bind; [|intros ?]
         | |- preserves _ (match ?c with _ => _ end) => destruct c
         end;
  eauto 20 with frame nocore.

(** Invariants compose the same way. *)
Section invariants.
Context {W : Type} (P : W → Prop).

Lemma maintains_bind {A B} (m : M W A) (k : A → M W B) :
  maintains P m → (∀ a, maintains P (k a)) → maintains P (m ≫= k).
Proof.
  intros Hm Hk w Hw. specialize (Hm w Hw). unfold mbind, M_bind.
  destruct (m w) as [[a|e|] w1]; simpl in *; auto. by apply Hk.
Qed.
Lemma maintains_foldM {A B} (k : B → A → M W B) b l :
  (∀ b a, maintains P (k b a)) → maintains P (foldM k b l).
Proof.
  intros Hk. revert b. induction l as [|x l IH]; intros b; simpl; [by intros w|].
  apply maintains_bind; auto.
Qed.
Lemma maintains_on_err {A} (m : M W A) h :
  maintains P m → (∀ e, maintains P (h e)) → maintains P (on_err m h).
Proof.
  intros Hm Hh w Hw. specialize (Hm w Hw). unfold on_err.
  destruct (m w) as [[a|e|] w1]; simpl in *; auto. by apply Hh.
Qed.
(** Code that does not touch what [P] reads maintains [P]. *)
Lemma maintains_preserves {A X} (f : W → X) (m : M W A) :
  (∀ w w', f w = f w' → P w → P w') → preserves f m → maintains P m.
Proof. intros HP Hm w Hw. eapply HP; [|done]. symmetry. apply Hm. Qed.
End invariants.

(** ** Go's machine integers

    A value of a w-bit Go integer type is a [Z] in its range; a conversion or an
    arithmetic operation wraps around, as the language specifies. *)
Local Open Scope Z_scope.

Definition wrap_u (w : Z) (z : Z) : Z := z mod 2 ^ w.
Definition wrap_s (w : Z) (z : Z) : Z := (z + 2 ^ (w - 1)) mod 2 ^ w - 2 ^ (w - 1).

Definition uint8 : Z → Z := wrap_u 8.
Definition uint16 : Z → Z := wrap_u 16.
Definition uint64 : Z → Z := wrap_u 64.
Definition int16 : Z → Z := wrap_s 16.
Definition int64 : Z → Z := wrap_s 64.

Definition MaxUint64 : Z := 2 ^ 64 - 1.

(** Integer division and remainder of the language: truncated, panicking on zero; the
    result is wrapped ([MinInt64 / -1]). *)
Definition quo_s (w a b : Z) : res Z := if b =? 0 then Panic else Ok (wrap_s w (Z.quot a b)).
Definition rem_s (a b : Z) : res Z := if b =? 0 then Panic else Ok (Z.rem a b).

Lemma wrap_u_id w z : 0 <= z < 2 ^ w → wrap_u w z = z.
Proof. intros. by apply Z.mod_small. Qed.

Lemma wrap_s_id w z : 0 < w → - 2 ^ (w - 1) <= z < 2 ^ (w - 1) → wrap_s w z = z.
Proof.
  intros Hw Hz. unfold wrap_s.
  assert (2 ^ w = 2 * 2 ^ (w - 1)) as E by (rewrite <- Z.pow_succ_r by lia; f_equal; lia).
  rewrite Z.mod_small; lia.
Qed.

Lemma wrap_u_range w z : 0 <= w → 0 <= wrap_u w z < 2 ^ w.
Proof. intros. apply Z.mod_pos_bound, Z.pow_pos_nonneg; lia. Qed.

Lemma wrap_s_range w z : 0 < w → - 2 ^ (w - 1) <= wrap_s w z < 2 ^ (w - 1).
Proof.
  intros Hw. unfold wrap_s.
  assert (2 ^ w = 2 * 2 ^ (w - 1)) as E by (rewrite <- Z.pow_succ_r by lia; f_equal; lia).
  pose proof (Z.mod_pos_bound (z + 2 ^ (w - 1)) (2 ^ w)). lia.
Qed.

Lemma int64_id z : - 2 ^ 63 <= z < 2 ^ 63 → int64 z = z.
Proof. apply (wrap_s_id 64). lia. Qed.
Lemma uint64_id z : 0 <= z < 2 ^ 64 → uint64 z = z.
Proof. apply (wrap_u_id 64). Qed.

(** ** Key-value stores

    The part of a KVStore under one key prefix is a [gmap] from the key's bytes to the
    stored value.  Iterators visit the keys in ascending byte order: [kv_iter]. *)
Section kv.
Context {V : Type}.
Implicit Types (m : gmap string V) (kv : string * V).

Definition key_le (a b : string * V) : Prop := String.leb a.1 b.1 = true.
#[export] Instance key_le_dec : RelDecision key_le.
Proof. intros a b. unfold key_le. apply _. Defined.

Definition kv_iter m : list (string * V) := merge_sort key_le (map_to_list m).
Definition kv_values m : list V := (kv_iter m).*2.

Lemma kv_iter_perm m : kv_iter m ≡ₚ map_to_list m.
Proof. apply merge_sort_Permutation. Qed.

Lemma elem_of_kv_iter m k v : (k, v) ∈ kv_iter m ↔ m !! k = Some v.
Proof. rewrite kv_iter_perm. apply elem_of_map_to_list. Qed.

Lemma elem_of_kv_values m v : v ∈ kv_values m ↔ ∃ k, m !! k = Some v.
Proof.
  unfold kv_values. rewrite list_elem_of_fmap. split.
  - intros ([k v'] & -> & H%elem_of_kv_iter). eauto.
  - intros [k H%elem_of_kv_iter]. exists (k, v). done.
Qed.

#[export] Instance key_le_total : Total key_le.
Proof.
  intros a b. unfold key_le. destruct (String.leb_total a.1 b.1); auto.
Qed.

Lemma kv_keys_nodup m : NoDup (kv_iter m).*1.
Proof. rewrite kv_iter_perm. apply NoDup_fst_map_to_list. Qed.
Lemma kv_iter_sorted m : Sorted key_le (kv_iter m).
Proof. apply Sorted_merge_sort. apply _. Qed.
End kv.

(** The subset of the keys with a given prefix, as [sdk.KVStorePrefixIterator] visits them. *)
Definition kv_prefix_values {V} (p : string) (m : gmap string V) : list V :=
  (filter (λ kv, String.prefix p kv.1 = true) (kv_iter m)).*2.

Lemma forallb_false_iff {A} (f : A → bool) (l : list A) :
  forallb f l = false ↔ ∃ x, x ∈ l ∧ f x = false.
Proof.
  induction l as [|x l IH]; simpl.
  - split; [done|]. by intros (x & ?%not_elem_of_nil & _).
  - rewrite andb_false_iff, IH. split.
    + intros [E|(y & Hy & E)]; [exists x|exists y]; split; try done; [left|by right].
    + intros (y & [->|Hy]%elem_of_cons & E); [by left|right; by exists y].
Qed.

(** ** Sums *)
Definition sumZ {A} (f : A → Z) (l : list A) : Z := foldr (λ x acc, f x + acc) 0 l.

Section sumZ.
Context {A : Type}.
Implicit Types (f : A → Z) (l : list A).

Lemma sumZ_app f l1 l2 : sumZ f (l1 ++ l2) = sumZ f l1 + sumZ f l2.
Proof. induction l1; simpl; lia. Qed.

Lemma sumZ_perm f l1 l2 : l1 ≡ₚ l2 → sumZ f l1 = sumZ f l2.
Proof. induction 1; simpl; lia. Qed.

Lemma sumZ_nonneg f l : (∀ x, x ∈ l → 0 <= f x) → 0 <= sumZ f l.
Proof.
  induction l as [|x l IH]; simpl; intros H; [lia|].
  pose proof (H x ltac:(left)). specialize (IH ltac:(intros; apply H; by right)). lia.
Qed.

Lemma sumZ_le f g l : (∀ x, x ∈ l → f x <= g x) → sumZ f l <= sumZ g l.
Proof.
  induction l as [|x l IH]; simpl; intros H; [lia|].
  pose proof (H x ltac:(left)). specialize (IH ltac:(intros; apply H; by right)). lia.
Qed.

Lemma sumZ_ext f g l : (∀ x, x ∈ l → f x = g x) → sumZ f l = sumZ g l.
Proof.
  intros H. apply Z.le_antisymm; apply sumZ_le; intros x Hx; rewrite H by done; lia.
Qed.

Lemma sumZ_elem_le f l x : (∀ y, y ∈ l → 0 <= f y) → x ∈ l → f x <= sumZ f l.
Proof.
  intros Hf Hx. apply list_elem_of_split in Hx as (l1 & l2 & ->).
  rewrite sumZ_app. simpl.
  assert (0 <= sumZ f l1 ∧ 0 <= sumZ f l2) by
    (split; apply sumZ_nonneg; intros; apply Hf; set_solver). lia.
Qed.

Lemma sumZ_fmap {B} (h : B → A) f (l : list B) : sumZ f (h <$> l) = sumZ (f ∘ h) l.
Proof. induction l as [|x l IH]; [done|]. simpl. f_equal. apply IH. Qed.
End sumZ.

(** Sums over the values of a map. *)
Definition map_sumZ {V} (f : V → Z) (m : gmap string V) : Z :=
  sumZ (λ kv, f kv.2) (map_to_list m).

Section map_sumZ.
Context {V : Type} (f : V → Z).
Implicit Types m : gmap string V.

Lemma map_sumZ_empty : map_sumZ f ∅ = 0.
Proof. unfold map_sumZ. by rewrite map_to_list_empty. Qed.

Lemma map_sumZ_insert_None m k v :
  m !! k = None → map_sumZ f (<[k:=v]> m) = f v + map_sumZ f m.
Proof.
  intros H. unfold map_sumZ.
  by rewrite (sumZ_perm _ _ _ (map_to_list_insert m k v H)).
Qed.

Lemma map_sumZ_delete m k v :
  m !! k = Some v → map_sumZ f (delete k m) = map_sumZ f m - f v.
Proof.
  intros H. rewrite <- (insert_id m k v H) at 2. rewrite <- insert_delete_eq.
  rewrite map_sumZ_insert_None by apply lookup_delete_eq. lia.
Qed.

Definition old_value m k : Z := from_option f 0 (m !! k).

Lemma map_sumZ_insert m k v :
  map_sumZ f (<[k:=v]> m) = map_sumZ f m - old_value m k + f v.
Proof.
  unfold old_value. destruct (m !! k) as [v0|] eqn:E; simpl.
  - rewrite <- insert_delete_eq, map_sumZ_insert_None by apply lookup_delete_eq.
    rewrite (map_sumZ_delete m k v0) by done. lia.
  - rewrite map_sumZ_insert_None by done. lia.
Qed.

Lemma map_sumZ_delete_any m k : map_sumZ f (delete k m) = map_sumZ f m - old_value m k.
Proof.
  unfold old_value. destruct (m !! k) as [v0|] eqn:E; simpl.
  - by apply map_sumZ_delete.
  - rewrite delete_id by done. lia.
Qed.

Lemma map_sumZ_zero m : (∀ k v, m !! k = Some v → f v = 0) → map_sumZ f m = 0.
Proof.
  intros H. unfold map_sumZ. rewrite (sumZ_ext _ (λ _, 0)).
  - by induction (map_to_list m).
  - intros [k v] E%elem_of_map_to_list. by eapply H.
Qed.

Lemma map_sumZ_values m : map_sumZ f m = sumZ f (kv_values m).
Proof.
  unfold map_sumZ, kv_values. rewrite sumZ_fmap.
  symmetry. apply sumZ_perm, kv_iter_perm.
Qed.
End map_sumZ.

(** ** Record updates

    [r <| f := v |>] is Go's [r.f = v] on a copy of [r].  A record type opts in with a
    [Settable] instance, its eta-expansion; the setters are derived from it, so that the
    other fields of an updated record simplify to the projections of the original. *)
Class Settable (R : Type) := eta : R → R.
Class Setter {R T : Type} (proj : R → T) := set_field : (T → T) → R → R.
Arguments set_field {R T} proj {_} f r /.

Ltac solve_setter :=
  match goal with
  | |- @Setter ?R ?T ?proj =>
      let inst := constr:(_ : Settable R) in
      let h := eval hnf in inst in
      lazymatch eval pattern proj in h with
      | ?upd _ =>
          let t := eval cbv beta in (fun f : T → T => upd (fun r => f (proj r))) in exact t
      end
  end.
#[export] Hint Extern 0 (Setter _) => solve_setter : typeclass_instances.

#[warnings="-postfix-notation-not-level-1"]
Notation "r <| f := v |>" := (set_field f (λ _, v) r) (at level 12, f at next level, left associativity).
#[warnings="-postfix-notation-not-level-1"]
Notation "r <| f ::= g |>" := (set_field f g r) (at level 12, f at next level, left associativity).
