(* ===== verification/Bech32.v ===== *)
(** * Bech32: the checksum of an address

    BIP-173, which the address parser of the SDK follows: a bech32 text is a prefix, the last
    ["1"], and characters of five bits; over the prefix and these bits a polynomial of the field
    of 32 elements is 1.  Only the checksum is here, and only as something a text that parses
    must pass; the parser itself is a parameter (Bank.v). *)

From Stdlib Require Import Ascii.
From S2P Require Import Prelude.
Local Open Scope Z_scope.

Definition bech32_charset : string := "qpzry9x8gf2tvdw0s3jn54khce6mua7l".
Fixpoint char_index (c : ascii) (i : Z) (s : string) : option Z :=
  match s with
  | EmptyString => None
  | String d s => if Ascii.eqb c d then Some i else char_index c (i + 1) s
  end.
Definition char_code (c : ascii) : Z := Z.of_N (N_of_ascii c).
Fixpoint chars (s : string) : list ascii :=
  match s with EmptyString => [] | String c s => c :: chars s end.

(** The generator of the checksum, applied to the five bits that leave the register. *)
Definition polymod_step (chk v : Z) : Z :=
  let top := Z.shiftr chk 25 in
  let chk := Z.lxor (Z.shiftl (Z.land chk 33554431) 5) v in
  foldl (λ chk '(i, g), if Z.testbit top i then Z.lxor chk g else chk) chk
    [(0, 996825010); (1, 642813549); (2, 513874426); (3, 1027748829); (4, 705979059)].
Definition polymod (values : list Z) : Z := foldl polymod_step 1 values.

Definition hrp_expand (hrp : list ascii) : list Z :=
  map (λ c, Z.shiftr (char_code c) 5) hrp ++ [0] ++ map (λ c, Z.land (char_code c) 31) hrp.
(** The text before and after its last ["1"]. *)
Fixpoint split_last_one (s : list ascii) : option (list ascii * list ascii) :=
  match s with
  | [] => None
  | c :: s =>
      match split_last_one s with
      | Some (hrp, data) => Some (c :: hrp, data)
      | None => if Ascii.eqb c "1" then Some ([], s) else None
      end
  end.
Definition checksum_ok (s : string) : bool :=
  match split_last_one (chars s) with
  | None => false
  | Some (hrp, data) =>
      match mapM (λ c, char_index c 0 bech32_charset) data with
      | None => false
      | Some values => polymod (hrp_expand hrp ++ values) =? 1
      end
  end.

(** The valid example of BIP-173, and one character of it changed. *)
Example checksum_valid : checksum_ok "abcdef1qpzry9x8gf2tvdw0s3jn54khce6mua7lmqqqxw" = true.
Proof. vm_compute. reflexivity. Qed.
Example checksum_invalid : checksum_ok "abcdef1qpzry9x8gf2tvdw0s3jn54khce6mua7lmqqqxx" = false.
Proof. vm_compute. reflexivity. Qed.
