(* ===== verification/Sdk.v ===== *)
(** * Sdk: the numeric types of the cosmos-sdk the modules are written against

    [sdk.Uint], [sdk.Int] and [sdk.Dec] are library code, so their operations are the
    fields of a class and everything the proofs need of them is a law of [SdkLaws].
    A [Uint] or an [Int] is represented by its big integer, a [Dec] by its big integer
    scaled by [10^18] (what [BigInt()] returns and what the store holds).  Comparisons,
    [IsZero], [IsNegative] are those of the big integers. *)

From S2P Require Import Prelude.
Local Open Scope Z_scope.

Notation Uint := Z (only parsing).
Notation Int := Z (only parsing).
Notation Dec := Z (only parsing).

(** [sdk.Precision] and the scaling factor of a [Dec]. *)
Definition Precision : Z := 18.
Definition dec_one : Z := 10 ^ 18.

Class Sdk := {
  (* sdk.Uint *)
  NewUintFromBigInt : Z → res Uint;
  NewUintFromString : string → res Uint;
  UintString : Uint → string;
  UintAdd : Uint → Uint → res Uint;
  UintSub : Uint → Uint → res Uint;
  UintMul : Uint → Uint → res Uint;
  UintQuo : Uint → Uint → res Uint;
  (* sdk.Int *)
  NewIntFromBigInt : Z → res Int;
  NewIntFromString : string → option Int;
  IntString : Int → string;
  IntAdd : Int → Int → res Int;
  IntSub : Int → Int → res Int;
  (* sdk.Dec *)
  NewDecFromStr : string → res Dec;
  DecAdd : Dec → Dec → res Dec;
  DecSub : Dec → Dec → res Dec;
  DecMul : Dec → Dec → res Dec;
  DecQuo : Dec → Dec → res Dec;
  DecPower : Dec → Z → res Dec;
  DecTruncateInt : Dec → res Int;
  DecRoundInt : Dec → res Int;
  DecAbs : Dec → Dec
}.

(** Constructors that only scale. [NewDec(i)], [NewDecFromBigInt(i)]: [i * 10^18];
    [NewDecWithPrec(i, p)]: [i * 10^(18-p)]. *)
Definition NewDec (i : Z) : Dec := i * dec_one.
Definition NewDecFromBigInt (i : Z) : Dec := i * dec_one.
Definition NewDecWithPrec (i p : Z) : Dec := i * 10 ^ (18 - p).
Definition OneDec : Dec := NewDec 1.
Definition ZeroDec : Dec := 0.

(** [sdk.MustNewDecFromStr]. *)
Definition MustNewDecFromStr `{Sdk} (s : string) : res Dec :=
  match NewDecFromStr s with Ok d => Ok d | _ => Panic end.

(** [if err != nil { panic(...) }] *)
Definition must {A} (r : res A) : res A := match r with Ok a => Ok a | _ => Panic end.
(** [x, ok := ...; if !ok { return e }] *)
Definition ok_or {A} (e : error) (o : option A) : res A :=
  match o with Some a => Ok a | None => Err e end.

(** Results of [Uint] arithmetic are checked: a negative value or one of more than 256
    bits panics. *)
Definition checked_uint (z : Z) : res Uint := if (0 <=? z) && (z <? 2 ^ 256) then Ok z else Panic.

(** What the modules rely on. *)
Class SdkLaws `(Sdk) : Prop := {
  uint_new z : NewUintFromBigInt z = checked_uint z;
  uint_add a b : UintAdd a b = checked_uint (a + b);
  uint_sub a b : UintSub a b = checked_uint (a - b);
  uint_mul a b : UintMul a b = checked_uint (a * b);
  uint_quo a b : UintQuo a b = if b =? 0 then Panic else checked_uint (Z.quot a b);
  uint_parse z : 0 <= z < 2 ^ 256 → NewUintFromString (UintString z) = Ok z;
  uint_int_parse z : 0 <= z < 2 ^ 255 → NewIntFromString (UintString z) = Some z;
  uint_int_parse_inv z i : NewIntFromString (UintString z) = Some i → i = z;
  uint_dec_parse z : 0 <= z < 2 ^ 255 → NewDecFromStr (UintString z) = Ok (NewDec z);

  int_new z : Z.abs z < 2 ^ 255 → NewIntFromBigInt z = Ok z;
  int_new_inv z a : NewIntFromBigInt z = Ok a → a = z;
  int_dec_parse z : Z.abs z < 2 ^ 255 → NewDecFromStr (IntString z) = Ok (NewDec z);
  int_uint_parse z : 0 <= z < 2 ^ 255 → NewUintFromString (IntString z) = Ok z;
  int_add_inv a b c : IntAdd a b = Ok c → c = a + b;
  int_sub_inv a b c : IntSub a b = Ok c → c = a - b;
  int_add_total a b : Z.abs (a + b) < 2 ^ 255 → IntAdd a b = Ok (a + b);
  int_sub_total a b : Z.abs (a - b) < 2 ^ 255 → IntSub a b = Ok (a - b);

  dec_add_inv a b c : DecAdd a b = Ok c → c = a + b;
  dec_sub_inv a b c : DecSub a b = Ok c → c = a - b;
  dec_add_total a b : Z.abs (a + b) < 2 ^ 314 → DecAdd a b = Ok (a + b);
  dec_sub_total a b : Z.abs (a - b) < 2 ^ 314 → DecSub a b = Ok (a - b);
  (* products are rounded to the nearest representable value *)
  dec_mul_inv a b c : DecMul a b = Ok c → 2 * Z.abs (c * dec_one - a * b) <= dec_one;
  dec_mul_total a b : Z.abs (a * b) < 2 ^ 314 * dec_one → ∃ c, DecMul a b = Ok c;
  (* quotients are less than one unit in the last place away *)
  dec_quo_inv a b c : DecQuo a b = Ok c → b ≠ 0 ∧ Z.abs (c * b - a * dec_one) < Z.abs b;
  dec_quo_total a b : b ≠ 0 → Z.abs a * dec_one < 2 ^ 314 * Z.abs b → ∃ c, DecQuo a b = Ok c;
  dec_trunc_inv a c : DecTruncateInt a = Ok c → c = Z.quot a dec_one;
  dec_trunc_total a : Z.abs a < 2 ^ 255 * dec_one → DecTruncateInt a = Ok (Z.quot a dec_one);
  dec_round_inv a c : DecRoundInt a = Ok c → 2 * Z.abs (c * dec_one - a) <= dec_one;
  dec_round_total a : Z.abs a < 2 ^ 254 * dec_one → ∃ c, DecRoundInt a = Ok c;
  dec_abs a : DecAbs a = Z.abs a;
  int_new_not_err z e : NewIntFromBigInt z ≠ Err e;
  dec_mul_not_err a b e : DecMul a b ≠ Err e;
  dec_trunc_not_err a e : DecTruncateInt a ≠ Err e
}.

Create HintDb sdk.

Section facts.
Context {sdk : Sdk} {HL : SdkLaws sdk}.

Lemma checked_uint_ok z a : checked_uint z = Ok a ↔ a = z ∧ 0 <= z < 2 ^ 256.
Proof.
  unfold checked_uint.
  destruct (Z.leb_spec 0 z), (Z.ltb_spec z (2 ^ 256)); simpl;
    (split; [intros E; simplify_eq; lia | intros [-> ?]; try lia; done]).
Qed.

Lemma checked_uint_total z : 0 <= z < 2 ^ 256 → checked_uint z = Ok z.
Proof. intros. by apply checked_uint_ok. Qed.

Lemma checked_uint_not_err z e : checked_uint z ≠ Err e.
Proof. unfold checked_uint. by case_match. Qed.

Lemma uint_new_ok z a : NewUintFromBigInt z = Ok a ↔ a = z ∧ 0 <= z < 2 ^ 256.
Proof. rewrite uint_new. apply checked_uint_ok. Qed.
Lemma uint_add_ok a b c : UintAdd a b = Ok c ↔ c = a + b ∧ 0 <= a + b < 2 ^ 256.
Proof. rewrite uint_add. apply checked_uint_ok. Qed.
Lemma uint_sub_ok a b c : UintSub a b = Ok c ↔ c = a - b ∧ 0 <= a - b < 2 ^ 256.
Proof. rewrite uint_sub. apply checked_uint_ok. Qed.
Lemma uint_mul_ok a b c : UintMul a b = Ok c ↔ c = a * b ∧ 0 <= a * b < 2 ^ 256.
Proof. rewrite uint_mul. apply checked_uint_ok. Qed.
Lemma uint_quo_ok a b c :
  UintQuo a b = Ok c ↔ b ≠ 0 ∧ c = Z.quot a b ∧ 0 <= Z.quot a b < 2 ^ 256.
Proof.
  rewrite uint_quo. destruct (Z.eqb_spec b 0).
  - split; [intros [=] | lia].
  - rewrite checked_uint_ok. tauto.
Qed.

Lemma dec_mul_nonneg a b c : DecMul a b = Ok c → 0 <= a → 0 <= b → 0 <= c.
Proof. intros E%dec_mul_inv ??. assert (0 <= a * b) by nia. unfold dec_one in *. lia. Qed.

Lemma dec_mul_one a c : DecMul a OneDec = Ok c → c = a.
Proof. intros E%dec_mul_inv. unfold OneDec, NewDec, dec_one in *. lia. Qed.

Lemma dec_quo_nonneg a b c : DecQuo a b = Ok c → 0 <= a → 0 < b → 0 <= c.
Proof. intros [_ E]%dec_quo_inv ??. unfold dec_one in *. nia. Qed.

Lemma dec_quo_exact a b c k : DecQuo a b = Ok c → a * dec_one = k * b → c = k.
Proof. intros [? E]%dec_quo_inv Hk. rewrite Hk in E. nia. Qed.

Lemma dec_round_nonneg a c : DecRoundInt a = Ok c → 0 <= a → 0 <= c.
Proof. intros E%dec_round_inv ?. unfold dec_one in *. lia. Qed.

Lemma dec_trunc_nonneg a c : DecTruncateInt a = Ok c → 0 <= a → 0 <= c.
Proof. intros ->%dec_trunc_inv ?. apply Z.quot_pos; unfold dec_one; lia. Qed.

Lemma dec_round_int z c : DecRoundInt (NewDec z) = Ok c → c = z.
Proof. intros E%dec_round_inv. unfold NewDec, dec_one in *. lia. Qed.
Lemma dec_trunc_int z c : DecTruncateInt (NewDec z) = Ok c → c = z.
Proof. intros ->%dec_trunc_inv. apply Z.quot_mul. unfold dec_one. lia. Qed.
End facts.

(** Replace successful numeric operations in the context by the equations they state. *)
Ltac inv_sdk :=
  repeat (inv_ok;
    match goal with
    | H : NewUintFromBigInt _ = Ok _ |- _ => apply uint_new_ok in H; let R := fresh "R" in destruct H as [-> R]
    | H : UintAdd _ _ = Ok _ |- _ => apply uint_add_ok in H; let R := fresh "R" in destruct H as [-> R]
    | H : UintSub _ _ = Ok _ |- _ => apply uint_sub_ok in H; let R := fresh "R" in destruct H as [-> R]
    | H : UintMul _ _ = Ok _ |- _ => apply uint_mul_ok in H; let R := fresh "R" in destruct H as [-> R]
    | H : UintQuo _ _ = Ok _ |- _ => apply uint_quo_ok in H; let N := fresh "N" in let R := fresh "R" in destruct H as (N & -> & R)
    | H : IntAdd _ _ = Ok _ |- _ => apply int_add_inv in H; subst
    | H : IntSub _ _ = Ok _ |- _ => apply int_sub_inv in H; subst
    | H : NewIntFromBigInt _ = Ok _ |- _ => apply int_new_inv in H; subst
    | H : DecAdd _ _ = Ok _ |- _ => apply dec_add_inv in H; subst
    | H : DecSub _ _ = Ok _ |- _ => apply dec_sub_inv in H; subst
    end); inv_ok.
