(* ===== verification/SdkRef.v ===== *)
(** * SdkRef: a concrete instance of the numeric library

    The theorems are proved for every [Sdk] that obeys [SdkLaws].  This file defines one
    such instance, with the rounding of the real library, and proves the laws of it:
    the hypotheses are satisfiable, and the witnesses of the theorems evaluate on it. *)

From Stdlib Require Import DecimalString DecimalZ.
From S2P Require Import Prelude Sdk.
Local Open Scope Z_scope.

(** Decimal numerals. *)
Definition print_Z (z : Z) : string := NilZero.string_of_int (Z.to_int z).
Definition parse_Z (s : string) : option Z := Z.of_int <$> NilZero.int_of_string s.

Lemma parse_print_Z z : parse_Z (print_Z z) = Some z.
Proof.
  unfold parse_Z, print_Z.
  destruct (Decimal.int_eq_dec (Z.to_int z) (Decimal.Pos Decimal.Nil)) as [E|N1].
  { pose proof (of_to z) as H. rewrite E in *. simpl in H. by subst. }
  destruct (Decimal.int_eq_dec (Z.to_int z) (Decimal.Neg Decimal.Nil)) as [E|N2].
  { pose proof (of_to z) as H. rewrite E in *. simpl in H. by subst. }
  rewrite NilZero.isi by done. simpl. by rewrite of_to.
Qed.

(** A decimal numeral with at most 18 digits after the point. *)
Definition parse_dec (s : string) : option Z :=
  match parse_Z s with
  | Some z => Some (z * dec_one)
  | None =>
      i ← String.index 0 "." s;
      let a := String.substring 0 i s in
      let b := String.substring (S i) (String.length s) s in
      z ← parse_Z (a ++ b);
      if (Z.of_nat (String.length b) <=? 18) && (0 <? Z.of_nat (String.length b))
      then Some (z * 10 ^ (18 - Z.of_nat (String.length b))) else None
  end.

Definition checked_bits (w z : Z) : res Z := if Z.abs z <? 2 ^ w then Ok z else Panic.

(** Division by [10^18], to the nearest, ties to even ([chopPrecisionAndRound]). *)
Definition chop_round (d : Z) : Z :=
  let q := Z.abs d / dec_one in
  let r := Z.abs d mod dec_one in
  let n := if 2 * r <? dec_one then q
           else if dec_one <? 2 * r then q + 1
           else if Z.even q then q else q + 1 in
  Z.sgn d * n.

Definition dec_mul (a b : Z) : res Z := checked_bits 315 (chop_round (a * b)).
Definition dec_quo (a b : Z) : res Z :=
  if b =? 0 then Panic
  else checked_bits 315 (chop_round (Z.quot (a * dec_one * dec_one) b)).

(** Exponentiation by squaring, as in [Dec.Power]; 64 rounds exhaust a uint64. *)
Fixpoint dec_power_loop (fuel : nat) (i d tmp : Z) : res Z :=
  match fuel with
  | O => dec_mul d tmp
  | S fuel =>
      if i <=? 1 then dec_mul d tmp
      else
        tmp' ← (if i mod 2 =? 0 then Ok tmp else dec_mul tmp d);
        d' ← dec_mul d d;
        dec_power_loop fuel (i / 2) d' tmp'
  end.
Definition dec_power (d n : Z) : res Z :=
  if n =? 0 then Ok OneDec else dec_power_loop 64 n d OneDec.

#[export] Instance ref_sdk : Sdk := {|
  NewUintFromBigInt := checked_uint;
  NewUintFromString s := match parse_Z s with Some z => checked_uint z | None => Panic end;
  UintString := print_Z;
  UintAdd a b := checked_uint (a + b);
  UintSub a b := checked_uint (a - b);
  UintMul a b := checked_uint (a * b);
  UintQuo a b := if b =? 0 then Panic else checked_uint (Z.quot a b);
  NewIntFromBigInt := checked_bits 255;
  NewIntFromString s :=
    z ← parse_Z s; if Z.abs z <? 2 ^ 255 then Some z else None;
  IntString := print_Z;
  IntAdd a b := checked_bits 255 (a + b);
  IntSub a b := checked_bits 255 (a - b);
  NewDecFromStr s :=
    match parse_dec s with
    | Some d => if Z.abs d <? 2 ^ 315 then Ok d else Err ErrAnonymous
    | None => Err ErrAnonymous
    end;
  DecAdd a b := checked_bits 315 (a + b);
  DecSub a b := checked_bits 315 (a - b);
  DecMul := dec_mul;
  DecQuo := dec_quo;
  DecPower := dec_power;
  DecTruncateInt a := checked_bits 255 (Z.quot a dec_one);
  DecRoundInt a := checked_bits 255 (chop_round a);
  DecAbs := Z.abs
|}.

Lemma checked_bits_inv w z a : checked_bits w z = Ok a → a = z.
Proof. unfold checked_bits. case_match; intros; by simplify_eq. Qed.
Lemma checked_bits_total w z : Z.abs z < 2 ^ w → checked_bits w z = Ok z.
Proof. intros. unfold checked_bits. rewrite (proj2 (Z.ltb_lt _ _)); done. Qed.

Lemma chop_round_spec d : 2 * Z.abs (chop_round d * dec_one - d) <= dec_one.
Proof.
  unfold chop_round. set (o := dec_one). assert (0 < o) as Ho by done.
  pose proof (Z.div_mod (Z.abs d) o ltac:(lia)). pose proof (Z.mod_pos_bound (Z.abs d) o Ho).
  set (q := Z.abs d / o) in *. set (r := Z.abs d mod o) in *. clearbody o q r.
  assert (∃ n, (if 2 * r <? o then q else if o <? 2 * r then q + 1
                else if Z.even q then q else q + 1) = n
               ∧ 2 * Z.abs (n * o - Z.abs d) <= o) as (n & -> & Hn).
  { eexists. split; [done|].
    destruct (Z.ltb_spec (2 * r) o); [nia|].
    destruct (Z.ltb_spec o (2 * r)); [nia|]. destruct (Z.even q); nia. }
  destruct (Z.sgn_spec d) as [[? ->]|[[? ->]|[? ->]]]; nia.
Qed.

Lemma chop_round_bound d B : Z.abs d <= B * dec_one → Z.abs (chop_round d) <= B.
Proof. intros H. pose proof (chop_round_spec d). unfold dec_one in *. lia. Qed.

#[export] Instance ref_sdk_laws : SdkLaws ref_sdk.
Proof.
  split; cbn -[Z.pow dec_one]; try done; try (intros *; apply checked_bits_inv).
  - intros. rewrite parse_print_Z. by apply checked_uint_total.
  - intros. rewrite parse_print_Z. simpl. rewrite (proj2 (Z.ltb_lt _ _)); [done|lia].
  - intros z i. rewrite parse_print_Z. simpl. by case_match; intros; simplify_eq.
  - intros. unfold parse_dec. rewrite parse_print_Z. rewrite (proj2 (Z.ltb_lt _ _)); [done|].
    unfold dec_one. lia.
  - intros. by apply checked_bits_total.
  - intros. unfold parse_dec. rewrite parse_print_Z. rewrite (proj2 (Z.ltb_lt _ _)); [done|].
    unfold dec_one. lia.
  - intros. rewrite parse_print_Z. apply checked_uint_total. lia.
  - intros. by apply checked_bits_total.
  - intros. by apply checked_bits_total.
  - intros. apply checked_bits_total. lia.
  - intros. apply checked_bits_total. lia.
  - intros a b c ->%checked_bits_inv. apply chop_round_spec.
  - intros a b H. eexists. apply checked_bits_total.
    pose proof (chop_round_bound (a * b) (2 ^ 314)). lia.
  - intros a b c. unfold dec_quo. destruct (Z.eqb_spec b 0) as [|Hb]; [done|].
    intros ->%checked_bits_inv. split; [done|].
    pose proof (chop_round_spec (Z.quot (a * dec_one * dec_one) b)) as H.
    pose proof (Z.quot_rem (a * dec_one * dec_one) b Hb) as E.
    pose proof (Z.rem_bound_abs (a * dec_one * dec_one) b Hb).
    set (q := Z.quot _ _) in *. set (c := chop_round q) in *. set (r := Z.rem _ _) in *.
    assert (2 * Z.abs (c * b * dec_one - a * dec_one * dec_one) < 2 * Z.abs b * dec_one);
      [|unfold dec_one in *; nia].
    replace (c * b * dec_one - a * dec_one * dec_one) with (b * (c * dec_one - q) - r) by lia.
    assert (2 * Z.abs (b * (c * dec_one - q)) <= Z.abs b * dec_one) by (rewrite Z.abs_mul; nia).
    unfold dec_one in *. lia.
  - intros a b Hb H. unfold dec_quo. rewrite (proj2 (Z.eqb_neq _ _)) by done.
    eexists. apply checked_bits_total.
    assert (Z.abs (Z.quot (a * dec_one * dec_one) b) <= 2 ^ 314 * dec_one).
    { rewrite <- Z.quot_abs by done. rewrite !Z.abs_mul, (Z.abs_eq dec_one) by done.
      rewrite Z.quot_div_nonneg by (unfold dec_one; lia).
      apply Z.div_le_upper_bound; [lia|]. unfold dec_one in *. lia. }
    pose proof (chop_round_bound (Z.quot (a * dec_one * dec_one) b) (2 ^ 314)). lia.
  - intros a H. apply checked_bits_total. rewrite <- Z.quot_abs by done.
    rewrite (Z.abs_eq dec_one), Z.quot_div_nonneg by (unfold dec_one; lia).
    apply Z.div_lt_upper_bound; unfold dec_one in *; lia.
  - intros a c ->%checked_bits_inv. apply chop_round_spec.
  - intros a H. eexists. apply checked_bits_total. pose proof (chop_round_bound a (2 ^ 254)).
    unfold dec_one in *. lia.
  - intros z e. unfold checked_bits. by case_match.
  - intros a b e. unfold dec_mul, checked_bits. by case_match.
  - intros a e. unfold checked_bits. by case_match.
Qed.
