(* ===== verification/Rat.v ===== *)
(** * Rat: the parts of Go's [math/big], [strings] and conversions the modules use

    [big.Int] is [Z] ([Quo] truncates and panics on zero); [big.Rat] is [Q], equal up to
    [Qeq]: a [big.Rat] is kept in lowest terms, a [Q] is not, so everything the code reads
    off a rational ([Num], [Denom], [Cmp]) is shown to respect [Qeq]. *)

From Stdlib Require Export QArith Qabs Ascii.
From S2P Require Import Prelude.
Local Open Scope Z_scope.

(** ** big.Int *)

(** [new(big.Int).Quo(a, b)] *)
Definition big_Quo (a b : Z) : res Z := if b =? 0 then Panic else Ok (Z.quot a b).
(** [new(big.Int).Sqrt(a)] panics on a negative argument. *)
Definition big_Sqrt (a : Z) : res Z := if a <? 0 then Panic else Ok (Z.sqrt a).
(** [a.BitLen()] *)
Definition big_BitLen (a : Z) : Z := if a =? 0 then 0 else Z.log2 (Z.abs a) + 1.

Lemma big_BitLen_le a n : 0 <= n → big_BitLen a <= n ↔ Z.abs a < 2 ^ n.
Proof.
  intros Hn. unfold big_BitLen. destruct (Z.eqb_spec a 0) as [->|].
  - simpl. pose proof (Z.pow_pos_nonneg 2 n). lia.
  - rewrite Z.log2_lt_pow2 by lia. lia.
Qed.

(** ** big.Rat *)

(** [SetInt], [SetInt64] *)
Definition rat_SetInt (z : Z) : Q := inject_Z z.

(** [SetFrac(a, b)] panics when [b] is zero. *)
Definition rat_SetFrac (a b : Z) : res Q :=
  match b with
  | Z0 => Panic
  | Zpos p => Ok (Qmake a p)
  | Zneg p => Ok (Qmake (- a) p)
  end.

(** [new(big.Rat).Quo(x, y)] panics when [y] is zero. *)
Definition rat_Quo (x y : Q) : res Q := if Qeq_bool y 0 then Panic else Ok (x / y)%Q.

(** [x.Cmp(y)] *)
Definition rat_Cmp (x y : Q) : comparison := Qcompare x y.

Lemma rat_SetFrac_pos a b : 0 < b → rat_SetFrac a b = Ok (Qmake a (Z.to_pos b)).
Proof. by destruct b. Qed.

Lemma rat_SetFrac_spec a b : 0 < b → ∃ q, rat_SetFrac a b = Ok q ∧ (q == inject_Z a / inject_Z b)%Q.
Proof.
  intros Hb. destruct b as [|b|b]; try lia. simpl. eexists; split; [done|].
  unfold Qeq, Qdiv, Qmult, Qinv, inject_Z. simpl. lia.
Qed.

Lemma rat_Quo_ok x y : ¬ (y == 0)%Q → rat_Quo x y = Ok (x / y)%Q.
Proof.
  intros H. unfold rat_Quo. destruct (Qeq_bool y 0) eqn:E; [|done].
  by apply Qeq_bool_eq in E.
Qed.

(** Comparing two fractions of naturals is comparing the cross products. *)
Lemma rat_Cmp_cross a b c d qa qc :
  0 < b → 0 < d → rat_SetFrac a b = Ok qa → rat_SetFrac c d = Ok qc →
  rat_Cmp qa qc = Z.compare (a * d) (c * b).
Proof.
  intros Hb Hd. rewrite !rat_SetFrac_pos by done. intros [= <-] [= <-].
  unfold rat_Cmp, Qcompare. simpl. by rewrite !Z2Pos.id.
Qed.

(** ** Truncation of a rational to an integer, [r.Num() / r.Denom()] *)
Definition rat_trunc (r : Q) : Z := Z.quot (Qnum r) (Zpos (Qden r)).

#[export] Instance rat_trunc_proper : Proper (Qeq ==> eq) rat_trunc.
Proof.
  intros [a b] [c d]. unfold Qeq, rat_trunc. simpl. intros H.
  assert (Z.quot a (Zpos b) = Z.quot (a * Zpos d) (Zpos b * Zpos d)) as ->
    by (rewrite Z.quot_mul_cancel_r; lia).
  rewrite H. rewrite (Z.mul_comm (Zpos b)), Z.quot_mul_cancel_r; lia.
Qed.

Lemma rat_trunc_nonneg r : (0 <= r)%Q → rat_trunc r = Qnum r / Zpos (Qden r).
Proof.
  destruct r as [a b]. unfold Qle, rat_trunc. simpl. intros. apply Z.quot_div_nonneg; lia.
Qed.

(** For a nonnegative rational it is the floor. *)
Lemma rat_trunc_spec r : (0 <= r)%Q →
  0 <= rat_trunc r ∧ (inject_Z (rat_trunc r) <= r)%Q ∧ (r < inject_Z (rat_trunc r + 1))%Q.
Proof.
  intros H. rewrite rat_trunc_nonneg by done. destruct r as [a b].
  unfold Qle, Qlt in *. simpl in *.
  pose proof (Z.div_mod a (Zpos b) ltac:(lia)). pose proof (Z.mod_pos_bound a (Zpos b) ltac:(lia)).
  split; [apply Z.div_pos; lia|]. split; nia.
Qed.

Lemma rat_trunc_unique r n :
  0 <= n → (inject_Z n <= r)%Q → (r < inject_Z (n + 1))%Q → rat_trunc r = n.
Proof.
  intros Hn H1 H2. destruct (rat_trunc_spec r) as (_ & H3 & H4).
  { eapply Qle_trans; [|done]. unfold Qle. simpl. lia. }
  pose proof (Qle_lt_trans _ _ _ H1 H4) as H5. pose proof (Qle_lt_trans _ _ _ H3 H2) as H6.
  unfold Qlt in *. simpl in *. lia.
Qed.

Lemma rat_trunc_frac a b : 0 <= a → 0 < b → rat_trunc (inject_Z a / inject_Z b) = a / b.
Proof.
  intros Ha Hb. destruct b as [|b|b]; try lia.
  assert (inject_Z a / inject_Z (Zpos b) == Qmake a b)%Q as ->.
  { unfold Qeq, Qdiv, Qmult, Qinv, inject_Z. simpl. lia. }
  rewrite rat_trunc_nonneg; [done|]. unfold Qle. simpl. lia.
Qed.

Lemma rat_trunc_mono r s : (0 <= r)%Q → (r <= s)%Q → rat_trunc r <= rat_trunc s.
Proof.
  intros H1 H2. destruct (rat_trunc_spec r H1) as (_ & H3 & _).
  destruct (rat_trunc_spec s) as (_ & _ & H4); [by eapply Qle_trans|].
  assert (inject_Z (rat_trunc r) < inject_Z (rat_trunc s + 1))%Q as H5
    by (eapply Qle_lt_trans; [done|]; by eapply Qle_lt_trans).
  unfold Qlt in H5. simpl in H5. lia.
Qed.

(** ** strings.TrimSpace

    Leading and trailing white space as Unicode defines it, in UTF-8. *)
Definition ascii_of (n : nat) : ascii := Ascii.ascii_of_nat n.
Fixpoint bytes (l : list nat) : string :=
  match l with [] => EmptyString | n :: l => String (ascii_of n) (bytes l) end.

Definition white_space : list string :=
  (bytes <$> [[9]; [10]; [11]; [12]; [13]; [32]; [194; 133]; [194; 160]; [225; 154; 128]]%nat)
  ++ ((λ n, bytes [226; 128; n]%nat) <$> (seq 128 11 ++ [168; 169; 175]%nat))
  ++ (bytes <$> [[226; 129; 159]; [227; 128; 128]]%nat).

Fixpoint drop_prefix (p s : string) : option string :=
  match p, s with
  | EmptyString, _ => Some s
  | String a p, String b s => if Ascii.eqb a b then drop_prefix p s else None
  | _, _ => None
  end.

Definition trim_step (ws : list string) (s : string) : option string :=
  foldr (λ p acc, match drop_prefix p s with Some s' => Some s' | None => acc end) None ws.

(** Every step drops at least one byte, so the length of the string is fuel enough. *)
Fixpoint trim_left (fuel : nat) (ws : list string) (s : string) : string :=
  match fuel with
  | O => s
  | S fuel => match trim_step ws s with Some s' => trim_left fuel ws s' | None => s end
  end.

Fixpoint rev_string (acc s : string) : string :=
  match s with EmptyString => acc | String a s => rev_string (String a acc) s end.

Definition TrimSpace (s : string) : string :=
  let l := trim_left (String.length s) white_space s in
  rev_string "" (trim_left (String.length l) (rev_string "" <$> white_space) (rev_string "" l)).
