(* ===== verification/Float.v ===== *)
(** * Float: the float64 values the modules compute with

    A float64 is kept as the rational it stands for.  The conversions of the language and of
    strconv, and division, return the nearest such value, ties to even: [f64].  The values the
    modules convert (decimals of 18 digits below 2^315, int64 numbers and their ratios) are in
    the normal range, so subnormals and overflow do not occur; an infinity or a NaN can only
    come from a division by zero, which has its own cases in [f64_ge] and [f64_lt]. *)

From S2P Require Import Prelude Rat Sdk.
Local Open Scope Z_scope.

(** [p / q] to the nearest integer, ties to even, for [0 <= p] and [0 < q]. *)
Definition round_div (p q : Z) : Z :=
  let n := p / q in
  let r := p mod q in
  if 2 * r <? q then n else if q <? 2 * r then n + 1 else if Z.even n then n else n + 1.

(** [2 ^ e] as a numerator and a denominator. *)
Definition pow2_num (e : Z) : Z := 2 ^ Z.max e 0.
Definition pow2_den (e : Z) : Z := 2 ^ Z.max (- e) 0.

(** The exponent that leaves 53 significant bits of [a / d]. *)
Definition f64_exponent (a d : Z) : Z :=
  let e := Z.log2 a - Z.log2 d - 53 in
  if 2 ^ 53 <=? a * pow2_den e / (d * pow2_num e) then e + 1 else e.

Definition f64 (q : Q) : Q :=
  let n := Qnum q in
  let d := Zpos (Qden q) in
  if n =? 0 then 0%Q
  else
    let a := Z.abs n in
    let e := f64_exponent a d in
    let m := round_div (a * pow2_den e) (d * pow2_num e) in
    Qmake (Z.sgn n * m * pow2_num e) (Z.to_pos (pow2_den e)).

(** [float64(i)] *)
Definition f64_of_int (i : Z) : Q := f64 (inject_Z i).
(** [dec.MustFloat64()]: the text of the decimal through strconv.ParseFloat. *)
Definition dec_f64 (d : Dec) : Q := f64 (Qmake d (Z.to_pos dec_one)).

(** [float64(a) / float64(b) >= c] and [< c]: with [b] zero the quotient is an infinity or, for
    [0 / 0], a NaN, on which every comparison is false. *)
Definition f64_quot (a b : Z) : Q := f64 (f64_of_int a / f64_of_int b).
Definition f64_ge (a b : Z) (c : Q) : bool :=
  if b =? 0 then 0 <? a else Qle_bool c (f64_quot a b).
Definition f64_lt (a b : Z) (c : Q) : bool :=
  if b =? 0 then a <? 0 else negb (Qle_bool c (f64_quot a b)).

Example f64_tenth : (f64 (1 # 10) == 3602879701896397 # 36028797018963968)%Q.
Proof. vm_compute. reflexivity. Qed.
Example f64_seven_tenths : (f64 (7 # 10) == 3152519739159347 # 4503599627370496)%Q.
Proof. vm_compute. reflexivity. Qed.
Example f64_int_tie : (f64_of_int (2 ^ 53 + 1) == inject_Z (2 ^ 53))%Q.
Proof. vm_compute. reflexivity. Qed.

(** ** How far a rounded value is from the exact one *)
Lemma round_div_near p q : 0 < q → 2 * Z.abs (round_div p q * q - p) <= q.
Proof.
  intros Hq. unfold round_div. pose proof (Z.div_mod p q ltac:(lia)).
  pose proof (Z.mod_pos_bound p q Hq). set (n := p / q) in *. set (r := p mod q) in *.
  destruct (Z.ltb_spec (2 * r) q); [nia|]. destruct (Z.ltb_spec q (2 * r)); [nia|].
  destruct (Z.even n); nia.
Qed.

Lemma round_div_exact p q : 0 < q → round_div (p * q) q = p.
Proof.
  intros Hq. unfold round_div. rewrite Z.div_mul, Z.mod_mul by lia.
  destruct (Z.ltb_spec (2 * 0) q); lia.
Qed.

Lemma pow2_num_pos e : 0 < pow2_num e.
Proof. apply Z.pow_pos_nonneg; lia. Qed.
Lemma pow2_den_pos e : 0 < pow2_den e.
Proof. apply Z.pow_pos_nonneg; lia. Qed.

Lemma pow2_shift x e : 0 <= x → 0 <= x + e →
  2 ^ x * pow2_num e = 2 ^ (x + e) * pow2_den e.
Proof.
  intros. unfold pow2_num, pow2_den. rewrite <- !Z.pow_add_r by lia. f_equal. lia.
Qed.

(** The significand keeps at least 53 bits. *)
Lemma f64_exponent_bits a d : 0 < a → 0 < d →
  let e := f64_exponent a d in 2 ^ 52 * (d * pow2_num e) <= a * pow2_den e.
Proof.
  intros Ha Hd. unfold f64_exponent. cbv zeta.
  pose proof (Z.log2_spec a Ha) as [La _]. pose proof (Z.log2_spec d Hd) as [_ Ld].
  pose proof (Z.log2_nonneg a). pose proof (Z.log2_nonneg d).
  set (x := Z.log2 a) in *. set (y := Z.log2 d) in *. set (e := x - y - 53).
  assert (0 < d * pow2_num e) by (pose proof (pow2_num_pos e); nia).
  destruct (Z.leb_spec (2 ^ 53) (a * pow2_den e / (d * pow2_num e))) as [Hm|_].
  - assert (2 ^ 53 * (d * pow2_num e) <= a * pow2_den e) as Hb.
    { pose proof (Z.mul_div_le (a * pow2_den e) (d * pow2_num e) ltac:(lia)). nia. }
    destruct (Z.le_gt_cases 0 e).
    + replace (pow2_num (e + 1)) with (2 * pow2_num e)
        by (unfold pow2_num; rewrite !Z.max_l by lia; rewrite Z.pow_add_r by lia; lia).
      replace (pow2_den (e + 1)) with (pow2_den e)
        by (unfold pow2_den; rewrite !Z.max_r by lia; done). lia.
    + replace (pow2_num (e + 1)) with (pow2_num e)
        by (unfold pow2_num; rewrite !Z.max_r by lia; done).
      replace (pow2_den e) with (2 * pow2_den (e + 1)) in Hb; [lia|].
      unfold pow2_den. rewrite !Z.max_l by lia. rewrite <- Z.pow_succ_r by lia. f_equal. lia.
  - assert (2 ^ 52 * 2 ^ (y + 1) * pow2_num e = 2 ^ x * pow2_den e) as E.
    { rewrite <- Z.pow_add_r by lia. rewrite pow2_shift by lia. do 2 f_equal. lia. }
    pose proof (pow2_num_pos e). pose proof (pow2_den_pos e). unfold Z.succ in *. nia.
Qed.

(** The relative error is at most [2^-53]. *)
Lemma f64_error q : (Qabs (f64 q - q) * inject_Z (2 ^ 53) <= Qabs q)%Q.
Proof.
  destruct q as [n d]. unfold f64. simpl Qnum. simpl Qden.
  destruct (Z.eqb_spec n 0) as [->|Hn].
  { unfold Qle, Qabs. simpl. lia. }
  set (a := Z.abs n). assert (0 < a) as Ha by lia.
  pose proof (f64_exponent_bits a (Zpos d) Ha ltac:(lia)) as Hb. cbv zeta in Hb.
  set (e := f64_exponent a (Zpos d)) in *.
  pose proof (pow2_num_pos e). pose proof (pow2_den_pos e).
  set (u := pow2_num e) in *. set (v := pow2_den e) in *.
  pose proof (round_div_near (a * v) (Zpos d * u) ltac:(nia)) as Hr.
  set (m := round_div _ _) in *. clearbody m u v e.
  unfold Qle, Qabs, Qminus, Qplus, Qopp, Qmult. simpl.
  rewrite Pos.mul_1_r, Pos2Z.inj_mul, !Z2Pos.id by done.
  replace (Z.sgn n * m * u * Zpos d + - n * v) with (Z.sgn n * (m * (Zpos d * u) - a * v))
    by (unfold a; destruct (Z.sgn_spec n) as [[? E]|[[? E]|[? E]]]; rewrite E; lia).
  rewrite Z.abs_mul. replace (Z.abs (Z.sgn n)) with 1
    by (destruct (Z.sgn_spec n) as [[? E]|[[? E]|[? E]]]; rewrite E; lia).
  fold a. nia.
Qed.

(** Integers below [2^53] are exact. *)
Lemma f64_exact_int z : Z.abs z < 2 ^ 53 → (f64_of_int z == inject_Z z)%Q.
Proof.
  intros Hz. pose proof (f64_error (inject_Z z)) as He. unfold f64_of_int. revert He.
  unfold f64. simpl Qnum. simpl Qden. destruct (Z.eqb_spec z 0) as [->|Hn]; [done|].
  set (a := Z.abs z). assert (0 < a) as Ha by lia.
  intros _. assert (f64_exponent a 1 <= 0) as Hneg.
  { unfold f64_exponent. change (Z.log2 1) with 0. cbv zeta.
    assert (Z.log2 a < 53) by (apply Z.log2_lt_pow2; lia). case_match; lia. }
  set (e := f64_exponent a 1) in *.
  assert (pow2_num e = 1) as -> by (unfold pow2_num; rewrite Z.max_r by lia; done).
  rewrite Z.mul_1_r. rewrite <- (Z.mul_1_r (a * pow2_den e)), round_div_exact by lia.
  pose proof (pow2_den_pos e). unfold Qeq. simpl. rewrite Z2Pos.id by done.
  unfold a. destruct (Z.sgn_spec z) as [[? E]|[[? E]|[? E]]]; rewrite E; nia.
Qed.

Lemma f64_nonneg q : (0 <= q)%Q → (0 <= f64 q)%Q.
Proof.
  intros Hq. pose proof (f64_error q) as He. rewrite (Qabs_pos q Hq) in He.
  destruct (Qlt_le_dec (f64 q) 0) as [Hn|]; [|done]. exfalso.
  assert (Qabs (f64 q - q) == q - f64 q)%Q as Ea.
  { rewrite Qabs_neg; [ring|]. apply (Qplus_le_l _ _ q). ring_simplify.
    apply Qlt_le_weak. by eapply Qlt_le_trans. }
  rewrite Ea in He. revert Hq Hn He. generalize (f64 q). intros r.
  unfold Qle, Qlt, Qminus, Qplus, Qopp, Qmult. destruct q as [a b], r as [c d]. simpl. nia.
Qed.
