(* ===== verification/Bank.v ===== *)
(** * Bank: the interfaces of the cosmos-sdk keepers the modules call

    Coins, addresses and the bank and mint keepers are library code: operations are class
    fields over the world [W], the behaviour the proofs need is a separate class of laws. *)

From S2P Require Import Prelude Sdk.
Local Open Scope Z_scope.

(** [sdk.Coin] and [sdk.Coins]. *)
Record Coin := mkCoin { Denom : string; Amount : Int }.
#[export] Instance Coin_eq_dec : EqDecision Coin.
Proof. solve_decision. Defined.
Definition Coins : Type := list Coin.

(** [sdk.AccAddress], raw bytes; [AccAddress.String()] and its inverse. *)
Definition AccAddress : Type := string.

Class CoinLib := {
  NewCoin : string → Int → res Coin;
  Coin_IsValid : Coin → bool;
  NewCoins : list Coin → res Coins;
  Coins_Add : Coins → Coin → res Coins;
  Coin_Add : Coin → Coin → res Coin;
  Coin_Sub : Coin → Coin → res Coin;
  ValidateDenom : string → bool;

  AccAddressFromBech32 : string → res AccAddress;
  AccString : AccAddress → string;
  NewModuleAddress : string → AccAddress
}.

(** The amount of a denomination in a set of coins. *)
Definition AmountOf (cs : Coins) (d : string) : Z :=
  sumZ (λ c, if String.eqb c.(Denom) d then c.(Amount) else 0) cs.

Class CoinLaws `(CoinLib) : Prop := {
  new_coin_inv d a c : NewCoin d a = Ok c → c = mkCoin d a ∧ 0 <= a ∧ ValidateDenom d = true;
  new_coin_not_err d a e : NewCoin d a ≠ Err e;
  new_coin_valid d a : ValidateDenom d = true → 0 <= a → NewCoin d a = Ok (mkCoin d a);
  coin_is_valid c : Coin_IsValid c = ValidateDenom c.(Denom) && (0 <=? c.(Amount));
  new_coins_amount l cs d : NewCoins l = Ok cs → AmountOf cs d = AmountOf l d;
  coins_add_amount cs c cs' d : Coins_Add cs c = Ok cs' → AmountOf cs' d = AmountOf cs d + AmountOf [c] d;
  coin_add_inv a b c : Coin_Add a b = Ok c →
    c = mkCoin a.(Denom) (a.(Amount) + b.(Amount)) ∧ a.(Denom) = b.(Denom);
  coin_sub_inv a b c : Coin_Sub a b = Ok c →
    c = mkCoin a.(Denom) (a.(Amount) - b.(Amount)) ∧ a.(Denom) = b.(Denom) ∧ b.(Amount) <= a.(Amount);
  acc_roundtrip a : a ≠ "" → AccAddressFromBech32 (AccString a) = Ok a;
  acc_not_panic s : AccAddressFromBech32 s ≠ Panic;
  acc_nonempty s a : AccAddressFromBech32 s = Ok a → a ≠ "";
  new_coin_settlement : ValidateDenom "fury" = true;
  new_coins_not_err l e : NewCoins l ≠ Err e;
  coin_sub_not_err a b e : Coin_Sub a b ≠ Err e
}.

(** The errors of cosmos-sdk's own codespace that the modules return. *)
Class SdkErrors := {
  ErrInvalidAddress : error;
  ErrInvalidRequest : error;
  ErrUnknownRequest : error;
  ErrKeyNotFound : error;
  ErrUnknownAddress : error
}.

(** [types.BankKeeper] of the modules' expected_keepers.go. *)
Class BankKeeper (W : Type) := {
  SendCoins : AccAddress → AccAddress → Coins → M W unit;
  SendCoinsFromModuleToAccount : string → AccAddress → Coins → M W unit;
  SendCoinsFromAccountToModule : AccAddress → string → Coins → M W unit;
  MintCoins : string → Coins → M W unit;
  BurnCoins : string → Coins → M W unit;
  GetBalance : W → AccAddress → string → Coin;
  HasBalance : W → AccAddress → Coin → bool
}.

(** A balance as a number. *)
Definition balance {W} `{BankKeeper W} (w : W) (a : AccAddress) (d : string) : Z :=
  (GetBalance w a d).(Amount).

(** A successful transfer moves exactly the coins it is given; a failed one moves nothing. *)
Class BankLaws (W : Type) `(CoinLib) `(BankKeeper W) : Prop := {
  send_module_account w m a cs w' a0 d :
    SendCoinsFromModuleToAccount m a cs w = (Ok tt, w') →
    balance w' a0 d = balance w a0 d
      - (if String.eqb a0 (NewModuleAddress m) then AmountOf cs d else 0)
      + (if String.eqb a0 a then AmountOf cs d else 0);
  send_module_account_err w m a cs w' r a0 d :
    SendCoinsFromModuleToAccount m a cs w = (r, w') → is_ok r = false →
    balance w' a0 d = balance w a0 d;
  send_account_module w m a cs w' a0 d :
    SendCoinsFromAccountToModule a m cs w = (Ok tt, w') →
    balance w' a0 d = balance w a0 d
      - (if String.eqb a0 a then AmountOf cs d else 0)
      + (if String.eqb a0 (NewModuleAddress m) then AmountOf cs d else 0);
  send_account_module_err w m a cs w' r a0 d :
    SendCoinsFromAccountToModule a m cs w = (r, w') → is_ok r = false →
    balance w' a0 d = balance w a0 d;
  send_coins w a b cs w' a0 d :
    SendCoins a b cs w = (Ok tt, w') →
    balance w' a0 d = balance w a0 d
      - (if String.eqb a0 a then AmountOf cs d else 0)
      + (if String.eqb a0 b then AmountOf cs d else 0);
  mint_coins w m cs w' a0 d :
    MintCoins m cs w = (Ok tt, w') →
    balance w' a0 d = balance w a0 d + (if String.eqb a0 (NewModuleAddress m) then AmountOf cs d else 0);
  mint_coins_err w m cs w' r a0 d :
    MintCoins m cs w = (r, w') → is_ok r = false → balance w' a0 d = balance w a0 d;
  burn_coins w m cs w' a0 d :
    BurnCoins m cs w = (Ok tt, w') →
    balance w' a0 d = balance w a0 d - (if String.eqb a0 (NewModuleAddress m) then AmountOf cs d else 0);
  burn_coins_err w m cs w' r a0 d :
    BurnCoins m cs w = (r, w') → is_ok r = false → balance w' a0 d = balance w a0 d;
  balance_nonneg w a d : 0 <= balance w a d
}.

(** ** Stores

    [HasStore S W]: the world has a component [S].  A module's keeper is written against
    its own store and whatever other keepers it names, in any world that has them. *)
Class HasStore (S W : Type) := {
  store : W → S;
  put_store : S → W → W
}.

Class StoreLaws (S W : Type) `(HasStore S W) : Prop := {
  store_put s w : store (put_store s w) = s;
  put_store_put s s' w : put_store s (put_store s' w) = put_store s w
}.

Section store_ops.
Context {S W : Type} `{HasStore S W}.
Definition get_store : M W S := gets store.
Definition upd_store (f : S → S) : M W unit := modify (λ w, put_store (f (store w)) w).
End store_ops.

(** Events are recorded by their type; their attributes are display strings. *)
Definition EventLog : Type := list string.
Definition EmitEvent {W} `{HasStore EventLog W} (e : string) : M W unit :=
  upd_store (S := EventLog) (λ l, l ++ [e]).

Definition EventTypeMessage : string := "message".
Definition EmitEvents {W} `{HasStore EventLog W} (es : list string) : M W unit :=
  upd_store (S := EventLog) (λ l, l ++ es).

(** Writes to one store do not touch another. *)
Class StoreIndep (S T W : Type) `(HasStore S W) `(HasStore T W) : Prop := {
  store_put_other (t : T) w : store (S := S) (put_store t w) = store w
}.

(** Banking operations do not touch the store [S], and writing [S] does not touch balances. *)
Class BankFrame (S W : Type) `(HasStore S W) `(BankKeeper W) : Prop := {
  frame_send_ma m a cs : preserves (store (S := S)) (SendCoinsFromModuleToAccount m a cs);
  frame_send_am a m cs : preserves (store (S := S)) (SendCoinsFromAccountToModule a m cs);
  frame_send a b cs : preserves (store (S := S)) (SendCoins a b cs);
  frame_mint m cs : preserves (store (S := S)) (MintCoins m cs);
  frame_burn m cs : preserves (store (S := S)) (BurnCoins m cs);
  frame_balance (s : S) w a d : GetBalance (put_store s w) a d = GetBalance w a d;
  frame_has_balance (s : S) w a c : HasBalance (put_store s w) a c = HasBalance w a c
}.
#[export] Hint Resolve frame_send_ma frame_send_am frame_send frame_mint frame_burn : frame.

Lemma upd_store_ok {S W} `{HasStore S W} (f : S → S) w a w' :
  upd_store f w = (Ok a, w') ↔ w' = put_store (f (store w)) w.
Proof. unfold upd_store. by rewrite modify_ok. Qed.

(** The block a message or a block handler runs in. *)
Record Ctx := mkCtx { BlockHeight : Z; BlockTime : string }.
