(* ===== verification/Keepers.v ===== *)
(** * Keepers: the interfaces between the modules of this repository

    x/clp/types/expected_keepers.go and x/tokenregistry/types/expected_keepers.go: what a module
    asks of x/tokenregistry and x/admin.  The clients are written against the classes; Registry.v
    and Admin.v are the implementations. *)

From S2P Require Import Prelude Sdk Bank.
Local Open Scope Z_scope.

(** The enumerations of the protobuf definitions. *)
Inductive Permission := Permission_UNSPECIFIED | Permission_CLP | Permission_IBCEXPORT
  | Permission_IBCIMPORT | Permission_DISABLE_BUY | Permission_DISABLE_SELL.
#[export] Instance Permission_eq_dec : EqDecision Permission.
Proof. solve_decision. Defined.
Inductive AdminType := AdminType_CLPDEX | AdminType_PMTPREWARDS | AdminType_TOKENREGISTRY
  | AdminType_ETHBRIDGE | AdminType_ADMIN | AdminType_MARGIN.
#[export] Instance AdminType_eq_dec : EqDecision AdminType.
Proof. solve_decision. Defined.

(** x/tokenregistry/types/errors.go *)
Definition registry_error (n : Z) : error := mkErr "tokenregistry" n.
Definition ErrNotFound := registry_error 1.
Definition ErrPermissionDenied := registry_error 2.
Definition ErrNotAllowedToSellAsset := registry_error 3.
Definition ErrNotAllowedToBuyAsset := registry_error 4.

(** x/tokenregistry and x/admin as their clients see them: the entry of a denomination is
    looked up in the registry; an account may hold several administrative roles. *)
Class TokenRegistryKeeper (W : Type) := {
  Registry : Type;
  RegistryEntry : Type;
  GetRegistry : W → Registry;
  GetEntry : Registry → string → res RegistryEntry;
  CheckEntryPermissions : RegistryEntry → list Permission → bool;
  EntryDecimals : RegistryEntry → Z;
  EntryDenom : RegistryEntry → string
}.
Class AdminKeeper (W : Type) := { IsAdminAccount : W → AdminType → AccAddress → bool }.
