(* ===== verification/Admin.v ===== *)
(** * Admin: x/admin

    x/admin/keeper/{keeper,msg_server}.go, x/admin/types/keys.go: the accounts with an
    administrative role, and the module's parameters. *)

From S2P Require Import Prelude Sdk Rat Bank Keepers.
Local Open Scope Z_scope.

Record AdminAccount := mkAdminAccount { aa_AdminType : AdminType; aa_AdminAddress : string }.
#[export] Instance AdminAccount_eq_dec : EqDecision AdminAccount.
Proof. solve_decision. Defined.
Record AdminParams := mkAdminParams { SubmitProposalFee : Uint }.

(** The store under its two prefixes. *)
Record AdminStore := mkAdminStore {
  as_Accounts : gmap string AdminAccount;
  as_Params : option AdminParams
}.
#[export] Instance AdminStore_settable : Settable AdminStore := λ s,
  mkAdminStore s.(as_Accounts) s.(as_Params).

(** [AdminType.String()] of the generated code. *)
Definition AdminType_String (t : AdminType) : string :=
  match t with
  | AdminType_CLPDEX => "CLPDEX"
  | AdminType_PMTPREWARDS => "PMTPREWARDS"
  | AdminType_TOKENREGISTRY => "TOKENREGISTRY"
  | AdminType_ETHBRIDGE => "ETHBRIDGE"
  | AdminType_ADMIN => "ADMIN"
  | AdminType_MARGIN => "MARGIN"
  end.

Definition AdminAccountStorePrefix : ascii := ascii_of 1.
Definition GetAdminAccountKey (adminAccount : AdminAccount) : string :=
  String AdminAccountStorePrefix
    (AdminType_String adminAccount.(aa_AdminType) +:+ "_" +:+ adminAccount.(aa_AdminAddress)).

Record MsgSetParams := mkMsgSetParams { sp_Signer : string; sp_Params : AdminParams }.
Record MsgAddAccount := mkMsgAddAccount { ad_Signer : string; ad_Account : AdminAccount }.
Record MsgRemoveAccount := mkMsgRemoveAccount { ra_Signer : string; ra_Account : AdminAccount }.

(** ** Reading the store *)
Section reads.
Context {coins : CoinLib}.

Definition GetAdminAccountsForType (s : AdminStore) (adminType : AdminType) : list AdminAccount :=
  filter (λ al, al.(aa_AdminType) = adminType) (kv_values s.(as_Accounts)).
Definition GetAdminAccounts (s : AdminStore) : list AdminAccount := kv_values s.(as_Accounts).
Definition IsAdminAccount (s : AdminStore) (adminType : AdminType) (adminAccount : AccAddress)
    : bool :=
  let accounts := GetAdminAccountsForType s adminType in
  if (length accounts =? 0)%nat then false
  else existsb (λ account, String.eqb account.(aa_AdminAddress) (AccString adminAccount)) accounts.
End reads.

Section admin.
Context {W : Type} {sdk : Sdk} {coins : CoinLib} {errs : SdkErrors} {adm : HasStore AdminStore W}.
Notation M := (M W).

Definition upd_admin (f : AdminStore → AdminStore) : M unit := upd_store f.

Definition SetAdminAccount (account : AdminAccount) : M unit :=
  upd_admin (λ s, s <| as_Accounts ::= <[GetAdminAccountKey account := account]> |>).
Definition RemoveAdminAccount (account : AdminAccount) : M unit :=
  upd_admin (λ s, s <| as_Accounts ::= delete (GetAdminAccountKey account) |>).
Definition SetParams (params : AdminParams) : M unit :=
  upd_admin (λ s, s <| as_Params := Some params |>).
Definition GetParams : M AdminParams :=
  defaultSubmitProposalFee ← lift (must (NewUintFromString "5000000000000000000000"));
  s ← get_store (S := AdminStore);
  mret (default (mkAdminParams defaultSubmitProposalFee) s.(as_Params)).

Definition InitGenesis (accounts : list AdminAccount) : M unit := forM SetAdminAccount accounts.
Definition ExportGenesis : M (list AdminAccount) :=
  s ← get_store (S := AdminStore); mret (GetAdminAccounts s).

(** ** The message server *)
Definition require_ADMIN (signer : string) : M unit :=
  addr ← lift (AccAddressFromBech32 signer);
  s ← get_store (S := AdminStore);
  throw_if (negb (IsAdminAccount s AdminType_ADMIN addr)) ErrInvalidAddress.

Definition SetParams_handler (msg : MsgSetParams) : M unit :=
  _ ← require_ADMIN msg.(sp_Signer); SetParams msg.(sp_Params).
Definition AddAccount (msg : MsgAddAccount) : M unit :=
  _ ← require_ADMIN msg.(ad_Signer); SetAdminAccount msg.(ad_Account).
Definition RemoveAccount (msg : MsgRemoveAccount) : M unit :=
  _ ← require_ADMIN msg.(ra_Signer); RemoveAdminAccount msg.(ra_Account).
End admin.

(** The interface the other modules use. *)
#[export] Instance admin_keeper {W} {coins : CoinLib} {adm : HasStore AdminStore W}
    : AdminKeeper W := {
  Keepers.IsAdminAccount := λ w, IsAdminAccount (store w)
}.
