(* ===== verification/Registry.v ===== *)
(** * Registry: x/tokenregistry

    x/tokenregistry/keeper/{keeper,msg_server}.go and the messages of
    x/tokenregistry/types/msgs.go: the registered denominations and their permissions.  The
    entries are pointers in the code; decoded from the store or a message they are set. *)

From S2P Require Import Prelude Sdk Rat Bank Keepers.
Local Open Scope Z_scope.

Record RegistryEntry := mkRegistryEntry {
  Decimals : Z;
  re_Denom : string;
  BaseDenom : string;
  Path : string;
  IbcChannelId : string;
  IbcCounterpartyChannelId : string;
  DisplayName : string;
  DisplaySymbol : string;
  Network : string;
  Address : string;
  ExternalSymbol : string;
  TransferLimit : string;
  Permissions : list Permission;
  UnitDenom : string;
  IbcCounterpartyDenom : string;
  IbcCounterpartyChainId : string
}.
#[export] Instance RegistryEntry_eq_dec : EqDecision RegistryEntry.
Proof. solve_decision. Defined.

(** The whole registry is one stored value; a missing one is empty. *)
Record Registry := mkRegistry { Entries : list RegistryEntry }.

Record MsgRegister := mkMsgRegister { rg_From : string; rg_Entry : RegistryEntry }.
Record MsgSetRegistry := mkMsgSetRegistry { sr_From : string; sr_Registry : Registry }.
Record MsgDeregister := mkMsgDeregister { dr_From : string; dr_Denom : string }.

Definition StringCompare (a b : string) : bool := String.eqb a b.

Definition GetPermissionFromString (s : string) : Permission :=
  if String.eqb s "permission_clp" then Permission_CLP
  else if String.eqb s "permission_ibc_export" then Permission_IBCEXPORT
  else if String.eqb s "permission_ibc_import" then Permission_IBCIMPORT
  else Permission_UNSPECIFIED.

Definition CheckEntryPermissions (entry : RegistryEntry) (requiredPermissions : list Permission)
    : bool :=
  forallb (λ required, existsb (λ allowed, bool_decide (allowed = required)) entry.(Permissions))
    requiredPermissions.

Definition GetEntry `{SdkErrors} (wl : Registry) (denom : string) : res RegistryEntry :=
  match list_find (λ e, e.(re_Denom) = denom) wl.(Entries) with
  | Some (_, e) => Ok e
  | None => Err ErrKeyNotFound
  end.

(** The loop of [SetToken]: the first entry of the denomination is replaced in place; without
    one the entry is appended. *)
Fixpoint replace_or_append (entries : list RegistryEntry) (entry : RegistryEntry)
    : list RegistryEntry :=
  match entries with
  | [] => [entry]
  | e :: rest =>
      if StringCompare e.(re_Denom) entry.(re_Denom) then entry :: rest
      else e :: replace_or_append rest entry
  end.

Section registry.
Context {W : Type} {coins : CoinLib} {errs : SdkErrors} {admin : AdminKeeper W}
  {reg : HasStore Registry W}.
Notation M := (M W).

Definition GetRegistry : M Registry := get_store.
Definition SetRegistry (wl : Registry) : M unit := upd_store (λ _, wl).
Definition SetToken (entry : RegistryEntry) : M unit :=
  wl ← GetRegistry; SetRegistry (mkRegistry (replace_or_append wl.(Entries) entry)).
Definition RemoveToken (denom : string) : M unit :=
  registry ← GetRegistry;
  SetRegistry (mkRegistry (filter (λ t, StringCompare t.(re_Denom) denom = false)
                             registry.(Entries))).

(** ** The message server *)
Definition require_TOKENREGISTRY (from : string) : M unit :=
  addr ← lift (AccAddressFromBech32 from);
  ok ← gets (λ w, IsAdminAccount w AdminType_TOKENREGISTRY addr);
  throw_if (negb ok) ErrInvalidAddress.

Definition Register (req : MsgRegister) : M unit :=
  _ ← require_TOKENREGISTRY req.(rg_From); SetToken req.(rg_Entry).
Definition SetRegistry_handler (req : MsgSetRegistry) : M unit :=
  _ ← require_TOKENREGISTRY req.(sr_From); SetRegistry req.(sr_Registry).
Definition Deregister (req : MsgDeregister) : M unit :=
  _ ← require_TOKENREGISTRY req.(dr_From); RemoveToken req.(dr_Denom).
End registry.

(** ** Stateless validation (types/msgs.go) *)
Section validate.
Context {coins : CoinLib}.
Definition require (c : bool) : res unit := if c then Ok tt else Err ErrAnonymous.
Definition valid_denom (denom : string) : res unit :=
  _ ← require (negb (String.eqb denom ""));
  require (Coin_IsValid (mkCoin denom 1)).

Definition MsgRegister_ValidateBasic (m : MsgRegister) : res unit :=
  _ ← valid_denom m.(rg_Entry).(re_Denom);
  _ ← AccAddressFromBech32 m.(rg_From);
  require (negb (m.(rg_Entry).(Decimals) <? 0)).
Definition MsgSetRegistry_ValidateBasic (m : MsgSetRegistry) : res unit :=
  _ ← foldR (λ _ entry,
        _ ← valid_denom entry.(re_Denom);
        require (negb (entry.(Decimals) <? 0))) tt m.(sr_Registry).(Entries);
  _ ← AccAddressFromBech32 m.(sr_From); Ok tt.
Definition MsgDeregister_ValidateBasic (m : MsgDeregister) : res unit :=
  _ ← valid_denom m.(dr_Denom);
  _ ← AccAddressFromBech32 m.(dr_From); Ok tt.
End validate.

(** The interface the other modules use. *)
#[export] Instance token_registry_keeper {W} {errs : SdkErrors} {reg : HasStore Registry W}
    : TokenRegistryKeeper W := {
  Keepers.Registry := Registry;
  Keepers.RegistryEntry := RegistryEntry;
  Keepers.GetRegistry := store;
  Keepers.GetEntry := GetEntry;
  Keepers.CheckEntryPermissions := CheckEntryPermissions;
  Keepers.EntryDecimals := Decimals;
  Keepers.EntryDenom := re_Denom
}.
