(* ===== verification/RegistryModule.v ===== *)
(** * RegistryModule: the rest of x/tokenregistry

    x/tokenregistry/handler/handler.go, keeper/{genesis,grpc_query,querier,migrations}.go and
    types/genesis.go: the dispatch of messages, the genesis with the initial registry, the query,
    and the migration, which works on the raw store. *)

From S2P Require Import Prelude Sdk Rat Bank Keepers Registry.
Local Open Scope Z_scope.

(** ** Dispatch (handler/handler.go) *)
Inductive RegistryMsg :=
| TMsgRegister (m : MsgRegister)
| TMsgSetRegistry (m : MsgSetRegistry)
| TMsgDeregister (m : MsgDeregister).

(** ** Genesis (types/genesis.go, keeper/genesis.go) *)
Record GenesisState := mkGenesisState { gs_Registry : option Registry }.

(** An entry given by its denomination and decimals, its other fields empty. *)
Definition initial (denom : string) (decimals : Z) : RegistryEntry :=
  mkRegistryEntry decimals denom "" "" "" "" "" "" "" "" "" "" [Permission_CLP] "" "" "".
Definition initial_entries : list RegistryEntry :=
  [
    initial "fury" 18; initial "causc" 6; initial "cusdt" 6; initial "cusdc" 6;
    initial "cwscrt" 6; initial "cwbtc" 8; initial "ceth" 18; initial "cdai" 18;
    initial "cyfi" 18; initial "czrx" 18; initial "cwfil" 18; initial "cuni" 18;
    initial "cuma" 18; initial "ctusd" 18; initial "csxp" 18; initial "csushi" 18;
    initial "csusd" 18; initial "csrm" 18; initial "csnx" 18; initial "csand" 18;
    initial "crune" 18; initial "creef" 18; initial "cogn" 18; initial "cocean" 18;
    initial "cmana" 18; initial "clrc" 18; initial "clon" 18; initial "clink" 18;
    initial "ciotx" 18; initial "cgrt" 18; initial "cftm" 18; initial "cesd" 18;
    initial "cenj" 18; initial "ccream" 18; initial "ccomp" 18; initial "ccocos" 18;
    initial "cbond" 18; initial "cbnt" 18; initial "cbat" 18; initial "cband" 18;
    initial "cbal" 18; initial "cant" 18; initial "caave" 18; initial "c1inch" 18;
    initial "cleash" 18; initial "cshib" 18; initial "ctidal" 18; initial "cpaid" 18;
    initial "crndr" 18; initial "cconv" 18; initial "crally" 18; initial "crfuel" 18;
    initial "cakro" 18; initial "cb20" 18; initial "ctshp" 18; initial "clina" 18;
    initial "cdaofi" 18; initial "ckeep" 18
  ].
(** Every denomination that is none of IBC is its own base. *)
Definition set_base (e : RegistryEntry) : RegistryEntry :=
  if negb (String.prefix "ibc/" e.(re_Denom)) then
    mkRegistryEntry e.(Decimals) e.(re_Denom) e.(re_Denom) e.(Path) e.(IbcChannelId)
      e.(IbcCounterpartyChannelId) e.(DisplayName) e.(DisplaySymbol) e.(Network) e.(Address)
      e.(ExternalSymbol) e.(TransferLimit) e.(Permissions) e.(UnitDenom)
      e.(IbcCounterpartyDenom) e.(IbcCounterpartyChainId)
  else e.
Definition InitialRegistry : Registry := mkRegistry (map set_base initial_entries).
Definition DefaultGenesisState : GenesisState := mkGenesisState (Some InitialRegistry).

(** The JSON of the genesis and of query results: library code. *)
Class RegistryJson := {
  Unmarshal_GenesisState : string → res GenesisState;
  Marshal_QueryEntriesResponse : Registry → res string
}.
(** A missing state is the empty one; what cannot be read panics. *)
Definition UnmarshalGenesis `{RegistryJson} (state : option string) : res GenesisState :=
  match state with
  | Some state => must (Unmarshal_GenesisState state)
  | None => Ok (mkGenesisState None)
  end.
Definition GetGenesisStateFromAppState `{RegistryJson} (appState : gmap string string)
    : res GenesisState :=
  match appState !! "tokenregistry" with
  | Some state => must (Unmarshal_GenesisState state)
  | None => Ok (mkGenesisState None)
  end.

Section module.
Context {W : Type} {coins : CoinLib} {errs : SdkErrors} {admin : AdminKeeper W}
  {reg : HasStore Registry W} {json : RegistryJson}.
Notation M := (M W).

Definition NewHandler (msg : RegistryMsg) : M unit :=
  match msg with
  | TMsgRegister msg => Register msg
  | TMsgSetRegistry msg => SetRegistry_handler msg
  | TMsgDeregister msg => Deregister msg
  end.
Definition ValidateBasic (msg : RegistryMsg) : res unit :=
  match msg with
  | TMsgRegister msg => MsgRegister_ValidateBasic msg
  | TMsgSetRegistry msg => MsgSetRegistry_ValidateBasic msg
  | TMsgDeregister msg => MsgDeregister_ValidateBasic msg
  end.

Definition InitGenesis (state : GenesisState) : M unit :=
  match state.(gs_Registry) with
  | Some registry => SetRegistry registry
  | None => mret tt
  end.
Definition ExportGenesis : M GenesisState :=
  wl ← GetRegistry; mret (mkGenesisState (Some wl)).

(** ** Queries (keeper/grpc_query.go, keeper/querier.go) *)
Definition QueryEntries : string := "entries".
Definition Entries_query : M Registry := GetRegistry.
Definition queryDenoms : M string :=
  r ← Entries_query; lift (Marshal_QueryEntriesResponse r).
(** [path[0]] of an empty path panics. *)
Definition NewLegacyQuerier (path : list string) : M string :=
  match path with
  | [] => panic
  | p :: _ => if String.eqb p QueryEntries then queryDenoms else throw ErrUnknownRequest
  end.
End module.

(** ** The migration (keeper/migrations.go) *)
Notation RawStore := (gmap string string) (only parsing).
(** The keys under the old prefix, in the order of the iterator. *)
Definition old_keys (s : RawStore) : list string :=
  filter (λ k, String.prefix (String (ascii_of_nat 2) "") k = true) (kv_iter s).*1.
Definition MigrateToVer4 (s : RawStore) : RawStore := foldl (λ s k, delete k s) s (old_keys s).
