(* ===== verification/AdminModule.v ===== *)
(** * AdminModule: the rest of x/admin

    x/admin/types/genesis.go and x/admin/keeper/{handler,grpc_query,legacy_querier,migrations}.go:
    the first administrators, the legacy dispatch and the queries. *)

From S2P Require Import Prelude Sdk Rat Bank Keepers Admin.
Local Open Scope Z_scope.

(** ** Genesis (types/genesis.go) *)
(** Only the accounts are in the genesis, the parameters are not. *)
Record GenesisState := mkGenesisState { gs_AdminAccounts : list AdminAccount }.
(** The JSON of a genesis state. *)
Class AdminJson := { Unmarshal_GenesisState : string → res GenesisState }.
Definition UnmarshalGenesis `{AdminJson} (state : option string) : res GenesisState :=
  match state with None => Ok (mkGenesisState []) | Some state => must (Unmarshal_GenesisState state) end.
Definition prod_account : string := "black144w8cpva2xkly74xrms8djg69y3mljzplx3fjt".
Definition ProdAdminAccounts : list AdminAccount := [
  mkAdminAccount AdminType_ADMIN prod_account;
  mkAdminAccount AdminType_PMTPREWARDS prod_account;
  mkAdminAccount AdminType_CLPDEX prod_account;
  mkAdminAccount AdminType_TOKENREGISTRY prod_account;
  mkAdminAccount AdminType_ETHBRIDGE prod_account;
  mkAdminAccount AdminType_TOKENREGISTRY "black1npzemsc4s5gxpv2qt3na97tna03cj2h5xxe3cw";
  mkAdminAccount AdminType_ETHBRIDGE "black10wgwh7g3jktemd4d8jnswnf0zyk3hsq3uk3tff"].
Definition initial_account : string := "black1syavy2npfyt9tcncdtsdzf7kny9lh777yqc2nd".
Definition InitialAdminAccounts : list AdminAccount := [
  mkAdminAccount AdminType_ADMIN initial_account;
  mkAdminAccount AdminType_CLPDEX initial_account;
  mkAdminAccount AdminType_CLPDEX "black1l7hypmqk2yc334vc6vmdwzp5sdefygj2ad93p5";
  mkAdminAccount AdminType_PMTPREWARDS initial_account;
  mkAdminAccount AdminType_PMTPREWARDS prod_account;
  mkAdminAccount AdminType_PMTPREWARDS "black1l7hypmqk2yc334vc6vmdwzp5sdefygj2ad93p5";
  mkAdminAccount AdminType_ETHBRIDGE initial_account;
  mkAdminAccount AdminType_TOKENREGISTRY initial_account].

Inductive AdminMsg :=
| DMsgAddAccount (m : MsgAddAccount)
| DMsgRemoveAccount (m : MsgRemoveAccount)
| DMsgSetParams (m : MsgSetParams).

Section module.
Context {W : Type} {sdk : Sdk} {coins : CoinLib} {errs : SdkErrors} {adm : HasStore AdminStore W}
  {json : AdminJson}.
Notation M := (M W).

(** handler.go has no case for [MsgSetParams]; the message service has. *)
Definition NewHandler (msg : AdminMsg) : M unit :=
  match msg with
  | DMsgAddAccount msg => AddAccount msg
  | DMsgRemoveAccount msg => RemoveAccount msg
  | DMsgSetParams _ => throw ErrUnknownRequest
  end.

(** module.go *)
Definition InitGenesis_module (data : string) : M unit :=
  genesisState ← lift (must (Unmarshal_GenesisState data));
  InitGenesis genesisState.(gs_AdminAccounts).
Definition ExportGenesis_module : M GenesisState := accounts ← ExportGenesis; mret (mkGenesisState accounts).

(** migrations.go; it is not registered (module.go) *)
Definition InitialMigration (chainID : string) : M unit :=
  let accounts := if String.eqb chainID "offsideswap-1" then ProdAdminAccounts else InitialAdminAccounts in
  forM SetAdminAccount accounts.

(** grpc_query.go, legacy_querier.go *)
Definition ListAccounts : M (list AdminAccount) :=
  s ← get_store (S := AdminStore); mret (GetAdminAccounts s).
Definition GetParams_query : M AdminParams := Admin.GetParams.
Definition NewLegacyQuerier (path : list string) : M string :=
  match path with [] => panic | _ :: _ => throw ErrUnknownRequest end.
End module.
