(* ===== verification/ClpTypes.v ===== *)
(** * ClpTypes: assets, pools, liquidity providers, parameters, keys and the store of x/clp

    x/clp/types/{asset,types,keys,errors,params}.go and the messages of the protobuf
    definitions.  The store is the part of the KVStore under each key prefix. *)

From S2P Require Import Prelude Sdk Rat Bank.
Local Open Scope Z_scope.

(** ** Constants (types/keys.go) *)
Definition ModuleName : string := "clp".
Definition NativeSymbol : string := "fury".
Definition PoolThrehold : string := "1000000000000000000".
Definition NativeAssetDecimals : Z := 18.
Definition MaxSymbolLength : Z := 71.
Definition MaxWbasis : Z := 10000.

(** ** Errors (types/errors.go) *)
Definition clp_error (n : Z) : error := mkErr ModuleName n.
Definition ErrInvalid := clp_error 1.
Definition ErrPoolDoesNotExist := clp_error 2.
Definition ErrLiquidityProviderDoesNotExist := clp_error 3.
Definition ErrInValidAsset := clp_error 4.
Definition ErrInValidAmount := clp_error 5.
Definition ErrTotalAmountTooLow := clp_error 7.
Definition ErrNotEnoughAssetTokens := clp_error 8.
Definition ErrInvalidAsymmetry := clp_error 9.
Definition ErrInvalidWBasis := clp_error 10.
Definition ErrBalanceTooHigh := clp_error 11.
Definition ErrUnableToSetPool := clp_error 12.
Definition ErrUnableToDestroyPool := clp_error 13.
Definition ErrUnableToCreatePool := clp_error 14.
Definition ErrBalanceNotAvailable := clp_error 18.
Definition ErrTokenNotSupported := clp_error 19.
Definition ErrUnableToAddBalance := clp_error 20.
Definition ErrNotEnoughLiquidity := clp_error 21.
Definition ErrPoolTooShallow := clp_error 23.
Definition ErrOverFlow := clp_error 24.
Definition ErrUnableToAddLiquidity := clp_error 25.
Definition ErrUnableToRemoveLiquidity := clp_error 26.
Definition ErrUnableToSwap := clp_error 27.
Definition ErrUnableToRemoveLiquidityProvider := clp_error 28.
Definition ErrUnableToDecommissionPool := clp_error 29.
Definition ErrUnableToParseInt := clp_error 30.
Definition ErrReceivedAmountBelowExpected := clp_error 31.
Definition ErrAmountTooLow := clp_error 32.
Definition ErrNotEnoughPermissions := clp_error 33.
Definition ErrCannotStartPolicy := clp_error 34.
Definition ErrAsymmetricAdd := clp_error 35.
Definition ErrAsymmetricRemove := clp_error 36.
Definition ErrAsymmetricRatioAdd := clp_error 37.
Definition ErrTypeCast := clp_error 38.
Definition ErrReachedMaxFuryLiquidityThreshold := clp_error 39.
Definition ErrMaxFuryLiquidityThresholdAssetPoolDoesNotExist := clp_error 40.
Definition ErrQueued := clp_error 41.
Definition ErrRemovalsBlockedByHealth := clp_error 42.
Definition ErrBalanceModuleAccountCheck := clp_error 43.
Definition ErrUnitsCheck := clp_error 44.

(** ** Event types (types/events.go) *)
Definition EventTypeCreatePool : string := "created_new_pool".
Definition EventTypeDecommissionPool : string := "decommission_pool".
Definition EventTypeAddNewPmtpPolicy : string := "pmtp_new_policy".
Definition EventTypeEndPmtpPolicy : string := "pmtp_end_policy".
Definition EventTypeCreateLiquidityProvider : string := "created_new_liquidity_provider".
Definition EventTypeAddLiquidity : string := "added_liquidity".
Definition EventTypeRemoveLiquidity : string := "removed_liquidity".
Definition EventTypeRequestUnlock : string := "request_unlock_liquidity".
Definition EventTypeCancelUnlock : string := "cancel_unlock_liquidity".
Definition EventTypeSwap : string := "swap_successful".
Definition EventTypeSwapFailed : string := "swap_failed".
Definition EventTypeUpdateLiquidityProtectionParams : string := "liquidity_protection_update_params".
Definition EventTypeUpdateLiquidityProtectionRateParams : string := "liquidity_protection_update_rate_params".
Definition EventTypeAddNewProviderDistributionPolicy : string := "lppd_new_policy".
Definition EventTypeProviderDistributionDistribution : string := "lppd_distribution".
Definition EventTypeProcessedRemovalQueue : string := "processed_removal_queue".
Definition EventTypeQueueRemovalRequest : string := "queue_removal_request".
Definition EventTypeDequeueRemovalRequest : string := "dequeue_removal_request".
Definition EventTypeProcessRemovalError : string := "process_removal_error".

(** ** Assets (types/asset.go) *)
Record Asset := mkAsset { Symbol : string }.
#[export] Instance Asset_eq_dec : EqDecision Asset.
Proof. solve_decision. Defined.

Definition NewAsset (symbol : string) : Asset := mkAsset symbol.
Definition Asset_Equals (a a2 : Asset) : bool := String.eqb a.(Symbol) a2.(Symbol).
Definition Asset_IsEmpty (a : Asset) : bool := String.eqb a.(Symbol) "".
Definition GetSettlementAsset : Asset := mkAsset NativeSymbol.
Definition IsSettlementAsset (a : Asset) : bool := bool_decide (a = GetSettlementAsset).
Definition VerifyRange (num low high : Z) : bool :=
  if num >=? high then false else if num <=? low then false else true.
Definition StringCompare (a b : string) : bool := String.eqb a b.

(** [Validate] builds a coin of the asset, so it panics on a symbol that is not a valid
    denomination. *)
Definition Asset_Validate `{CoinLib} (a : Asset) : res bool :=
  if negb (VerifyRange (Z.of_nat (String.length (TrimSpace a.(Symbol)))) 0 MaxSymbolLength)
  then Ok false
  else coin ← NewCoin a.(Symbol) 1; Ok (Coin_IsValid coin).

Definition GetCLPModuleAddress `{CoinLib} : AccAddress := NewModuleAddress ModuleName.

(** ** Pools and liquidity providers (types/types.go, types.proto) *)
Record Pool := mkPool {
  ExternalAsset : Asset;
  NativeAssetBalance : Uint;
  ExternalAssetBalance : Uint;
  PoolUnits : Uint;
  SwapPriceNative : option Dec;
  SwapPriceExternal : option Dec;
  RewardPeriodNativeDistributed : Uint;
  ExternalLiabilities : Uint;
  ExternalCustody : Uint;
  NativeLiabilities : Uint;
  NativeCustody : Uint;
  Health : Dec;
  InterestRate : Dec;
  LastHeightInterestRateComputed : Z;
  UnsettledExternalLiabilities : Uint;
  UnsettledNativeLiabilities : Uint;
  BlockInterestNative : Uint;
  BlockInterestExternal : Uint
}.
#[export] Instance Pool_settable : Settable Pool := λ p,
  mkPool p.(ExternalAsset) p.(NativeAssetBalance) p.(ExternalAssetBalance) p.(PoolUnits)
    p.(SwapPriceNative) p.(SwapPriceExternal) p.(RewardPeriodNativeDistributed)
    p.(ExternalLiabilities) p.(ExternalCustody) p.(NativeLiabilities) p.(NativeCustody)
    p.(Health) p.(InterestRate) p.(LastHeightInterestRateComputed)
    p.(UnsettledExternalLiabilities) p.(UnsettledNativeLiabilities)
    p.(BlockInterestNative) p.(BlockInterestExternal).
#[export] Instance Pool_eq_dec : EqDecision Pool.
Proof. solve_decision. Defined.

(** [NewPool]; the fields the constructor leaves unset read back from the store as zero. *)
Definition NewPool (externalAsset : Asset) (nativeAssetBalance externalAssetBalance poolUnits : Uint)
    : Pool :=
  mkPool externalAsset nativeAssetBalance externalAssetBalance poolUnits
    None None 0 0 0 0 0 0 0 0 0 0 0 0.

Definition Pool_Validate `{CoinLib} (p : Pool) : res bool := Asset_Validate p.(ExternalAsset).

Record LiquidityUnlock := mkUnlock { RequestHeight : Z; UnlockUnits : Uint }.
#[export] Instance LiquidityUnlock_eq_dec : EqDecision LiquidityUnlock.
Proof. solve_decision. Defined.
#[export] Instance Unlock_settable : Settable LiquidityUnlock := λ u,
  mkUnlock u.(RequestHeight) u.(UnlockUnits).

Record LiquidityProvider := mkLP {
  LPAsset : Asset;
  LiquidityProviderUnits : Uint;
  LiquidityProviderAddress : string;
  Unlocks : list LiquidityUnlock
}.
#[export] Instance LP_settable : Settable LiquidityProvider := λ l,
  mkLP l.(LPAsset) l.(LiquidityProviderUnits) l.(LiquidityProviderAddress) l.(Unlocks).
#[export] Instance LiquidityProvider_eq_dec : EqDecision LiquidityProvider.
Proof. solve_decision. Defined.

Definition NewLiquidityProvider `{CoinLib} (asset : Asset) (units : Uint) (addr : AccAddress)
    : LiquidityProvider := mkLP asset units (AccString addr) [].
Definition LP_Validate `{CoinLib} (l : LiquidityProvider) : res bool :=
  ok ← Asset_Validate l.(LPAsset); Ok (if negb ok then false else true).

(** [X], [Y], [toFury] and the sent asset of a swap into [to]. *)
Definition ExtractValues (p : Pool) (to : Asset) : Uint * Uint * bool * Asset :=
  if IsSettlementAsset to
  then (p.(ExternalAssetBalance), p.(NativeAssetBalance), true, p.(ExternalAsset))
  else (p.(NativeAssetBalance), p.(ExternalAssetBalance), false, GetSettlementAsset).

Section pool_ops.
Context `{Sdk}.

Definition UpdateBalances (p : Pool) (toFury : bool) (X x Y swapResult : Uint) : res Pool :=
  if toFury then
    ext ← UintAdd X x;
    nat ← UintSub Y swapResult;
    Ok (p <| ExternalAssetBalance := ext |> <| NativeAssetBalance := nat |>)
  else
    nat ← UintAdd X x;
    ext ← UintSub Y swapResult;
    Ok (p <| NativeAssetBalance := nat |> <| ExternalAssetBalance := ext |>).

Definition ExtractDebt (p : Pool) (X Y : Uint) (toFury : bool) : res (Uint * Uint) :=
  if toFury then
    Y ← UintAdd Y p.(NativeLiabilities);
    X ← UintAdd X p.(ExternalLiabilities);
    Ok (X, Y)
  else
    X ← UintAdd X p.(NativeLiabilities);
    Y ← UintAdd Y p.(ExternalLiabilities);
    Ok (X, Y).
End pool_ops.

(** ** Parameters (params.proto, types/params.go) *)
Record Params := mkParams { MinCreatePoolThreshold : Z; EnableRemovalQueue : bool }.
Definition DefaultMinCreatePoolThreshold : Z := 100.
Definition NewParams (minThreshold : Z) : Params := mkParams minThreshold false.
Definition DefaultParams : Params := mkParams DefaultMinCreatePoolThreshold false.
Definition validateMinCreatePoolThreshold (v : Z) : res unit :=
  if v =? 0 then Err ErrAnonymous else Ok tt.
Definition Params_Validate (p : Params) : res unit :=
  _ ← validateMinCreatePoolThreshold p.(MinCreatePoolThreshold); Ok tt.

Record PoolMultiplier := mkPoolMultiplier { PoolMultiplierAsset : string; Multiplier : option Dec }.
Record RewardPeriod := mkRewardPeriod {
  RewardPeriodId : string;
  RewardPeriodStartBlock : Z;
  RewardPeriodEndBlock : Z;
  RewardPeriodAllocation : option Uint;
  RewardPeriodPoolMultipliers : list PoolMultiplier;
  RewardPeriodDefaultMultiplier : option Dec;
  RewardPeriodDistribute : bool;
  RewardPeriodMod : Z
}.
#[export] Instance RewardPeriod_settable : Settable RewardPeriod := λ p,
  mkRewardPeriod p.(RewardPeriodId) p.(RewardPeriodStartBlock) p.(RewardPeriodEndBlock)
    p.(RewardPeriodAllocation) p.(RewardPeriodPoolMultipliers) p.(RewardPeriodDefaultMultiplier)
    p.(RewardPeriodDistribute) p.(RewardPeriodMod).
Record RewardParams := mkRewardParams {
  LiquidityRemovalLockPeriod : Z;
  LiquidityRemovalCancelPeriod : Z;
  RewardPeriods : list RewardPeriod;
  RewardPeriodStartTime : string
}.
#[export] Instance RewardParams_settable : Settable RewardParams := λ p,
  mkRewardParams p.(LiquidityRemovalLockPeriod) p.(LiquidityRemovalCancelPeriod)
    p.(RewardPeriods) p.(RewardPeriodStartTime).

Record PmtpRateParams := mkPmtpRateParams {
  PmtpPeriodBlockRate : Dec;
  PmtpCurrentRunningRate : Dec;
  PmtpInterPolicyRate : Dec
}.
#[export] Instance PmtpRateParams_settable : Settable PmtpRateParams := λ p,
  mkPmtpRateParams p.(PmtpPeriodBlockRate) p.(PmtpCurrentRunningRate) p.(PmtpInterPolicyRate).
Record PmtpParams := mkPmtpParams {
  PmtpPeriodGovernanceRate : Dec;
  PmtpPeriodEpochLength : Z;
  PmtpPeriodStartBlock : Z;
  PmtpPeriodEndBlock : Z
}.
#[export] Instance PmtpParams_settable : Settable PmtpParams := λ p,
  mkPmtpParams p.(PmtpPeriodGovernanceRate) p.(PmtpPeriodEpochLength)
    p.(PmtpPeriodStartBlock) p.(PmtpPeriodEndBlock).
Record PmtpEpoch := mkPmtpEpoch { EpochCounter : Z; BlockCounter : Z }.
#[export] Instance PmtpEpoch_settable : Settable PmtpEpoch := λ e,
  mkPmtpEpoch e.(EpochCounter) e.(BlockCounter).

Record LiquidityProtectionParams := mkLiquidityProtectionParams {
  MaxFuryLiquidityThreshold : Uint;
  MaxFuryLiquidityThresholdAsset : string;
  EpochLength : Z;
  IsActive : bool
}.
#[export] Instance LiquidityProtectionParams_settable : Settable LiquidityProtectionParams := λ p,
  mkLiquidityProtectionParams p.(MaxFuryLiquidityThreshold) p.(MaxFuryLiquidityThresholdAsset)
    p.(EpochLength) p.(IsActive).
Record LiquidityProtectionRateParams := mkLiquidityProtectionRateParams {
  CurrentFuryLiquidityThreshold : Uint
}.

Record ProviderDistributionPeriod := mkProviderDistributionPeriod {
  DistributionPeriodBlockRate : Dec;
  DistributionPeriodStartBlock : Z;
  DistributionPeriodEndBlock : Z;
  DistributionPeriodMod : Z
}.
Record ProviderDistributionParams := mkProviderDistributionParams {
  DistributionPeriods : list ProviderDistributionPeriod
}.

Record SwapFeeTokenParams := mkSwapFeeTokenParams { SwapFeeAsset : string; SwapFeeRate : Dec }.
Record SwapFeeParams := mkSwapFeeParams {
  DefaultSwapFeeRate : Dec;
  TokenParams : list SwapFeeTokenParams
}.

(** Defaults (types/keys.go). *)
Definition GetDefaultRewardParams : RewardParams := mkRewardParams 0 (12 * 60 * 24 * 30) [] "".
Definition GetDefaultPmtpParams `{Sdk} : res PmtpParams :=
  r ← MustNewDecFromStr "0.0"; Ok (mkPmtpParams r 1 0 0).
Definition GetDefaultLiquidityProtectionParams : LiquidityProtectionParams :=
  mkLiquidityProtectionParams 1000000000000 "cusdc" 14400 false.

(** ** Messages (tx.proto) that the store keeps *)
Record MsgRemoveLiquidity := mkMsgRemoveLiquidity {
  rl_Signer : string;
  rl_ExternalAsset : Asset;
  rl_WBasisPoints : Int;
  rl_Asymmetry : Int
}.
#[export] Instance MsgRemoveLiquidity_settable : Settable MsgRemoveLiquidity := λ m,
  mkMsgRemoveLiquidity m.(rl_Signer) m.(rl_ExternalAsset) m.(rl_WBasisPoints) m.(rl_Asymmetry).
Record RemovalRequest := mkRemovalRequest { rr_Id : Z; rr_Value : Uint; rr_Msg : MsgRemoveLiquidity }.
#[export] Instance RemovalRequest_settable : Settable RemovalRequest := λ r,
  mkRemovalRequest r.(rr_Id) r.(rr_Value) r.(rr_Msg).
Record RemovalQueue := mkRemovalQueue {
  rq_Count : Z;
  rq_Id : Z;
  rq_StartHeight : Z;
  rq_TotalValue : Uint
}.
#[export] Instance RemovalQueue_settable : Settable RemovalQueue := λ q,
  mkRemovalQueue q.(rq_Count) q.(rq_Id) q.(rq_StartHeight) q.(rq_TotalValue).
Record MsgSetSymmetryThreshold := mkMsgSetSymmetryThreshold {
  st_Signer : string;
  st_Threshold : Dec;
  st_Ratio : Dec
}.

(** ** Keys (types/keys.go) *)
Definition PoolPrefix : ascii := ascii_of 0.
Definition LiquidityProviderPrefix : ascii := ascii_of 1.
Definition RemovalRequestPrefix : ascii := ascii_of 13.
Definition RemovalQueuePrefix : ascii := ascii_of 14.

Definition GetPoolKey (externalTicker nativeTicker : string) : string :=
  String PoolPrefix (externalTicker +:+ "_" +:+ nativeTicker).
Definition GetLiquidityProviderKey (externalTicker lp : string) : string :=
  String LiquidityProviderPrefix (externalTicker +:+ "_" +:+ lp).
Definition GetRemovalRequestKey (request : RemovalRequest) : string :=
  String RemovalRequestPrefix (request.(rr_Msg).(rl_Signer) +:+ "_" +:+ pretty request.(rr_Id)).
Definition GetRemovalRequestLPPrefix (lpaddress : string) : string :=
  String RemovalRequestPrefix lpaddress.
Definition GetRemovalQueueKey (symbol : string) : string :=
  String RemovalQueuePrefix ("_" +:+ symbol).

(** ** The store of the module

    One field per key prefix; the maps are keyed by the full key.  Parameters that
    InitGenesis always writes are plain fields, those with a default for a missing key are
    optional.  [cs_Params] is the module's parameter subspace. *)
Record ClpStore := mkClpStore {
  cs_Pools : gmap string Pool;
  cs_LPs : gmap string LiquidityProvider;
  cs_WhiteList : option (list string);
  cs_PmtpRateParams : PmtpRateParams;
  cs_PmtpEpoch : PmtpEpoch;
  cs_PmtpParams : PmtpParams;
  cs_RewardParams : RewardParams;
  cs_SymmetryThreshold : option MsgSetSymmetryThreshold;
  cs_LiquidityProtectionParams : LiquidityProtectionParams;
  cs_LiquidityProtectionRateParams : LiquidityProtectionRateParams;
  cs_ProviderDistributionParams : ProviderDistributionParams;
  cs_BlockDistributionAccu : option Uint;
  cs_SwapFeeParams : option SwapFeeParams;
  cs_RemovalRequests : gmap string RemovalRequest;
  cs_RemovalQueues : gmap string RemovalQueue;
  cs_Params : Params
}.
#[export] Instance ClpStore_settable : Settable ClpStore := λ s,
  mkClpStore s.(cs_Pools) s.(cs_LPs) s.(cs_WhiteList) s.(cs_PmtpRateParams) s.(cs_PmtpEpoch)
    s.(cs_PmtpParams) s.(cs_RewardParams) s.(cs_SymmetryThreshold)
    s.(cs_LiquidityProtectionParams) s.(cs_LiquidityProtectionRateParams)
    s.(cs_ProviderDistributionParams) s.(cs_BlockDistributionAccu) s.(cs_SwapFeeParams)
    s.(cs_RemovalRequests) s.(cs_RemovalQueues) s.(cs_Params).
