(* ===== verification/ClpMath.v ===== *)
(** * ClpMath: the arithmetic of the pools

    x/clp/keeper/{calculations,pureCalculation}.go.  All of it is pure; a function that can
    panic (an overflow, a negative result, a division by zero) returns [res]. *)

From S2P Require Import Prelude Sdk Rat Bank ClpTypes.
Local Open Scope Z_scope.

(** ** pureCalculation.go *)
Definition maxDecBitLen : Z := 315.

Definition DecToRat (d : Dec) : res Q := rat_Quo (rat_SetInt d) (inject_Z (10 ^ 18)).

Definition RatToDec (r : Q) : res Dec :=
  let multiplier := 10 ^ Precision in
  let d := Z.quot (Qnum r * multiplier) (Zpos (Qden r)) in
  if big_BitLen d >? maxDecBitLen then Err ErrAnonymous else Ok d.

Definition RatIntQuo (r : Q) : Z := rat_trunc r.

Definition ApproxRatSquareRoot (x : Q) : res Z := big_Sqrt (RatIntQuo x).

Definition IsAnyZero (inputs : list Uint) : bool := existsb (λ v, v =? 0) inputs.

Definition Int64ToUint8Safe (x : Z) : res Z :=
  let trial := uint8 x in
  if negb (int64 trial =? x) then Err ErrTypeCast else Ok trial.

Definition Abs (a : Z) : Z := if a <? 0 then uint16 (int16 (- a)) else uint16 a.

(** ** Swaps *)
Inductive LiquidityAddSymmetryState :=
| ErrorEmptyPool | ErrorNothingAdded | NeedMoreY | Symmetric | NeedMoreX.
#[export] Instance SymmetryState_eq_dec : EqDecision LiquidityAddSymmetryState.
Proof. solve_decision. Defined.

Inductive SwapStatus := SellNative | BuyNative | NoSwap.
#[export] Instance SwapStatus_eq_dec : EqDecision SwapStatus.
Proof. solve_decision. Defined.

Definition calcRawXYK (x X Y : Z) : res Q :=
  let xR := rat_SetInt x in
  let XR := rat_SetInt X in
  let YR := rat_SetInt Y in
  let numerator := (xR * YR)%Q in
  let denominator := (XR + xR)%Q in
  rat_Quo numerator denominator.

Definition calcPmtpFactor (r : Dec) : res Q :=
  rRat ← DecToRat r; Ok (1 + rRat)%Q.

Section calc.
Context `{Sdk}.

Definition CalcSwapPmtp (toFury : bool) (y pmtpCurrentRunningRate : Dec) : res Dec :=
  f ← DecAdd (NewDec 1) pmtpCurrentRunningRate;
  if toFury then DecQuo y f else DecMul y f.

Definition CalcSwapResult (toFury : bool) (X x Y : Uint) (pmtpCurrentRunningRate swapFeeRate : Dec)
    : res (Uint * Uint) :=
  if IsAnyZero [X; x; Y] then Ok (0, 0)
  else
    rawXYK ← calcRawXYK x X Y;
    pmtpFac ← calcPmtpFactor pmtpCurrentRunningRate;
    adjustedR ← (if toFury then rat_Quo rawXYK pmtpFac else Ok (rawXYK * pmtpFac)%Q);
    swapFeeRateR ← DecToRat swapFeeRate;
    let percentFeeR := (adjustedR * swapFeeRateR)%Q in
    percentFee ← NewUintFromBigInt (RatIntQuo percentFeeR);
    adjusted ← NewUintFromBigInt (RatIntQuo adjustedR);
    y ← UintSub adjusted percentFee;
    Ok (y, percentFee).

Definition calcPriceImpact (X x : Uint) : res Uint :=
  if x =? 0 then Ok 0
  else
    let d := x + X in
    q ← big_Quo x d;
    NewUintFromBigInt q.

(** Returns the amount bought, the fee, the price impact and the updated pool. *)
Definition SwapOne (from : Asset) (sentAmount : Uint) (to : Asset) (pool : Pool)
    (pmtpCurrentRunningRate swapFeeRate : Dec) : res (Uint * Uint * Uint * Pool) :=
  let '(X, Y, toFury, _) := ExtractValues pool to in
  '(Xincl, Yincl) ← ExtractDebt pool X Y toFury;
  priceImpact ← calcPriceImpact Xincl sentAmount;
  '(swapResult, liquidityFee) ←
    CalcSwapResult toFury Xincl sentAmount Yincl pmtpCurrentRunningRate swapFeeRate;
  if swapResult >=? Y then Err ErrNotEnoughAssetTokens
  else
    pool' ← UpdateBalances pool toFury X sentAmount Y swapResult;
    Ok (swapResult, liquidityFee, priceImpact, pool').

Definition GetSwapFee (sentAmount : Uint) (to : Asset) (pool : Pool)
    (pmtpCurrentRunningRate swapFeeRate : Dec) : res Uint :=
  let '(X, Y, toFury, _) := ExtractValues pool to in
  '(X, Y) ← ExtractDebt pool X Y toFury;
  '(swapResult, _) ← CalcSwapResult toFury X sentAmount Y pmtpCurrentRunningRate swapFeeRate;
  if swapResult >=? Y then Ok 0 else Ok swapResult.

Definition CalculateWithdrawalFuryValue (sentAmount : Uint) (to : Asset) (pool : Pool)
    (pmtpCurrentRunningRate swapFeeRate : Dec) : res Uint :=
  let '(X, Y, toFury, _) := ExtractValues pool to in
  '(X, Y) ← ExtractDebt pool X Y toFury;
  '(value, _) ← CalcSwapResult toFury X sentAmount Y pmtpCurrentRunningRate swapFeeRate;
  Ok value.

Definition CalculateDiscountedSentAmount (sentAmount : Uint) (swapFeeRate : Dec) : res Uint :=
  fee ← DecMul (NewDecFromBigInt sentAmount) swapFeeRate;
  feeInt ← DecRoundInt fee;
  UintSub sentAmount feeInt.

(** ** Prices *)
(** [10^decimalsX / 10^decimalsY] *)
Definition CalcDenomChangeMultiplier (decimalsX decimalsY : Z) : res Q :=
  let diff := Abs (int16 (int16 decimalsX - int16 decimalsY)) in
  let dec := 10 ^ diff in
  if decimalsX >? decimalsY then Ok (rat_SetInt dec) else rat_SetFrac 1 dec.

Definition CalcSpotPriceX (X Y : Uint) (decimalsX decimalsY : Z) (pmtpCurrentRunningRate : Dec)
    (isXNative : bool) : res Dec :=
  if X =? 0 then Err ErrInValidAmount
  else
    price ← rat_SetFrac Y X;
    pmtpFac ← calcPmtpFactor pmtpCurrentRunningRate;
    pmtpPrice ← (if isXNative then Ok (price * pmtpFac)%Q else rat_Quo price pmtpFac);
    dcm ← CalcDenomChangeMultiplier decimalsX decimalsY;
    RatToDec (pmtpPrice * dcm)%Q.

Definition CalcSpotPriceNative (pool : Pool) (decimalsExternal : Z) (pmtpCurrentRunningRate : Dec)
    : res Dec :=
  '(X, Y) ← ExtractDebt pool pool.(NativeAssetBalance) pool.(ExternalAssetBalance) false;
  CalcSpotPriceX X Y NativeAssetDecimals decimalsExternal pmtpCurrentRunningRate true.

Definition CalcSpotPriceExternal (pool : Pool) (decimalsExternal : Z) (pmtpCurrentRunningRate : Dec)
    : res Dec :=
  '(X, Y) ← ExtractDebt pool pool.(ExternalAssetBalance) pool.(NativeAssetBalance) true;
  CalcSpotPriceX X Y decimalsExternal NativeAssetDecimals pmtpCurrentRunningRate false.

Definition CalcFuryValue (furyAmount : Uint) (price : Dec) : res Uint :=
  value ← DecMul price (NewDecFromBigInt furyAmount);
  r ← DecRoundInt value;
  NewUintFromBigInt r.

Definition CalcFurySpotPrice (pool : Pool) (pmtpCurrentRunningRate : Dec) : res Dec :=
  '(furyBal, externalAssetBal) ←
    ExtractDebt pool pool.(NativeAssetBalance) pool.(ExternalAssetBalance) false;
  let furyBalance := NewDecFromBigInt furyBal in
  if furyBalance =? ZeroDec then Err ErrInValidAmount
  else
    let externalAssetBalance := NewDecFromBigInt externalAssetBal in
    unadjusted ← DecQuo externalAssetBalance furyBalance;
    f ← DecAdd pmtpCurrentRunningRate OneDec;
    DecMul unadjusted f.

(** ** Withdrawals *)
(** Returns native amount, external amount, units left and the amount to swap. *)
Definition CalculateWithdrawal (poolUnits : Uint) (nativeAssetDepth externalAssetDepth lpUnits
    wBasisPoints : string) (asymmetry : Int) : res (Uint * Uint * Uint * Uint) :=
  let poolUnitsF := NewDecFromBigInt poolUnits in
  nativeAssetDepthF ← must (NewDecFromStr nativeAssetDepth);
  externalAssetDepthF ← must (NewDecFromStr externalAssetDepth);
  lpUnitsF ← must (NewDecFromStr lpUnits);
  wBasisPointsF ← must (NewDecFromStr wBasisPoints);
  asymmetryF ← must (NewDecFromStr (IntString asymmetry));
  denominator ← DecQuo (NewDec 10000) wBasisPointsF;
  unitsToClaim ← DecQuo lpUnitsF denominator;
  share ← DecQuo poolUnitsF unitsToClaim;
  withdrawExternalAssetAmount ← DecQuo externalAssetDepthF share;
  share' ← DecQuo poolUnitsF unitsToClaim;
  withdrawNativeAssetAmount ← DecQuo nativeAssetDepthF share';
  swapAmount ←
    (if asymmetry >? 0 then
       a ← DecQuo (NewDec 10000) (DecAbs asymmetryF);
       unitsToSwap ← DecQuo unitsToClaim a;
       b ← DecQuo poolUnitsF unitsToSwap;
       DecQuo nativeAssetDepthF b
     else Ok (NewDec 0));
  swapAmount ←
    (if asymmetry <? 0 then
       a ← DecQuo (NewDec 10000) (DecAbs asymmetryF);
       unitsToSwap ← DecQuo unitsToClaim a;
       b ← DecQuo poolUnitsF unitsToSwap;
       DecQuo externalAssetDepthF b
     else Ok swapAmount);
  lpUnitsLeft ← DecSub lpUnitsF unitsToClaim;
  n ← DecTruncateInt withdrawNativeAssetAmount; n ← NewUintFromBigInt n;
  e ← DecTruncateInt withdrawExternalAssetAmount; e ← NewUintFromBigInt e;
  l ← DecTruncateInt lpUnitsLeft; l ← NewUintFromBigInt l;
  s ← DecTruncateInt swapAmount; s ← NewUintFromBigInt s;
  Ok (n, e, l, s).

(** Returns native amount, external amount and units left. *)
Definition CalculateWithdrawalFromUnits (poolUnits : Uint) (nativeAssetDepth externalAssetDepth
    lpUnits : string) (withdrawUnits : Uint) : res (Uint * Uint * Uint) :=
  let poolUnitsF := NewDecFromBigInt poolUnits in
  nativeAssetDepthF ← must (NewDecFromStr nativeAssetDepth);
  externalAssetDepthF ← must (NewDecFromStr externalAssetDepth);
  lpUnitsF ← must (NewDecFromStr lpUnits);
  withdrawUnitsF ← must (NewDecFromStr (UintString withdrawUnits));
  share ← DecQuo poolUnitsF withdrawUnitsF;
  withdrawExternalAssetAmount ← DecQuo externalAssetDepthF share;
  share' ← DecQuo poolUnitsF withdrawUnitsF;
  withdrawNativeAssetAmount ← DecQuo nativeAssetDepthF share';
  lpUnitsLeft ← DecSub lpUnitsF withdrawUnitsF;
  n ← DecRoundInt withdrawNativeAssetAmount; n ← NewUintFromBigInt n;
  e ← DecRoundInt withdrawExternalAssetAmount; e ← NewUintFromBigInt e;
  l ← DecRoundInt lpUnitsLeft; l ← NewUintFromBigInt l;
  Ok (n, e, l).

Definition CalculateAllAssetsForLP (pool : Pool) (lp : LiquidityProvider)
    : res (Uint * Uint * Uint * Uint) :=
  let poolUnits := pool.(PoolUnits) in
  '(nativeAssetDepth, externalAssetDepth) ←
    ExtractDebt pool pool.(NativeAssetBalance) pool.(ExternalAssetBalance) false;
  CalculateWithdrawal poolUnits (UintString nativeAssetDepth) (UintString externalAssetDepth)
    (UintString lp.(LiquidityProviderUnits)) (IntString MaxWbasis) 0.

Definition ConvUnitsToWBasisPoints (total units : Uint) : res Int :=
  totalDec ← must (NewDecFromStr (UintString total));
  unitsDec ← must (NewDecFromStr (UintString units));
  a ← DecQuo totalDec unitsDec;
  wbasis ← DecQuo (NewDec 10000) a;
  DecTruncateInt wbasis.

Definition ConvWBasisPointsToUnits (total : Uint) (wbasis : Int) : res Uint :=
  wbasisUint ← NewUintFromString (IntString wbasis);
  d ← UintQuo 10000 wbasisUint;
  UintQuo total d.
End calc.

(** ** Adding liquidity *)

(** How the added amounts [x], [y] compare to the pool's ratio [Y/X]. *)
Definition GetLiquidityAddSymmetryState (X x Y y : Uint) : res LiquidityAddSymmetryState :=
  if (X =? 0) || (Y =? 0) then Ok ErrorEmptyPool
  else if (x =? 0) && (y =? 0) then Ok ErrorNothingAdded
  else if x =? 0 then Ok NeedMoreX
  else
    YoverX ← rat_SetFrac Y X;
    yOverx ← rat_SetFrac y x;
    match rat_Cmp YoverX yOverx with
    | Lt => Ok NeedMoreX
    | Eq => Ok Symmetric
    | Gt => Ok NeedMoreY
    end.

(** The amount of external asset to swap, from the solution of the quadratic equation; the
    names are those of the code. *)
Definition CalculateExternalSwapAmountAsymmetricRat (Y X y x f r : Q) : res Q :=
  let minusOne := rat_SetInt (-1) in
  let one := rat_SetInt 1 in
  let two := rat_SetInt 2 in
  let four := rat_SetInt 4 in
  let r1 := (r + one)%Q in
  let a_ := (x + X)%Q in
  let b_ := (a_ * minusOne)%Q in
  let c_ := (Y * b_)%Q in
  let d_ := (f * f * x * Y)%Q in
  let e_ := (f * f * X * Y)%Q in
  let f_ := (two * f * r * x * Y)%Q in
  let g_ := (four * f * r * X * y)%Q in
  let h_ := (two * f * r * X * Y)%Q in
  let i_ := (four * f * X * y)%Q in
  let j_ := (four * f * X * Y)%Q in
  let k_ := (r * r * x * Y)%Q in
  let l_ := (r * r * X * Y)%Q in
  let m_ := (four * r * X * y)%Q in
  let n_ := (four * r * X * Y)%Q in
  let o_ := (four * X * y)%Q in
  let p_ := (four * X * Y)%Q in
  let q_ := (f * x * Y)%Q in
  let r_ := (f * X * Y)%Q in
  let s_ := (r * x * Y)%Q in
  let t_ := (two * r * X * y)%Q in
  let u_ := (r * X * Y)%Q in
  let v_ := (two * X * y)%Q in
  let w_ := (two * X * Y)%Q in
  let x_ := (y + Y)%Q in
  let y_ := (g_ + h_ + i_ + j_ - d_ - e_ - f_ - k_ - l_ - m_ - n_ - o_ - p_)%Q in
  let z_ := (c_ * y_)%Q in
  sq ← ApproxRatSquareRoot z_;
  let aa_ := rat_SetInt sq in
  let ab_ := (aa_ + q_ + r_ + s_ - t_ - u_ - v_ - w_)%Q in
  let ac_ := (two * r1 * x_)%Q in
  ad_ ← rat_Quo ab_ ac_;
  Ok (Qabs ad_).

(** The amount of native asset to swap. *)
Definition CalculateNativeSwapAmountAsymmetricRat (Y X y x f r : Q) : res Q :=
  let two := rat_SetInt 2 in
  let four := rat_SetInt 4 in
  let a_ := (f * r * X * y)%Q in
  let b_ := (f * r * X * Y)%Q in
  let c_ := (f * X * y)%Q in
  let d_ := (f * X * Y)%Q in
  let e_ := (r * X * y)%Q in
  let f_ := (r * X * Y)%Q in
  let g_ := (two * x * Y)%Q in
  let h_ := (two * X * Y)%Q in
  let i_ := (x + X)%Q in
  let j_ := (x * Y * Y)%Q in
  let k_ := (X * y * Y)%Q in
  let l_ := (j_ - k_)%Q in
  let m_ := (four * i_ * l_)%Q in
  let n_ := (f * r * X * y)%Q in
  let o_ := (f * r * X * Y)%Q in
  let p_ := (f * X * y)%Q in
  let q_ := (f * X * Y)%Q in
  let r_ := (r * X * y)%Q in
  let s_ := (r * X * Y)%Q in
  let t_ := (two * x * Y)%Q in
  let u_ := (two * X * Y)%Q in
  let v_ := ((x + X) * two)%Q in
  let w_ := (e_ + f_ + g_ + h_ - a_ - b_ - c_ - d_)%Q in
  let x_ := (w_ * w_)%Q in
  let y_ := (x_ - m_)%Q in
  sq ← ApproxRatSquareRoot y_;
  let z_ := rat_SetInt sq in
  let aa_ := (z_ + n_ + o_ + p_ + q_ - r_ - s_ - t_ - u_)%Q in
  ab_ ← rat_Quo aa_ v_;
  Ok (Qabs ab_).

Section units.
Context `{Sdk}.

Definition CalculateExternalSwapAmountAsymmetric (R A r a : Uint) (f p : Q) : res Uint :=
  s ← CalculateExternalSwapAmountAsymmetricRat (rat_SetInt R) (rat_SetInt A) (rat_SetInt r)
        (rat_SetInt a) f p;
  NewUintFromBigInt (RatIntQuo s).

Definition CalculateNativeSwapAmountAsymmetric (R A r a : Uint) (f p : Q) : res Uint :=
  s ← CalculateNativeSwapAmountAsymmetricRat (rat_SetInt R) (rat_SetInt A) (rat_SetInt r)
        (rat_SetInt a) f p;
  NewUintFromBigInt (RatIntQuo s).

(** [P * x / X] new units. *)
Definition CalculatePoolUnitsSymmetric (X x P : Uint) : res (Uint * Uint) :=
  providerUnitsB ← big_Quo (x * P) X;
  providerUnits ← NewUintFromBigInt providerUnitsB;
  newPoolUnits ← UintAdd P providerUnits;
  Ok (newPoolUnits, providerUnits).

(** Returns the new pool units, the provider's units, the swap made and its amount; the
    amounts the code leaves unset ([sdk.Uint{}]) are [None]. *)
Definition CalculatePoolUnits (P R A r a : Uint)
    (sellNativeSwapFeeRate buyNativeSwapFeeRate pmtpCurrentRunningRate : Dec)
    : res (Uint * Uint * SwapStatus * option Uint) :=
  pmtpCurrentRunningRateR ← DecToRat pmtpCurrentRunningRate;
  sellNativeSwapFeeRateR ← DecToRat sellNativeSwapFeeRate;
  buyNativeSwapFeeRateR ← DecToRat buyNativeSwapFeeRate;
  symmetryState ← GetLiquidityAddSymmetryState A a R r;
  match symmetryState with
  | ErrorEmptyPool =>
      if (a =? 0) || (r =? 0) then Err ErrInValidAmount else Ok (r, r, NoSwap, None)
  | ErrorNothingAdded => Ok (P, 0, NoSwap, None)
  | NeedMoreY =>
      swapAmount ← CalculateExternalSwapAmountAsymmetric R A r a buyNativeSwapFeeRateR
                     pmtpCurrentRunningRateR;
      aCorrected ← UintSub a swapAmount;
      AProjected ← UintAdd A swapAmount;
      '(poolUnits, lpUnits) ← CalculatePoolUnitsSymmetric AProjected aCorrected P;
      Ok (poolUnits, lpUnits, BuyNative, Some swapAmount)
  | Symmetric =>
      '(poolUnits, lpUnits) ← CalculatePoolUnitsSymmetric R r P;
      Ok (poolUnits, lpUnits, NoSwap, Some 0)
  | NeedMoreX =>
      swapAmount ← CalculateNativeSwapAmountAsymmetric R A r a sellNativeSwapFeeRateR
                     pmtpCurrentRunningRateR;
      rCorrected ← UintSub r swapAmount;
      RProjected ← UintAdd R swapAmount;
      '(poolUnits, lpUnits) ← CalculatePoolUnitsSymmetric RProjected rCorrected P;
      Ok (poolUnits, lpUnits, SellNative, Some swapAmount)
  end.
End units.
