(* ===== verification/ClpKeeper.v ===== *)
(** * ClpKeeper: the store operations of x/clp

    x/clp/keeper/{pool,liquidityprovider,keeper,params,swap_fee_params,reward_params,pmtp_params,
    pmtp_rate_params,pmtp_epoch,liquidityprotection,liquidityprotection_rate_params,
    validatorWhitelist,swap}.go: what reads and writes the records of [ClpTypes.ClpStore]. *)

From S2P Require Import Prelude Sdk Rat Bank Keepers ClpTypes ClpMath.
Local Open Scope Z_scope.

(** [query.FilteredPaginate] over the entries of a prefix store, with a page limit: the
    values the filter accepts. *)
Class Paginator := {
  FilteredPaginate {V : Type} : list (string * V) → Z → (V → bool) → res (list V)
}.
Definition hit_first {V} (f : V → bool) (entries : list (string * V)) : bool :=
  match entries with (_, v) :: _ => f v | [] => false end.
(** A page holds values of the entries, in their order and none twice; with a limit below
    [MaxUint64] that the hits do not exceed, it is all of them.  With the limit [MaxUint64] the
    number of hits to stop at is one more than the limit, which wraps to zero: the listing stops
    at its first entry if that is no hit, and is whole otherwise. *)
Class PaginatorLaws `(Paginator) : Prop := {
  filtered_paginate_sub {V} (entries : list (string * V)) limit f page :
    FilteredPaginate entries limit f = Ok page → page `sublist_of` entries.*2;
  filtered_paginate_all {V} (entries : list (string * V)) limit f :
    0 < limit < MaxUint64 →
    Z.of_nat (length (filter (λ v, f v = true) entries.*2)) <= limit →
    FilteredPaginate entries limit f = Ok (filter (λ v, f v = true) entries.*2);
  filtered_paginate_wrap {V} (entries : list (string * V)) f :
    Z.of_nat (length entries) < MaxUint64 →
    FilteredPaginate entries MaxUint64 f
    = Ok (if hit_first f entries then filter (λ v, f v = true) entries.*2 else [])
}.

(** The order in which [for k, v := range m] visits a Go map: some permutation of the
    entries, which may differ between the loops of a program ([site]). *)
Class GoRange := { go_range {A : Type} : string → list A → list A }.
Class GoRangeLaws `(GoRange) : Prop := {
  go_range_perm {A} site (l : list A) : go_range site l ≡ₚ l
}.

Section keeper.
Context {W : Type} {sdk : Sdk} {coins : CoinLib} {bank : BankKeeper W} {paginator : Paginator}
  {registry : TokenRegistryKeeper W} {clp : HasStore ClpStore W} {events : HasStore EventLog W}.
Notation M := (M W).

Definition get_clp : M ClpStore := get_store.
Definition upd_clp (f : ClpStore → ClpStore) : M unit := upd_store f.

(** ** Pools (pool.go) *)
Definition SetPool (pool : Pool) : M unit :=
  ok ← lift (Pool_Validate pool);
  _ ← throw_if (negb ok) ErrUnableToSetPool;
  let key := GetPoolKey pool.(ExternalAsset).(Symbol) GetSettlementAsset.(Symbol) in
  upd_clp (λ s, s <| cs_Pools ::= <[key := pool]> |>).

Definition ValidatePool (pool : Pool) : res bool :=
  ok ← Pool_Validate pool; Ok (if negb ok then false else true).

Definition GetPool (symbol : string) : M Pool :=
  let key := GetPoolKey symbol GetSettlementAsset.(Symbol) in
  s ← get_clp;
  match s.(cs_Pools) !! key with
  | None => throw ErrPoolDoesNotExist
  | Some pool => mret pool
  end.

Definition ExistsPool (symbol : string) : M bool :=
  let key := GetPoolKey symbol GetSettlementAsset.(Symbol) in
  s ← get_clp; mret (bool_decide (is_Some (s.(cs_Pools) !! key))).

Definition GetPools : M (list Pool) := s ← get_clp; mret (kv_values s.(cs_Pools)).

Definition DestroyPool (symbol : string) : M unit :=
  let key := GetPoolKey symbol GetSettlementAsset.(Symbol) in
  s ← get_clp;
  match s.(cs_Pools) !! key with
  | None => throw ErrPoolDoesNotExist
  | Some _ => upd_clp (λ s, s <| cs_Pools ::= delete key |>)
  end.

(** The functions below update the pool they are given through its pointer: they return it. *)
Definition SendFuryFromPoolNoPoolUpdate (pool : Pool) (amount : Uint) (recipient : AccAddress)
    : M Pool :=
  _ ← throw_if (pool.(NativeAssetBalance) <? amount) ErrAnonymous;
  amt ← lift (NewIntFromBigInt amount);
  coin ← lift (NewCoin NativeSymbol amt);
  cs ← lift (NewCoins [coin]);
  _ ← SendCoinsFromModuleToAccount ModuleName recipient cs;
  b ← lift (UintSub pool.(NativeAssetBalance) amount);
  mret (pool <| NativeAssetBalance := b |>).

Definition SendFuryFromPool (pool : Pool) (amount : Uint) (recipient : AccAddress) : M Pool :=
  pool ← SendFuryFromPoolNoPoolUpdate pool amount recipient;
  _ ← SetPool pool;
  mret pool.

Definition RemoveFuryFromPool (pool : Pool) (amount : Uint) : M Pool :=
  _ ← throw_if (pool.(NativeAssetBalance) <? amount) ErrAnonymous;
  b ← lift (UintSub pool.(NativeAssetBalance) amount);
  let pool := pool <| NativeAssetBalance := b |> in
  _ ← SetPool pool;
  mret pool.

(** ** Liquidity providers (liquidityprovider.go) *)
Definition SetLiquidityProvider (lp : LiquidityProvider) : M unit :=
  ok ← lift (LP_Validate lp);
  if negb ok then mret tt
  else
    let key := GetLiquidityProviderKey lp.(LPAsset).(Symbol) lp.(LiquidityProviderAddress) in
    upd_clp (λ s, s <| cs_LPs ::= <[key := lp]> |>).

Definition GetLiquidityProvider (symbol lpAddress : string) : M LiquidityProvider :=
  let key := GetLiquidityProviderKey symbol lpAddress in
  s ← get_clp;
  match s.(cs_LPs) !! key with
  | None => throw ErrLiquidityProviderDoesNotExist
  | Some lp => mret lp
  end.

Definition DestroyLiquidityProvider (symbol lpAddress : string) : M unit :=
  let key := GetLiquidityProviderKey symbol lpAddress in
  s ← get_clp;
  match s.(cs_LPs) !! key with
  | None => mret tt
  | Some _ => upd_clp (λ s, s <| cs_LPs ::= delete key |>)
  end.

Definition GetLiquidityProvidersForAssetPaginated (asset : Asset) (limit : Z)
    : M (list LiquidityProvider) :=
  s ← get_clp;
  wrap_err ErrAnonymous
    (lift (FilteredPaginate (kv_iter s.(cs_LPs)) limit (λ lp, Asset_Equals lp.(LPAsset) asset))).

Definition GetAllLiquidityProvidersForAsset (asset : Asset) : M (list LiquidityProvider) :=
  GetLiquidityProvidersForAssetPaginated asset (MaxUint64 - 1).

Definition GetAllLiquidityProviders : M (list LiquidityProvider) :=
  s ← get_clp;
  wrap_err ErrAnonymous
    (lift (FilteredPaginate (kv_iter s.(cs_LPs)) (MaxUint64 - 1) (λ _, true))).

Definition GetAssetsForLiquidityProviderPaginated (lpAddress : AccAddress) (limit : Z)
    : M (list Asset) :=
  s ← get_clp;
  lps ← wrap_err ErrAnonymous
    (lift (FilteredPaginate (kv_iter s.(cs_LPs)) limit
             (λ lp, String.eqb lp.(LiquidityProviderAddress) (AccString lpAddress))));
  mret (LPAsset <$> lps).

(** [map[types.Asset][]*types.LiquidityProvider], keyed by the asset's symbol. *)
Definition Partitions : Type := gmap string (list LiquidityProvider).
Definition partitionLPsbyAsset (lps : list LiquidityProvider) : Partitions :=
  fold_left (λ mapping lp,
    match mapping !! lp.(LPAsset).(Symbol) with
    | Some arr => <[lp.(LPAsset).(Symbol) := arr ++ [lp]]> mapping
    | None => <[lp.(LPAsset).(Symbol) := [lp]]> mapping
    end) lps ∅.

Definition GetAllLiquidityProvidersPartitions : M Partitions :=
  all ← GetAllLiquidityProviders; mret (partitionLPsbyAsset all).

(** ** keeper.go *)
Definition GetAssetDecimals (asset : Asset) : M Z :=
  reg ← gets GetRegistry;
  entry ← lift (GetEntry reg asset.(Symbol));
  lift (Int64ToUint8Safe (EntryDecimals entry)).

Definition GetSymmetryThreshold : M Dec :=
  s ← get_clp;
  mret (match s.(cs_SymmetryThreshold) with
        | None => NewDecWithPrec 5 5 | Some t => t.(st_Threshold) end).
Definition GetSymmetryRatio : M Dec :=
  s ← get_clp;
  mret (match s.(cs_SymmetryThreshold) with
        | None => NewDecWithPrec 5 3 | Some t => t.(st_Ratio) end).
Definition SetSymmetryThreshold (t : MsgSetSymmetryThreshold) : M unit :=
  upd_clp (λ s, s <| cs_SymmetryThreshold := Some t |>).
Definition ParseToInt (nu : string) : option Int := NewIntFromString nu.

(** ** Parameters *)
Definition GetMinCreatePoolThreshold : M Z :=
  s ← get_clp; mret s.(cs_Params).(MinCreatePoolThreshold).
Definition IsRemovalQueueEnabled : M bool := s ← get_clp; mret s.(cs_Params).(EnableRemovalQueue).
Definition GetParams : M Params := s ← get_clp; mret s.(cs_Params).
(** [SetParamSet] validates every parameter and panics on one that is refused. *)
Definition SetParams (p : Params) : M unit :=
  _ ← lift (must (validateMinCreatePoolThreshold p.(MinCreatePoolThreshold)));
  upd_clp (λ s, s <| cs_Params := p |>).

Definition SetSwapFeeParams (p : SwapFeeParams) : M unit :=
  upd_clp (λ s, s <| cs_SwapFeeParams := Some p |>).
Definition GetSwapFeeParams : M SwapFeeParams :=
  s ← get_clp;
  mret (match s.(cs_SwapFeeParams) with
        | None => mkSwapFeeParams (NewDecWithPrec 3 3) []
        | Some p => p end).
Definition GetSwapFeeRate (asset : Asset) (marginEnabled : bool) : M Dec :=
  params ← GetSwapFeeParams;
  let tokenParams := params.(TokenParams) in
  mret (match (if marginEnabled then None
               else list_find (λ p, StringCompare asset.(Symbol) p.(SwapFeeAsset) = true) tokenParams) with
        | Some (_, p) => p.(SwapFeeRate)
        | None => params.(DefaultSwapFeeRate)
        end).

Definition SetRewardParams (p : RewardParams) : M unit := upd_clp (λ s, s <| cs_RewardParams := p |>).
Definition GetRewardsParams : M RewardParams := s ← get_clp; mret s.(cs_RewardParams).

Definition SetPmtpParams (p : PmtpParams) : M unit := upd_clp (λ s, s <| cs_PmtpParams := p |>).
Definition GetPmtpParams : M PmtpParams := s ← get_clp; mret s.(cs_PmtpParams).

Definition SetPmtpRateParams (p : PmtpRateParams) : M unit :=
  upd_clp (λ s, s <| cs_PmtpRateParams := p |>).
Definition GetPmtpRateParams : M PmtpRateParams := s ← get_clp; mret s.(cs_PmtpRateParams).
Definition SetPmtpBlockRate (blockRate : Dec) : M unit :=
  p ← GetPmtpRateParams; SetPmtpRateParams (p <| PmtpPeriodBlockRate := blockRate |>).
Definition SetPmtpCurrentRunningRate (runningRate : Dec) : M unit :=
  p ← GetPmtpRateParams; SetPmtpRateParams (p <| PmtpCurrentRunningRate := runningRate |>).
Definition SetPmtpInterPolicyRate (interPolicyRate : Dec) : M unit :=
  p ← GetPmtpRateParams; SetPmtpRateParams (p <| PmtpInterPolicyRate := interPolicyRate |>).

Definition SetPmtpEpoch (e : PmtpEpoch) : M unit := upd_clp (λ s, s <| cs_PmtpEpoch := e |>).
Definition GetPmtpEpoch : M PmtpEpoch := s ← get_clp; mret s.(cs_PmtpEpoch).
Definition DecrementPmtpEpochCounter : M unit :=
  e ← GetPmtpEpoch; SetPmtpEpoch (e <| EpochCounter := int64 (e.(EpochCounter) - 1) |>).
Definition DecrementPmtpBlockCounter : M unit :=
  e ← GetPmtpEpoch; SetPmtpEpoch (e <| BlockCounter := int64 (e.(BlockCounter) - 1) |>).
Definition SetPmtpBlockCounter (epochLength : Z) : M unit :=
  e ← GetPmtpEpoch; SetPmtpEpoch (e <| BlockCounter := epochLength |>).

Definition SetLiquidityProtectionParams (p : LiquidityProtectionParams) : M unit :=
  upd_clp (λ s, s <| cs_LiquidityProtectionParams := p |>).
Definition GetLiquidityProtectionParams : M LiquidityProtectionParams :=
  s ← get_clp; mret s.(cs_LiquidityProtectionParams).
Definition SetLiquidityProtectionRateParams (p : LiquidityProtectionRateParams) : M unit :=
  upd_clp (λ s, s <| cs_LiquidityProtectionRateParams := p |>).
Definition GetLiquidityProtectionRateParams : M LiquidityProtectionRateParams :=
  s ← get_clp; mret s.(cs_LiquidityProtectionRateParams).
Definition SetLiquidityProtectionCurrentFuryLiquidityThreshold (t : Uint) : M unit :=
  _ ← GetLiquidityProtectionRateParams;
  SetLiquidityProtectionRateParams (mkLiquidityProtectionRateParams t).

Definition SetProviderDistributionParams (p : ProviderDistributionParams) : M unit :=
  upd_clp (λ s, s <| cs_ProviderDistributionParams := p |>).
Definition GetProviderDistributionParams : M ProviderDistributionParams :=
  s ← get_clp; mret s.(cs_ProviderDistributionParams).

Definition SetBlockDistributionAccu (blockDistribution : Uint) : M unit :=
  upd_clp (λ s, s <| cs_BlockDistributionAccu := Some blockDistribution |>).
Definition GetBlockDistributionAccu : M Uint :=
  s ← get_clp; mret (default 0 s.(cs_BlockDistributionAccu)).

(** ** The decommission whitelist (validatorWhitelist.go) *)
Definition SetClpWhiteList (validatorList : list AccAddress) : M unit :=
  upd_clp (λ s, s <| cs_WhiteList := Some (AccString <$> validatorList) |>).
Definition ExistsClpWhiteList : M bool := s ← get_clp; mret (bool_decide (is_Some s.(cs_WhiteList))).
Definition GetClpWhiteList : M (list AccAddress) :=
  s ← get_clp;
  lift (foldR (λ vl entry, addr ← must (AccAddressFromBech32 entry); Ok (vl ++ [addr])) []
          (default [] s.(cs_WhiteList))).
Definition ValidateAddress (address : AccAddress) : M bool :=
  ex ← ExistsClpWhiteList;
  if negb ex then mret false
  else valList ← GetClpWhiteList; mret (existsb (String.eqb address) valList).

(** ** swap.go *)
Definition CLPCalcSwap (sentAmount : Uint) (to : Asset) (pool : Pool) (marginEnabled : bool)
    : M Uint :=
  let '(X, Y, toFury, from) := ExtractValues pool to in
  '(Xincl, Yincl) ← lift (ExtractDebt pool X Y toFury);
  rates ← GetPmtpRateParams;
  let pmtpCurrentRunningRate := rates.(PmtpCurrentRunningRate) in
  swapFeeRate ← GetSwapFeeRate from marginEnabled;
  '(swapResult, _) ←
    lift (CalcSwapResult toFury Xincl sentAmount Yincl pmtpCurrentRunningRate swapFeeRate);
  _ ← throw_if (swapResult >=? Y) ErrNotEnoughAssetTokens;
  mret swapResult.
End keeper.
