(* ===== verification/Pages.v ===== *)
(** * Pages: the pagination of cosmos-sdk over a prefix store

    What x/clp and x/margin ask of types/query, its laws, a reference instance of them, and what
    a client sees who walks a listing page by page. *)

From S2P Require Import Prelude Sdk Rat Bank Keepers ClpTypes ClpMath ClpKeeper.
Local Open Scope Z_scope.

(** ** Library code *)
(** [query.PageRequest] and [query.PageResponse]; a nil request is [None]. *)
Record PageRequest := mkPageRequest {
  pg_Key : string; pg_Offset : Z; pg_Limit : Z; pg_CountTotal : bool; pg_Reverse : bool
}.
#[export] Instance PageRequest_settable : Settable PageRequest := λ p,
  mkPageRequest p.(pg_Key) p.(pg_Offset) p.(pg_Limit) p.(pg_CountTotal) p.(pg_Reverse).
Record PageResponse := mkPageResponse { NextKey : string; Total : Z }.
Definition limit_page (limit : Z) : PageRequest := mkPageRequest "" 0 limit false false.
(** [query.Paginate] over the entries of a prefix store; and the calls of its callback that
    [query.FilteredPaginate] makes, each with the flag that says whether the page takes the hit. *)
Class Pages := {
  Paginate {V} : list (string * V) → PageRequest → res (list V * PageResponse);
  FilteredCalls {V} : list (string * V) → PageRequest → (V → bool → bool)
    → res (list (V * bool) * PageResponse)
}.
(** The hits that the page takes, with the values that the callback then adds to its list. *)
Definition taken {V} (f : V → bool → bool) (calls : list (V * bool)) : list V :=
  (filter (λ c, c.2 && f c.1 c.2 = true) calls).*1.
(** The values of the first entries, and the key of the entry after them, if there is one. *)
Definition page_of {V} (limit : nat) (entries : list (string * V)) : list V * string :=
  ((take limit entries).*2, match drop limit entries with (k, _) :: _ => k | [] => "" end).
(** A page begins at the first entry, or at the entry of the key asked for; with a limit only a
    filtered page is [FilteredPaginate]; without a key an offset passes over as many hits. *)
Class PagesLaws `(Pages) `(Paginator) : Prop := {
  paginate_first {V} (entries : list (string * V)) limit : 0 < limit < 2 ^ 63 →
    ∃ total, Paginate entries (limit_page limit)
      = Ok ((page_of (Z.to_nat limit) entries).1, mkPageResponse (page_of (Z.to_nat limit) entries).2 total);
  paginate_next {V} (before after : list (string * V)) k v limit : 0 < limit < 2 ^ 63 → k ≠ "" →
    NoDup (before ++ (k, v) :: after).*1 →
    let page := page_of (Z.to_nat limit) ((k, v) :: after) in
    ∃ total, Paginate (before ++ (k, v) :: after) (limit_page limit <| pg_Key := k |>)
      = Ok (page.1, mkPageResponse page.2 total);
  filtered_limit {V} (entries : list (string * V)) limit f :
    (λ p, taken (λ v _, f v) p.1) <$> FilteredCalls entries (limit_page limit) (λ v _, f v)
    = FilteredPaginate entries limit f;
  filtered_offset {V} (entries : list (string * V)) page f calls resp before v after :
    page.(pg_Key) = "" → FilteredCalls entries page f = Ok (calls, resp) →
    calls = before ++ (v, true) :: after →
    page.(pg_Offset) <= Z.of_nat (length (filter (λ c, f c.1 c.2 = true) before))
}.

(** The entries of [prefix.NewStore]: those whose keys begin with the prefix, without it. *)
Definition prefix_store {V} (p : string) (m : gmap string V) : list (string * V) :=
  (λ e, (String.substring (String.length p) (String.length e.1 - String.length p) e.1, e.2))
    <$> filter (λ e : string * V, String.prefix p e.1 = true) (kv_iter m).
Lemma substring_app a b : String.substring (String.length a) (String.length b) (a +:+ b) = b.
Proof.
  induction a as [|x a IH]; [|exact IH]. rewrite string_app_nil.
  induction b as [|y b IHb]; simpl in *; [done|]. by rewrite IHb.
Qed.
Lemma prefix_app_self a b : String.prefix a (a +:+ b) = true.
Proof.
  induction a as [|x a IH]; [by destruct b|]. rewrite string_app_cons. simpl.
  by destruct (Ascii.ascii_dec x x).
Qed.
Lemma filter_id {A} (P : A → Prop) `{∀ x, Decision (P x)} (l : list A) : Forall P l → filter P l = l.
Proof. induction 1; [done|]. rewrite filter_cons, decide_True by done. by f_equal. Qed.
Lemma prefix_inv a k : String.prefix a k = true → ∃ rest, k = a +:+ rest.
Proof.
  revert k. induction a as [|x a IH]; intros k; [by exists k|]. destruct k as [|y k]; [done|]. simpl.
  destruct (Ascii.ascii_dec x y) as [->|]; [|done]. intros [rest ->]%IH. by exists rest.
Qed.
Section prefix_store.
Context {V : Type} (m : gmap string V) (p : string).
Lemma prefix_store_entries :
  filter (λ e : string * V, String.prefix p e.1 = true) (kv_iter m)
  = (λ e, (p +:+ e.1, e.2)) <$> prefix_store p m.
Proof.
  unfold prefix_store. induction (kv_iter m) as [|[k v] l IH]; [done|]. rewrite filter_cons. case_decide as E; [|done].
  csimpl. rewrite <- IH. f_equal. simpl in E. apply prefix_inv in E as [rest ->].
  by rewrite string_length_app, (Nat.add_comm (String.length p)), Nat.add_sub, substring_app.
Qed.
Lemma prefix_store_key k v : (k, v) ∈ prefix_store p m ↔ m !! (p +:+ k) = Some v.
Proof.
  assert ((p +:+ k, v) ∈ filter (λ e : string * V, String.prefix p e.1 = true) (kv_iter m)
          ↔ m !! (p +:+ k) = Some v) as <-.
  { rewrite list_elem_of_filter, elem_of_kv_iter. simpl. pose proof (prefix_app_self p k). tauto. }
  rewrite prefix_store_entries, list_elem_of_fmap. split; [by exists (k, v)|].
  by intros ([k' v'] & [= ->%(inj (String.append p)) ->] & H).
Qed.
Lemma prefix_store_nodup : NoDup (prefix_store p m).*1.
Proof.
  apply (NoDup_fmap_1 (λ k, p +:+ k)). rewrite <- list_fmap_compose.
  apply (sublist_NoDup _ _ (kv_keys_nodup m)).
  assert ((λ k, p +:+ k) ∘ fst <$> prefix_store p m
          = (filter (λ e : string * V, String.prefix p e.1 = true) (kv_iter m)).*1) as ->.
  { rewrite prefix_store_entries, <- list_fmap_compose. done. }
  apply fmap_sublist, sublist_filter.
Qed.
(** Cutting off a prefix that all keys have loses no value. *)
Lemma prefix_store_values : (∀ k v, m !! k = Some v → ∃ rest, k = p +:+ rest) →
  (prefix_store p m).*2 = kv_values m.
Proof.
  intros Hk. unfold kv_values. assert (filter (λ e : string * V, String.prefix p e.1 = true) (kv_iter m) = kv_iter m) as E.
  { apply filter_id, Forall_forall. intros [k v] Hin%elem_of_kv_iter. apply Hk in Hin as [rest ->]. apply prefix_app_self. }
  rewrite <- E, prefix_store_entries, <- list_fmap_compose. by apply list_fmap_ext.
Qed.
End prefix_store.

(** ** Walking a listing *)
(** A client asks for the first page, and then from the key it was given until there is none. *)
Inductive pages_walked {V} (ask : PageRequest → res (list V * string)) (limit : Z)
    : string → list V → Prop :=
| walk_ends key page : ask (limit_page limit <| pg_Key := key |>) = Ok (page, "") →
    pages_walked ask limit key page
| walk_on key page next rest : ask (limit_page limit <| pg_Key := key |>) = Ok (page, next) → next ≠ "" →
    pages_walked ask limit next rest → pages_walked ask limit key (page ++ rest).

Section walk.
Context `{PL : PagesLaws} {V : Type} (all : list (string * V)).
Hypothesis Hdistinct : NoDup all.*1.
(** What a listing answers: the values and the next key. *)
Definition shown (r : list V * PageResponse) : list V * string := (r.1, r.2.(NextKey)).

(** The page from a key on, for the first page and for the later ones. *)
Lemma Paginate_from before entries limit : 0 < limit < 2 ^ 63 →
  before ++ entries = all → Forall (λ e, e.1 ≠ "") entries →
  let key := match before, entries with _ :: _, (k, _) :: _ => k | _, _ => "" end in
  before = [] ∨ entries ≠ [] →
  ∃ total, Paginate all (limit_page limit <| pg_Key := key |>)
    = Ok ((page_of (Z.to_nat limit) entries).1, mkPageResponse (page_of (Z.to_nat limit) entries).2 total).
Proof.
  intros Hl E Hk key He. pose proof Hdistinct as Hnd. rewrite <- E in *. subst key.
  destruct before as [|b before]; [by apply paginate_first|].
  destruct entries as [|[k v] entries]; [by destruct He|]. inversion_clear Hk as [|? ? Hk1 _].
  exact (paginate_next (b :: before) entries k v limit Hl Hk1 Hnd).
Qed.
(** A listing that answers the pages of a store shows all of it, once and in order. *)
Lemma walk_from ask limit : 0 < limit < 2 ^ 63 →
  (∀ key p, Paginate all (limit_page limit <| pg_Key := key |>) = Ok p →
     ask (limit_page limit <| pg_Key := key |>) = Ok (shown p)) →
  ∀ n before entries, (length entries <= n)%nat →
  before ++ entries = all → Forall (λ e, e.1 ≠ "") entries → before = [] ∨ entries ≠ [] →
  pages_walked ask limit (match before, entries with _ :: _, (k, _) :: _ => k | _, _ => "" end) entries.*2.
Proof.
  intros Hl Hask n. induction n as [|n IH]; intros before entries Hlen E Hk He.
  all: destruct (Paginate_from _ _ limit Hl E Hk He) as (total & Hp).
  all: pose proof (Hask _ _ Hp) as Hq; unfold shown, page_of in Hq; simpl in Hq.
  { destruct entries; [|simpl in *; lia]. rewrite take_nil, drop_nil in Hq. by apply walk_ends. }
  destruct (drop (Z.to_nat limit) entries) as [|[k v] more] eqn:Ed.
  - rewrite take_ge in Hq. 2: { apply (f_equal length) in Ed. rewrite length_drop in Ed. simpl in Ed. lia. }
    by apply walk_ends.
  - pose proof (take_drop (Z.to_nat limit) entries) as Hs. rewrite Ed in Hs.
    assert (Z.to_nat limit ≠ 0%nat) as Hn0 by lia.
    assert (take (Z.to_nat limit) entries ≠ []) as Hfront.
    { intros Ht. destruct entries, (Z.to_nat limit); done. }
    assert (length ((k, v) :: more) <= n)%nat as Hlen2.
    { rewrite <- Ed, length_drop. lia. }
    clear Ed Hp. set (front := take (Z.to_nat limit) entries) in *. clearbody front. subst entries.
    rewrite fmap_app. rewrite app_assoc in E. apply Forall_app in Hk as [_ Hk].
    refine (walk_on _ _ _ _ _ _ Hq _ _); [by inversion Hk|].
    specialize (IH (before ++ front) ((k, v) :: more) Hlen2 E Hk (or_intror (λ H, nil_cons (eq_sym H)))).
    by destruct before, front.
Qed.
Lemma walk_all ask limit : 0 < limit < 2 ^ 63 → Forall (λ e, e.1 ≠ "") all →
  (∀ key p, Paginate all (limit_page limit <| pg_Key := key |>) = Ok p →
     ask (limit_page limit <| pg_Key := key |>) = Ok (shown p)) →
  pages_walked ask limit "" all.*2.
Proof.
  intros Hl Hk Hask.
  exact (walk_from ask limit Hl Hask _ [] all (le_n _) eq_refl Hk (or_introl eq_refl)).
Qed.
End walk.

(** ** A reference instance *)
(** Pages as cosmos-sdk cuts them. *)
Fixpoint entries_from {V} (key : string) (entries : list (string * V)) : list (string * V) :=
  match entries with
  | [] => []
  | (k, v) :: rest => if String.eqb k key then (k, v) :: rest else entries_from key rest
  end.
Definition cut {V} (entries : list (string * V)) (p : PageRequest) : list V * PageResponse :=
  let start := if String.eqb p.(pg_Key) "" then drop (Z.to_nat p.(pg_Offset)) entries
               else entries_from p.(pg_Key) entries in
  let page := page_of (Z.to_nat p.(pg_Limit)) start in
  (page.1, mkPageResponse page.2 (Z.of_nat (length entries))).
(** The calls of the callback: a hit is taken when [offset] hits came before it and the page is
    not full; at [stop] hits the listing ends. *)
Fixpoint calls_from {V} (f : V → bool → bool) (offset limit stop hits : Z) (entries : list (string * V))
    : list (V * bool) :=
  match entries with
  | [] => []
  | (_, v) :: rest =>
      let accumulate := (offset <=? hits) && (hits <? offset + limit) in
      let hits := hits + (if f v accumulate then 1 else 0) in
      (v, accumulate) :: (if hits =? stop then [] else calls_from f offset limit stop hits rest)
  end.
(** One hit after the page, in 64 bits; never when the total is asked for. *)
Definition stop_at (p : PageRequest) : Z :=
  if p.(pg_CountTotal) then -1 else uint64 (p.(pg_Offset) + p.(pg_Limit) + 1).
#[export] Instance ref_pages : Pages := {
  Paginate V entries p := Ok (cut entries p);
  FilteredCalls V entries p f :=
    let start := if String.eqb p.(pg_Key) "" then entries else entries_from p.(pg_Key) entries in
    let offset := if String.eqb p.(pg_Key) "" then p.(pg_Offset) else 0 in
    let calls := calls_from f offset p.(pg_Limit) (stop_at p) 0 start in
    Ok (calls, mkPageResponse "" (Z.of_nat (length calls)))
}.
Lemma entries_from_key {V} before k (v : V) after : NoDup (before ++ (k, v) :: after).*1 →
  entries_from k (before ++ (k, v) :: after) = (k, v) :: after.
Proof.
  induction before as [|[k' v'] before IH]; csimpl; [by rewrite String.eqb_refl|].
  intros [Hn Hd]%NoDup_cons. destruct (String.eqb_spec k' k) as [->|]; [|by apply IH].
  destruct Hn. rewrite fmap_app. apply elem_of_app. right. apply list_elem_of_here.
Qed.
Lemma calls_taken {V} (f : V → bool) limit stop (entries : list (string * V)) hits :
  0 <= hits → limit < stop ∨ stop < hits →
  taken (λ v _, f v) (calls_from (λ v _, f v) 0 limit stop hits entries)
  = take (Z.to_nat (limit - hits)) (filter (λ v, f v = true) entries.*2).
Proof.
  unfold taken. revert hits. induction entries as [|[k v] entries IH]; intros hits Hh Hs; [symmetry; apply take_nil|].
  csimpl. rewrite (proj2 (Z.leb_le 0 hits) Hh), (Z.add_0_l limit), !filter_cons. simpl.
  destruct (Z.eqb_spec (hits + (if f v then 1 else 0)) stop) as [E|E].
  - assert (limit <= hits) by (destruct (f v); lia).
    rewrite (proj2 (Z.ltb_ge hits limit)) by lia. simpl.
    by replace (Z.to_nat (limit - hits)) with 0%nat by lia.
  - destruct (f v) eqn:Ef; simpl; destruct (Z.ltb_spec hits limit); repeat case_decide; try done;
      csimpl; rewrite IH by lia.
    + replace (Z.to_nat (limit - hits)) with (S (Z.to_nat (limit - (hits + 1)))) by lia. done.
    + by replace (Z.to_nat (limit - hits)) with 0%nat by lia; replace (Z.to_nat (limit - (hits + 1))) with 0%nat by lia.
    + by rewrite Z.add_0_r.
    + by rewrite Z.add_0_r.
Qed.
Lemma calls_offset {V} f offset limit stop (entries : list (string * V)) before v after hits :
  calls_from f offset limit stop hits entries = before ++ (v, true) :: after →
  offset <= hits + Z.of_nat (length (filter (λ c, f c.1 c.2 = true) before)).
Proof.
  revert hits before. induction entries as [|[k x] entries IH]; intros hits before; simpl; [by destruct before|].
  destruct before as [|b before]; simpl; intros E; injection E as E1 E2.
  { apply andb_true_iff in E2 as [E2%Z.leb_le _]. simpl. lia. }
  subst b. case_match; [by destruct before|].
  apply IH in E2. rewrite filter_cons. simpl. destruct (f x _) eqn:Ef; case_decide; try done; simpl; lia.
Qed.
Lemma calls_sublist {V} f offset limit stop hits (entries : list (string * V)) :
  (calls_from f offset limit stop hits entries).*1 `sublist_of` entries.*2.
Proof.
  revert hits. induction entries as [|[k v] entries IH]; intros hits; [done|]. csimpl.
  apply sublist_skip. case_match; [apply sublist_nil_l|apply IH].
Qed.
