(* ===== verification/ClpPolicy.v ===== *)
(** * ClpPolicy: ratio shifting (PMTP), liquidity protection and the begin blocker of x/clp

    x/clp/keeper/{pmtp,liquidityprotection}.go and [BeginBlocker] of x/clp/abci.go. *)

From S2P Require Import Prelude Sdk Rat Bank Keepers ClpTypes ClpMath ClpKeeper.
Local Open Scope Z_scope.

(** The floating point part of [PolicyStart]: the text of
    [math.Pow(1 + governanceRate, numEpochs/numBlocks) - 1] with 18 decimals.
    [MustFloat64] panics when the rate does not convert. *)
Class PolicyFloat := { block_rate_text : Dec → Z → Z → res string }.

Section policy.
Context {W : Type} {sdk : Sdk} {coins : CoinLib} {bank : BankKeeper W} {paginator : Paginator}
  {registry : TokenRegistryKeeper W} {clp : HasStore ClpStore W} {events : HasStore EventLog W}
  {policy_float : PolicyFloat}.
Notation M := (M W).

(** ** pmtp.go *)
Definition PolicyStart : M unit :=
  pmtpParams ← GetPmtpParams;
  let pmtpPeriodStartBlock := pmtpParams.(PmtpPeriodStartBlock) in
  let pmtpPeriodEndBlock := pmtpParams.(PmtpPeriodEndBlock) in
  let pmtpPeriodEpochLength := pmtpParams.(PmtpPeriodEpochLength) in
  let pmtpPeriodGovernanceRate := pmtpParams.(PmtpPeriodGovernanceRate) in
  let numBlocksInPolicyPeriod := int64 (int64 (pmtpPeriodEndBlock - pmtpPeriodStartBlock) + 1) in
  numEpochsInPolicyPeriod ← lift (quo_s 64 numBlocksInPolicyPeriod pmtpPeriodEpochLength);
  base ← lift (DecAdd (NewDec 1) pmtpPeriodGovernanceRate);
  text ← lift (block_rate_text base numEpochsInPolicyPeriod numBlocksInPolicyPeriod);
  decBlockrate ← lift (must (NewDecFromStr text));
  _ ← SetPmtpBlockRate decBlockrate;
  SetPmtpEpoch (mkPmtpEpoch numEpochsInPolicyPeriod pmtpPeriodEpochLength).

Definition PolicyCalculations (ctx : Ctx) : M Dec :=
  let currentHeight := ctx.(BlockHeight) in
  params ← GetPmtpParams;
  let pmtpPeriodStartBlock := params.(PmtpPeriodStartBlock) in
  rateParams ← GetPmtpRateParams;
  let pmtpPeriodBlockRate := rateParams.(PmtpPeriodBlockRate) in
  let pmtpInterPolicyRate := rateParams.(PmtpInterPolicyRate) in
  base ← lift (DecAdd (NewDec 1) pmtpPeriodBlockRate);
  pw ← lift (DecPower base (uint64 (int64 (int64 (currentHeight - pmtpPeriodStartBlock) + 1))));
  r ← lift (DecSub pw (NewDec 1));
  pmtpCurrentRunningRate ← lift (DecAdd r pmtpInterPolicyRate);
  _ ← SetPmtpCurrentRunningRate pmtpCurrentRunningRate;
  mret pmtpCurrentRunningRate.

(** [x, err := f(); if err != nil { x = d }]: a panic still propagates. *)
Definition or_else {A} (r : res A) (d : A) : res A := match r with Err _ => Ok d | _ => r end.

Definition PolicyRun_pool (pmtpCurrentRunningRate : Dec) (pool : Pool) : M unit :=
  d ← try (GetAssetDecimals pool.(ExternalAsset));
  match d with
  | inl _ => mret tt
  | inr decimalsExternal =>
      spotPriceNative ←
        lift (or_else (CalcSpotPriceNative pool decimalsExternal pmtpCurrentRunningRate) ZeroDec);
      spotPriceExternal ←
        lift (or_else (CalcSpotPriceExternal pool decimalsExternal pmtpCurrentRunningRate) ZeroDec);
      let pool := pool <| SwapPriceNative := Some spotPriceNative |>
                       <| SwapPriceExternal := Some spotPriceExternal |> in
      ignore_err (SetPool pool)
  end.

Definition PolicyRun (pmtpCurrentRunningRate : Dec) : M unit :=
  pools ← GetPools;
  forM (PolicyRun_pool pmtpCurrentRunningRate) pools.

Definition IsInsidePmtpWindow (ctx : Ctx) : M bool :=
  params ← GetPmtpParams;
  mret ((ctx.(BlockHeight) <=? params.(PmtpPeriodEndBlock))
        && (ctx.(BlockHeight) >=? params.(PmtpPeriodStartBlock))).

(** ** liquidityprotection.go *)
Definition MustUpdateLiquidityProtectionThreshold (sellNative : bool) (nativeAmount : Uint)
    (nativePrice : Dec) : M unit :=
  liquidityProtectionParams ← GetLiquidityProtectionParams;
  let maxFuryLiquidityThreshold := liquidityProtectionParams.(MaxFuryLiquidityThreshold) in
  rate ← GetLiquidityProtectionRateParams;
  let currentFuryLiquidityThreshold := rate.(CurrentFuryLiquidityThreshold) in
  if liquidityProtectionParams.(IsActive) then
    nativeValue ← lift (CalcFuryValue nativeAmount nativePrice);
    updatedFuryLiquidityThreshold ←
      (if sellNative then
         if currentFuryLiquidityThreshold <? nativeValue then panic
         else lift (UintSub currentFuryLiquidityThreshold nativeValue)
       else
         room ← lift (UintSub maxFuryLiquidityThreshold currentFuryLiquidityThreshold);
         if room <? nativeValue then mret maxFuryLiquidityThreshold
         else lift (UintAdd currentFuryLiquidityThreshold nativeValue));
    SetLiquidityProtectionCurrentFuryLiquidityThreshold updatedFuryLiquidityThreshold
  else mret tt.

Definition GetNativePrice : M Dec :=
  liquidityProtectionParams ← GetLiquidityProtectionParams;
  let maxFuryLiquidityThresholdAsset := liquidityProtectionParams.(MaxFuryLiquidityThresholdAsset) in
  if StringCompare maxFuryLiquidityThresholdAsset NativeSymbol then mret OneDec
  else
    pool ← wrap_err ErrMaxFuryLiquidityThresholdAssetPoolDoesNotExist
             (GetPool maxFuryLiquidityThresholdAsset);
    rates ← GetPmtpRateParams;
    lift (CalcFurySpotPrice pool rates.(PmtpCurrentRunningRate)).

Definition IsBlockedByLiquidityProtection (nativeAmount : Uint) (nativePrice : Dec) : M bool :=
  value ← lift (CalcFuryValue nativeAmount nativePrice);
  rate ← GetLiquidityProtectionRateParams;
  mret (rate.(CurrentFuryLiquidityThreshold) <? value).

(** ** BeginBlocker (abci.go), in the order of the code *)

(** The threshold recovers by [max / epochLength] per block, up to [max]. *)
Definition replenish_threshold : M unit :=
  liquidityProtectionParams ← GetLiquidityProtectionParams;
  let maxFuryLiquidityThreshold := liquidityProtectionParams.(MaxFuryLiquidityThreshold) in
  if liquidityProtectionParams.(IsActive) then
    rate ← GetLiquidityProtectionRateParams;
    let currentFuryLiquidityThreshold := rate.(CurrentFuryLiquidityThreshold) in
    replenishmentAmount ←
      lift (UintQuo maxFuryLiquidityThreshold liquidityProtectionParams.(EpochLength));
    room ← lift (UintSub maxFuryLiquidityThreshold currentFuryLiquidityThreshold);
    next ← (if room <? replenishmentAmount then mret maxFuryLiquidityThreshold
            else lift (UintAdd currentFuryLiquidityThreshold replenishmentAmount));
    SetLiquidityProtectionCurrentFuryLiquidityThreshold next
  else mret tt.

(** The policy counters; returns the running rate to apply. *)
Definition run_policy_counters (ctx : Ctx) : M Dec :=
  let currentHeight := ctx.(BlockHeight) in
  params ← GetPmtpParams;
  let pmtpPeriodStartBlock := params.(PmtpPeriodStartBlock) in
  let pmtpPeriodEndBlock := params.(PmtpPeriodEndBlock) in
  (* start policy *)
  epoch ← GetPmtpEpoch;
  _ ← (if (currentHeight =? pmtpPeriodStartBlock) && (epoch.(EpochCounter) =? 0)
          && (epoch.(BlockCounter) =? 0)
       then _ ← PolicyStart; EmitEvent "policy_start"
       else mret tt);
  (* default to the current running rate *)
  rates ← GetPmtpRateParams;
  (* manage block counter *)
  epoch ← GetPmtpEpoch;
  pmtpCurrentRunningRate ←
    (if (currentHeight >=? pmtpPeriodStartBlock) && (currentHeight <=? pmtpPeriodEndBlock)
        && (epoch.(EpochCounter) >? 0)
     then r ← PolicyCalculations ctx; _ ← DecrementPmtpBlockCounter; mret r
     else mret rates.(PmtpCurrentRunningRate));
  (* manage epoch counter *)
  epoch ← GetPmtpEpoch;
  _ ← (if (epoch.(BlockCounter) =? 0) && (currentHeight <? pmtpPeriodEndBlock)
          && (currentHeight >=? pmtpPeriodStartBlock)
       then _ ← DecrementPmtpEpochCounter;
            params ← GetPmtpParams;
            SetPmtpBlockCounter params.(PmtpPeriodEpochLength)
       else mret tt);
  (* end policy *)
  _ ← (if currentHeight =? pmtpPeriodEndBlock
       then _ ← SetPmtpEpoch (mkPmtpEpoch 0 0);
            _ ← SetPmtpInterPolicyRate pmtpCurrentRunningRate;
            EmitEvent "policy_end"
       else mret tt);
  mret pmtpCurrentRunningRate.

Definition BeginBlocker (ctx : Ctx) : M unit :=
  _ ← replenish_threshold;
  pmtpCurrentRunningRate ← run_policy_counters ctx;
  ignore_err (PolicyRun pmtpCurrentRunningRate).
End policy.
