(* ===== verification/ClpRewards.v ===== *)
(** * ClpRewards: rewards, provider distribution, unlocks and the end blocker of x/clp

    x/clp/keeper/{rewards,provider_distribution}.go and [EndBlocker] of x/clp/abci.go.

    The code hands around pointers to the pools it read once: here the pools are a list, a
    pointer is a position in it ([PoolRef]), and what updates a pool returns the new list. *)

From S2P Require Import Prelude Sdk Rat Bank Keepers ClpTypes ClpMath ClpKeeper.
Local Open Scope Z_scope.

Definition PoolRef : Type := nat.
Definition PoolHeap : Type := list Pool.
Definition PoolFuryMap : Type := gmap nat Uint.
Definition LpFuryMap : Type := gmap string Uint.
Record LPPool := mkLPPool { lpp_Pool : PoolRef; lpp_Amount : Uint }.
Definition LpPoolMap : Type := gmap string (list LPPool).
Record PoolReward := mkPoolReward { pr_Pool : PoolRef; pr_Reward : Uint }.
Record ValidLiquidityProvider := mkValidLP { vlp_Address : AccAddress; vlp_LP : LiquidityProvider }.

(** A dereferenced pointer: positions come from the list itself. *)
Definition deref (pools : PoolHeap) (r : PoolRef) : res Pool :=
  match pools !! r with Some p => Ok p | None => Panic end.
Definition refs (pools : PoolHeap) : list PoolRef := seq 0 (length pools).

(** ** Periods *)
Definition in_reward_period (height : Z) (period : RewardPeriod) : bool :=
  (height >=? period.(RewardPeriodStartBlock)) && (height <=? period.(RewardPeriodEndBlock)).
Definition GetCurrentRewardPeriod (ctx : Ctx) (params : RewardParams) : option RewardPeriod :=
  let height := uint64 ctx.(BlockHeight) in
  match list_find (λ p, in_reward_period height p = true) params.(RewardPeriods) with
  | Some (_, period) =>
      Some (if period.(RewardPeriodMod) =? 0 then period <| RewardPeriodMod := 1 |> else period)
  | None => None
  end.

Definition isActivePeriod (current start end_ : Z) : bool :=
  (current >=? int64 start) && (current <=? int64 end_).
Definition FindProviderDistributionPeriod (currentHeight : Z)
    (periods : list ProviderDistributionPeriod) : option ProviderDistributionPeriod :=
  match list_find (λ p, isActivePeriod currentHeight p.(DistributionPeriodStartBlock)
                          p.(DistributionPeriodEndBlock) = true) periods with
  | Some (_, period) => Some period
  | None => None
  end.

(** Every [mod] blocks starting at [startHeight]; [mod = 0] panics. *)
Definition IsDistributionBlockPure (blockHeight startHeight mod_ : Z) : res bool :=
  r ← rem_s (int64 (blockHeight - int64 startHeight)) (int64 mod_); Ok (r =? 0).

Definition GetPoolMultiplier (asset : string) (period : RewardPeriod) : res Dec :=
  match list_find (λ m, StringCompare asset m.(PoolMultiplierAsset) = true ∧ is_Some m.(Multiplier))
          period.(RewardPeriodPoolMultipliers) with
  | Some (_, m) => match m.(Multiplier) with Some d => Ok d | None => Panic end
  | None => match period.(RewardPeriodDefaultMultiplier) with Some d => Ok d | None => Panic end
  end.

Section rewards_pure.
Context {sdk : Sdk} {coins : CoinLib}.

Definition CalcBlockDistribution (period : RewardPeriod) : res Uint :=
  let periodLength :=
    uint64 (uint64 (period.(RewardPeriodEndBlock) - period.(RewardPeriodStartBlock)) + 1) in
  match period.(RewardPeriodAllocation) with
  | None => Panic
  | Some allocation => UintQuo allocation periodLength
  end.

Definition calcPoolDistribution (multiplier : Dec) (poolNativeBalance : Uint) (totalDepth : Dec)
    (blockDistributionAmount : Uint) : res Uint :=
  weighted ← DecMul (NewDecFromBigInt poolNativeBalance) multiplier;
  weight ← DecQuo weighted totalDepth;
  poolDistribution ← DecMul weight (NewDecFromBigInt blockDistributionAmount);
  t ← DecTruncateInt poolDistribution;
  NewUintFromBigInt t.

(** The loop of [CollectPoolRewardTuples]: it stops as soon as nothing remains. *)
Fixpoint collect_tuples (pools : list (PoolRef * Pool)) (blockDistribution : Uint)
    (totalDepth : Dec) (period : RewardPeriod) (tuples : list PoolReward)
    (coinsToMint remaining : Uint) : res (list PoolReward * Uint) :=
  match pools with
  | [] => Ok (tuples, coinsToMint)
  | (ref, pool) :: pools =>
      if remaining =? 0 then Ok (tuples, coinsToMint)
      else
        m ← GetPoolMultiplier pool.(ExternalAsset).(Symbol) period;
        poolDistribution ←
          calcPoolDistribution m pool.(NativeAssetBalance) totalDepth blockDistribution;
        if poolDistribution =? 0 then
          collect_tuples pools blockDistribution totalDepth period tuples coinsToMint remaining
        else
          let poolDistribution := if poolDistribution >? remaining then remaining else poolDistribution in
          coinsToMint ← UintAdd coinsToMint poolDistribution;
          remaining ← UintSub remaining poolDistribution;
          collect_tuples pools blockDistribution totalDepth period
            (tuples ++ [mkPoolReward ref poolDistribution]) coinsToMint remaining
  end.

Definition CollectPoolRewardTuples (pools : PoolHeap) (blockDistribution : Uint) (totalDepth : Dec)
    (period : RewardPeriod) : res (list PoolReward * Uint) :=
  collect_tuples (zip (refs pools) pools) blockDistribution totalDepth period [] 0 blockDistribution.

Definition CalcProviderDistributionAmount (furyProviderDistribution : Dec)
    (totalPoolUnits providerPoolUnits : Uint) : res Uint :=
  providerPercentage ← DecQuo (NewDecFromBigInt providerPoolUnits) (NewDecFromBigInt totalPoolUnits);
  providerFury ← DecMul providerPercentage furyProviderDistribution;
  DecRoundInt providerFury.

(** The loop of [CollectProviderDistribution] over the providers of one pool. *)
Fixpoint collect_providers (pool : PoolRef) (furyPd : Dec) (furyPdUint poolUnits : Uint)
    (lps : list ValidLiquidityProvider) (total : Uint) (lpMap : LpFuryMap) (lpPoolMap : LpPoolMap)
    : res (Uint * LpFuryMap * LpPoolMap) :=
  match lps with
  | [] => Ok (total, lpMap, lpPoolMap)
  | lp :: lps =>
      providerFury ←
        CalcProviderDistributionAmount furyPd poolUnits lp.(vlp_LP).(LiquidityProviderUnits);
      total ← UintAdd total providerFury;
      '(providerFury, total) ←
        (if total >? furyPdUint then
           before ← UintSub total providerFury;
           rest ← UintSub furyPdUint before;
           Ok (rest, furyPdUint)
         else Ok (providerFury, total));
      let addr := AccString lp.(vlp_Address) in
      globalLpFury ← UintAdd (default 0 (lpMap !! addr)) providerFury;
      let elem := mkLPPool pool providerFury in
      let arr := match lpPoolMap !! addr with None => [elem] | Some a => a ++ [elem] end in
      collect_providers pool furyPd furyPdUint poolUnits lps total
        (<[addr := globalLpFury]> lpMap) (<[addr := arr]> lpPoolMap)
  end.

Definition CollectProviderDistribution (pool : PoolRef) (poolDepthFury blockRate : Dec)
    (poolUnits : Uint) (lps : list ValidLiquidityProvider) (lpMap : LpFuryMap)
    (lpPoolMap : LpPoolMap) : res (Uint * LpFuryMap * LpPoolMap) :=
  furyPd ← DecMul blockRate poolDepthFury;
  r ← DecRoundInt furyPd;
  furyPdUint ← NewUintFromBigInt r;
  collect_providers pool furyPd furyPdUint poolUnits lps 0 lpMap lpPoolMap.

Definition CollectRewards (pool : PoolRef) (poolDistribution poolUnits : Uint)
    (lps : list ValidLiquidityProvider) (poolFuryMap : PoolFuryMap) (lpFuryMap : LpFuryMap)
    (lpPoolMap : LpPoolMap) : res (PoolFuryMap * LpFuryMap * LpPoolMap) :=
  '(furyToDistribute, lpFuryMap, lpPoolMap) ←
    CollectProviderDistribution pool (NewDecFromBigInt poolDistribution) (NewDec 1) poolUnits lps
      lpFuryMap lpPoolMap;
  Ok (<[pool := furyToDistribute]> poolFuryMap, lpFuryMap, lpPoolMap).
End rewards_pure.

Section rewards.
Context {W : Type} {sdk : Sdk} {coins : CoinLib} {bank : BankKeeper W} {paginator : Paginator}
  {order : GoRange} {clp : HasStore ClpStore W} {events : HasStore EventLog W}.
Notation M := (M W).

Definition GetModuleFury : M Coin := gets (λ w, GetBalance w GetCLPModuleAddress NativeSymbol).

Definition BurnFury (amount : Int) : M unit :=
  coin ← lift (NewCoin NativeSymbol amount);
  cs ← lift (NewCoins [coin]);
  BurnCoins ModuleName cs.

Definition addRewardsToPool (pools : PoolHeap) (r : PoolRef) (poolDistribution : Uint) : M PoolHeap :=
  pool ← lift (deref pools r);
  nb ← lift (UintAdd pool.(NativeAssetBalance) poolDistribution);
  nd ← lift (UintAdd pool.(RewardPeriodNativeDistributed) poolDistribution);
  let pool := pool <| NativeAssetBalance := nb |> <| RewardPeriodNativeDistributed := nd |> in
  _ ← ignore_err (SetPool pool);
  mret (<[r := pool]> pools).

(** Sums the weighted depths; at the first block of a period it also resets and stores each
    pool's counter. *)
Definition calcTotalDepth (pools : PoolHeap) (period : RewardPeriod) (height : Z)
    : M (Dec * PoolHeap) :=
  foldM (λ acc r,
    let '(totalDepth, pools) := acc in
    pool ← lift (deref pools r);
    m ← lift (GetPoolMultiplier pool.(ExternalAsset).(Symbol) period);
    d ← lift (DecMul (NewDecFromBigInt pool.(NativeAssetBalance)) m);
    totalDepth ← lift (DecAdd totalDepth d);
    if height =? period.(RewardPeriodStartBlock) then
      let pool := pool <| RewardPeriodNativeDistributed := 0 |> in
      _ ← SetPool pool;
      mret (totalDepth, <[r := pool]> pools)
    else mret (totalDepth, pools)) (ZeroDec, pools) (refs pools).

Definition FilterValidLiquidityProviders (lps : list LiquidityProvider)
    : M (list ValidLiquidityProvider) :=
  foldM (λ valid lp,
    a ← try (lift (AccAddressFromBech32 lp.(LiquidityProviderAddress)));
    match a with
    | inl _ => _ ← EmitEvent "lppd/liquidity_provider_address_error"; mret valid
    | inr address => mret (valid ++ [mkValidLP address lp])
    end) [] lps.

(** Pays every provider its total; a failed payment is taken off the pools it came from. *)
Definition TransferProviderDistributionGeneric (poolFuryMap : PoolFuryMap) (lpFuryMap : LpFuryMap)
    (lpPoolMap : LpPoolMap) (typeStr successEventType : string) : M PoolFuryMap :=
  foldM (λ poolFuryMap '(lpAddress, totalFury),
    let addr := match AccAddressFromBech32 lpAddress with Ok a => a | _ => "" end in
    amt ← lift (NewIntFromBigInt totalFury);
    coin ← lift (NewCoin NativeSymbol amt);
    cs ← lift (NewCoins [coin]);
    r ← try (SendCoinsFromModuleToAccount ModuleName addr cs);
    match r with
    | inl _ =>
        _ ← EmitEvent typeStr;
        foldM (λ poolFuryMap lpPool,
          match poolFuryMap !! lpPool.(lpp_Pool) with
          | None => panic
          | Some v =>
              v' ← lift (UintSub v lpPool.(lpp_Amount));
              mret (<[lpPool.(lpp_Pool) := v']> poolFuryMap)
          end) poolFuryMap (default [] (lpPoolMap !! lpAddress))
    | inr _ => _ ← EmitEvent successEventType; mret poolFuryMap
    end) poolFuryMap (go_range "TransferProviderDistributionGeneric" (map_to_list lpFuryMap)).

Definition TransferRewards (poolFuryMap : PoolFuryMap) (lpFuryMap : LpFuryMap)
    (lpPoolMap : LpPoolMap) : M PoolFuryMap :=
  TransferProviderDistributionGeneric poolFuryMap lpFuryMap lpPoolMap
    "rewards/distribution_error" "rewards/distribution".

Definition TransferProviderDistribution (pools : PoolHeap) (poolFuryMap : PoolFuryMap)
    (lpFuryMap : LpFuryMap) (lpPoolMap : LpPoolMap) : M unit :=
  poolFuryMap ← TransferProviderDistributionGeneric poolFuryMap lpFuryMap lpPoolMap
    "lppd/liquidity_provider_payout_error" "lppd/distribution";
  forM (λ '(r, sub),
    pool ← lift (deref pools r);
    ignore_err (_ ← RemoveFuryFromPool pool sub; mret tt))
    (go_range "TransferProviderDistribution" (map_to_list poolFuryMap)).

(** [partitions, err = ...; if err != nil { event }]: no partitions then. *)
Definition load_partitions : M Partitions :=
  on_err GetAllLiquidityProvidersPartitions
    (λ _, _ ← EmitEvent "lppd/get_liquidity_providers_error"; mret ∅).

Definition CollectProviderDistributions (pools : PoolHeap) (blockRate : Dec)
    : M (PoolFuryMap * LpFuryMap * LpPoolMap) :=
  partitions ← load_partitions;
  foldM (λ acc '(r, pool),
    let '(poolFuryMap, lpMap, lpPoolMap) := acc in
    match partitions !! pool.(ExternalAsset).(Symbol) with
    | None => mret acc
    | Some lps =>
        lpsFiltered ← FilterValidLiquidityProviders lps;
        '(furyToDistribute, lpMap, lpPoolMap) ←
          lift (CollectProviderDistribution r (NewDecFromBigInt pool.(NativeAssetBalance)) blockRate
                  pool.(PoolUnits) lpsFiltered lpMap lpPoolMap);
        mret (<[r := furyToDistribute]> poolFuryMap, lpMap, lpPoolMap)
    end) (∅, ∅, ∅) (zip (refs pools) pools).

Definition doProviderDistribution (ctx : Ctx)
    : M (PoolHeap * (PoolFuryMap * LpFuryMap * LpPoolMap)) :=
  params ← GetProviderDistributionParams;
  match FindProviderDistributionPeriod ctx.(BlockHeight) params.(DistributionPeriods) with
  | None => mret ([], (∅, ∅, ∅))
  | Some period =>
      allPools ← GetPools;
      abc ← CollectProviderDistributions allPools period.(DistributionPeriodBlockRate);
      mret (allPools, abc)
  end.

Definition ProviderDistributionPolicyRun (ctx : Ctx) : M unit :=
  '(pools, (a, b, c)) ← doProviderDistribution ctx;
  TransferProviderDistribution pools a b c.

Definition IsDistributionBlock (ctx : Ctx) : M bool :=
  params ← GetProviderDistributionParams;
  match FindProviderDistributionPeriod ctx.(BlockHeight) params.(DistributionPeriods) with
  | None => mret false
  | Some period =>
      lift (IsDistributionBlockPure ctx.(BlockHeight) period.(DistributionPeriodStartBlock)
              period.(DistributionPeriodMod))
  end.

(** ** DistributeDepthRewards, in the order of the code *)

(** The loop over the reward tuples. *)
Definition distribute_tuple (shouldDistribute : bool) (partitions : Partitions)
    (acc : PoolHeap * PoolFuryMap * LpFuryMap * LpPoolMap) (e : PoolReward)
    : M (PoolHeap * PoolFuryMap * LpFuryMap * LpPoolMap) :=
  let '(pools, poolFuryMap, lpFuryMap, lpPoolMap) := acc in
  pool ← lift (deref pools e.(pr_Pool));
  if shouldDistribute then
    match partitions !! pool.(ExternalAsset).(Symbol) with
    | None =>
        pools ← addRewardsToPool pools e.(pr_Pool) e.(pr_Reward);
        mret (pools, poolFuryMap, lpFuryMap, lpPoolMap)
    | Some lps =>
        lpsFiltered ← FilterValidLiquidityProviders lps;
        '(poolFuryMap, lpFuryMap, lpPoolMap) ←
          lift (CollectRewards e.(pr_Pool) e.(pr_Reward) pool.(PoolUnits) lpsFiltered
                  poolFuryMap lpFuryMap lpPoolMap);
        mret (pools, poolFuryMap, lpFuryMap, lpPoolMap)
    end
  else
    pools ← addRewardsToPool pools e.(pr_Pool) e.(pr_Reward);
    mret (pools, poolFuryMap, lpFuryMap, lpPoolMap).

(** Pays the providers, books what each pool distributed and burns what could not be paid. *)
Definition settle_rewards (pools : PoolHeap) (poolFuryMap : PoolFuryMap) (lpFuryMap : LpFuryMap)
    (lpPoolMap : LpPoolMap) (coinsToMint : Uint) (moduleBalancePreMinting : Coin) : M unit :=
  _ ← lift (foldR (λ acc '(_, fury), UintAdd acc fury) 0
              (go_range "poolFuryMapSum" (map_to_list poolFuryMap)));
  poolFuryMap ← TransferRewards poolFuryMap lpFuryMap lpPoolMap;
  _ ← forM (λ '(r, fury),
        if fury =? 0 then mret tt
        else
          pool ← lift (deref pools r);
          nd ← lift (UintAdd pool.(RewardPeriodNativeDistributed) fury);
          ignore_err (SetPool (pool <| RewardPeriodNativeDistributed := nd |>)))
        (go_range "poolFuryMap" (map_to_list poolFuryMap));
  moduleBalancePostTransfer ← GetModuleFury;
  d ← lift (Coin_Sub moduleBalancePostTransfer moduleBalancePreMinting);
  let diff := d.(Amount) in
  _ ← (if negb (diff =? 0) then ignore_err (BurnFury diff) else mret tt);
  minted ← lift (NewIntFromBigInt coinsToMint);
  _ ← lift (IntSub minted diff);
  EmitEvent "rewards/distribution".

Definition DistributeDepthRewards (ctx : Ctx) (blockDistribution : Uint) (period : RewardPeriod)
    (pools : PoolHeap) : M unit :=
  let height := uint64 ctx.(BlockHeight) in
  _ ← (if height =? period.(RewardPeriodStartBlock) then
         rewardsParams ← GetRewardsParams;
         SetRewardParams (rewardsParams <| RewardPeriodStartTime := ctx.(BlockTime) |>)
       else mret tt);
  if blockDistribution =? 0 then mret tt
  else
    '(totalDepth, pools) ← calcTotalDepth pools period height;
    if totalDepth <=? ZeroDec then mret tt
    else
      '(tuples, coinsToMint) ←
        lift (CollectPoolRewardTuples pools blockDistribution totalDepth period);
      moduleBalancePreMinting ← GetModuleFury;
      amt ← lift (NewIntFromBigInt coinsToMint);
      coin ← lift (NewCoin NativeSymbol amt);
      rewardCoins ← lift (NewCoins [coin]);
      _ ← MintCoins ModuleName rewardCoins;
      let shouldDistribute := period.(RewardPeriodDistribute) in
      partitions ← (if shouldDistribute then load_partitions else mret ∅);
      '(pools, poolFuryMap, lpFuryMap, lpPoolMap) ←
        foldM (distribute_tuple shouldDistribute partitions) (pools, ∅, ∅, ∅) tuples;
      if shouldDistribute then
        settle_rewards pools poolFuryMap lpFuryMap lpPoolMap coinsToMint moduleBalancePreMinting
      else
        _ ← lift (NewIntFromBigInt coinsToMint);
        EmitEvent "rewards/accumulation".

(** ** Unlocks *)

(** [currentHeight >= record.RequestHeight + lockPeriod] and the like, in int64. *)
Definition unlock_matured (lockPeriod currentHeight : Z) (record : LiquidityUnlock) : bool :=
  int64 (record.(RequestHeight) + int64 lockPeriod) <=? currentHeight.

(** The first loop of [UseUnlockedLiquidity]: takes the units from the records in order. *)
Fixpoint use_records (any : bool) (lockPeriod currentHeight : Z) (unlocks : list LiquidityUnlock)
    (unitsLeftToUse : Uint) : res (list LiquidityUnlock * Uint) :=
  match unlocks with
  | [] => Ok ([], unitsLeftToUse)
  | record :: rest =>
      if any || unlock_matured lockPeriod currentHeight record then
        if unitsLeftToUse >? record.(UnlockUnits) then
          unitsLeftToUse ← UintSub unitsLeftToUse record.(UnlockUnits);
          '(rest, unitsLeftToUse) ← use_records any lockPeriod currentHeight rest unitsLeftToUse;
          Ok (record <| UnlockUnits := 0 |> :: rest, unitsLeftToUse)
        else
          u ← UintSub record.(UnlockUnits) unitsLeftToUse;
          Ok (record <| UnlockUnits := u |> :: rest, 0)
      else
        '(rest, unitsLeftToUse) ← use_records any lockPeriod currentHeight rest unitsLeftToUse;
        Ok (record :: rest, unitsLeftToUse)
  end.

(** The records are shared with the caller's provider through pointers: the result is the
    list the caller sees after the call; what is stored has the emptied records pruned. *)
Definition UseUnlockedLiquidity (ctx : Ctx) (lp : LiquidityProvider) (units : Uint) (any : bool)
    : M (list LiquidityUnlock) :=
  params ← GetRewardsParams;
  let currentHeight := ctx.(BlockHeight) in
  let lockPeriod := params.(LiquidityRemovalLockPeriod) in
  '(unlocks, unitsLeftToUse) ← lift (use_records any lockPeriod currentHeight lp.(Unlocks) units);
  _ ← throw_if (negb (lockPeriod =? 0) && negb (unitsLeftToUse =? 0)) ErrBalanceNotAvailable;
  let records := filter (λ r, (r.(UnlockUnits) =? 0) = false) unlocks in
  _ ← SetLiquidityProvider (lp <| Unlocks := records |>);
  mret unlocks.

Definition unlock_expired (lockPeriod cancelPeriod currentHeight : Z) (record : LiquidityUnlock)
    : bool :=
  currentHeight >=? int64 (int64 (record.(RequestHeight) + int64 lockPeriod) + int64 cancelPeriod).

Definition PruneUnlockRecords (ctx : Ctx) (lp : LiquidityProvider) (lockPeriod cancelPeriod : Z)
    : M LiquidityProvider :=
  let currentHeight := ctx.(BlockHeight) in
  '(write, records) ←
    foldM (λ acc record,
      let '(write, records) := acc in
      if unlock_expired lockPeriod cancelPeriod currentHeight record then
        _ ← EmitEvent EventTypeCancelUnlock; mret (true, records)
      else if record.(UnlockUnits) =? 0 then mret (true, records)
      else mret (write, records ++ [record])) (false, []) lp.(Unlocks);
  if (write : bool) then
    let lp := lp <| Unlocks := records |> in
    _ ← SetLiquidityProvider lp;
    mret lp
  else mret lp.

(** ** EndBlocker (abci.go) *)
Definition EndBlocker (ctx : Ctx) : M unit :=
  distribution ← IsDistributionBlock ctx;
  _ ← (if (distribution : bool) then ProviderDistributionPolicyRun ctx else mret tt);
  params ← GetRewardsParams;
  pools ← GetPools;
  match GetCurrentRewardPeriod ctx params with
  | None => mret tt
  | Some currentPeriod =>
      match currentPeriod.(RewardPeriodAllocation) with
      | None => panic
      | Some allocation =>
          if allocation =? 0 then mret tt
          else
            isDistributionBlock ←
              lift (IsDistributionBlockPure ctx.(BlockHeight)
                      currentPeriod.(RewardPeriodStartBlock) currentPeriod.(RewardPeriodMod));
            currentBlockDistribution ← lift (CalcBlockDistribution currentPeriod);
            blockDistributionAccu ← GetBlockDistributionAccu;
            blockDistribution ← lift (UintAdd blockDistributionAccu currentBlockDistribution);
            if (isDistributionBlock : bool) then
              _ ← ignore_err (DistributeDepthRewards ctx blockDistribution currentPeriod pools);
              SetBlockDistributionAccu 0
            else SetBlockDistributionAccu blockDistribution
      end
  end.
End rewards.
