(* ===== verification/ClpLiquidity.v ===== *)
(** * ClpLiquidity: pools and providers changing hands of coins, and the removal queue

    x/clp/keeper/{executors,removalqueue,invariants}.go. *)

From S2P Require Import Prelude Sdk Rat Bank Keepers ClpTypes ClpMath ClpKeeper.
Local Open Scope Z_scope.

(** What x/clp asks of x/margin (margintypes.Keeper). *)
Class MarginKeeper (W : Type) := {
  IsPoolEnabled : W → string → bool;
  CalculatePoolHealth : Pool → res Dec;
  GetRemovalQueueThreshold : W → Dec
}.

(** The messages the executors take (tx.proto). *)
Record MsgCreatePool := mkMsgCreatePool {
  cp_Signer : string; cp_ExternalAsset : Asset;
  cp_NativeAssetAmount : Uint; cp_ExternalAssetAmount : Uint }.
Record MsgAddLiquidity := mkMsgAddLiquidity {
  al_Signer : string; al_ExternalAsset : Asset;
  al_NativeAssetAmount : Uint; al_ExternalAssetAmount : Uint }.
Record MsgSwap := mkMsgSwap {
  sw_Signer : string; sw_SentAsset : Asset; sw_ReceivedAsset : Asset;
  sw_SentAmount : Uint; sw_MinReceivingAmount : Uint }.

Section executors.
Context {W : Type} {sdk : Sdk} {coins : CoinLib} {bank : BankKeeper W} {paginator : Paginator}
  {registry : TokenRegistryKeeper W} {clp : HasStore ClpStore W} {events : HasStore EventLog W}.
Notation M := (M W).

Definition HasBalanceM (a : AccAddress) (c : Coin) : M bool := gets (λ w, HasBalance w a c).
(** [cs[i]], out of range panics. *)
Definition coin_at (cs : Coins) (i : nat) : M Coin :=
  match cs !! i with Some c => mret c | None => panic end.
(** [!HasBalance(c0) && !HasBalance(c1)], the second evaluated only if the first is false. *)
Definition holds_neither (a : AccAddress) (c0 c1 : M Coin) : M bool :=
  c ← c0; b0 ← HasBalanceM a c;
  if b0 : bool then mret false else c ← c1; b1 ← HasBalanceM a c; mret (negb b1).

Definition parse_int (s : string) : M Int := lift (ok_or ErrUnableToParseInt (ParseToInt s)).

(** ** executors.go *)
Definition CreatePool (poolUints : Uint) (msg : MsgCreatePool) : M Pool :=
  extInt ← parse_int (UintString msg.(cp_ExternalAssetAmount));
  nativeInt ← parse_int (UintString msg.(cp_NativeAssetAmount));
  addr ← lift (AccAddressFromBech32 msg.(cp_Signer));
  externalAssetCoin ← lift (NewCoin msg.(cp_ExternalAsset).(Symbol) extInt);
  nativeAssetCoin ← lift (NewCoin GetSettlementAsset.(Symbol) nativeInt);
  none ← holds_neither addr (mret externalAssetCoin) (mret nativeAssetCoin);
  _ ← throw_if none ErrBalanceNotAvailable;
  let pool := NewPool msg.(cp_ExternalAsset) msg.(cp_NativeAssetAmount)
                msg.(cp_ExternalAssetAmount) poolUints in
  cs ← lift (NewCoins [externalAssetCoin; nativeAssetCoin]);
  _ ← SendCoinsFromAccountToModule addr ModuleName cs;
  _ ← wrap_err ErrUnableToSetPool (SetPool pool);
  mret pool.

Definition CreateLiquidityProvider (asset : Asset) (lpunits : Uint) (lpaddress : AccAddress)
    : M LiquidityProvider :=
  let lp := NewLiquidityProvider asset lpunits lpaddress in
  _ ← SetLiquidityProvider lp;
  mret lp.

(** The comparisons [extInt != sdk.ZeroInt()] of the code compare pointers and always hold:
    both coins are added, and [Coins.Add] drops the zero ones. *)
Definition AddLiquidity (msg : MsgAddLiquidity) (pool : Pool) (newPoolUnits lpUnits : Uint)
    : M LiquidityProvider :=
  extInt ← parse_int (UintString msg.(al_ExternalAssetAmount));
  nativeInt ← parse_int (UintString msg.(al_NativeAssetAmount));
  externalAssetCoin ← lift (NewCoin msg.(al_ExternalAsset).(Symbol) extInt);
  cs ← lift (Coins_Add [] externalAssetCoin);
  nativeAssetCoin ← lift (NewCoin GetSettlementAsset.(Symbol) nativeInt);
  cs ← lift (Coins_Add cs nativeAssetCoin);
  addr ← lift (AccAddressFromBech32 msg.(al_Signer));
  none ← holds_neither addr (coin_at cs 0) (coin_at cs 1);
  _ ← throw_if none ErrBalanceNotAvailable;
  _ ← SendCoinsFromAccountToModule addr ModuleName cs;
  nb ← lift (UintAdd pool.(NativeAssetBalance) msg.(al_NativeAssetAmount));
  eb ← lift (UintAdd pool.(ExternalAssetBalance) msg.(al_ExternalAssetAmount));
  let pool := pool <| PoolUnits := newPoolUnits |> <| NativeAssetBalance := nb |>
                   <| ExternalAssetBalance := eb |> in
  found ← try (GetLiquidityProvider msg.(al_ExternalAsset).(Symbol) msg.(al_Signer));
  '(lp, lpUnits) ←
    (match found with
     | inl _ =>
         lp ← CreateLiquidityProvider msg.(al_ExternalAsset) lpUnits addr;
         _ ← EmitEvent EventTypeCreateLiquidityProvider;
         mret (lp, 0)
     | inr lp => mret (lp, lpUnits)
     end);
  u ← lift (UintAdd lp.(LiquidityProviderUnits) lpUnits);
  let lp := lp <| LiquidityProviderUnits := u |> in
  _ ← wrap_err ErrUnableToSetPool (SetPool pool);
  _ ← SetLiquidityProvider lp;
  mret lp.

Definition RemoveLiquidityProvider (cs : Coins) (lp : LiquidityProvider) : M unit :=
  lpaddr ← lift (AccAddressFromBech32 lp.(LiquidityProviderAddress));
  _ ← wrap_err ErrUnableToAddBalance (SendCoinsFromModuleToAccount ModuleName lpaddr cs);
  DestroyLiquidityProvider lp.(LPAsset).(Symbol) lp.(LiquidityProviderAddress).

Definition DecommissionPool (pool : Pool) : M unit :=
  wrap_err ErrUnableToDestroyPool (DestroyPool pool.(ExternalAsset).(Symbol)).

(** A coin with a positive amount joins the coins to send. *)
Definition add_positive (cs : Coins) (c : Coin) : res Coins :=
  if negb (c.(Amount) =? 0) && negb (c.(Amount) <? 0) then Coins_Add cs c else Ok cs.

Definition RemoveLiquidity (pool : Pool) (externalAssetCoin nativeAssetCoin : Coin)
    (lp : LiquidityProvider) (lpUnitsLeft poolOriginalEB poolOriginalNB : Uint) : M unit :=
  lpAddr ← lift (AccAddressFromBech32 lp.(LiquidityProviderAddress));
  sendCoins ← lift (NewCoins []);
  sendCoins ← lift (add_positive sendCoins externalAssetCoin);
  sendCoins ← lift (add_positive sendCoins nativeAssetCoin);
  _ ← throw_if ((externalAssetCoin.(Amount) >=? poolOriginalEB)
                || (nativeAssetCoin.(Amount) >=? poolOriginalNB)) ErrPoolTooShallow;
  _ ← wrap_err ErrUnableToSetPool (SetPool pool);
  _ ← (match sendCoins with
       | [] => mret tt
       | _ =>
           _ ← forM (λ coin,
                 ok ← HasBalanceM GetCLPModuleAddress coin;
                 throw_if (negb ok) ErrNotEnoughLiquidity) sendCoins;
           SendCoinsFromModuleToAccount ModuleName lpAddr sendCoins
       end);
  if lpUnitsLeft =? 0 then
    DestroyLiquidityProvider lp.(LPAsset).(Symbol) lp.(LiquidityProviderAddress)
  else SetLiquidityProvider (lp <| LiquidityProviderUnits := lpUnitsLeft |>).

Definition InitiateSwap (sentCoin : Coin) (swapper : AccAddress) : M unit :=
  ok ← HasBalanceM swapper sentCoin;
  _ ← throw_if (negb ok) ErrBalanceNotAvailable;
  cs ← lift (NewCoins [sentCoin]);
  SendCoinsFromAccountToModule swapper ModuleName cs.

Definition FinalizeSwap (sentAmount : string) (finalPool : Pool) (msg : MsgSwap) : M unit :=
  _ ← wrap_err ErrUnableToSetPool (SetPool finalPool);
  sentAmountInt ← parse_int sentAmount;
  addr ← lift (AccAddressFromBech32 msg.(sw_Signer));
  sentCoin ← lift (NewCoin msg.(sw_ReceivedAsset).(Symbol) sentAmountInt);
  cs ← lift (NewCoins [sentCoin]);
  SendCoinsFromModuleToAccount ModuleName addr cs.

(** The swap of an asymmetric withdrawal: [x] is paid back for what it buys of [y].  Returns
    the coins of the two sides and the swapped pool. *)
Definition asymmetric_swap (from to : Asset) (swapAmount : Uint) (pool : Pool) (rate fee : Dec)
    (outCoin inCoin : Coin) : M (Coin * Coin * Pool) :=
  '(swapResult, _, _, swappedPool) ←
    wrap_err ErrUnableToSwap (lift (SwapOne from swapAmount to pool rate fee));
  if negb (swapResult =? 0) then
    swapResultInt ← parse_int (UintString swapResult);
    swapAmountInt ← parse_int (UintString swapAmount);
    swapCoin ← lift (NewCoin to.(Symbol) swapResultInt);
    swapAmountInCoin ← lift (NewCoin from.(Symbol) swapAmountInt);
    outCoin ← lift (Coin_Add outCoin swapCoin);
    inCoin ← lift (Coin_Sub inCoin swapAmountInCoin);
    mret (outCoin, inCoin, swappedPool)
  else mret (outCoin, inCoin, swappedPool).

(** The part of a removal the message handler and the removal queue share: subtract the
    withdrawal, swap by the asymmetry, then pay out ([executors.go] 268-333 and
    [msg_server.go] 947-1015).  Returns the two coins paid. *)
Definition withdraw_and_remove (asset : Asset) (asymmetry : Int) (pool : Pool)
    (lp : LiquidityProvider) (withdrawNativeAssetAmount withdrawExternalAssetAmount lpUnitsLeft
    swapAmount : Uint) (rate externalSwapFeeRate nativeSwapFeeRate : Dec) (originalEB originalNB : Uint)
    : M (Coin * Coin) :=
  withdrawExternalAssetAmountInt ← parse_int (UintString withdrawExternalAssetAmount);
  withdrawNativeAssetAmountInt ← parse_int (UintString withdrawNativeAssetAmount);
  externalAssetCoin ← lift (NewCoin asset.(Symbol) withdrawExternalAssetAmountInt);
  nativeAssetCoin ← lift (NewCoin GetSettlementAsset.(Symbol) withdrawNativeAssetAmountInt);
  units ← lift (UintSub pool.(PoolUnits) lp.(LiquidityProviderUnits));
  units ← lift (UintAdd units lpUnitsLeft);
  nb ← lift (UintSub pool.(NativeAssetBalance) withdrawNativeAssetAmount);
  eb ← lift (UintSub pool.(ExternalAssetBalance) withdrawExternalAssetAmount);
  let pool := pool <| PoolUnits := units |> <| NativeAssetBalance := nb |>
                   <| ExternalAssetBalance := eb |> in
  _ ← throw_if (negb (asymmetry =? 0)
                && ((pool.(ExternalAssetBalance) =? 0) || (pool.(NativeAssetBalance) =? 0)))
        ErrPoolTooShallow;
  '(externalAssetCoin, nativeAssetCoin, pool) ←
    (if asymmetry >? 0 then
       asymmetric_swap GetSettlementAsset asset swapAmount pool rate nativeSwapFeeRate
         externalAssetCoin nativeAssetCoin
     else mret (externalAssetCoin, nativeAssetCoin, pool));
  '(nativeAssetCoin, externalAssetCoin, pool) ←
    (if asymmetry <? 0 then
       asymmetric_swap asset GetSettlementAsset swapAmount pool rate externalSwapFeeRate
         nativeAssetCoin externalAssetCoin
     else mret (nativeAssetCoin, externalAssetCoin, pool));
  _ ← wrap_err ErrUnableToRemoveLiquidity
        (RemoveLiquidity pool externalAssetCoin nativeAssetCoin lp lpUnitsLeft originalEB originalNB);
  mret (nativeAssetCoin, externalAssetCoin).

(** Returns the native and external amounts paid and the withdrawal's value in fury. *)
Definition ProcessRemoveLiquidityMsg (msg : MsgRemoveLiquidity) : M (Int * Int * Uint) :=
  reg ← gets GetRegistry;
  _ ← wrap_err ErrTokenNotSupported (lift (GetEntry reg msg.(rl_ExternalAsset).(Symbol)));
  pool ← wrap_err ErrPoolDoesNotExist (GetPool msg.(rl_ExternalAsset).(Symbol));
  lp ← wrap_err ErrLiquidityProviderDoesNotExist
         (GetLiquidityProvider msg.(rl_ExternalAsset).(Symbol) msg.(rl_Signer));
  let poolOriginalEB := pool.(ExternalAssetBalance) in
  let poolOriginalNB := pool.(NativeAssetBalance) in
  rates ← GetPmtpRateParams;
  let pmtpCurrentRunningRate := rates.(PmtpCurrentRunningRate) in
  externalSwapFeeRate ← GetSwapFeeRate msg.(rl_ExternalAsset) false;
  nativeSwapFeeRate ← GetSwapFeeRate GetSettlementAsset false;
  '(nativeAssetDepth, externalAssetDepth) ←
    lift (ExtractDebt pool pool.(NativeAssetBalance) pool.(ExternalAssetBalance) false);
  '(withdrawNativeAssetAmount, withdrawExternalAssetAmount, lpUnitsLeft, swapAmount) ←
    lift (CalculateWithdrawal pool.(PoolUnits) (UintString nativeAssetDepth)
            (UintString externalAssetDepth) (UintString lp.(LiquidityProviderUnits))
            (IntString msg.(rl_WBasisPoints)) msg.(rl_Asymmetry));
  extFuryValue ←
    lift (CalculateWithdrawalFuryValue withdrawExternalAssetAmount GetSettlementAsset pool
            pmtpCurrentRunningRate externalSwapFeeRate);
  '(nativeAssetCoin, externalAssetCoin) ←
    withdraw_and_remove msg.(rl_ExternalAsset) msg.(rl_Asymmetry) pool lp
      withdrawNativeAssetAmount withdrawExternalAssetAmount lpUnitsLeft swapAmount
      pmtpCurrentRunningRate externalSwapFeeRate nativeSwapFeeRate poolOriginalEB poolOriginalNB;
  total ← lift (UintAdd extFuryValue withdrawNativeAssetAmount);
  mret (nativeAssetCoin.(Amount), externalAssetCoin.(Amount), total).

(** ** removalqueue.go *)
Definition empty_queue : RemovalQueue := mkRemovalQueue 0 0 0 0.

Definition GetRemovalQueue (symbol : string) : M RemovalQueue :=
  s ← get_clp; mret (default empty_queue (s.(cs_RemovalQueues) !! GetRemovalQueueKey symbol)).
Definition SetRemovalQueue (queue : RemovalQueue) (symbol : string) : M unit :=
  upd_clp (λ s, s <| cs_RemovalQueues ::= <[GetRemovalQueueKey symbol := queue]> |>).
Definition SetRemovalRequest (request : RemovalRequest) : M unit :=
  upd_clp (λ s, s <| cs_RemovalRequests ::= <[GetRemovalRequestKey request := request]> |>).

Definition QueueRemoval (ctx : Ctx) (msg : MsgRemoveLiquidity) (furyValue : Uint) : M unit :=
  let symbol := msg.(rl_ExternalAsset).(Symbol) in
  queue ← GetRemovalQueue symbol;
  let request := mkRemovalRequest (int64 (queue.(rq_Id) + 1)) furyValue msg in
  _ ← SetRemovalRequest request;
  total ← lift (UintAdd queue.(rq_TotalValue) furyValue);
  let queue := queue <| rq_Count := int64 (queue.(rq_Count) + 1) |>
                     <| rq_Id := int64 (queue.(rq_Id) + 1) |> <| rq_TotalValue := total |> in
  let queue := if queue.(rq_Count) =? 1 then queue <| rq_StartHeight := ctx.(BlockHeight) |>
               else queue in
  _ ← SetRemovalQueue queue symbol;
  EmitEvent EventTypeQueueRemovalRequest.

Definition DequeueRemovalRequest (request : RemovalRequest) : M unit :=
  let symbol := request.(rr_Msg).(rl_ExternalAsset).(Symbol) in
  _ ← upd_clp (λ s, s <| cs_RemovalRequests ::= delete (GetRemovalRequestKey request) |>);
  queue ← GetRemovalQueue symbol;
  _ ← SetRemovalQueue (queue <| rq_Count := int64 (queue.(rq_Count) - 1) |>) symbol;
  EmitEvent EventTypeDequeueRemovalRequest.

Definition SetProcessedRemovalRequest (request : RemovalRequest) (pointsProcessed : Int)
    (furyRemoved : Uint) : M unit :=
  let symbol := request.(rr_Msg).(rl_ExternalAsset).(Symbol) in
  points ← lift (IntSub request.(rr_Msg).(rl_WBasisPoints) pointsProcessed);
  let request := request <| rr_Msg := request.(rr_Msg) <| rl_WBasisPoints := points |> |> in
  _ ← SetRemovalRequest request;
  queue ← GetRemovalQueue symbol;
  total ← lift (UintSub queue.(rq_TotalValue) furyRemoved);
  _ ← SetRemovalQueue (queue <| rq_TotalValue := total |>) symbol;
  _ ← (if points <=? 0 then DequeueRemovalRequest request else mret tt);
  EmitEvent EventTypeProcessedRemovalQueue.

(** One queued request of the asset liquidity is added to. *)
Definition process_request (asset : Asset) (perRequestUnits : Uint) (request : RemovalRequest)
    : M unit :=
  if negb (Asset_Equals asset request.(rr_Msg).(rl_ExternalAsset)) then mret tt
  else
    found ← try (GetLiquidityProvider request.(rr_Msg).(rl_ExternalAsset).(Symbol)
                   request.(rr_Msg).(rl_Signer));
    match found with
    | inl _ => EmitEvent EventTypeProcessRemovalError
    | inr lp =>
        requestUnits ←
          lift (ConvWBasisPointsToUnits lp.(LiquidityProviderUnits) request.(rr_Msg).(rl_WBasisPoints));
        let withdrawUnits := Z.min requestUnits perRequestUnits in
        withdrawWBasisPoints ←
          lift (ConvUnitsToWBasisPoints lp.(LiquidityProviderUnits) withdrawUnits);
        processed ← try (ProcessRemoveLiquidityMsg
          (mkMsgRemoveLiquidity request.(rr_Msg).(rl_Signer) asset withdrawWBasisPoints
             request.(rr_Msg).(rl_Asymmetry)));
        match processed with
        | inl _ => EmitEvent EventTypeProcessRemovalError
        | inr (_, _, totalFuryValue) =>
            SetProcessedRemovalRequest request withdrawWBasisPoints totalFuryValue
        end
    end.

(** The iterator runs over a snapshot of the requests' keys. *)
Definition ProcessRemovalQueue (msg : MsgAddLiquidity) (unitsToDistribute : Uint) : M unit :=
  queue ← GetRemovalQueue msg.(al_ExternalAsset).(Symbol);
  perRequestUnits ← lift (UintQuo unitsToDistribute (uint64 queue.(rq_Count)));
  s ← get_clp;
  forM (process_request msg.(al_ExternalAsset) perRequestUnits) (kv_values s.(cs_RemovalRequests)).

Definition GetRemovalQueueUnitsForLP (lp : LiquidityProvider) : M Uint :=
  s ← get_clp;
  let prefix := GetRemovalRequestLPPrefix lp.(LiquidityProviderAddress) in
  lift (foldR (λ units request,
    if Asset_Equals lp.(LPAsset) request.(rr_Msg).(rl_ExternalAsset) then
      u ← ConvWBasisPointsToUnits lp.(LiquidityProviderUnits) request.(rr_Msg).(rl_WBasisPoints);
      UintAdd units u
    else Ok units) 0 (kv_prefix_values prefix s.(cs_RemovalRequests))).
End executors.
