(* ===== verification/ClpMsgs.v ===== *)
(** * ClpMsgs: the messages of x/clp and their stateless validation

    tx.proto and the [ValidateBasic] methods of x/clp/types/msgs.go.  Messages come out of the
    protobuf decoder; the pointers to an [Asset] they hold are taken to be set. *)

From S2P Require Import Prelude Sdk Rat Bank Keepers ClpTypes ClpLiquidity.
Local Open Scope Z_scope.

(** [minttypes.Minter]; the mint module's parameters are opaque to x/clp. *)
Record Minter := mkMinter { Inflation : Dec; AnnualProvisions : Dec }.
Class MintKeeper (W : Type) := {
  MintParams : Type;
  MintParams_Validate : MintParams → res unit;
  SetMinter : Minter → M W unit;
  SetMintParams : MintParams → M W unit
}.

Record MsgRemoveLiquidityUnits := mkMsgRemoveLiquidityUnits {
  rlu_Signer : string; rlu_ExternalAsset : Asset; rlu_WithdrawUnits : Uint }.
Record MsgModifyPmtpRates := mkMsgModifyPmtpRates {
  mp_Signer : string; mp_BlockRate : string; mp_RunningRate : string; mp_EndPolicy : bool }.
Record MsgUpdatePmtpParams := mkMsgUpdatePmtpParams {
  up_Signer : string; up_PmtpPeriodGovernanceRate : string; up_PmtpPeriodEpochLength : Z;
  up_PmtpPeriodStartBlock : Z; up_PmtpPeriodEndBlock : Z }.
Record MsgDecommissionPool := mkMsgDecommissionPool { dp_Signer : string; dp_Symbol : string }.
Record MsgUnlockLiquidityRequest := mkMsgUnlockLiquidityRequest {
  ul_Signer : string; ul_ExternalAsset : Asset; ul_Units : Uint }.
Record MsgCancelUnlock := mkMsgCancelUnlock {
  cu_Signer : string; cu_ExternalAsset : Asset; cu_Units : Uint }.
Record MsgUpdateRewardsParamsRequest := mkMsgUpdateRewardsParamsRequest {
  urp_Signer : string; urp_LiquidityRemovalLockPeriod : Z; urp_LiquidityRemovalCancelPeriod : Z }.
Record MsgAddRewardPeriodRequest := mkMsgAddRewardPeriodRequest {
  arp_Signer : string; arp_RewardPeriods : list RewardPeriod }.
Record MsgModifyLiquidityProtectionRates := mkMsgModifyLiquidityProtectionRates {
  mlr_Signer : string; mlr_CurrentFuryLiquidityThreshold : Uint }.
Record MsgUpdateLiquidityProtectionParams := mkMsgUpdateLiquidityProtectionParams {
  ulp_Signer : string; ulp_MaxFuryLiquidityThreshold : Uint;
  ulp_MaxFuryLiquidityThresholdAsset : string; ulp_EpochLength : Z; ulp_IsActive : bool }.
Record MsgAddProviderDistributionPeriodRequest := mkMsgAddProviderDistributionPeriodRequest {
  apd_Signer : string; apd_DistributionPeriods : list ProviderDistributionPeriod }.
Record MsgUpdateSwapFeeParamsRequest := mkMsgUpdateSwapFeeParamsRequest {
  usf_Signer : string; usf_DefaultSwapFeeRate : Dec; usf_TokenParams : list SwapFeeTokenParams }.

(** [!asset.Validate()] guards. *)
Definition require_asset `{CoinLib} (a : Asset) : res unit :=
  ok ← Asset_Validate a; if (ok : bool) then Ok tt else Err ErrInValidAsset.
(** [len(m.Signer) == 0]. *)
Definition require_signer `{SdkErrors} (s : string) : res unit :=
  if String.eqb s "" then Err ErrInvalidAddress else Ok tt.
Definition require (c : bool) (e : error) : res unit := if c then Ok tt else Err e.

Section validate.
Context {sdk : Sdk} {coins : CoinLib} {errs : SdkErrors}.

Definition MsgCancelUnlock_ValidateBasic (m : MsgCancelUnlock) : res unit :=
  _ ← require_signer m.(cu_Signer);
  require_asset m.(cu_ExternalAsset).

(** A multiplier is a pointer: reading an unset one panics. *)
Definition check_multiplier (multiplier : option Dec) : res unit :=
  match multiplier with
  | None => Panic
  | Some m =>
      _ ← require (negb (m <? ZeroDec)) ErrAnonymous;
      ten ← MustNewDecFromStr "10.00";
      require (negb (m >? ten)) ErrAnonymous
  end.

Definition check_reward_period (period : RewardPeriod) : res unit :=
  _ ← require (negb (String.eqb period.(RewardPeriodId) "")) ErrAnonymous;
  _ ← require (negb (period.(RewardPeriodEndBlock) <? period.(RewardPeriodStartBlock))) ErrAnonymous;
  _ ← foldR (λ _ multiplier, check_multiplier multiplier.(Multiplier)) tt
        period.(RewardPeriodPoolMultipliers);
  check_multiplier period.(RewardPeriodDefaultMultiplier).

Definition MsgAddRewardPeriodRequest_ValidateBasic (m : MsgAddRewardPeriodRequest) : res unit :=
  foldR (λ _ period, check_reward_period period) tt m.(arp_RewardPeriods).

Definition MsgUpdateRewardsParamsRequest_ValidateBasic (m : MsgUpdateRewardsParamsRequest)
    : res unit := Ok tt.

(** The length of the window is computed in int64 and must be whole epochs. *)
Definition MsgUpdatePmtpParams_ValidateBasic (m : MsgUpdatePmtpParams) : res unit :=
  _ ← AccAddressFromBech32 m.(up_Signer);
  _ ← require (negb (m.(up_PmtpPeriodEpochLength) <=? 0)) ErrAnonymous;
  _ ← require (negb (m.(up_PmtpPeriodStartBlock) <? 0)) ErrAnonymous;
  _ ← require (negb (m.(up_PmtpPeriodEndBlock) <=? 0)) ErrAnonymous;
  _ ← require (negb (m.(up_PmtpPeriodEndBlock) <? m.(up_PmtpPeriodStartBlock))) ErrAnonymous;
  r ← rem_s (int64 (int64 (m.(up_PmtpPeriodEndBlock) - m.(up_PmtpPeriodStartBlock)) + 1))
        m.(up_PmtpPeriodEpochLength);
  require (r =? 0) ErrAnonymous.

Definition MsgModifyPmtpRates_ValidateBasic (m : MsgModifyPmtpRates) : res unit :=
  _ ← AccAddressFromBech32 m.(mp_Signer); Ok tt.

Definition MsgDecommissionPool_ValidateBasic (m : MsgDecommissionPool) : res unit :=
  _ ← require_signer m.(dp_Signer);
  require (VerifyRange (Z.of_nat (String.length (TrimSpace m.(dp_Symbol)))) 0 MaxSymbolLength)
    ErrInvalidRequest.

Definition MsgSwap_ValidateBasic (m : MsgSwap) : res unit :=
  _ ← require_signer m.(sw_Signer);
  _ ← require_asset m.(sw_SentAsset);
  _ ← require_asset m.(sw_ReceivedAsset);
  _ ← require (negb (Asset_Equals m.(sw_SentAsset) m.(sw_ReceivedAsset))) ErrInValidAsset;
  require (negb (m.(sw_SentAmount) =? 0)) ErrInValidAmount.

Definition MsgRemoveLiquidity_ValidateBasic (m : MsgRemoveLiquidity) : res unit :=
  _ ← require_signer m.(rl_Signer);
  _ ← require_asset m.(rl_ExternalAsset);
  _ ← require (negb (negb (m.(rl_WBasisPoints) >? 0) || (m.(rl_WBasisPoints) >? MaxWbasis)))
        ErrInvalidWBasis;
  require (negb ((m.(rl_Asymmetry) >? 10000) || (m.(rl_Asymmetry) <? -10000))) ErrInvalidAsymmetry.

Definition MsgRemoveLiquidityUnits_ValidateBasic (m : MsgRemoveLiquidityUnits) : res unit :=
  _ ← require_signer m.(rlu_Signer);
  _ ← require_asset m.(rlu_ExternalAsset);
  require (m.(rlu_WithdrawUnits) >? 0) ErrInValidAmount.

Definition MsgAddLiquidity_ValidateBasic (m : MsgAddLiquidity) : res unit :=
  _ ← require_signer m.(al_Signer);
  _ ← require_asset m.(al_ExternalAsset);
  _ ← require (negb (Asset_Equals m.(al_ExternalAsset) GetSettlementAsset)) ErrInValidAsset;
  require (negb (negb (m.(al_NativeAssetAmount) >? 0) && negb (m.(al_ExternalAssetAmount) >? 0)))
    ErrInValidAmount.

Definition MsgCreatePool_ValidateBasic (m : MsgCreatePool) : res unit :=
  _ ← require_signer m.(cp_Signer);
  _ ← require_asset m.(cp_ExternalAsset);
  _ ← require (negb (Asset_Equals m.(cp_ExternalAsset) GetSettlementAsset)) ErrInValidAsset;
  _ ← require (m.(cp_NativeAssetAmount) >? 0) ErrInValidAmount;
  require (m.(cp_ExternalAssetAmount) >? 0) ErrInValidAmount.

Definition MsgUnlockLiquidityRequest_ValidateBasic (m : MsgUnlockLiquidityRequest) : res unit :=
  _ ← require_signer m.(ul_Signer);
  require_asset m.(ul_ExternalAsset).

Definition MsgSetSymmetryThreshold_ValidateBasic (m : MsgSetSymmetryThreshold) : res unit :=
  require_signer m.(st_Signer).

Definition MsgUpdateLiquidityProtectionParams_ValidateBasic
    (m : MsgUpdateLiquidityProtectionParams) : res unit :=
  _ ← AccAddressFromBech32 m.(ulp_Signer);
  require (negb (m.(ulp_EpochLength) <=? 0)) ErrAnonymous.

Definition MsgModifyLiquidityProtectionRates_ValidateBasic
    (m : MsgModifyLiquidityProtectionRates) : res unit :=
  _ ← AccAddressFromBech32 m.(mlr_Signer); Ok tt.

Definition check_distribution_period (period : ProviderDistributionPeriod) : res unit :=
  _ ← require (negb (period.(DistributionPeriodStartBlock) >? period.(DistributionPeriodEndBlock)))
        ErrAnonymous;
  _ ← require (negb ((period.(DistributionPeriodBlockRate) <? NewDec 0)
                     || (period.(DistributionPeriodBlockRate) >? NewDec 1))) ErrAnonymous;
  require (negb (period.(DistributionPeriodMod) =? 0)) ErrAnonymous.

Definition MsgAddProviderDistributionPeriodRequest_ValidateBasic
    (m : MsgAddProviderDistributionPeriodRequest) : res unit :=
  _ ← require_signer m.(apd_Signer);
  foldR (λ _ period, check_distribution_period period) tt m.(apd_DistributionPeriods).

Definition check_fee_rate (rate : Dec) : res unit :=
  _ ← require (negb (rate <? ZeroDec)) ErrAnonymous;
  require (negb (rate >? OneDec)) ErrAnonymous.

Definition MsgUpdateSwapFeeParamsRequest_ValidateBasic (m : MsgUpdateSwapFeeParamsRequest)
    : res unit :=
  _ ← require_signer m.(usf_Signer);
  _ ← check_fee_rate m.(usf_DefaultSwapFeeRate);
  foldR (λ _ p, check_fee_rate p.(SwapFeeRate)) tt m.(usf_TokenParams).
End validate.

(** [GetSigners]: one address; it panics on a signer that does not decode. *)
Definition GetSigners `{CoinLib} (signer : string) : res (list AccAddress) :=
  addr ← must (AccAddressFromBech32 signer); Ok [addr].
