(* ===== verification/ClpServer.v ===== *)
(** * ClpServer: the message handlers of x/clp

    x/clp/keeper/msg_server.go.  A handler runs in the block [ctx]; what it returns to the
    client is empty, so a run is [Ok tt], an error or a panic. *)

From S2P Require Import Prelude Sdk Rat Bank Keepers ClpTypes ClpMath ClpKeeper ClpPolicy.
From S2P Require Import ClpRewards ClpLiquidity ClpMsgs.
Local Open Scope Z_scope.

Section server.
Context {W : Type} {sdk : Sdk} {coins : CoinLib} {bank : BankKeeper W} {paginator : Paginator}
  {registry : TokenRegistryKeeper W} {admin : AdminKeeper W} {margin : MarginKeeper W}
  {mint : MintKeeper W} {errs : SdkErrors}
  {clp : HasStore ClpStore W} {events : HasStore EventLog W}.
Notation M := (M W).

Definition IsAdminAccountM (t : AdminType) (a : AccAddress) : M bool :=
  gets (λ w, IsAdminAccount w t a).
(** The signer decodes and is an admin of the given type: how every handler of a parameter
    change begins. *)
Definition require_admin (t : AdminType) (signer : string) : M unit :=
  signer ← lift (AccAddressFromBech32 signer);
  ok ← IsAdminAccountM t signer;
  throw_if (negb ok) ErrNotEnoughPermissions.

(** ** Parameters *)
Definition SetSymmetryThreshold_handler (threshold : MsgSetSymmetryThreshold) : M unit :=
  _ ← require_admin AdminType_CLPDEX threshold.(st_Signer);
  SetSymmetryThreshold threshold.

Definition UpdateStakingRewardParams (signer : string) (minter : Minter) (params : MintParams)
    : M unit :=
  _ ← require_admin AdminType_PMTPREWARDS signer;
  _ ← (if negb ((minter.(AnnualProvisions) =? 0) && (minter.(Inflation) =? 0))
       then SetMinter minter else mret tt);
  SetMintParams params.

Definition UpdateRewardsParams (msg : MsgUpdateRewardsParamsRequest) : M unit :=
  _ ← require_admin AdminType_PMTPREWARDS msg.(urp_Signer);
  params ← GetRewardsParams;
  SetRewardParams
    (params <| LiquidityRemovalLockPeriod := msg.(urp_LiquidityRemovalLockPeriod) |>
            <| LiquidityRemovalCancelPeriod := msg.(urp_LiquidityRemovalCancelPeriod) |>).

Definition AddRewardPeriod (msg : MsgAddRewardPeriodRequest) : M unit :=
  _ ← require_admin AdminType_PMTPREWARDS msg.(arp_Signer);
  params ← GetRewardsParams;
  SetRewardParams (params <| RewardPeriods := msg.(arp_RewardPeriods) |>).

Definition AddProviderDistributionPeriod (msg : MsgAddProviderDistributionPeriodRequest) : M unit :=
  _ ← lift (MsgAddProviderDistributionPeriodRequest_ValidateBasic msg);
  _ ← require_admin AdminType_PMTPREWARDS msg.(apd_Signer);
  _ ← SetProviderDistributionParams (mkProviderDistributionParams msg.(apd_DistributionPeriods));
  EmitEvents [EventTypeAddNewProviderDistributionPolicy; EventTypeMessage].

(** A new policy starts in the future and not while one runs. *)
Definition UpdatePmtpParams (ctx : Ctx) (msg : MsgUpdatePmtpParams) : M unit :=
  _ ← require_admin AdminType_PMTPREWARDS msg.(up_Signer);
  params ← GetPmtpParams;
  inside ← IsInsidePmtpWindow ctx;
  _ ← throw_if inside ErrCannotStartPolicy;
  _ ← throw_if (msg.(up_PmtpPeriodStartBlock) <=? ctx.(BlockHeight)) ErrAnonymous;
  let params := params <| PmtpPeriodStartBlock := msg.(up_PmtpPeriodStartBlock) |>
                       <| PmtpPeriodEndBlock := msg.(up_PmtpPeriodEndBlock) |>
                       <| PmtpPeriodEpochLength := msg.(up_PmtpPeriodEpochLength) |> in
  params ←
    (if negb (StringCompare msg.(up_PmtpPeriodGovernanceRate) "") then
       rGov ← lift (NewDecFromStr msg.(up_PmtpPeriodGovernanceRate));
       mret (params <| PmtpPeriodGovernanceRate := rGov |>)
     else mret params);
  _ ← SetPmtpParams params;
  EmitEvents [EventTypeAddNewPmtpPolicy; EventTypeMessage].

Definition ModifyPmtpRates (ctx : Ctx) (msg : MsgModifyPmtpRates) : M unit :=
  _ ← require_admin AdminType_PMTPREWARDS msg.(mp_Signer);
  params ← GetPmtpParams;
  rateParams ← GetPmtpRateParams;
  inside ← IsInsidePmtpWindow ctx;
  rateParams ←
    (if negb (StringCompare msg.(mp_BlockRate) "") && negb inside then
       blockRate ← lift (NewDecFromStr msg.(mp_BlockRate));
       mret (rateParams <| PmtpPeriodBlockRate := blockRate |>)
     else mret rateParams);
  rateParams ←
    (if negb (StringCompare msg.(mp_RunningRate) "") && negb inside then
       runningRate ← lift (NewDecFromStr msg.(mp_RunningRate));
       mret (rateParams <| PmtpCurrentRunningRate := runningRate |>
                        <| PmtpInterPolicyRate := runningRate |>)
     else mret rateParams);
  _ ← SetPmtpRateParams rateParams;
  if msg.(mp_EndPolicy) && inside then
    _ ← SetPmtpParams (params <| PmtpPeriodEndBlock := ctx.(BlockHeight) |>);
    _ ← SetPmtpEpoch (mkPmtpEpoch 0 0);
    _ ← SetPmtpInterPolicyRate rateParams.(PmtpCurrentRunningRate);
    EmitEvents [EventTypeEndPmtpPolicy; EventTypeMessage]
  else EmitEvents [].

Definition UpdateLiquidityProtectionParams (msg : MsgUpdateLiquidityProtectionParams) : M unit :=
  _ ← require_admin AdminType_CLPDEX msg.(ulp_Signer);
  params ← GetLiquidityProtectionParams;
  let params :=
    params <| MaxFuryLiquidityThreshold := msg.(ulp_MaxFuryLiquidityThreshold) |>
           <| MaxFuryLiquidityThresholdAsset := msg.(ulp_MaxFuryLiquidityThresholdAsset) |>
           <| EpochLength := msg.(ulp_EpochLength) |> <| IsActive := msg.(ulp_IsActive) |> in
  _ ← SetLiquidityProtectionParams params;
  _ ← SetLiquidityProtectionCurrentFuryLiquidityThreshold params.(MaxFuryLiquidityThreshold);
  EmitEvents [EventTypeUpdateLiquidityProtectionParams; EventTypeMessage].

Definition ModifyLiquidityProtectionRates (msg : MsgModifyLiquidityProtectionRates) : M unit :=
  _ ← require_admin AdminType_CLPDEX msg.(mlr_Signer);
  rateParams ← GetLiquidityProtectionRateParams;
  _ ← SetLiquidityProtectionRateParams
        (mkLiquidityProtectionRateParams msg.(mlr_CurrentFuryLiquidityThreshold));
  EmitEvents [EventTypeUpdateLiquidityProtectionRateParams; EventTypeMessage].

Definition UpdateSwapFeeParams (msg : MsgUpdateSwapFeeParamsRequest) : M unit :=
  _ ← require_admin AdminType_PMTPREWARDS msg.(usf_Signer);
  SetSwapFeeParams (mkSwapFeeParams msg.(usf_DefaultSwapFeeRate) msg.(usf_TokenParams)).

(** ** Unlocks *)
Definition prune_for_message (ctx : Ctx) (lp : LiquidityProvider) : M LiquidityProvider :=
  params ← GetRewardsParams;
  PruneUnlockRecords ctx lp params.(LiquidityRemovalLockPeriod)
    params.(LiquidityRemovalCancelPeriod).

Definition CancelUnlockLiquidity (ctx : Ctx) (request : MsgCancelUnlock) : M unit :=
  lp ← wrap_err ErrLiquidityProviderDoesNotExist
         (GetLiquidityProvider request.(cu_ExternalAsset).(Symbol) request.(cu_Signer));
  lp ← prune_for_message ctx lp;
  _ ← UseUnlockedLiquidity ctx lp request.(cu_Units) true;
  EmitEvents [EventTypeCancelUnlock; EventTypeMessage].

Definition UnlockLiquidity (ctx : Ctx) (request : MsgUnlockLiquidityRequest) : M unit :=
  lp ← wrap_err ErrLiquidityProviderDoesNotExist
         (GetLiquidityProvider request.(ul_ExternalAsset).(Symbol) request.(ul_Signer));
  lp ← prune_for_message ctx lp;
  totalUnlocks ← lift (foldR (λ total unlock, UintAdd total unlock.(UnlockUnits)) 0 lp.(Unlocks));
  requested ← lift (UintAdd totalUnlocks request.(ul_Units));
  _ ← throw_if (requested >? lp.(LiquidityProviderUnits)) ErrBalanceNotAvailable;
  let lp := lp <| Unlocks := lp.(Unlocks) ++ [mkUnlock ctx.(BlockHeight) request.(ul_Units)] |> in
  _ ← SetLiquidityProvider lp;
  EmitEvents [EventTypeRequestUnlock; EventTypeMessage].

(** ** Pools *)

(** One turn of the refund loop of [DecommissionPool]; the pool handed to
    [CalculateAllAssetsForLP] is the original one. *)
Definition refund_provider (symbol : string) (pool : Pool) (acc : Uint * Uint * Uint)
    (lp : LiquidityProvider) : M (Uint * Uint * Uint) :=
  let '(poolUnits, nativeAssetBalance, externalAssetBalance) := acc in
  '(withdrawNativeAsset, withdrawExternalAsset, _, _) ← lift (CalculateAllAssetsForLP pool lp);
  poolUnits ← lift (UintSub poolUnits lp.(LiquidityProviderUnits));
  nativeAssetBalance ← lift (UintSub nativeAssetBalance withdrawNativeAsset);
  externalAssetBalance ← lift (UintSub externalAssetBalance withdrawExternalAsset);
  withdrawNativeAssetInt ← parse_int (UintString withdrawNativeAsset);
  withdrawExternalAssetInt ← parse_int (UintString withdrawExternalAsset);
  withdrawNativeCoins ← lift (NewCoin GetSettlementAsset.(Symbol) withdrawNativeAssetInt);
  withdrawExternalCoins ← lift (NewCoin symbol withdrawExternalAssetInt);
  refundingCoins ← lift (NewCoins [withdrawExternalCoins; withdrawNativeCoins]);
  _ ← wrap_err ErrUnableToRemoveLiquidityProvider (RemoveLiquidityProvider refundingCoins lp);
  mret (poolUnits, nativeAssetBalance, externalAssetBalance).

Definition DecommissionPool_handler (msg : MsgDecommissionPool) : M unit :=
  pool ← wrap_err ErrPoolDoesNotExist (GetPool msg.(dp_Symbol));
  addAddr ← lift (AccAddressFromBech32 msg.(dp_Signer));
  ok ← ValidateAddress addAddr;
  _ ← throw_if (negb ok) ErrInvalid;
  threshold ← lift (NewUintFromString PoolThrehold);
  _ ← throw_if (pool.(NativeAssetBalance) >=? threshold) ErrBalanceTooHigh;
  lpList ← wrap_err ErrLiquidityProviderDoesNotExist
             (GetLiquidityProvidersForAssetPaginated pool.(ExternalAsset) MaxUint64);
  _ ← foldM (refund_provider msg.(dp_Symbol) pool)
        (pool.(PoolUnits), pool.(NativeAssetBalance), pool.(ExternalAssetBalance)) lpList;
  _ ← wrap_err ErrUnableToDecommissionPool (DecommissionPool pool);
  EmitEvents [EventTypeDecommissionPool; EventTypeMessage].

Definition CreatePool_handler (msg : MsgCreatePool) : M unit :=
  MinThreshold ← lift (NewUintFromString PoolThrehold);
  _ ← throw_if (msg.(cp_NativeAssetAmount) <? MinThreshold) ErrTotalAmountTooLow;
  reg ← gets GetRegistry;
  eAsset ← wrap_err ErrTokenNotSupported (lift (GetEntry reg msg.(cp_ExternalAsset).(Symbol)));
  _ ← throw_if (negb (CheckEntryPermissions eAsset [Permission_CLP])) ErrPermissionDenied;
  exists_ ← ExistsPool msg.(cp_ExternalAsset).(Symbol);
  _ ← throw_if exists_ ErrUnableToCreatePool;
  rates ← GetPmtpRateParams;
  sellNativeSwapFeeRate ← GetSwapFeeRate GetSettlementAsset false;
  buyNativeSwapFeeRate ← GetSwapFeeRate msg.(cp_ExternalAsset) false;
  '(poolUnits, lpunits, _, _) ←
    wrap_err ErrUnableToCreatePool
      (lift (CalculatePoolUnits 0 0 0 msg.(cp_NativeAssetAmount) msg.(cp_ExternalAssetAmount)
               sellNativeSwapFeeRate buyNativeSwapFeeRate rates.(PmtpCurrentRunningRate)));
  pool ← wrap_err ErrUnableToSetPool (CreatePool poolUnits msg);
  accAddr ← lift (AccAddressFromBech32 msg.(cp_Signer));
  lp ← CreateLiquidityProvider msg.(cp_ExternalAsset) lpunits accAddr;
  EmitEvents [EventTypeCreatePool; EventTypeCreateLiquidityProvider; EventTypeMessage].

(** ** Swap *)

(** Selling fury is refused beyond the protection threshold; the price is kept for the update
    at the end of the swap. *)
Definition swap_protection (sAsset : RegistryEntry) (sentAmount : Uint) : M (option Dec) :=
  protection ← GetLiquidityProtectionParams;
  if protection.(IsActive) then
    price ← GetNativePrice;
    _ ← (if StringCompare (EntryDenom sAsset) NativeSymbol then
           blocked ← IsBlockedByLiquidityProtection sentAmount price;
           throw_if blocked ErrReachedMaxFuryLiquidityThreshold
         else mret tt);
    mret (Some price)
  else mret None.

(** Reading an [sdk.Dec] or [sdk.Uint] that was never set panics. *)
Definition when_set (o : option Z) : M Z :=
  match o with Some p => mret p | None => panic end.

Definition Swap (msg : MsgSwap) : M unit :=
  reg ← gets GetRegistry;
  sAsset ← wrap_err ErrTokenNotSupported (lift (GetEntry reg msg.(sw_SentAsset).(Symbol)));
  rAsset ← wrap_err ErrTokenNotSupported (lift (GetEntry reg msg.(sw_ReceivedAsset).(Symbol)));
  _ ← throw_if (negb (CheckEntryPermissions sAsset [Permission_CLP])) ErrPermissionDenied;
  _ ← throw_if (negb (CheckEntryPermissions rAsset [Permission_CLP])) ErrPermissionDenied;
  _ ← throw_if (CheckEntryPermissions sAsset [Permission_DISABLE_SELL]) ErrNotAllowedToSellAsset;
  _ ← throw_if (CheckEntryPermissions rAsset [Permission_DISABLE_BUY]) ErrNotAllowedToBuyAsset;
  rates ← GetPmtpRateParams;
  let pmtpCurrentRunningRate := rates.(PmtpCurrentRunningRate) in
  swapFeeRate ← GetSwapFeeRate msg.(sw_SentAsset) false;
  price ← swap_protection sAsset msg.(sw_SentAmount);
  let nativeAsset := GetSettlementAsset in
  inPool ←
    (if negb (Asset_Equals msg.(sw_SentAsset) GetSettlementAsset) then
       p ← wrap_err ErrPoolDoesNotExist (GetPool msg.(sw_SentAsset).(Symbol)); mret (Some p)
     else mret None);
  sentAmountInt ← parse_int (UintString msg.(sw_SentAmount));
  accAddr ← lift (AccAddressFromBech32 msg.(sw_Signer));
  sentCoin ← lift (NewCoin msg.(sw_SentAsset).(Symbol) sentAmountInt);
  _ ← wrap_err ErrUnableToSwap (InitiateSwap sentCoin accAddr);
  (* a swap of two external assets goes through fury *)
  '(sentAmount, sentAsset, priceImpact, liquidityFeeNative) ←
    (match inPool with
     | Some inPool =>
         if negb (Asset_Equals msg.(sw_ReceivedAsset) nativeAsset) then
           '(emitAmount, lp, ts, finalPool) ←
             lift (SwapOne msg.(sw_SentAsset) msg.(sw_SentAmount) nativeAsset inPool
                     pmtpCurrentRunningRate swapFeeRate);
           _ ← wrap_err ErrUnableToSetPool (SetPool finalPool);
           priceImpact ← lift (UintAdd 0 ts);
           liquidityFeeNative ← lift (UintAdd 0 lp);
           mret (emitAmount, nativeAsset, priceImpact, liquidityFeeNative)
         else mret (msg.(sw_SentAmount), msg.(sw_SentAsset), 0, 0)
     | None => mret (msg.(sw_SentAmount), msg.(sw_SentAsset), 0, 0)
     end);
  outPool ←
    (if Asset_Equals msg.(sw_ReceivedAsset) GetSettlementAsset
     then wrap_err ErrPoolDoesNotExist (GetPool msg.(sw_SentAsset).(Symbol))
     else wrap_err ErrPoolDoesNotExist (GetPool msg.(sw_ReceivedAsset).(Symbol)));
  '(emitAmount, lp, ts, finalPool) ←
    lift (SwapOne sentAsset sentAmount msg.(sw_ReceivedAsset) outPool pmtpCurrentRunningRate
            swapFeeRate);
  _ ← (if emitAmount <? msg.(sw_MinReceivingAmount) then
         _ ← EmitEvents [EventTypeSwapFailed; EventTypeMessage];
         throw ErrReceivedAmountBelowExpected
       else mret tt);
  _ ← wrap_err ErrUnableToSwap (FinalizeSwap (UintString emitAmount) finalPool msg);
  totalLiquidityFee ←
    (if liquidityFeeNative >? 0 then
       liquidityFeeExternal ← lift (UintAdd 0 lp);
       firstSwapFeeInOutputAsset ←
         lift (GetSwapFee liquidityFeeNative msg.(sw_ReceivedAsset) outPool
                 pmtpCurrentRunningRate swapFeeRate);
       lift (UintAdd liquidityFeeExternal firstSwapFeeInOutputAsset)
     else lift (UintAdd liquidityFeeNative lp));
  _ ← lift (UintAdd priceImpact ts);
  _ ← EmitEvents [EventTypeSwap; EventTypeMessage];
  protection ← GetLiquidityProtectionParams;
  if protection.(IsActive) then
    _ ← (if StringCompare (EntryDenom sAsset) NativeSymbol then
           discountedSentAmount ←
             lift (CalculateDiscountedSentAmount msg.(sw_SentAmount) swapFeeRate);
           price ← when_set price;
           MustUpdateLiquidityProtectionThreshold true discountedSentAmount price
         else mret tt);
    if StringCompare (EntryDenom rAsset) NativeSymbol then
      price ← when_set price;
      MustUpdateLiquidityProtectionThreshold false emitAmount price
    else mret tt
  else mret tt.

(** ** AddLiquidity *)

(** Adding asymmetrically sells or buys fury: permissions and protection apply to the part
    that is swapped. *)
Definition add_liquidity_swap_checks (nAsset eAsset : RegistryEntry) (swapStatus : SwapStatus)
    (swapAmount : option Uint) (nativeAssetDepth externalAssetDepth : Uint)
    (pmtpCurrentRunningRate sellNativeSwapFeeRate buyNativeSwapFeeRate : Dec) : M unit :=
  match swapStatus with
  | NoSwap => mret tt
  | SellNative =>
      _ ← throw_if (CheckEntryPermissions nAsset [Permission_DISABLE_SELL]) ErrNotAllowedToSellAsset;
      _ ← throw_if (CheckEntryPermissions eAsset [Permission_DISABLE_BUY]) ErrNotAllowedToBuyAsset;
      protection ← GetLiquidityProtectionParams;
      if protection.(IsActive) then
        price ← GetNativePrice;
        swapAmount ← when_set swapAmount;
        blocked ← IsBlockedByLiquidityProtection swapAmount price;
        _ ← throw_if blocked ErrReachedMaxFuryLiquidityThreshold;
        discountedSentAmount ←
          lift (CalculateDiscountedSentAmount swapAmount sellNativeSwapFeeRate);
        MustUpdateLiquidityProtectionThreshold true discountedSentAmount price
      else mret tt
  | BuyNative =>
      _ ← throw_if (CheckEntryPermissions eAsset [Permission_DISABLE_SELL]) ErrNotAllowedToSellAsset;
      _ ← throw_if (CheckEntryPermissions nAsset [Permission_DISABLE_BUY]) ErrNotAllowedToBuyAsset;
      protection ← GetLiquidityProtectionParams;
      if protection.(IsActive) then
        swapAmount ← when_set swapAmount;
        '(nativeAmount, _) ←
          lift (CalcSwapResult true externalAssetDepth swapAmount nativeAssetDepth
                  pmtpCurrentRunningRate buyNativeSwapFeeRate);
        price ← GetNativePrice;
        MustUpdateLiquidityProtectionThreshold false nativeAmount price
      else mret tt
  end.

Definition AddLiquidity_handler (msg : MsgAddLiquidity) : M unit :=
  reg ← gets GetRegistry;
  nAsset ← wrap_err ErrTokenNotSupported (lift (GetEntry reg NativeSymbol));
  eAsset ← wrap_err ErrTokenNotSupported (lift (GetEntry reg msg.(al_ExternalAsset).(Symbol)));
  _ ← throw_if (negb (CheckEntryPermissions eAsset [Permission_CLP])) ErrPermissionDenied;
  pool ← wrap_err ErrPoolDoesNotExist (GetPool msg.(al_ExternalAsset).(Symbol));
  rates ← GetPmtpRateParams;
  let pmtpCurrentRunningRate := rates.(PmtpCurrentRunningRate) in
  sellNativeSwapFeeRate ← GetSwapFeeRate GetSettlementAsset false;
  buyNativeSwapFeeRate ← GetSwapFeeRate msg.(al_ExternalAsset) false;
  '(nativeAssetDepth, externalAssetDepth) ←
    lift (ExtractDebt pool pool.(NativeAssetBalance) pool.(ExternalAssetBalance) false);
  '(newPoolUnits, lpUnits, swapStatus, swapAmount) ←
    lift (CalculatePoolUnits pool.(PoolUnits) nativeAssetDepth externalAssetDepth
            msg.(al_NativeAssetAmount) msg.(al_ExternalAssetAmount) sellNativeSwapFeeRate
            buyNativeSwapFeeRate pmtpCurrentRunningRate);
  _ ← add_liquidity_swap_checks nAsset eAsset swapStatus swapAmount nativeAssetDepth
        externalAssetDepth pmtpCurrentRunningRate sellNativeSwapFeeRate buyNativeSwapFeeRate;
  lp ← wrap_err ErrUnableToAddLiquidity (AddLiquidity msg pool newPoolUnits lpUnits);
  _ ← EmitEvents [EventTypeAddLiquidity; EventTypeMessage];
  enabled ← gets (λ w, IsPoolEnabled w msg.(al_ExternalAsset).(Symbol));
  queueing ← IsRemovalQueueEnabled;
  if negb enabled || negb queueing then mret tt
  else
    queue ← GetRemovalQueue msg.(al_ExternalAsset).(Symbol);
    if queue.(rq_Count) >? 0 then ProcessRemovalQueue msg newPoolUnits else mret tt.

(** ** RemoveLiquidity *)

(** A removal that would leave a margin pool below its health threshold is queued, or refused
    when queueing is off.  Both end the message with an error. *)
Definition guard_pool_health (ctx : Ctx) (eAsset : RegistryEntry) (pool : Pool)
    (withdrawNativeAssetAmount withdrawExternalAssetAmount : Uint)
    (pmtpCurrentRunningRate swapFeeRate : Dec) (queue_it : Uint → M unit) : M unit :=
  enabled ← gets (λ w, IsPoolEnabled w (EntryDenom eAsset));
  if (enabled : bool) then
    extFuryValue ←
      lift (CalculateWithdrawalFuryValue withdrawExternalAssetAmount GetSettlementAsset pool
              pmtpCurrentRunningRate swapFeeRate);
    nb ← lift (UintSub pool.(NativeAssetBalance) withdrawNativeAssetAmount);
    eb ← lift (UintSub pool.(ExternalAssetBalance) withdrawExternalAssetAmount);
    health ← lift (CalculatePoolHealth
                     (pool <| NativeAssetBalance := nb |> <| ExternalAssetBalance := eb |>));
    threshold ← gets GetRemovalQueueThreshold;
    if health <? threshold then
      queueing ← IsRemovalQueueEnabled;
      if (queueing : bool) then _ ← queue_it extFuryValue; throw ErrQueued
      else throw ErrRemovalsBlockedByHealth
    else mret tt
  else mret tt.

Definition RemoveLiquidityUnits (ctx : Ctx) (msg : MsgRemoveLiquidityUnits) : M unit :=
  let asset := msg.(rlu_ExternalAsset) in
  reg ← gets GetRegistry;
  eAsset ← wrap_err ErrTokenNotSupported (lift (GetEntry reg asset.(Symbol)));
  _ ← throw_if (negb (CheckEntryPermissions eAsset [Permission_CLP])) ErrPermissionDenied;
  pool ← wrap_err ErrPoolDoesNotExist (GetPool asset.(Symbol));
  lp ← wrap_err ErrLiquidityProviderDoesNotExist
         (GetLiquidityProvider asset.(Symbol) msg.(rlu_Signer));
  lpQueuedUnits ← GetRemovalQueueUnitsForLP lp;
  available ← lift (UintSub lp.(LiquidityProviderUnits) lpQueuedUnits);
  _ ← throw_if (msg.(rlu_WithdrawUnits) >? available) ErrUnableToRemoveLiquidity;
  rates ← GetPmtpRateParams;
  let pmtpCurrentRunningRate := rates.(PmtpCurrentRunningRate) in
  swapFeeRate ← GetSwapFeeRate asset false;
  lp ← prune_for_message ctx lp;
  '(nativeAssetDepth, externalAssetDepth) ←
    lift (ExtractDebt pool pool.(NativeAssetBalance) pool.(ExternalAssetBalance) false);
  '(withdrawNativeAssetAmount, withdrawExternalAssetAmount, lpUnitsLeft) ←
    lift (CalculateWithdrawalFromUnits pool.(PoolUnits) (UintString nativeAssetDepth)
            (UintString externalAssetDepth) (UintString lp.(LiquidityProviderUnits))
            msg.(rlu_WithdrawUnits));
  used ← lift (UintSub lp.(LiquidityProviderUnits) lpUnitsLeft);
  unlocks ← UseUnlockedLiquidity ctx lp used false;
  let lp := lp <| Unlocks := unlocks |> in
  _ ← guard_pool_health ctx eAsset pool withdrawNativeAssetAmount withdrawExternalAssetAmount
        pmtpCurrentRunningRate swapFeeRate
        (λ extFuryValue,
          wBasis ← lift (ConvUnitsToWBasisPoints lp.(LiquidityProviderUnits)
                           msg.(rlu_WithdrawUnits));
          value ← lift (UintAdd extFuryValue withdrawNativeAssetAmount);
          QueueRemoval ctx (mkMsgRemoveLiquidity msg.(rlu_Signer) asset wBasis 0) value);
  withdrawExternalAssetAmountInt ← parse_int (UintString withdrawExternalAssetAmount);
  withdrawNativeAssetAmountInt ← parse_int (UintString withdrawNativeAssetAmount);
  externalAssetCoin ← lift (NewCoin asset.(Symbol) withdrawExternalAssetAmountInt);
  nativeAssetCoin ← lift (NewCoin GetSettlementAsset.(Symbol) withdrawNativeAssetAmountInt);
  units ← lift (UintSub pool.(PoolUnits) lp.(LiquidityProviderUnits));
  units ← lift (UintAdd units lpUnitsLeft);
  nb ← lift (UintSub pool.(NativeAssetBalance) withdrawNativeAssetAmount);
  eb ← lift (UintSub pool.(ExternalAssetBalance) withdrawExternalAssetAmount);
  let pool := pool <| PoolUnits := units |> <| NativeAssetBalance := nb |>
                   <| ExternalAssetBalance := eb |> in
  _ ← wrap_err ErrUnableToRemoveLiquidity
        (RemoveLiquidity pool externalAssetCoin nativeAssetCoin lp lpUnitsLeft
           externalAssetDepth nativeAssetDepth);
  EmitEvents [EventTypeRemoveLiquidity; EventTypeMessage].

Definition RemoveLiquidity_handler (ctx : Ctx) (msg : MsgRemoveLiquidity) : M unit :=
  let asset := msg.(rl_ExternalAsset) in
  reg ← gets GetRegistry;
  eAsset ← wrap_err ErrTokenNotSupported (lift (GetEntry reg asset.(Symbol)));
  _ ← throw_if (negb (CheckEntryPermissions eAsset [Permission_CLP])) ErrPermissionDenied;
  pool ← wrap_err ErrPoolDoesNotExist (GetPool asset.(Symbol));
  lp ← wrap_err ErrLiquidityProviderDoesNotExist
         (GetLiquidityProvider asset.(Symbol) msg.(rl_Signer));
  rates ← GetPmtpRateParams;
  let pmtpCurrentRunningRate := rates.(PmtpCurrentRunningRate) in
  externalSwapFeeRate ← GetSwapFeeRate asset false;
  nativeSwapFeeRate ← GetSwapFeeRate GetSettlementAsset false;
  lp ← prune_for_message ctx lp;
  _ ← throw_if (negb (msg.(rl_Asymmetry) =? 0)) ErrAsymmetricRemove;
  lpQueuedUnits ← GetRemovalQueueUnitsForLP lp;
  msgUnits ← lift (ConvWBasisPointsToUnits lp.(LiquidityProviderUnits) msg.(rl_WBasisPoints));
  available ← lift (UintSub lp.(LiquidityProviderUnits) lpQueuedUnits);
  _ ← throw_if (msgUnits >? available) ErrUnableToRemoveLiquidity;
  '(nativeAssetDepth, externalAssetDepth) ←
    lift (ExtractDebt pool pool.(NativeAssetBalance) pool.(ExternalAssetBalance) false);
  '(withdrawNativeAssetAmount, withdrawExternalAssetAmount, lpUnitsLeft, swapAmount) ←
    lift (CalculateWithdrawal pool.(PoolUnits) (UintString nativeAssetDepth)
            (UintString externalAssetDepth) (UintString lp.(LiquidityProviderUnits))
            (IntString msg.(rl_WBasisPoints)) msg.(rl_Asymmetry));
  used ← lift (UintSub lp.(LiquidityProviderUnits) lpUnitsLeft);
  unlocks ← UseUnlockedLiquidity ctx lp used false;
  let lp := lp <| Unlocks := unlocks |> in
  _ ← guard_pool_health ctx eAsset pool withdrawNativeAssetAmount withdrawExternalAssetAmount
        pmtpCurrentRunningRate externalSwapFeeRate
        (λ extFuryValue,
          value ← lift (UintAdd extFuryValue withdrawExternalAssetAmount);
          QueueRemoval ctx msg value);
  _ ← withdraw_and_remove asset msg.(rl_Asymmetry) pool lp withdrawNativeAssetAmount
        withdrawExternalAssetAmount lpUnitsLeft swapAmount pmtpCurrentRunningRate
        externalSwapFeeRate nativeSwapFeeRate externalAssetDepth nativeAssetDepth;
  EmitEvents [EventTypeRemoveLiquidity; EventTypeMessage].
End server.
