(* ===== verification/ClpModule.v ===== *)
(** * ClpModule: message dispatch, genesis and the registered checks of x/clp

    x/clp/{handler,genesis}.go and x/clp/keeper/invariants.go. *)

From S2P Require Import Prelude Sdk Rat Bank Keepers ClpTypes ClpMath ClpKeeper ClpPolicy.
From S2P Require Import ClpRewards ClpLiquidity ClpMsgs ClpServer.
Local Open Scope Z_scope.

Record GenesisState := mkGenesisState {
  gs_Params : Params;
  gs_AddressWhitelist : list string;
  gs_PoolList : list Pool;
  gs_LiquidityProviders : list LiquidityProvider
}.

Section module.
Context {W : Type} {sdk : Sdk} {coins : CoinLib} {bank : BankKeeper W} {paginator : Paginator}
  {registry : TokenRegistryKeeper W} {admin : AdminKeeper W} {margin : MarginKeeper W}
  {mint : MintKeeper W} {errs : SdkErrors}
  {clp : HasStore ClpStore W} {events : HasStore EventLog W}.
Notation M := (M W).

(** ** handler.go *)
Inductive ClpMsg :=
| AMsgCreatePool (m : MsgCreatePool)
| AMsgDecommissionPool (m : MsgDecommissionPool)
| AMsgAddLiquidity (m : MsgAddLiquidity)
| AMsgRemoveLiquidity (m : MsgRemoveLiquidity)
| AMsgRemoveLiquidityUnits (m : MsgRemoveLiquidityUnits)
| AMsgSwap (m : MsgSwap)
| AMsgModifyPmtpRates (m : MsgModifyPmtpRates)
| AMsgUpdatePmtpParams (m : MsgUpdatePmtpParams)
| AMsgCancelUnlock (m : MsgCancelUnlock)
| AMsgUnlockLiquidityRequest (m : MsgUnlockLiquidityRequest)
| AMsgUpdateRewardsParamsRequest (m : MsgUpdateRewardsParamsRequest)
| AMsgAddRewardPeriodRequest (m : MsgAddRewardPeriodRequest)
| AMsgUpdateStakingRewardParams (signer : string) (minter : Minter) (params : MintParams)
| AMsgUpdateLiquidityProtectionParams (m : MsgUpdateLiquidityProtectionParams)
| AMsgModifyLiquidityProtectionRates (m : MsgModifyLiquidityProtectionRates)
| AMsgAddProviderDistributionPeriodRequest (m : MsgAddProviderDistributionPeriodRequest)
| AMsgUpdateSwapFeeParamsRequest (m : MsgUpdateSwapFeeParamsRequest)
| AMsgSetSymmetryThreshold (m : MsgSetSymmetryThreshold).

(** [NewHandler] has no case for [MsgSetSymmetryThreshold]: that message is served by the
    gRPC message service only. *)
Definition NewHandler (ctx : Ctx) (msg : ClpMsg) : M unit :=
  match msg with
  | AMsgCreatePool m => CreatePool_handler m
  | AMsgDecommissionPool m => DecommissionPool_handler m
  | AMsgAddLiquidity m => AddLiquidity_handler m
  | AMsgRemoveLiquidity m => RemoveLiquidity_handler ctx m
  | AMsgRemoveLiquidityUnits m => RemoveLiquidityUnits ctx m
  | AMsgSwap m => Swap m
  | AMsgModifyPmtpRates m => ModifyPmtpRates ctx m
  | AMsgUpdatePmtpParams m => UpdatePmtpParams ctx m
  | AMsgCancelUnlock m => CancelUnlockLiquidity ctx m
  | AMsgUnlockLiquidityRequest m => UnlockLiquidity ctx m
  | AMsgUpdateRewardsParamsRequest m => UpdateRewardsParams m
  | AMsgAddRewardPeriodRequest m => AddRewardPeriod m
  | AMsgUpdateStakingRewardParams signer minter params =>
      UpdateStakingRewardParams signer minter params
  | AMsgUpdateLiquidityProtectionParams m => UpdateLiquidityProtectionParams m
  | AMsgModifyLiquidityProtectionRates m => ModifyLiquidityProtectionRates m
  | AMsgAddProviderDistributionPeriodRequest m => AddProviderDistributionPeriod m
  | AMsgUpdateSwapFeeParamsRequest m => UpdateSwapFeeParams m
  | AMsgSetSymmetryThreshold _ => throw ErrUnknownRequest
  end.

Definition ValidateBasic (msg : ClpMsg) : res unit :=
  match msg with
  | AMsgCreatePool m => MsgCreatePool_ValidateBasic m
  | AMsgDecommissionPool m => MsgDecommissionPool_ValidateBasic m
  | AMsgAddLiquidity m => MsgAddLiquidity_ValidateBasic m
  | AMsgRemoveLiquidity m => MsgRemoveLiquidity_ValidateBasic m
  | AMsgRemoveLiquidityUnits m => MsgRemoveLiquidityUnits_ValidateBasic m
  | AMsgSwap m => MsgSwap_ValidateBasic m
  | AMsgModifyPmtpRates m => MsgModifyPmtpRates_ValidateBasic m
  | AMsgUpdatePmtpParams m => MsgUpdatePmtpParams_ValidateBasic m
  | AMsgCancelUnlock m => MsgCancelUnlock_ValidateBasic m
  | AMsgUnlockLiquidityRequest m => MsgUnlockLiquidityRequest_ValidateBasic m
  | AMsgUpdateRewardsParamsRequest m => MsgUpdateRewardsParamsRequest_ValidateBasic m
  | AMsgAddRewardPeriodRequest m => MsgAddRewardPeriodRequest_ValidateBasic m
  | AMsgUpdateStakingRewardParams _ _ params => MintParams_Validate params
  | AMsgUpdateLiquidityProtectionParams m => MsgUpdateLiquidityProtectionParams_ValidateBasic m
  | AMsgModifyLiquidityProtectionRates m => MsgModifyLiquidityProtectionRates_ValidateBasic m
  | AMsgAddProviderDistributionPeriodRequest m =>
      MsgAddProviderDistributionPeriodRequest_ValidateBasic m
  | AMsgUpdateSwapFeeParamsRequest m => MsgUpdateSwapFeeParamsRequest_ValidateBasic m
  | AMsgSetSymmetryThreshold m => MsgSetSymmetryThreshold_ValidateBasic m
  end.

(** ** genesis.go *)
Definition InitGenesis (data : GenesisState) : M unit :=
  _ ← SetParams data.(gs_Params);
  _ ← SetRewardParams GetDefaultRewardParams;
  _ ← SetPmtpRateParams (mkPmtpRateParams ZeroDec ZeroDec ZeroDec);
  _ ← SetPmtpEpoch (mkPmtpEpoch 0 0);
  pmtp ← lift GetDefaultPmtpParams;
  _ ← SetPmtpParams pmtp;
  _ ← SetPmtpInterPolicyRate (NewDec 0);
  _ ← (match data.(gs_AddressWhitelist) with [] => panic | _ => mret tt end);
  _ ← SetLiquidityProtectionParams GetDefaultLiquidityProtectionParams;
  _ ← SetLiquidityProtectionRateParams (mkLiquidityProtectionRateParams
        GetDefaultLiquidityProtectionParams.(MaxFuryLiquidityThreshold));
  wl ← lift (foldR (λ wl entry, a ← must (AccAddressFromBech32 entry); Ok (wl ++ [a])) []
               data.(gs_AddressWhitelist));
  _ ← SetClpWhiteList wl;
  _ ← forM (λ pool, on_err (SetPool pool) (λ _, panic)) data.(gs_PoolList);
  forM SetLiquidityProvider data.(gs_LiquidityProviders).

(** The pages are read with a limit of [MaxUint64] and their errors dropped. *)
Definition page_all {V} (entries : list (string * V)) : res (list V) :=
  match FilteredPaginate entries MaxUint64 (λ _, true) with
  | Ok vs => Ok vs | Err _ => Ok [] | Panic => Panic end.
Definition ExportGenesis : M GenesisState :=
  params ← GetParams;
  s ← get_clp;
  poolList ← lift (page_all (kv_iter s.(cs_Pools)));
  liquidityProviders ← lift (page_all (kv_iter s.(cs_LPs)));
  whiteList ← GetClpWhiteList;
  mret (mkGenesisState params (AccString <$> whiteList) poolList liquidityProviders).

Definition ValidateGenesis (data : GenesisState) : res unit :=
  _ ← (match Params_Validate data.(gs_Params) with
       | Err _ => Err ErrInvalid | r => r end);
  _ ← foldR (λ _ pool, ok ← Pool_Validate pool; require ok ErrInvalid) tt data.(gs_PoolList);
  foldR (λ _ lp, ok ← LP_Validate lp; require ok ErrInvalid) tt data.(gs_LiquidityProviders).

(** ** invariants.go: [true] reports a broken invariant *)
Definition uint_balance (denom : string) : M Uint :=
  b ← gets (λ w, GetBalance w GetCLPModuleAddress denom);
  lift (must (NewUintFromString (IntString b.(Amount)))).

Definition pool_external_matches (pool : Pool) : M bool :=
  bal ← uint_balance pool.(ExternalAsset).(Symbol);
  own ← lift (UintAdd pool.(ExternalAssetBalance) pool.(ExternalCustody));
  mret (own =? bal).

(** [None]: a mismatch was found; otherwise the native balances and custody so far. *)
Definition BalanceModuleAccountCheck : M bool :=
  moduleNative ← uint_balance GetSettlementAsset.(Symbol);
  pools ← GetPools;
  totals ← foldM (λ acc pool,
    match acc with
    | None => mret None
    | Some (balance, custody) =>
        balance ← lift (UintAdd balance pool.(NativeAssetBalance));
        custody ← lift (UintAdd custody pool.(NativeCustody));
        ok ← pool_external_matches pool;
        mret (if (ok : bool) then Some (balance, custody) else None)
    end) (Some (0, 0)) pools;
  match totals with
  | None => mret true
  | Some (balance, custody) =>
      own ← lift (UintAdd balance custody); mret (negb (own =? moduleNative))
  end.

Definition SingleExternalBalanceModuleAccountCheck (externalAsset : string) : M bool :=
  found ← try (GetPool externalAsset);
  external_ok ← (match found with
                 | inr pool => pool_external_matches pool
                 | inl _ => mret true
                 end);
  if negb external_ok then mret true
  else
    moduleNative ← uint_balance GetSettlementAsset.(Symbol);
    pools ← GetPools;
    '(balance, custody) ← foldM (λ acc pool,
      let '(balance, custody) := acc in
      balance ← lift (UintAdd balance pool.(NativeAssetBalance));
      custody ← lift (UintAdd custody pool.(NativeCustody));
      mret (balance, custody)) (0, 0) pools;
    own ← lift (UintAdd balance custody);
    mret (negb (own =? moduleNative)).

(** The first pool whose units are not those of its providers; a failed lookup is skipped. *)
Definition UnitsCheck : M bool :=
  pools ← GetPools;
  foldM (λ broken pool,
    if (broken : bool) then mret true
    else
      found ← try (GetAllLiquidityProvidersForAsset pool.(ExternalAsset));
      match found with
      | inl _ => mret false
      | inr lps =>
          total ← lift (foldR (λ t lp, UintAdd t lp.(LiquidityProviderUnits)) 0 lps);
          mret (negb (pool.(PoolUnits) =? total))
      end) false pools.
End module.
