(* ===== verification/ClpQuery.v ===== *)
(** * ClpQuery: the queries of x/clp

    x/clp/keeper/grpc_query.go and querier.go: what the chain answers about pools, providers and
    settings, page by page, and the estimate of an add. *)

From S2P Require Import Prelude Sdk Rat Bank Keepers ClpTypes ClpMath ClpKeeper Pages.
Local Open Scope Z_scope.

(** ** Library code *)
(** The errors of google.golang.org/grpc/status, by their code. *)
Definition status_Error (c : Z) : error := mkErr "grpc" c.
Definition InvalidArgument : error := status_Error 3.
Definition NotFound : error := status_Error 5.
Definition Internal : error := status_Error 13.

(** ** Requests and answers (proto/blackfury/clp/v1/querier.proto) *)
Record PoolReq := mkPoolReq { plr_Symbol : string }.
Record PoolRes := mkPoolRes { pls_Pool : Pool; pls_Height : Z; pls_ClpModuleAddress : string }.
Record PoolsReq := mkPoolsReq { psr_Pagination : option PageRequest }.
Record PoolsRes := mkPoolsRes {
  pss_Pools : list Pool; pss_Height : Z; pss_ClpModuleAddress : string; pss_Pagination : PageResponse
}.
Record LiquidityProviderReq := mkLiquidityProviderReq { lpr_Symbol : string; lpr_LpAddress : string }.
Record LiquidityProviderRes := mkLiquidityProviderRes {
  lps_LiquidityProvider : LiquidityProvider; lps_Height : Z; lps_NativeAssetBalance : string;
  lps_ExternalAssetBalance : string
}.
Record LiquidityProviderDataReq := mkLiquidityProviderDataReq {
  ldr_LpAddress : string; ldr_Pagination : option PageRequest
}.
Record LiquidityProviderData := mkLiquidityProviderData {
  ld_LiquidityProvider : LiquidityProvider; ld_NativeAssetBalance : string; ld_ExternalAssetBalance : string
}.
Record LiquidityProviderDataRes := mkLiquidityProviderDataRes {
  lds_LiquidityProviderData : list LiquidityProviderData; lds_Height : Z
}.
Record AssetListReq := mkAssetListReq { alr_LpAddress : string; alr_Pagination : option PageRequest }.
Record LiquidityProviderListReq := mkLiquidityProviderListReq {
  llr_Symbol : string; llr_Pagination : option PageRequest
}.
Record LiquidityProviderListRes := mkLiquidityProviderListRes {
  lls_LiquidityProviders : list LiquidityProvider; lls_Height : Z; lls_Pagination : PageResponse
}.
Record PmtpParamsRes := mkPmtpParamsRes {
  pms_Params : PmtpParams; pms_PmtpRateParams : PmtpRateParams; pms_PmtpEpoch : PmtpEpoch; pms_Height : Z
}.
Record ParamsRes := mkParamsRes {
  prs_Params : Params; prs_SymmetryThreshold : Dec; prs_SymmetryRatioThreshold : Dec
}.
Record LiquidityProtectionParamsRes := mkLiquidityProtectionParamsRes {
  lqs_Params : LiquidityProtectionParams; lqs_RateParams : LiquidityProtectionRateParams; lqs_Height : Z
}.
Record PoolShareEstimateReq := mkPoolShareEstimateReq {
  per_ExternalAsset : option Asset; per_NativeAssetAmount : Uint; per_ExternalAssetAmount : Uint
}.
Inductive SwapStatus_res := SwapStatus_UNSPECIFIED | SwapStatus_NO_SWAP | SwapStatus_SELL_NATIVE
  | SwapStatus_BUY_NATIVE.
Record SwapInfo := mkSwapInfo {
  si_Status : SwapStatus_res; si_Fee : Uint; si_FeeRate : Dec; si_Amount : option Uint; si_Result : Uint
}.
Record PoolShareEstimateRes := mkPoolShareEstimateRes {
  pes_Percentage : Dec; pes_NativeAssetAmount : Uint; pes_ExternalAssetAmount : Uint;
  pes_SwapInfo : SwapInfo
}.

Section query.
Context {W : Type} {sdk : Sdk} {coins : CoinLib} {registry : TokenRegistryKeeper W}
  {pages : Pages} {paginator : Paginator} {bank : BankKeeper W} {clp : HasStore ClpStore W}.
Notation M := (M W).

(** ** Pages of the store (pool.go, liquidityprovider.go) *)
Definition paged {A} (r : res A) : M A := wrap_err Internal (lift r).
Definition GetPoolsPaginated (pagination : PageRequest) : M (list Pool * PageResponse) :=
  s ← get_clp; paged (Paginate (prefix_store (String PoolPrefix "") s.(cs_Pools)) pagination).
Definition GetAllLiquidityProvidersPaginated (pagination : PageRequest)
    : M (list LiquidityProvider * PageResponse) :=
  s ← get_clp; paged (Paginate (prefix_store (String LiquidityProviderPrefix "") s.(cs_LPs)) pagination).
Definition LiquidityProvidersForAssetPage (asset : Asset) (pagination : PageRequest)
    : M (list LiquidityProvider * PageResponse) :=
  s ← get_clp;
  let onResult lp (accumulate : bool) := Asset_Equals lp.(LPAsset) asset in
  '(calls, pageRes) ← paged (FilteredCalls (prefix_store (String LiquidityProviderPrefix "") s.(cs_LPs)) pagination onResult);
  mret (taken onResult calls, pageRes).

(** ** grpc_query.go *)
Definition MaxPageLimit : Z := 200.
Definition not_nil {A} (req : option A) : M A :=
  match req with None => throw InvalidArgument | Some r => mret r end.
(** The page asked for, with the limit that holds for all pages. *)
Definition pagination_or_default (pagination : option PageRequest) : M PageRequest :=
  let pagination := match pagination with None => limit_page MaxPageLimit | Some p => p end in
  _ ← throw_if (pagination.(pg_Limit) >? MaxPageLimit) InvalidArgument;
  mret pagination.

Definition GetPool_query (ctx : Ctx) (req : option PoolReq) : M PoolRes :=
  req ← not_nil req;
  pool ← wrap_err NotFound (GetPool req.(plr_Symbol));
  mret (mkPoolRes pool ctx.(BlockHeight) (AccString GetCLPModuleAddress)).
Definition GetPools_query (ctx : Ctx) (req : option PoolsReq) : M PoolsRes :=
  req ← not_nil req;
  pagination ← pagination_or_default req.(psr_Pagination);
  '(pools, pageRes) ← GetPoolsPaginated pagination;
  mret (mkPoolsRes pools ctx.(BlockHeight) (AccString GetCLPModuleAddress) pageRes).
Definition GetLiquidityProvider_query (ctx : Ctx) (req : option LiquidityProviderReq)
    : M LiquidityProviderRes :=
  req ← not_nil req;
  lp ← GetLiquidityProvider req.(lpr_Symbol) req.(lpr_LpAddress);
  pool ← GetPool req.(lpr_Symbol);
  '(native, external, _, _) ← lift (CalculateAllAssetsForLP pool lp);
  mret (mkLiquidityProviderRes lp ctx.(BlockHeight) (UintString native) (UintString external)).
(** What a provider has in one pool; assets without a pool or provider are left out. *)
Definition provider_data (lpAddress : string) (asset : Asset) : M (option LiquidityProviderData) :=
  pool ← try (GetPool asset.(Symbol));
  match pool with
  | inl _ => mret None
  | inr pool =>
      lp ← try (GetLiquidityProvider asset.(Symbol) lpAddress);
      match lp with
      | inl _ => mret None
      | inr lp =>
          '(native, external, _, _) ← lift (CalculateAllAssetsForLP pool lp);
          mret (Some (mkLiquidityProviderData lp (UintString native) (UintString external)))
      end
  end.
(** The limit is checked twice and the key of the page is not used. *)
Definition GetLiquidityProviderData_query (ctx : Ctx) (req : option LiquidityProviderDataReq)
    : M LiquidityProviderDataRes :=
  req ← not_nil req;
  pagination ← pagination_or_default req.(ldr_Pagination);
  addr ← lift (AccAddressFromBech32 req.(ldr_LpAddress));
  let limit := if pagination.(pg_Limit) >? MaxPageLimit then MaxPageLimit else pagination.(pg_Limit) in
  assetList ← wrap_err Internal (GetAssetsForLiquidityProviderPaginated addr limit);
  lpDataList ← foldM (λ lpDataList asset,
    lpData ← provider_data req.(ldr_LpAddress) asset;
    mret (lpDataList ++ option_list lpData)) [] assetList;
  mret (mkLiquidityProviderDataRes lpDataList ctx.(BlockHeight)).
Definition GetAssetList_query (req : option AssetListReq) : M (list Asset) :=
  req ← not_nil req;
  _ ← pagination_or_default req.(alr_Pagination);
  addr ← lift (AccAddressFromBech32 req.(alr_LpAddress));
  wrap_err Internal (GetAssetsForLiquidityProviderPaginated addr MaxPageLimit).
Definition GetLiquidityProviderList_query (ctx : Ctx) (req : option LiquidityProviderListReq)
    : M LiquidityProviderListRes :=
  req ← not_nil req;
  pagination ← pagination_or_default req.(llr_Pagination);
  '(lpList, pageRes) ← LiquidityProvidersForAssetPage (NewAsset req.(llr_Symbol)) pagination;
  mret (mkLiquidityProviderListRes lpList ctx.(BlockHeight) pageRes).
Definition GetLiquidityProviders_query (ctx : Ctx) (req : option PoolsReq) : M LiquidityProviderListRes :=
  req ← not_nil req;
  pagination ← pagination_or_default req.(psr_Pagination);
  '(lpList, pageRes) ← GetAllLiquidityProvidersPaginated pagination;
  mret (mkLiquidityProviderListRes lpList ctx.(BlockHeight) pageRes).

Definition GetPmtpParams_query (ctx : Ctx) : M PmtpParamsRes :=
  params ← GetPmtpParams;
  rateParams ← GetPmtpRateParams;
  epoch ← GetPmtpEpoch;
  mret (mkPmtpParamsRes params rateParams epoch ctx.(BlockHeight)).
Definition GetParams_query : M ParamsRes :=
  params ← ClpKeeper.GetParams;
  threshold ← GetSymmetryThreshold;
  ratioThreshold ← GetSymmetryRatio;
  mret (mkParamsRes params threshold ratioThreshold).
Definition GetRewardParams_query : M RewardParams := GetRewardsParams.
Definition GetLiquidityProtectionParams_query (ctx : Ctx) : M LiquidityProtectionParamsRes :=
  params ← GetLiquidityProtectionParams;
  rateParams ← GetLiquidityProtectionRateParams;
  mret (mkLiquidityProtectionParamsRes params rateParams ctx.(BlockHeight)).
Definition GetProviderDistributionParams_query : M ProviderDistributionParams :=
  GetProviderDistributionParams.
Definition GetSwapFeeParams_query : M SwapFeeParams :=
  swapFeeParams ← GetSwapFeeParams;
  mret (mkSwapFeeParams swapFeeParams.(DefaultSwapFeeRate) swapFeeParams.(TokenParams)).

Definition from_nil {A} (o : option A) : res A := match o with Some a => Ok a | None => Panic end.
(** The amount swapped is nil when nothing is. *)
Definition calculateSwapInfo (swapStatus : SwapStatus) (swapAmount : option Uint)
    (nativeAssetDepth externalAssetDepth : Uint)
    (sellNativeSwapFeeRate buyNativeSwapFeeRate pmtpCurrentRunningRate : Dec)
    : res (Dec * Uint * Uint * SwapStatus_res) :=
  match swapStatus with
  | NoSwap => Ok (ZeroDec, 0, 0, SwapStatus_NO_SWAP)
  | SellNative =>
      swapAmount ← from_nil swapAmount;
      '(swapResult, liquidityFee) ← CalcSwapResult false nativeAssetDepth swapAmount externalAssetDepth
        pmtpCurrentRunningRate sellNativeSwapFeeRate;
      Ok (sellNativeSwapFeeRate, swapResult, liquidityFee, SwapStatus_SELL_NATIVE)
  | BuyNative =>
      swapAmount ← from_nil swapAmount;
      '(swapResult, liquidityFee) ← CalcSwapResult true externalAssetDepth swapAmount nativeAssetDepth
        pmtpCurrentRunningRate buyNativeSwapFeeRate;
      Ok (buyNativeSwapFeeRate, swapResult, liquidityFee, SwapStatus_BUY_NATIVE)
  end.
(** The share of an added amount. *)
Definition share_of (percentage : Dec) (depth added : Uint) : res Uint :=
  newDepth ← UintAdd depth added;
  amountD ← DecMul percentage (NewDec newDepth);
  amount ← DecTruncateInt amountD;
  NewUintFromBigInt amount.
Definition GetPoolShareEstimate (req : PoolShareEstimateReq) : M PoolShareEstimateRes :=
  match req.(per_ExternalAsset) with
  | None => panic
  | Some asset =>
      pool ← wrap_err ErrPoolDoesNotExist (GetPool asset.(Symbol));
      rates ← GetPmtpRateParams;
      let pmtpCurrentRunningRate := rates.(PmtpCurrentRunningRate) in
      sellNativeSwapFeeRate ← GetSwapFeeRate GetSettlementAsset false;
      buyNativeSwapFeeRate ← GetSwapFeeRate asset false;
      '(nativeAssetDepth, externalAssetDepth) ←
        lift (ExtractDebt pool pool.(NativeAssetBalance) pool.(ExternalAssetBalance) false);
      '(newPoolUnits, lpUnits, swapStatus, swapAmount) ←
        lift (CalculatePoolUnits pool.(PoolUnits) nativeAssetDepth externalAssetDepth
                req.(per_NativeAssetAmount) req.(per_ExternalAssetAmount) sellNativeSwapFeeRate
                buyNativeSwapFeeRate pmtpCurrentRunningRate);
      '(feeRate, swapResult, feeAmount, resSwapStatus) ←
        lift (calculateSwapInfo swapStatus swapAmount nativeAssetDepth externalAssetDepth
                sellNativeSwapFeeRate buyNativeSwapFeeRate pmtpCurrentRunningRate);
      percentage ← lift (DecQuo (NewDec lpUnits) (NewDec newPoolUnits));
      native ← lift (share_of percentage nativeAssetDepth req.(per_NativeAssetAmount));
      external ← lift (share_of percentage externalAssetDepth req.(per_ExternalAssetAmount));
      mret (mkPoolShareEstimateRes percentage native external
              (mkSwapInfo resSwapStatus feeAmount feeRate swapAmount swapResult))
  end.

(** ** querier.go *)
(** What the amino codec of JSON reads and writes. *)
Inductive Answer :=
| APool (r : PoolRes) | APools (r : PoolsRes) | ALiquidityProvider (r : LiquidityProviderRes)
| ALiquidityProviderData (r : LiquidityProviderDataRes) | AAssets (r : list Asset)
| ALiquidityProviders (r : list LiquidityProvider) | AParams (r : ParamsRes)
| ARewardParams (r : RewardParams) | APmtpParams (r : PmtpParamsRes).
Class ClpJson := {
  Unmarshal_PoolReq : string → res PoolReq;
  Unmarshal_LiquidityProviderReq : string → res LiquidityProviderReq;
  Unmarshal_LiquidityProviderDataReq : string → res LiquidityProviderDataReq;
  Unmarshal_AssetListReq : string → res AssetListReq;
  Unmarshal_LiquidityProviderListReq : string → res LiquidityProviderListReq;
  Marshal_Answer : Answer → res string;
  json_ErrJSONUnmarshal : error;
  json_ErrJSONMarshal : error
}.
Context {json : ClpJson} {errs : SdkErrors}.
Definition unmarshal {A} (r : res A) : M A := wrap_err json_ErrJSONUnmarshal (lift r).
Definition marshal (a : Answer) : M string := wrap_err json_ErrJSONMarshal (lift (Marshal_Answer a)).

Definition queryPool (ctx : Ctx) (data : string) : M string :=
  params ← unmarshal (Unmarshal_PoolReq data);
  r ← GetPool_query ctx (Some params); marshal (APool r).
Definition queryPools (ctx : Ctx) : M string :=
  r ← GetPools_query ctx (Some (mkPoolsReq None)); marshal (APools r).
Definition queryLiquidityProvider (ctx : Ctx) (data : string) : M string :=
  params ← unmarshal (Unmarshal_LiquidityProviderReq data);
  r ← GetLiquidityProvider_query ctx (Some params); marshal (ALiquidityProvider r).
Definition queryLiquidityProviderData (ctx : Ctx) (data : string) : M string :=
  params ← unmarshal (Unmarshal_LiquidityProviderDataReq data);
  r ← GetLiquidityProviderData_query ctx (Some params); marshal (ALiquidityProviderData r).
Definition queryAssetList (data : string) : M string :=
  params ← unmarshal (Unmarshal_AssetListReq data);
  r ← GetAssetList_query (Some params); marshal (AAssets r).
Definition queryLPList (ctx : Ctx) (data : string) : M string :=
  params ← unmarshal (Unmarshal_LiquidityProviderListReq data);
  r ← GetLiquidityProviderList_query ctx (Some params);
  marshal (ALiquidityProviders r.(lls_LiquidityProviders)).
Definition queryAllLP (ctx : Ctx) : M string :=
  r ← GetLiquidityProviders_query ctx (Some (mkPoolsReq None));
  marshal (ALiquidityProviders r.(lls_LiquidityProviders)).
Definition queryParams : M string := r ← GetParams_query; marshal (AParams r).
Definition queryRewardParams : M string := r ← GetRewardParams_query; marshal (ARewardParams r).
Definition queryPmtpParams (ctx : Ctx) : M string :=
  r ← GetPmtpParams_query ctx; marshal (APmtpParams r).

Definition QueryPool : string := "pool".
Definition QueryPools : string := "allpools".
Definition QueryAssetList : string := "assetList".
Definition QueryLiquidityProvider : string := "liquidityProvider".
Definition QueryLiquidityProviderData : string := "liquidityProviderData".
Definition QueryLPList : string := "lpList".
Definition QueryAllLP : string := "allLp".
Definition QueryParams : string := "params".
Definition QueryRewardParams : string := "rewardParams".
Definition QueryPmtpParams : string := "pmtpParams".
(** [path[0]] of an empty path panics. *)
Definition NewQuerier (ctx : Ctx) (path : list string) (data : string) : M string :=
  match path with
  | [] => panic
  | p :: _ =>
      if String.eqb p QueryPool then queryPool ctx data
      else if String.eqb p QueryPools then queryPools ctx
      else if String.eqb p QueryLiquidityProvider then queryLiquidityProvider ctx data
      else if String.eqb p QueryLiquidityProviderData then queryLiquidityProviderData ctx data
      else if String.eqb p QueryAssetList then queryAssetList data
      else if String.eqb p QueryLPList then queryLPList ctx data
      else if String.eqb p QueryAllLP then queryAllLP ctx
      else if String.eqb p QueryParams then queryParams
      else if String.eqb p QueryRewardParams then queryRewardParams
      else if String.eqb p QueryPmtpParams then queryPmtpParams ctx
      else throw ErrUnknownRequest
  end.
End query.
