(* ===== verification/MarginTypes.v ===== *)
(** * MarginTypes: the data of x/margin

    x/margin/types/{types,errors,events,keys,genesis,msgs}.go and the records of the protobuf
    definitions: leveraged positions (MTPs), the parameters of the module, its store under each
    key prefix, its messages and their stateless validation. *)

From S2P Require Import Prelude Sdk Rat Bank Keepers ClpTypes ClpLiquidity ClpMsgs.
Local Open Scope Z_scope.

(** ** Constants, errors, event types *)
Definition ModuleName : string := "margin".
Definition GetSettlementAsset : string := "fury".
Definition StringCompare (a b : string) : bool := String.eqb a b.

Definition margin_error (n : Z) : error := mkErr ModuleName n.
Definition ErrMTPDoesNotExist := margin_error 1.
Definition ErrMTPInvalid := margin_error 2.
Definition ErrMTPDisabled := margin_error 3.
Definition ErrMTPHealthy := margin_error 5.
Definition ErrInvalidPosition := margin_error 6.
Definition ErrMaxOpenPositions := margin_error 7.
Definition ErrUnauthorised := margin_error 8.
Definition ErrBorrowTooLow := margin_error 9.
Definition ErrBorrowTooHigh := margin_error 10.
Definition ErrCustodyTooHigh := margin_error 11.
Definition ErrMTPUnhealthy := margin_error 12.
Definition ErrFuryAsCollateralNotAllowed := margin_error 13.

Definition EventOpen : string := "margin/mtp_open".
Definition EventClose : string := "margin/mtp_close".
Definition EventForceClose : string := "margin/mtp_force_close".
Definition EventAdminClose : string := "margin/mtp_admin_close".
Definition EventAdminCloseAll : string := "margin/mtp_admin_close_all".
Definition EventMarginUpdateParams : string := "margin/update_params".
Definition EventRepayFund : string := "margin/repay_fund".
Definition EventBelowRemovalThreshold : string := "margin/below_removal_threshold".
Definition EventAboveRemovalThreshold : string := "margin/above_removal_threshold".
Definition EventIncrementalPayFund : string := "margin/incremental_pay_fund".

(** ** Positions *)
Inductive Position := Position_UNSPECIFIED | Position_LONG | Position_SHORT.
#[export] Instance Position_eq_dec : EqDecision Position.
Proof. solve_decision. Defined.

Record MTP := mkMTP {
  Address : string;
  CollateralAsset : string;
  CollateralAmount : Uint;
  Liabilities : Uint;
  InterestPaidCollateral : Uint;
  InterestPaidCustody : Uint;
  InterestUnpaidCollateral : Uint;
  CustodyAsset : string;
  CustodyAmount : Uint;
  Leverage : Dec;
  MtpHealth : Dec;
  MtpPosition : Position;
  Id : Z
}.
#[export] Instance MTP_settable : Settable MTP := λ m,
  mkMTP m.(Address) m.(CollateralAsset) m.(CollateralAmount) m.(Liabilities)
    m.(InterestPaidCollateral) m.(InterestPaidCustody) m.(InterestUnpaidCollateral)
    m.(CustodyAsset) m.(CustodyAmount) m.(Leverage) m.(MtpHealth) m.(MtpPosition) m.(Id).
#[export] Instance MTP_eq_dec : EqDecision MTP.
Proof. solve_decision. Defined.

Definition NewMTP (signer collateralAsset borrowAsset : string) (position : Position)
    (leverage : Dec) : MTP :=
  mkMTP signer collateralAsset 0 0 0 0 0 borrowAsset 0 leverage ZeroDec position 0.

Definition MTP_Validate (mtp : MTP) : res unit :=
  _ ← require (negb (String.eqb mtp.(CollateralAsset) "")) ErrMTPInvalid;
  _ ← require (negb (String.eqb mtp.(Address) "")) ErrMTPInvalid;
  _ ← require (negb (bool_decide (mtp.(MtpPosition) = Position_UNSPECIFIED))) ErrMTPInvalid;
  require (negb (mtp.(Id) =? 0)) ErrMTPInvalid.

Definition IsValidPosition (position : Position) : bool :=
  match position with Position_LONG => true | Position_SHORT => true | _ => false end.
Definition GetPositionFromString (s : string) : Position :=
  if String.eqb s "long" then Position_LONG
  else if String.eqb s "short" then Position_SHORT else Position_UNSPECIFIED.

(** ** Parameters *)
Record Params := mkMarginParams {
  LeverageMax : Dec;
  InterestRateMax : Dec;
  InterestRateMin : Dec;
  InterestRateIncrease : Dec;
  InterestRateDecrease : Dec;
  HealthGainFactor : Dec;
  EpochLength : Z;
  Pools : list string;
  RemovalQueueThreshold : Dec;
  MaxOpenPositions : Z;
  PoolOpenThreshold : Dec;
  ForceCloseFundPercentage : Dec;
  ForceCloseFundAddress : string;
  IncrementalInterestPaymentFundPercentage : Dec;
  IncrementalInterestPaymentFundAddress : string;
  SqModifier : Dec;
  SafetyFactor : Dec;
  ClosedPools : list string;
  IncrementalInterestPaymentEnabled : bool;
  WhitelistingEnabled : bool;
  FuryCollateralEnabled : bool
}.
#[export] Instance Params_settable : Settable Params := λ p,
  mkMarginParams p.(LeverageMax) p.(InterestRateMax) p.(InterestRateMin) p.(InterestRateIncrease)
    p.(InterestRateDecrease) p.(HealthGainFactor) p.(EpochLength) p.(Pools)
    p.(RemovalQueueThreshold) p.(MaxOpenPositions) p.(PoolOpenThreshold)
    p.(ForceCloseFundPercentage) p.(ForceCloseFundAddress)
    p.(IncrementalInterestPaymentFundPercentage) p.(IncrementalInterestPaymentFundAddress)
    p.(SqModifier) p.(SafetyFactor) p.(ClosedPools) p.(IncrementalInterestPaymentEnabled)
    p.(WhitelistingEnabled) p.(FuryCollateralEnabled).

(** The parameters of [DefaultGenesis()].  The two [MustNewDecFromStr] literals are written as
    the decimals they denote, [10^25] and [1.05]. *)
Definition DefaultParams : Params :=
  mkMarginParams (NewDec 2) (NewDec 3) (NewDecWithPrec 5 3) (NewDecWithPrec 1 1)
    (NewDecWithPrec 1 1) (NewDec 1) 1 [] (NewDecWithPrec 1 1) 10000 (NewDecWithPrec 1 1)
    (NewDecWithPrec 1 1) "black1syavy2npfyt9tcncdtsdzf7kny9lh777yqc2nd"
    (NewDecWithPrec 1 1) "black1syavy2npfyt9tcncdtsdzf7kny9lh777yqc2nd"
    (NewDec (10 ^ 25)) (NewDecWithPrec 105 2) [] true false true.

(** ** Keys *)
Definition MTPPrefix : ascii := ascii_of 1.
Definition WhitelistPrefix : ascii := ascii_of 5.
Definition SQBeginBlockPrefix : ascii := ascii_of 6.

(** The byte at position [i] (0 the lowest) of a number. *)
Definition byte_at (i ID : Z) : ascii := ascii_of (Z.to_nat (ID / 2 ^ (8 * i) mod 256)).
(** [binary.BigEndian.PutUint64] and [binary.BigEndian.Uint64]. *)
Definition GetUint64Bytes (ID : Z) : string :=
  String.string_of_list_ascii ((λ i, byte_at i ID) <$> [7; 6; 5; 4; 3; 2; 1; 0]).
Definition GetUint64FromBytes (bz : string) : res Z :=
  let l := String.list_ascii_of_string bz in
  if (length l <? 8)%nat then Panic
  else Ok (foldl (λ acc c, acc * 256 + Z.of_nat (Ascii.nat_of_ascii c)) 0 (take 8 l)).

Definition GetMTPKey (address : string) (id : Z) : string :=
  String MTPPrefix (address +:+ GetUint64Bytes id).
Definition GetMTPPrefixForAddress (address : string) : string := String MTPPrefix address.
Definition GetWhitelistKey (address : string) : string := String WhitelistPrefix address.
Definition GetSQBeginBlockKey (pool : Pool) : string :=
  String SQBeginBlockPrefix pool.(ExternalAsset).(Symbol).

(** ** The store of the module, one field per key prefix; counters and heights are stored as
    their eight bytes *)
Record MarginStore := mkMarginStore {
  ms_MTPs : gmap string MTP;
  ms_MTPCount : option string;
  ms_Params : option Params;
  ms_OpenMTPCount : option string;
  ms_Whitelist : gmap string string;
  ms_SQBeginBlock : gmap string string
}.
#[export] Instance MarginStore_settable : Settable MarginStore := λ s,
  mkMarginStore s.(ms_MTPs) s.(ms_MTPCount) s.(ms_Params) s.(ms_OpenMTPCount) s.(ms_Whitelist)
    s.(ms_SQBeginBlock).

(** ** Messages (tx.proto) *)
Record MsgOpen := mkMsgOpen {
  mo_Signer : string; mo_CollateralAsset : string; mo_CollateralAmount : Uint;
  mo_BorrowAsset : string; mo_Position : Position;
  (** unset when the field is missing: [IsNil()] *)
  mo_Leverage : option Dec }.
Record MsgClose := mkMsgClose { mc_Signer : string; mc_Id : Z }.
Record MsgForceClose := mkMsgForceClose {
  fc_Signer : string; fc_MtpAddress : string; fc_Id : Z }.
Record MsgUpdateParams := mkMsgUpdateParams { mup_Signer : string; mup_Params : Params }.
Record MsgUpdatePools := mkMsgUpdatePools {
  mpl_Signer : string; mpl_Pools : list string; mpl_ClosedPools : list string }.
Record MsgUpdateFuryCollateral := mkMsgUpdateFuryCollateral {
  ufc_Signer : string; ufc_FuryCollateralEnabled : bool }.
Record MsgWhitelist := mkMsgWhitelist { wl_Signer : string; wl_WhitelistedAddress : string }.
Record MsgDewhitelist := mkMsgDewhitelist { dw_Signer : string; dw_WhitelistedAddress : string }.
Record MsgAdminClose := mkMsgAdminClose {
  ac_Signer : string; ac_MtpAddress : string; ac_Id : Z; ac_TakeMarginFund : bool }.
Record MsgAdminCloseAll := mkMsgAdminCloseAll { aca_Signer : string; aca_TakeMarginFund : bool }.

Section validate.
Context {sdk : Sdk} {coins : CoinLib} {errs : SdkErrors}.

Definition Validate (asset : string) : res bool :=
  if negb (VerifyRange (Z.of_nat (String.length (TrimSpace asset))) 0 MaxSymbolLength)
  then Ok false
  else coin ← NewCoin asset 1; Ok (Coin_IsValid coin).

Definition MsgOpen_ValidateBasic (m : MsgOpen) : res unit :=
  _ ← require_signer m.(mo_Signer);
  ok ← Validate m.(mo_CollateralAsset);
  _ ← require ok ErrInValidAsset;
  ok ← Validate m.(mo_BorrowAsset);
  _ ← require ok ErrInValidAsset;
  _ ← require (negb (m.(mo_CollateralAmount) =? 0)) ErrInValidAmount;
  _ ← require (match m.(mo_Leverage) with None => false | Some l => negb (l <? NewDec 1) end)
        ErrInValidAmount;
  require (IsValidPosition m.(mo_Position)) ErrInvalidPosition.

Definition MsgClose_ValidateBasic (m : MsgClose) : res unit :=
  _ ← require_signer m.(mc_Signer);
  require (negb (m.(mc_Id) =? 0)) ErrMTPDoesNotExist.
Definition MsgForceClose_ValidateBasic (m : MsgForceClose) : res unit :=
  _ ← require_signer m.(fc_Signer);
  _ ← require_signer m.(fc_MtpAddress);
  require (negb (m.(fc_Id) =? 0)) ErrMTPDoesNotExist.
Definition MsgUpdateParams_ValidateBasic (m : MsgUpdateParams) : res unit :=
  require_signer m.(mup_Signer).
Definition MsgUpdatePools_ValidateBasic (m : MsgUpdatePools) : res unit :=
  require_signer m.(mpl_Signer).
Definition MsgUpdateFuryCollateral_ValidateBasic (m : MsgUpdateFuryCollateral) : res unit :=
  require_signer m.(ufc_Signer).
Definition MsgWhitelist_ValidateBasic (m : MsgWhitelist) : res unit :=
  _ ← require_signer m.(wl_Signer);
  _ ← AccAddressFromBech32 m.(wl_WhitelistedAddress); Ok tt.
Definition MsgDewhitelist_ValidateBasic (m : MsgDewhitelist) : res unit :=
  _ ← require_signer m.(dw_Signer);
  _ ← AccAddressFromBech32 m.(dw_WhitelistedAddress); Ok tt.
Definition MsgAdminClose_ValidateBasic (m : MsgAdminClose) : res unit :=
  require_signer m.(ac_Signer).
Definition MsgAdminCloseAll_ValidateBasic (m : MsgAdminCloseAll) : res unit :=
  require_signer m.(aca_Signer).
End validate.
