(* ===== verification/Margin.v ===== *)
(** * Margin: the keeper of x/margin

    x/margin/keeper/{keeper,calculations,params,genesis,events}.go.  The functions that take
    [mtp *types.MTP] and [pool *clptypes.Pool] change the caller's variables through the
    pointers, and keep the changes when they return an error or panic: they run in [Env], the
    chain state together with the two variables. *)

From S2P Require Import Prelude Sdk Rat Float Bank Keepers ClpTypes ClpMath ClpKeeper.
From S2P Require Import ClpLiquidity MarginTypes.
Local Open Scope Z_scope.

(** The text of [math.Pow(math.E, -1 * rate * blocks)], as [fmt.Sprintf("%v", ..)] prints it. *)
Class MarginFloat := { decay_text : Dec → Z → string }.

(** ** The variables of a caller *)
Record Env (W : Type) := mkEnv { e_world : W; e_mtp : MTP; e_pool : Pool }.
Arguments mkEnv {W}.
Arguments e_world {W}.
Arguments e_mtp {W}.
Arguments e_pool {W}.

Section env.
Context {W : Type}.
(** A step on the chain state only. *)
Definition on_world {A} (m : M W A) : M (Env W) A := λ e,
  let '(r, w) := m e.(e_world) in (r, mkEnv w e.(e_mtp) e.(e_pool)).
(** [*mtp], [*pool], and assignments through the pointers. *)
Definition the_mtp : M (Env W) MTP := gets e_mtp.
Definition the_pool : M (Env W) Pool := gets e_pool.
Definition upd_mtp (f : MTP → MTP) : M (Env W) unit :=
  modify (λ e, mkEnv e.(e_world) (f e.(e_mtp)) e.(e_pool)).
Definition upd_pool (f : Pool → Pool) : M (Env W) unit :=
  modify (λ e, mkEnv e.(e_world) e.(e_mtp) (f e.(e_pool))).
(** Declares the two variables, runs a body, and returns their final values with the result;
    an error or panic of the body is passed on. *)
Definition with_vars {A} (mtp : MTP) (pool : Pool) (m : M (Env W) A) : M W (A * MTP * Pool) := λ w,
  match m (mkEnv w mtp pool) with
  | (Ok a, e) => (Ok (a, e.(e_mtp), e.(e_pool)), e.(e_world))
  | (Err x, e) => (Err x, e.(e_world))
  | (Panic, e) => (Panic, e.(e_world))
  end.
(** [defer func() { recover() }()]: a panic ends the function normally. *)
Definition recovering {S} (m : M S unit) : M S unit := λ s,
  match m s with (Panic, s') => (Ok tt, s') | rs => rs end.
End env.

Section margin.
Context {W : Type} {sdk : Sdk} {coins : CoinLib} {bank : BankKeeper W} {paginator : Paginator}
  {registry : TokenRegistryKeeper W} {clp : HasStore ClpStore W} {events : HasStore EventLog W}
  {margin : HasStore MarginStore W} {float : MarginFloat}.
Notation M := (M W).
Notation E := (Prelude.M (Env W)).

Definition get_margin : M MarginStore := get_store.
Definition upd_margin (f : MarginStore → MarginStore) : M unit := upd_store f.

(** ** Parameters (params.go) *)
Definition ValidateParams (params : Params) : res unit :=
  if params.(SqModifier) =? 0 then Err ErrAnonymous
  else if params.(LeverageMax) <? 0 then Err ErrAnonymous
  else Ok tt.
Definition SetParams (params : Params) : M unit :=
  _ ← lift (must (ValidateParams params));
  upd_margin (λ s, s <| ms_Params := Some params |>).
Definition params_of (s : MarginStore) : Params := default DefaultParams s.(ms_Params).
Definition GetParams : M Params := s ← get_margin; mret (params_of s).

Definition GetMaxLeverageParam : M Dec := p ← GetParams; mret p.(LeverageMax).
Definition GetInterestRateMax : M Dec := p ← GetParams; mret p.(InterestRateMax).
Definition GetInterestRateMin : M Dec := p ← GetParams; mret p.(InterestRateMin).
Definition GetInterestRateIncrease : M Dec := p ← GetParams; mret p.(InterestRateIncrease).
Definition GetInterestRateDecrease : M Dec := p ← GetParams; mret p.(InterestRateDecrease).
Definition GetHealthGainFactor : M Dec := p ← GetParams; mret p.(HealthGainFactor).
Definition GetEpochLength : M Z := p ← GetParams; mret p.(MarginTypes.EpochLength).
Definition GetPoolOpenThreshold : M Dec := p ← GetParams; mret p.(PoolOpenThreshold).
Definition GetRemovalQueueThreshold : M Dec := p ← GetParams; mret p.(RemovalQueueThreshold).
Definition GetForceCloseFundPercentage : M Dec := p ← GetParams; mret p.(ForceCloseFundPercentage).
Definition GetForceCloseFundAddress : M AccAddress :=
  p ← GetParams; lift (must (AccAddressFromBech32 p.(ForceCloseFundAddress))).
Definition GetIncrementalInterestPaymentFundPercentage : M Dec :=
  p ← GetParams; mret p.(IncrementalInterestPaymentFundPercentage).
Definition GetIncrementalInterestPaymentFundAddress : M AccAddress :=
  p ← GetParams; lift (must (AccAddressFromBech32 p.(IncrementalInterestPaymentFundAddress))).
Definition GetMaxOpenPositions : M Z := p ← GetParams; mret p.(MaxOpenPositions).
Definition GetIncrementalInterestPaymentEnabled : M bool :=
  p ← GetParams; mret p.(IncrementalInterestPaymentEnabled).
Definition GetSafetyFactor : M Dec := p ← GetParams; mret p.(SafetyFactor).
Definition GetEnabledPools : M (list string) := p ← GetParams; mret p.(Pools).
Definition SetEnabledPools (pools : list string) : M unit :=
  params ← GetParams; SetParams (params <| Pools := pools |>).
Definition IsPoolEnabled (asset : string) : M bool :=
  pools ← GetEnabledPools; mret (existsb (λ p, StringCompare p asset) pools).
Definition IsPoolClosed (asset : string) : M bool :=
  params ← GetParams; mret (existsb (λ p, StringCompare p asset) params.(ClosedPools)).
Definition GetSqModifier : M Dec := p ← GetParams; mret p.(SqModifier).
Definition IsWhitelistingEnabled : M bool := p ← GetParams; mret p.(WhitelistingEnabled).
Definition IsFuryCollateralEnabled : M bool := p ← GetParams; mret p.(FuryCollateralEnabled).

(** ** Positions in the store *)
Definition stored_uint64 (bz : option string) : res Z :=
  match bz with None => Ok 0 | Some bz => GetUint64FromBytes bz end.
Definition GetMTPCount : M Z := s ← get_margin; lift (stored_uint64 s.(ms_MTPCount)).
Definition GetOpenMTPCount : M Z := s ← get_margin; lift (stored_uint64 s.(ms_OpenMTPCount)).

(** [SetMTP] gives a position without an id the next one, before it validates it. *)
Definition SetMTP : E unit :=
  count ← on_world GetMTPCount;
  openCount ← on_world GetOpenMTPCount;
  mtp ← the_mtp;
  _ ← (if mtp.(Id) =? 0 then
         let count := uint64 (count + 1) in
         _ ← upd_mtp (λ m, m <| Id := count |>);
         _ ← on_world (upd_margin (λ s, s <| ms_MTPCount := Some (GetUint64Bytes count) |>));
         let openCount := uint64 (openCount + 1) in
         on_world (upd_margin (λ s, s <| ms_OpenMTPCount := Some (GetUint64Bytes openCount) |>))
       else mret tt);
  mtp ← the_mtp;
  _ ← lift (MTP_Validate mtp);
  let key := GetMTPKey mtp.(Address) mtp.(Id) in
  on_world (upd_margin (λ s, s <| ms_MTPs ::= <[key := mtp]> |>)).

Definition GetMTP (mtpAddress : string) (id : Z) : M MTP :=
  let key := GetMTPKey mtpAddress id in
  s ← get_margin;
  match s.(ms_MTPs) !! key with None => throw ErrMTPDoesNotExist | Some mtp => mret mtp end.

Definition GetAllMTPS : M (list MTP) := s ← get_margin; mret (kv_values s.(ms_MTPs)).

Definition GetMTPsForPool (asset : string) : M (list MTP) :=
  s ← get_margin;
  lift (FilteredPaginate (kv_iter s.(ms_MTPs)) (MaxUint64 - 1)
          (λ mtp, StringCompare mtp.(CustodyAsset) asset || StringCompare mtp.(CollateralAsset) asset)).

Definition DestroyMTP (mtpAddress : string) (id : Z) : M unit :=
  let key := GetMTPKey mtpAddress id in
  s ← get_margin;
  match s.(ms_MTPs) !! key with
  | None => throw ErrMTPDoesNotExist
  | Some _ =>
      _ ← upd_margin (λ s, s <| ms_MTPs ::= delete key |>);
      openCount ← GetOpenMTPCount;
      let openCount := uint64 (openCount - 1) in
      upd_margin (λ s, s <| ms_OpenMTPCount := Some (GetUint64Bytes openCount) |>)
  end.

(** ** The whitelist *)
Definition IsWhitelisted (address : string) : M bool :=
  s ← get_margin; mret (bool_decide (is_Some (s.(ms_Whitelist) !! GetWhitelistKey address))).
Definition WhitelistAddress (address : string) : M unit :=
  upd_margin (λ s, s <| ms_Whitelist ::= <[GetWhitelistKey address := address]> |>).
Definition DewhitelistAddress (address : string) : M unit :=
  upd_margin (λ s, s <| ms_Whitelist ::= delete (GetWhitelistKey address) |>).

(** ** Swaps and health *)
Definition ToAsset (asset : string) : Asset := mkAsset asset.

Definition CLPSwap (sentAmount : Uint) (to : string) (pool : Pool) : M Uint :=
  let toAsset := ToAsset to in
  marginEnabled ← IsPoolEnabled pool.(ExternalAsset).(Symbol);
  swapResult ← CLPCalcSwap sentAmount toAsset pool marginEnabled;
  _ ← throw_if (swapResult =? 0) ErrAmountTooLow;
  mret swapResult.

Definition CalculatePoolHealth (pool : Pool) : res Dec :=
  let externalAssetBalance := NewDecFromBigInt pool.(ExternalAssetBalance) in
  let externalLiabilities := NewDecFromBigInt pool.(ExternalLiabilities) in
  let nativeAssetBalance := NewDecFromBigInt pool.(NativeAssetBalance) in
  let nativeLiabilities := NewDecFromBigInt pool.(NativeLiabilities) in
  ext ← DecAdd externalAssetBalance externalLiabilities;
  (* [||] does not evaluate its right side when the left one holds *)
  empty ← (if ext =? 0 then Ok true
           else nat ← DecAdd nativeAssetBalance nativeLiabilities; Ok (nat =? 0));
  if (empty : bool) then Ok ZeroDec
  else
    nat ← DecAdd nativeAssetBalance nativeLiabilities;
    mul1 ← DecQuo externalAssetBalance ext;
    mul2 ← DecQuo nativeAssetBalance nat;
    DecMul mul1 mul2.

Definition UpdatePoolHealth : E unit :=
  pool ← the_pool;
  h ← lift (CalculatePoolHealth pool);
  _ ← upd_pool (λ p, p <| Health := h |>);
  pool ← the_pool;
  on_world (SetPool pool).

Definition UpdateMTPHealth (mtp : MTP) (pool : Pool) : M Dec :=
  let xl := mtp.(Liabilities) in
  if xl =? 0 then mret ZeroDec
  else
    (* include unpaid interest in debt *)
    xl ← (if 0 <? mtp.(InterestUnpaidCollateral)
          then lift (UintAdd xl mtp.(InterestUnpaidCollateral)) else mret xl);
    C ← CLPSwap mtp.(CustodyAmount) mtp.(CollateralAsset) pool;
    lift (DecQuo (NewDecFromBigInt C) (NewDecFromBigInt xl)).

(** [mtp.MtpHealth, err = k.UpdateMTPHealth(..); if err != nil { return err }] *)
Definition assign_health : E unit :=
  mtp ← the_mtp;
  pool ← the_pool;
  h ← try (on_world (UpdateMTPHealth mtp pool));
  match h with
  | inl e => _ ← upd_mtp (λ m, m <| MtpHealth := ZeroDec |>); throw e
  | inr h => upd_mtp (λ m, m <| MtpHealth := h |>)
  end.

(** ** Opening *)
Definition Borrow (collateralAsset : string) (collateralAmount custodyAmount : Uint) (eta : Dec)
    : E unit :=
  mtp ← the_mtp;
  mtpAddress ← lift (AccAddressFromBech32 mtp.(Address));
  amount ← lift (NewIntFromBigInt collateralAmount);
  collateralCoin ← lift (NewCoin collateralAsset amount);
  has ← on_world (HasBalanceM mtpAddress collateralCoin);
  _ ← throw_if (negb has) ErrBalanceNotAvailable;
  liabilitiesDec ← lift (DecMul (NewDecFromBigInt collateralAmount) eta);
  v ← lift (UintAdd mtp.(CollateralAmount) collateralAmount);
  _ ← upd_mtp (λ m, m <| CollateralAmount := v |>);
  liabilitiesInt ← lift (DecTruncateInt liabilitiesDec);
  liabilities ← lift (NewUintFromBigInt liabilitiesInt);
  v ← lift (UintAdd mtp.(Liabilities) liabilities);
  _ ← upd_mtp (λ m, m <| Liabilities := v |>);
  v ← lift (UintAdd mtp.(CustodyAmount) custodyAmount);
  _ ← upd_mtp (λ m, m <| CustodyAmount := v |>);
  v ← lift (DecAdd eta OneDec);
  _ ← upd_mtp (λ m, m <| Leverage := v |>);
  mtp ← the_mtp;
  pool ← the_pool;
  h ← on_world (UpdateMTPHealth mtp pool);
  _ ← upd_mtp (λ m, m <| MtpHealth := h |>);
  collateralCoins ← lift (NewCoins [collateralCoin]);
  _ ← on_world (SendCoinsFromAccountToModule mtpAddress ClpTypes.ModuleName collateralCoins);
  mtp ← the_mtp;
  pool ← the_pool;
  _ ← (if StringCompare mtp.(CollateralAsset) GetSettlementAsset then
         v ← lift (UintAdd pool.(NativeAssetBalance) collateralAmount);
         _ ← upd_pool (λ p, p <| NativeAssetBalance := v |>);
         v ← lift (UintAdd pool.(NativeLiabilities) mtp.(Liabilities));
         upd_pool (λ p, p <| NativeLiabilities := v |>)
       else
         v ← lift (UintAdd pool.(ExternalAssetBalance) collateralAmount);
         _ ← upd_pool (λ p, p <| ExternalAssetBalance := v |>);
         v ← lift (UintAdd pool.(ExternalLiabilities) mtp.(Liabilities));
         upd_pool (λ p, p <| ExternalLiabilities := v |>));
  pool ← the_pool;
  _ ← on_world (SetPool pool);
  SetMTP.

(** The two below take the position by value. *)
Definition TakeInCustody : E unit :=
  mtp ← the_mtp;
  pool ← the_pool;
  _ ← (if StringCompare mtp.(CustodyAsset) GetSettlementAsset then
         v ← lift (UintSub pool.(NativeAssetBalance) mtp.(CustodyAmount));
         _ ← upd_pool (λ p, p <| NativeAssetBalance := v |>);
         v ← lift (UintAdd pool.(NativeCustody) mtp.(CustodyAmount));
         upd_pool (λ p, p <| NativeCustody := v |>)
       else
         v ← lift (UintSub pool.(ExternalAssetBalance) mtp.(CustodyAmount));
         _ ← upd_pool (λ p, p <| ExternalAssetBalance := v |>);
         v ← lift (UintAdd pool.(ExternalCustody) mtp.(CustodyAmount));
         upd_pool (λ p, p <| ExternalCustody := v |>));
  pool ← the_pool;
  on_world (SetPool pool).

Definition TakeOutCustody : E unit :=
  mtp ← the_mtp;
  pool ← the_pool;
  _ ← (if StringCompare mtp.(CustodyAsset) GetSettlementAsset then
         v ← lift (UintSub pool.(NativeCustody) mtp.(CustodyAmount));
         _ ← upd_pool (λ p, p <| NativeCustody := v |>);
         v ← lift (UintAdd pool.(NativeAssetBalance) mtp.(CustodyAmount));
         upd_pool (λ p, p <| NativeAssetBalance := v |>)
       else
         v ← lift (UintSub pool.(ExternalCustody) mtp.(CustodyAmount));
         _ ← upd_pool (λ p, p <| ExternalCustody := v |>);
         v ← lift (UintAdd pool.(ExternalAssetBalance) mtp.(CustodyAmount));
         upd_pool (λ p, p <| ExternalAssetBalance := v |>));
  pool ← the_pool;
  on_world (SetPool pool).

(** ** Paying out *)
Definition TakeFundPayment (returnAmount : Uint) (returnAsset : string) (takePercentage : Dec)
    (fundAddr : AccAddress) : M Uint :=
  take ← lift (DecMul takePercentage (NewDecFromBigInt returnAmount));
  takeInt ← lift (DecTruncateInt take);
  takeAmount ← lift (NewUintFromBigInt takeInt);
  _ ← (if negb (takeAmount =? 0) then
         amount ← lift (NewIntFromBigInt takeAmount);
         coin ← lift (NewCoin returnAsset amount);
         takeCoins ← lift (NewCoins [coin]);
         SendCoinsFromModuleToAccount ClpTypes.ModuleName fundAddr takeCoins
       else mret tt);
  mret takeAmount.

(** What is returned and what stays owed, as principal and as interest. *)
Definition split_repayment (have liabilities interest : Uint) : res (Uint * Uint * Uint) :=
  owe ← UintAdd liabilities interest;
  if have <? liabilities then
    debtP ← UintSub liabilities have; Ok (0, debtP, interest)
  else if have <? owe then
    owe ← UintAdd liabilities interest;
    debtI ← UintSub owe have; Ok (0, 0, debtI)
  else
    rest ← UintSub have liabilities;
    returnAmount ← UintSub rest interest; Ok (returnAmount, 0, 0).

(** The surplus goes to the owner, less what the fund takes. *)
Definition pay_out (mtp : MTP) (returnAmount : Uint) (takeFundPayment : bool) : M unit :=
  if negb (returnAmount =? 0) then
    actualReturnAmount ←
      (if takeFundPayment then
         takePercentage ← GetForceCloseFundPercentage;
         fundAddr ← GetForceCloseFundAddress;
         takeAmount ← TakeFundPayment returnAmount mtp.(CollateralAsset) takePercentage fundAddr;
         actualReturnAmount ← lift (UintSub returnAmount takeAmount);
         _ ← (if negb (takeAmount =? 0) then EmitEvent EventRepayFund else mret tt);
         mret actualReturnAmount
       else mret returnAmount);
    if negb (actualReturnAmount =? 0) then
      amount ← lift (NewIntFromBigInt actualReturnAmount);
      returnCoin ← lift (NewCoin mtp.(CollateralAsset) amount);
      returnCoins ← lift (Coins_Add [] returnCoin);
      addr ← lift (AccAddressFromBech32 mtp.(Address));
      SendCoinsFromModuleToAccount ClpTypes.ModuleName addr returnCoins
    else mret tt
  else mret tt.

Definition Repay (repayAmount : Uint) (takeFundPayment : bool) : E unit :=
  mtp0 ← the_mtp;
  let liabilities := mtp0.(Liabilities) in
  let interestUnpaidCollateral := mtp0.(InterestUnpaidCollateral) in
  _ ← assign_health;
  '(returnAmount, debtP, debtI) ← lift (split_repayment repayAmount liabilities interestUnpaidCollateral);
  mtp ← the_mtp;
  _ ← on_world (pay_out mtp returnAmount takeFundPayment);
  pool ← the_pool;
  _ ← (if StringCompare mtp.(CollateralAsset) GetSettlementAsset then
         v ← lift (UintSub pool.(NativeAssetBalance) returnAmount);
         _ ← upd_pool (λ p, p <| NativeAssetBalance := v |>);
         v ← lift (UintSub pool.(NativeLiabilities) mtp.(Liabilities));
         _ ← upd_pool (λ p, p <| NativeLiabilities := v |>);
         v ← lift (UintAdd pool.(UnsettledNativeLiabilities) debtI);
         v ← lift (UintAdd v debtP);
         upd_pool (λ p, p <| UnsettledNativeLiabilities := v |>)
       else
         v ← lift (UintSub pool.(ExternalAssetBalance) returnAmount);
         _ ← upd_pool (λ p, p <| ExternalAssetBalance := v |>);
         v ← lift (UintSub pool.(ExternalLiabilities) mtp.(Liabilities));
         _ ← upd_pool (λ p, p <| ExternalLiabilities := v |>);
         v ← lift (UintAdd pool.(UnsettledExternalLiabilities) debtI);
         v ← lift (UintAdd v debtP);
         upd_pool (λ p, p <| UnsettledExternalLiabilities := v |>));
  _ ← on_world (DestroyMTP mtp.(Address) mtp.(Id));
  pool ← the_pool;
  on_world (SetPool pool).

(** ** Interest (calculations.go, keeper.go) *)

(** [big.Rat] arithmetic on the float64 of the rate; the quotient of numerator and denominator
    is truncated. *)
Definition CalcMTPInterestLiabilities (mtp : MTP) (interestRate : Dec) (epochPosition epochLength : Z)
    : res Uint :=
  let rate := dec_f64 interestRate in
  let liabilitiesRational := rat_SetInt (mtp.(Liabilities) + mtp.(InterestUnpaidCollateral)) in
  let interestRational := Qmult rate liabilitiesRational in
  interestRational ←
    (if 0 <? epochPosition then
       epochPositionRational ← rat_Quo (rat_SetInt epochPosition) (rat_SetInt epochLength);
       Ok (Qmult interestRational epochPositionRational)
     else Ok interestRational);
  let interestNew := rat_trunc interestRational in
  interestNewUint ← NewUintFromBigInt (interestNew + mtp.(InterestUnpaidCollateral));
  (* round up to lowest digit if interest too low and rate not 0 *)
  if (interestNewUint =? 0) && negb (interestRate =? 0) then Ok 1 else Ok interestNewUint.

(** Edge case: not enough custody to cover the payment, and all of it is paid. *)
Definition cap_payment (mtp : MTP) (pool : Pool) (interestPayment interestPaymentCustody : Uint)
    : E (Uint * Uint) :=
  if mtp.(CustodyAmount) <? interestPaymentCustody then
    (* swap custody amount to collateral for updating interest unpaid *)
    custodyAmountCollateral ← on_world (CLPSwap mtp.(CustodyAmount) mtp.(CollateralAsset) pool);
    v ← lift (UintSub interestPayment custodyAmountCollateral);
    _ ← upd_mtp (λ m, m <| InterestUnpaidCollateral := v |>);
    mret (custodyAmountCollateral, mtp.(CustodyAmount))
  else mret (interestPayment, interestPaymentCustody).

(** Custody of the pool paid out: what is left of it goes to the balance. *)
Definition return_custody (custodyAsset : string) (pool : Pool)
    (interestPaymentCustody actualInterestPaymentCustody : Uint) : E unit :=
  if StringCompare custodyAsset GetSettlementAsset then
    v ← lift (UintSub pool.(NativeCustody) interestPaymentCustody);
    _ ← upd_pool (λ p, p <| NativeCustody := v |>);
    v ← lift (UintAdd pool.(NativeAssetBalance) actualInterestPaymentCustody);
    upd_pool (λ p, p <| NativeAssetBalance := v |>)
  else
    v ← lift (UintSub pool.(ExternalCustody) interestPaymentCustody);
    _ ← upd_pool (λ p, p <| ExternalCustody := v |>);
    v ← lift (UintAdd pool.(ExternalAssetBalance) actualInterestPaymentCustody);
    upd_pool (λ p, p <| ExternalAssetBalance := v |>).

Definition IncrementalInterestPayment (interestPayment : Uint) : E Uint :=
  mtp ← the_mtp;
  pool ← the_pool;
  (* if mtp has unpaid interest, add to payment *)
  interestPayment ←
    (if 0 <? mtp.(InterestUnpaidCollateral)
     then lift (UintAdd interestPayment mtp.(InterestUnpaidCollateral)) else mret interestPayment);
  (* swap interest payment to custody asset for payment *)
  interestPaymentCustody ← on_world (CLPSwap interestPayment mtp.(CustodyAsset) pool);
  _ ← upd_mtp (λ m, m <| InterestUnpaidCollateral := 0 |>);
  '(interestPayment, interestPaymentCustody) ←
    cap_payment mtp pool interestPayment interestPaymentCustody;
  v ← lift (UintAdd mtp.(InterestPaidCollateral) interestPayment);
  _ ← upd_mtp (λ m, m <| InterestPaidCollateral := v |>);
  v ← lift (UintAdd mtp.(InterestPaidCustody) interestPaymentCustody);
  _ ← upd_mtp (λ m, m <| InterestPaidCustody := v |>);
  (* deduct interest payment from custody amount *)
  v ← lift (UintSub mtp.(CustodyAmount) interestPaymentCustody);
  _ ← upd_mtp (λ m, m <| CustodyAmount := v |>);
  takePercentage ← on_world GetIncrementalInterestPaymentFundPercentage;
  fundAddr ← on_world GetIncrementalInterestPaymentFundAddress;
  takeAmount ← on_world
    (TakeFundPayment interestPaymentCustody mtp.(CustodyAsset) takePercentage fundAddr);
  actualInterestPaymentCustody ← lift (UintSub interestPaymentCustody takeAmount);
  _ ← (if negb (takeAmount =? 0) then on_world (EmitEvent EventIncrementalPayFund) else mret tt);
  _ ← return_custody mtp.(CustodyAsset) pool interestPaymentCustody actualInterestPaymentCustody;
  _ ← SetMTP;
  pool ← the_pool;
  _ ← on_world (SetPool pool);
  mret actualInterestPaymentCustody.

Definition HandleInterestPayment (interestPayment : Uint) : E Uint :=
  incrementalInterestPaymentEnabled ← on_world GetIncrementalInterestPaymentEnabled;
  if (incrementalInterestPaymentEnabled : bool) then
    r ← try (IncrementalInterestPayment interestPayment);
    match r with inl _ => mret 0 | inr finalInterestPayment => mret finalInterestPayment end
  else
    _ ← upd_mtp (λ m, m <| InterestUnpaidCollateral := interestPayment |>);
    mret 0.

(** ** The removal queue's surcharge *)
Definition GetSQBeginBlock (pool : Pool) : M Z :=
  s ← get_margin; lift (stored_uint64 (s.(ms_SQBeginBlock) !! GetSQBeginBlockKey pool)).
Definition SetSQBeginBlock (pool : Pool) (height : Z) : M unit :=
  upd_margin (λ s, s <| ms_SQBeginBlock ::= <[GetSQBeginBlockKey pool := GetUint64Bytes height]> |>).

Definition TrackSQBeginBlock (ctx : Ctx) (pool : Pool) : M unit :=
  threshold ← GetRemovalQueueThreshold;
  sqBeginBlock ← GetSQBeginBlock pool;
  if sqBeginBlock =? 0 then
    if pool.(Health) <=? threshold then
      _ ← SetSQBeginBlock pool (uint64 ctx.(BlockHeight));
      EmitEvent EventBelowRemovalThreshold
    else mret tt
  else if threshold <? pool.(Health) then
    _ ← SetSQBeginBlock pool 0;
    EmitEvent EventAboveRemovalThreshold
  else mret tt.

Definition GetSQFromBlocks (ctx : Ctx) (pool : Pool) (poolInterestRate : Dec) : M Dec :=
  beginBlock ← GetSQBeginBlock pool;
  if beginBlock =? 0 then mret ZeroDec
  else
    let blocks := int64 (ctx.(BlockHeight) - int64 beginBlock) in
    maxInterestRate ← GetInterestRateMax;
    minusDec ← lift (match NewDecFromStr (decay_text poolInterestRate blocks) with
                     | Err _ => Ok (NewDec 0) | r => r end);
    multipliedBy ← lift (DecSub (NewDec 1) minusDec);
    lift (DecMul maxInterestRate multipliedBy).

Definition GetSQFromQueue (ctx : Ctx) (pool : Pool) : M Dec :=
  q ← GetRemovalQueue pool.(ExternalAsset).(Symbol);
  if q.(rq_Count) =? 0 then mret ZeroDec
  else
    let value := NewDecFromBigInt q.(rq_TotalValue) in
    let blocks := NewDec (int64 (ctx.(BlockHeight) - q.(rq_StartHeight))) in
    modifier ← GetSqModifier;
    v ← lift (DecMul value blocks);
    lift (DecQuo v modifier).

(** The rate moves towards its target by at most one step, and is then brought into its
    bounds. *)
Definition step_rate (prevInterestRate targetInterestRate increase decrease : Dec) : res Dec :=
  interestRateChange ← DecSub targetInterestRate prevInterestRate;
  floor ← DecMul decrease (NewDec (-1));
  if (floor <=? interestRateChange) && (interestRateChange <=? increase) then Ok targetInterestRate
  else if increase <? interestRateChange then DecAdd prevInterestRate increase
  else
    floor ← DecMul decrease (NewDec (-1));
    if interestRateChange <? floor then DecSub prevInterestRate decrease else Ok prevInterestRate.
Definition clamp_rate (interestRate interestRateMin interestRateMax : Dec) : Dec :=
  if (interestRateMin <? interestRate) && (interestRate <? interestRateMax) then interestRate
  else if interestRate <=? interestRateMin then interestRateMin
  else if interestRateMax <=? interestRate then interestRateMax
  else interestRate.

Definition target_rate (healthGainFactor : Dec) (pool : Pool) : res Dec :=
  let externalAssetBalance := NewDecFromBigInt pool.(ExternalAssetBalance) in
  let externalLiabilities := NewDecFromBigInt pool.(ExternalLiabilities) in
  let nativeAssetBalance := NewDecFromBigInt pool.(NativeAssetBalance) in
  let nativeLiabilities := NewDecFromBigInt pool.(NativeLiabilities) in
  ext ← DecAdd externalAssetBalance externalLiabilities;
  mul1 ← DecQuo ext externalAssetBalance;
  nat ← DecAdd nativeAssetBalance nativeLiabilities;
  mul2 ← DecQuo nat nativeAssetBalance;
  m ← DecMul healthGainFactor mul1;
  DecMul m mul2.

Definition InterestRateComputation (ctx : Ctx) (pool : Pool) : M Dec :=
  interestRateMax ← GetInterestRateMax;
  interestRateMin ← GetInterestRateMin;
  interestRateIncrease ← GetInterestRateIncrease;
  interestRateDecrease ← GetInterestRateDecrease;
  healthGainFactor ← GetHealthGainFactor;
  let prevInterestRate := pool.(InterestRate) in
  targetInterestRate ← lift (target_rate healthGainFactor pool);
  interestRate ←
    lift (step_rate prevInterestRate targetInterestRate interestRateIncrease interestRateDecrease);
  let newInterestRate := clamp_rate interestRate interestRateMin interestRateMax in
  sQ ← GetSQFromBlocks ctx pool newInterestRate;
  lift (DecAdd newInterestRate sQ).

Definition CheckMinLiabilities (collateralAmount : Uint) (eta : Dec) (pool : Pool)
    (custodyAsset : string) : M unit :=
  minInterestRate ← GetInterestRateMin;
  liabilitiesDec ← lift (DecMul (NewDecFromBigInt collateralAmount) eta);
  liabilitiesInt ← lift (DecTruncateInt liabilitiesDec);
  liabilities ← lift (NewUintFromBigInt liabilitiesInt);
  let rate := dec_f64 minInterestRate in
  let interestNew := rat_trunc (Qmult rate (rat_SetInt liabilities)) in
  samplePayment ← lift (NewUintFromBigInt interestNew);
  _ ← throw_if ((samplePayment =? 0) && negb (minInterestRate =? 0)) ErrBorrowTooLow;
  (* swap interest payment to custody asset *)
  _ ← wrap_err ErrBorrowTooLow (CLPSwap samplePayment custodyAsset pool);
  mret tt.

(** [currentHeight % epochLength] *)
Definition GetEpochPosition (ctx : Ctx) (epochLength : Z) : res Z :=
  let epochLength := if epochLength <=? 0 then 1 else epochLength in
  rem_s ctx.(BlockHeight) epochLength.

(** Interest of the blocks since the epoch began, paid before a position is closed. *)
Definition pay_accrued_interest (ctx : Ctx) : E unit :=
  epochLength ← on_world GetEpochLength;
  epochPosition ← lift (GetEpochPosition ctx epochLength);
  if 0 <? epochPosition then
    mtp ← the_mtp;
    pool ← the_pool;
    interestPayment ←
      lift (CalcMTPInterestLiabilities mtp pool.(InterestRate) epochPosition epochLength);
    finalInterestPayment ← HandleInterestPayment interestPayment;
    mtp ← the_mtp;
    pool ← the_pool;
    _ ← (if StringCompare mtp.(CollateralAsset) GetSettlementAsset then
           v ← lift (UintAdd pool.(BlockInterestExternal) finalInterestPayment);
           upd_pool (λ p, p <| BlockInterestExternal := v |>)
         else
           v ← lift (UintAdd pool.(BlockInterestNative) finalInterestPayment);
           upd_pool (λ p, p <| BlockInterestNative := v |>));
    assign_health
  else mret tt.

(** Custody back to the pool, swapped to the collateral asset, and repaid. *)
Definition settle (takeFundPayment : bool) : E Uint :=
  _ ← TakeOutCustody;
  mtp ← the_mtp;
  pool ← the_pool;
  repayAmount ← on_world (CLPSwap mtp.(CustodyAmount) mtp.(CollateralAsset) pool);
  _ ← Repay repayAmount takeFundPayment;
  mret repayAmount.

Definition ForceCloseLong (ctx : Ctx) (isAdminClose takeFundPayment : bool) : E Uint :=
  safetyFactor ← on_world GetSafetyFactor;
  _ ← pay_accrued_interest ctx;
  mtp ← the_mtp;
  _ ← throw_if (negb isAdminClose && (safetyFactor <? mtp.(MtpHealth))) ErrMTPHealthy;
  settle takeFundPayment.

(** ** Genesis (genesis.go): positions and the whitelist are not part of it *)
Definition InitGenesis (params : Params) : M unit := SetParams params.
Definition ExportGenesis : M Params :=
  p ← GetParams;
  forceCloseFundAddress ← GetForceCloseFundAddress;
  incrementalInterestPaymentFundAddress ← GetIncrementalInterestPaymentFundAddress;
  mret (mkMarginParams p.(LeverageMax) p.(InterestRateMax) p.(InterestRateMin)
    p.(InterestRateIncrease) p.(InterestRateDecrease) p.(HealthGainFactor)
    p.(MarginTypes.EpochLength) p.(Pools) p.(RemovalQueueThreshold) p.(MaxOpenPositions)
    p.(PoolOpenThreshold) p.(ForceCloseFundPercentage) (AccString forceCloseFundAddress)
    p.(IncrementalInterestPaymentFundPercentage) (AccString incrementalInterestPaymentFundAddress)
    p.(SqModifier) p.(SafetyFactor) [] false false p.(FuryCollateralEnabled)).
End margin.

(** What x/clp asks of this module (the interface is the class of ClpLiquidity.v). *)
#[export] Instance margin_keeper {W} {sdk : Sdk} {margin : HasStore MarginStore W}
    : MarginKeeper W := {
  ClpLiquidity.IsPoolEnabled := λ w asset,
    existsb (λ p, StringCompare p asset) (params_of (store w)).(Pools);
  ClpLiquidity.CalculatePoolHealth := CalculatePoolHealth;
  ClpLiquidity.GetRemovalQueueThreshold := λ w, (params_of (store w)).(RemovalQueueThreshold)
}.
