(* ===== verification/MarginServer.v ===== *)
(** * MarginServer: the message handlers and the begin blocker of x/margin

    x/margin/keeper/{msg_server,admin_msg_server,abci}.go and the dispatch of legacy.go. *)

From S2P Require Import Prelude Sdk Rat Float Bank Keepers ClpTypes ClpMath ClpKeeper.
From S2P Require Import ClpLiquidity ClpMsgs MarginTypes Margin.
Local Open Scope Z_scope.

(** x/admin/types/errors.go *)
Definition ErrAdminPermissionDenied : error := mkErr "admin" 1.

Section server.
Context {W : Type} {sdk : Sdk} {coins : CoinLib} {bank : BankKeeper W} {paginator : Paginator}
  {registry : TokenRegistryKeeper W} {admin : AdminKeeper W} {errs : SdkErrors}
  {clp : HasStore ClpStore W} {events : HasStore EventLog W}
  {margin : HasStore MarginStore W} {float : MarginFloat}.
Notation M := (M W).
Notation E := (Prelude.M (Env W)).

(** The asset that names the pool of a trade. *)
Definition pool_asset (collateralAsset otherAsset : string) : string :=
  if StringCompare collateralAsset GetSettlementAsset then otherAsset else collateralAsset.
Definition GetPoolOf (collateralAsset otherAsset : string) : M Pool :=
  wrap_err ErrPoolDoesNotExist (GetPool (pool_asset collateralAsset otherAsset)).

(** ** Opening *)

(** From the custody amount on, with the new position and the pool as the variables. *)
Definition open_position (msg : MsgOpen) (custodyAmount : Uint) (eta : Dec) : E unit :=
  _ ← Borrow msg.(mo_CollateralAsset) msg.(mo_CollateralAmount) custodyAmount eta;
  _ ← UpdatePoolHealth;
  _ ← TakeInCustody;
  safetyFactor ← on_world GetSafetyFactor;
  mtp ← the_mtp;
  pool ← the_pool;
  lr ← on_world (UpdateMTPHealth mtp pool);
  throw_if (lr <=? safetyFactor) ErrMTPUnhealthy.

Definition OpenLong (msg : MsgOpen) : M MTP :=
  maxLeverage ← GetMaxLeverageParam;
  msgLeverage ← lift (match msg.(mo_Leverage) with None => Panic | Some l => Ok l end);
  let leverage := Z.min msgLeverage maxLeverage in
  eta ← lift (DecSub leverage OneDec);
  let collateralAmount := msg.(mo_CollateralAmount) in
  let collateralAmountDec := NewDecFromBigInt collateralAmount in
  let mtp := NewMTP msg.(mo_Signer) msg.(mo_CollateralAsset) msg.(mo_BorrowAsset) msg.(mo_Position)
               leverage in
  furyCollateralEnabled ← IsFuryCollateralEnabled;
  let native := StringCompare msg.(mo_CollateralAsset) GetSettlementAsset in
  _ ← throw_if (negb furyCollateralEnabled && native) ErrFuryAsCollateralNotAllowed;
  let externalAsset := pool_asset msg.(mo_CollateralAsset) msg.(mo_BorrowAsset) in
  pool ← GetPoolOf msg.(mo_CollateralAsset) msg.(mo_BorrowAsset);
  enabled ← IsPoolEnabled externalAsset;
  _ ← throw_if (negb enabled) ErrMTPDisabled;
  leveragedAmountDec ← lift (DecMul collateralAmountDec leverage);
  leveragedInt ← lift (DecTruncateInt leveragedAmountDec);
  leveragedAmount ← lift (NewUintFromBigInt leveragedInt);
  _ ← throw_if (if native then pool.(NativeAssetBalance) <? leveragedAmount
                else pool.(ExternalAssetBalance) <? leveragedAmount) ErrBorrowTooHigh;
  (* check if liabilities large enough for interest payments *)
  _ ← CheckMinLiabilities collateralAmount eta pool msg.(mo_BorrowAsset);
  custodyAmount ← CLPSwap leveragedAmount msg.(mo_BorrowAsset) pool;
  _ ← throw_if (if native then pool.(ExternalAssetBalance) <? custodyAmount
                else pool.(NativeAssetBalance) <? custodyAmount) ErrCustodyTooHigh;
  '(_, mtp, _) ← with_vars mtp pool (open_position msg custodyAmount eta);
  mret mtp.

Definition Open (msg : MsgOpen) : M unit :=
  whitelisting ← IsWhitelistingEnabled;
  whitelisted ← (if whitelisting : bool then IsWhitelisted msg.(mo_Signer) else mret true);
  _ ← throw_if (whitelisting && negb whitelisted) ErrUnauthorised;
  openCount ← GetOpenMTPCount;
  maxOpen ← GetMaxOpenPositions;
  _ ← throw_if (maxOpen <=? openCount) ErrMaxOpenPositions;
  let externalAsset := pool_asset msg.(mo_CollateralAsset) msg.(mo_BorrowAsset) in
  pool ← GetPoolOf msg.(mo_CollateralAsset) msg.(mo_BorrowAsset);
  enabled ← IsPoolEnabled externalAsset;
  closed ← (if negb enabled then mret true else IsPoolClosed externalAsset);
  _ ← throw_if (negb enabled || closed) ErrMTPDisabled;
  (* the health of a stored pool is never nil *)
  threshold ← GetPoolOpenThreshold;
  _ ← throw_if (pool.(Health) <=? threshold) ErrMTPDisabled;
  _ ← match msg.(mo_Position) with
      | Position_LONG => OpenLong msg
      | _ => throw ErrInvalidPosition
      end;
  EmitEvent EventOpen.

(** ** Closing *)
Definition CloseLong (ctx : Ctx) (msg : MsgClose) : M (MTP * Uint) :=
  mtp ← GetMTP msg.(mc_Signer) msg.(mc_Id);
  pool ← GetPoolOf mtp.(CollateralAsset) mtp.(CustodyAsset);
  '(repayAmount, mtp, _) ←
    with_vars mtp pool (_ ← pay_accrued_interest ctx; settle false);
  mret (mtp, repayAmount).

Definition Close (ctx : Ctx) (msg : MsgClose) : M unit :=
  mtp ← GetMTP msg.(mc_Signer) msg.(mc_Id);
  _ ← match mtp.(MtpPosition) with
      | Position_LONG => CloseLong ctx msg
      | _ => throw ErrInvalidPosition
      end;
  EmitEvent EventClose.

(** ** Administration *)
Definition require_MARGIN (signer : string) : M unit :=
  addr ← lift (AccAddressFromBech32 signer);
  ok ← gets (λ w, IsAdminAccount w AdminType_MARGIN addr);
  throw_if (negb ok) ErrAdminPermissionDenied.

Definition UpdateParams (msg : MsgUpdateParams) : M unit :=
  _ ← require_MARGIN msg.(mup_Signer);
  params ← GetParams;
  _ ← SetParams (msg.(mup_Params) <| Pools := params.(Pools) |>);
  EmitEvent EventMarginUpdateParams.

Definition UpdatePools (msg : MsgUpdatePools) : M unit :=
  _ ← require_MARGIN msg.(mpl_Signer);
  params ← GetParams;
  SetParams (params <| Pools := msg.(mpl_Pools) |> <| ClosedPools := msg.(mpl_ClosedPools) |>).

Definition UpdateFuryCollateral (msg : MsgUpdateFuryCollateral) : M unit :=
  _ ← require_MARGIN msg.(ufc_Signer);
  params ← GetParams;
  SetParams (params <| FuryCollateralEnabled := msg.(ufc_FuryCollateralEnabled) |>).

Definition Whitelist (msg : MsgWhitelist) : M unit :=
  _ ← require_MARGIN msg.(wl_Signer); WhitelistAddress msg.(wl_WhitelistedAddress).
Definition Dewhitelist (msg : MsgDewhitelist) : M unit :=
  _ ← require_MARGIN msg.(dw_Signer); DewhitelistAddress msg.(dw_WhitelistedAddress).

(** What [ForceClose] (deprecated) and [AdminClose] do with the position they name. *)
Definition admin_close (ctx : Ctx) (mtpAddress : string) (id : Z) (takeMarginFund : bool) : M unit :=
  mtpToClose ← GetMTP mtpAddress id;
  _ ← match mtpToClose.(MtpPosition) with
      | Position_LONG =>
          pool ← GetPoolOf mtpToClose.(CollateralAsset) mtpToClose.(CustodyAsset);
          with_vars mtpToClose pool (ForceCloseLong ctx true takeMarginFund)
      | _ => throw ErrInvalidPosition
      end;
  EmitEvent EventAdminClose.
Definition ForceClose (ctx : Ctx) (msg : MsgForceClose) : M unit :=
  _ ← require_MARGIN msg.(fc_Signer); admin_close ctx msg.(fc_MtpAddress) msg.(fc_Id) false.
Definition AdminClose (ctx : Ctx) (msg : MsgAdminClose) : M unit :=
  _ ← require_MARGIN msg.(ac_Signer);
  admin_close ctx msg.(ac_MtpAddress) msg.(ac_Id) msg.(ac_TakeMarginFund).

Definition AdminCloseAll (msg : MsgAdminCloseAll) : M unit :=
  _ ← require_MARGIN msg.(aca_Signer);
  params ← GetParams;
  let params := params <| SafetyFactor := NewDec 100 |> in
  let params := if negb msg.(aca_TakeMarginFund) then params <| ForceCloseFundPercentage := ZeroDec |>
                else params in
  _ ← SetParams params;
  EmitEvent EventAdminCloseAll.

(** ** Dispatch (legacy.go) *)
Inductive MarginMsg :=
| AMsgOpen (m : MsgOpen)
| AMsgClose (m : MsgClose)
| AMsgForceClose (m : MsgForceClose)
| AMsgUpdateParams (m : MsgUpdateParams)
| AMsgUpdatePools (m : MsgUpdatePools)
| AMsgUpdateFuryCollateral (m : MsgUpdateFuryCollateral)
| AMsgWhitelist (m : MsgWhitelist)
| AMsgDewhitelist (m : MsgDewhitelist)
| AMsgAdminClose (m : MsgAdminClose)
| AMsgAdminCloseAll (m : MsgAdminCloseAll).

Definition NewLegacyHandler (ctx : Ctx) (msg : MarginMsg) : M unit :=
  match msg with
  | AMsgOpen m => Open m
  | AMsgClose m => Close ctx m
  | AMsgForceClose m => ForceClose ctx m
  | AMsgUpdateParams m => UpdateParams m
  | AMsgUpdatePools m => UpdatePools m
  | AMsgUpdateFuryCollateral m => UpdateFuryCollateral m
  | AMsgWhitelist m => Whitelist m
  | AMsgDewhitelist m => Dewhitelist m
  | AMsgAdminClose m => AdminClose ctx m
  | AMsgAdminCloseAll m => AdminCloseAll m
  end.
Definition ValidateBasic (msg : MarginMsg) : res unit :=
  match msg with
  | AMsgOpen m => MsgOpen_ValidateBasic m
  | AMsgClose m => MsgClose_ValidateBasic m
  | AMsgForceClose m => MsgForceClose_ValidateBasic m
  | AMsgUpdateParams m => MsgUpdateParams_ValidateBasic m
  | AMsgUpdatePools m => MsgUpdatePools_ValidateBasic m
  | AMsgUpdateFuryCollateral m => MsgUpdateFuryCollateral_ValidateBasic m
  | AMsgWhitelist m => MsgWhitelist_ValidateBasic m
  | AMsgDewhitelist m => MsgDewhitelist_ValidateBasic m
  | AMsgAdminClose m => MsgAdminClose_ValidateBasic m
  | AMsgAdminCloseAll m => MsgAdminCloseAll_ValidateBasic m
  end.

(** ** The begin blocker (abci.go) *)

(** A panic while one position is processed is caught: what was written until then stays, in the
    store and in the pool variable the positions of the pool share. *)
Definition process_mtp (ctx : Ctx) : E unit :=
  mtp ← the_mtp;
  pool ← the_pool;
  h ← try (on_world (UpdateMTPHealth mtp pool));
  match h with
  | inl _ => mret tt
  | inr h =>
      _ ← upd_mtp (λ m, m <| MtpHealth := h |>);
      mtp ← the_mtp;
      interestPayment ← lift (CalcMTPInterestLiabilities mtp pool.(InterestRate) 0 0);
      finalInterestPayment ← HandleInterestPayment interestPayment;
      pool ← the_pool;
      _ ← (if StringCompare mtp.(CollateralAsset) GetSettlementAsset then
             v ← lift (UintAdd pool.(BlockInterestExternal) finalInterestPayment);
             upd_pool (λ p, p <| BlockInterestExternal := v |>)
           else
             v ← lift (UintAdd pool.(BlockInterestNative) finalInterestPayment);
             upd_pool (λ p, p <| BlockInterestNative := v |>));
      _ ← ignore_err SetMTP;
      r ← try (ForceCloseLong ctx false true);
      match r with inr _ => on_world (EmitEvent EventForceClose) | inl _ => mret tt end
  end.
Definition BeginBlockerProcessMTP (ctx : Ctx) (mtp : MTP) : E unit :=
  _ ← upd_mtp (λ _, mtp); recovering (process_mtp ctx).

(** The body of the loop over the pools. *)
Definition refresh_pool (ctx : Ctx) : E unit :=
  _ ← upd_pool (λ p, p <| BlockInterestExternal := 0 |> <| BlockInterestNative := 0 |>);
  pool ← the_pool;
  enabled ← on_world (IsPoolEnabled pool.(ExternalAsset).(Symbol));
  rate ← (if enabled : bool then
            r ← try (on_world (InterestRateComputation ctx pool)); mret (Some r)
          else mret None);
  match rate with
  | Some (inl _) => mret tt
  | Some (inr rate) =>
      _ ← upd_pool (λ p, p <| InterestRate := rate |>
                           <| LastHeightInterestRateComputed := ctx.(BlockHeight) |>);
      _ ← ignore_err UpdatePoolHealth;
      pool ← the_pool;
      _ ← on_world (TrackSQBeginBlock ctx pool);
      mtps ← try (on_world (GetMTPsForPool pool.(ExternalAsset).(Symbol)));
      _ ← forM (BeginBlockerProcessMTP ctx) (match mtps with inr l => l | inl _ => [] end);
      pool ← the_pool;
      ignore_err (on_world (SetPool pool))
  | None =>
      pool ← the_pool;
      ignore_err (on_world (SetPool pool))
  end.

(** The variable of the positions loop has no value before it runs. *)
Definition no_mtp : MTP := NewMTP "" "" "" Position_UNSPECIFIED 0.
Definition BeginBlocker (ctx : Ctx) : M unit :=
  epochLength ← GetEpochLength;
  epochPosition ← lift (GetEpochPosition ctx epochLength);
  if epochPosition =? 0 then
    pools ← GetPools;
    forM (λ pool, _ ← with_vars no_mtp pool (refresh_pool ctx); mret tt) pools
  else mret tt.
End server.
