(* ===== verification/MarginQuery.v ===== *)
(** * MarginQuery: the queries of x/margin

    x/margin/keeper/grpc_query.go, and the functions of keeper.go that list positions and the
    whitelist page by page. *)

From S2P Require Import Prelude Sdk Rat Float Bank Keepers ClpTypes ClpMath ClpKeeper.
From S2P Require Import ClpLiquidity.
From S2P Require Import Pages ClpQuery MarginTypes Margin.
Local Open Scope Z_scope.

Definition MaxPageLimit : Z := 100.

(** ** Requests and answers (proto/blackfury/margin/v1/query.proto) *)
Record MTPRequest := mkMTPRequest { mr_Address : string; mr_Id : Z }.
Record PositionsForAddressRequest := mkPositionsForAddressRequest {
  pa_Address : string; pa_Pagination : option PageRequest
}.
Record PositionsByPoolRequest := mkPositionsByPoolRequest {
  pp_Asset : string; pp_Pagination : option PageRequest
}.
Record PositionsRequest := mkPositionsRequest { po_Pagination : option PageRequest }.
Record PositionsResponse := mkPositionsResponse { pr_Mtps : list MTP; pr_Pagination : PageResponse }.
Record StatusResponse := mkStatusResponse { sr_OpenMtpCount : Z; sr_LifetimeMtpCount : Z }.
Record WhitelistRequest := mkWhitelistRequest { wr_Pagination : option PageRequest }.
Record WhitelistResponse := mkWhitelistResponse {
  ws_Whitelist : list string; ws_Pagination : PageResponse
}.
Record IsWhitelistedResponse := mkIsWhitelistedResponse { iw_Address : string; iw_IsWhitelisted : bool }.

Section query.
Context {W : Type} {sdk : Sdk} {coins : CoinLib} {bank : BankKeeper W} {paginator : Paginator}
  {pages : Pages} {registry : TokenRegistryKeeper W} {clp : HasStore ClpStore W}
  {events : HasStore EventLog W} {margin : HasStore MarginStore W} {float : MarginFloat}.
Notation M := (M W).

(** ** Pages of the store (keeper.go) *)
Definition all_in_one : PageRequest := limit_page (MaxUint64 - 1).
Definition page_or (p : PageRequest) (pagination : option PageRequest) : PageRequest :=
  match pagination with None => p | Some p => p end.
Definition GetMTPs (pagination : option PageRequest) : M (list MTP * PageResponse) :=
  s ← get_margin; lift (Paginate (prefix_store (String MTPPrefix "") s.(ms_MTPs)) (page_or all_in_one pagination)).
(** A position is a hit only when the page takes it. *)
Definition of_pool (asset : string) (mtp : MTP) (accumulate : bool) : bool :=
  accumulate && (StringCompare mtp.(CustodyAsset) asset || StringCompare mtp.(CollateralAsset) asset).
Definition GetMTPsForPool_page (asset : string) (pagination : option PageRequest)
    : M (list MTP * PageResponse) :=
  s ← get_margin;
  '(calls, pageRes) ← lift (FilteredCalls (prefix_store (String MTPPrefix "") s.(ms_MTPs)) (page_or all_in_one pagination) (of_pool asset));
  mret (taken (of_pool asset) calls, pageRes).
Definition GetMTPsForAddress (mtpAddress : AccAddress) (pagination : option PageRequest)
    : M (list MTP * PageResponse) :=
  s ← get_margin;
  let pagination := page_or (limit_page MaxPageLimit) pagination in
  _ ← throw_if (pagination.(pg_Limit) >? MaxPageLimit) InvalidArgument;
  lift (Paginate (prefix_store (GetMTPPrefixForAddress (AccString mtpAddress)) s.(ms_MTPs)) pagination).
Definition GetWhitelist (pagination : option PageRequest) : M (list string * PageResponse) :=
  s ← get_margin; lift (Paginate (prefix_store (String WhitelistPrefix "") s.(ms_Whitelist)) (page_or all_in_one pagination)).

(** ** grpc_query.go *)
Definition GetMTP_query (request : MTPRequest) : M MTP := GetMTP request.(mr_Address) request.(mr_Id).
Definition GetPositionsForAddress (request : PositionsForAddressRequest) : M PositionsResponse :=
  addr ← lift (AccAddressFromBech32 request.(pa_Address));
  '(mtps, pageRes) ← GetMTPsForAddress addr request.(pa_Pagination);
  mret (mkPositionsResponse mtps pageRes).
Definition GetParams_query : M Params := Margin.GetParams.
Definition GetPositionsByPool (request : PositionsByPoolRequest) : M PositionsResponse :=
  '(mtps, pageRes) ← GetMTPsForPool_page request.(pp_Asset) request.(pp_Pagination);
  mret (mkPositionsResponse mtps pageRes).
(** [request.Pagination.Limit] of a request without a page panics. *)
Definition limit_checked (pagination : option PageRequest) : M unit :=
  match pagination with
  | None => panic
  | Some p => throw_if (p.(pg_Limit) >? MaxPageLimit) InvalidArgument
  end.
Definition GetPositions (request : PositionsRequest) : M PositionsResponse :=
  _ ← limit_checked request.(po_Pagination);
  '(mtps, page) ← GetMTPs request.(po_Pagination);
  mret (mkPositionsResponse mtps page).
Definition GetStatus : M StatusResponse :=
  openMtpCount ← GetOpenMTPCount;
  lifetimeMtpCount ← GetMTPCount;
  mret (mkStatusResponse openMtpCount lifetimeMtpCount).
Definition GetWhitelist_query (request : WhitelistRequest) : M WhitelistResponse :=
  _ ← limit_checked request.(wr_Pagination);
  '(whitelist, page) ← GetWhitelist request.(wr_Pagination);
  mret (mkWhitelistResponse whitelist page).
Definition GetSQParams (pool : string) : M Z :=
  pool ← ClpKeeper.GetPool pool;
  beginBlock ← GetSQBeginBlock pool;
  mret (int64 beginBlock).
Definition IsWhitelisted_query (address : string) : M IsWhitelistedResponse :=
  isWhitelisted ← IsWhitelisted address; mret (mkIsWhitelistedResponse address isWhitelisted).
End query.
