(* ===== verification/Oracle.v ===== *)
(** * Oracle: x/oracle

    x/oracle/keeper/{keeper,validatorWhiteList,adminAccount}.go, x/oracle/types/{prophecy,claim,
    errors,keys,genesis}.go and x/oracle/genesis.go: validators of a whitelist vote on
    prophecies, which succeed or fail by the power of the votes. *)

From S2P Require Import Prelude Sdk Rat Float Bank Keepers ClpKeeper.
Local Open Scope Z_scope.

(** ** Library code *)

(** [sdk.ValAddress], raw bytes; [ValAddress.String()] and its inverse. *)
Definition ValAddress : Type := string.
Class ValAddressLib := {
  ValAddressFromBech32 : string → res ValAddress;
  ValString : ValAddress → string
}.

(** The validators of x/staking: a found validator, its operator's address as stored and as
    decoded (which panics), its power in units of [sdk.DefaultPowerReduction]. *)
Class StakingKeeper (W : Type) := {
  Validator : Type;
  OperatorAddress : Validator → string;
  GetOperator : Validator → res ValAddress;
  GetConsensusPower : Validator → Z;
  IsBonded : Validator → bool;
  GetValidator : W → ValAddress → option Validator;
  GetBondedValidatorsByPower : W → list Validator
}.

(** The JSON of the two maps of a prophecy, with [sdk.ValAddress]'s own texts for addresses. *)
Class ProphecyJson := {
  Marshal_ClaimValidators : option (gmap string (list ValAddress)) → res string;
  Marshal_ValidatorClaims : option (gmap string string) → res string;
  Unmarshal_ClaimValidators : string → res (option (gmap string (list ValAddress)));
  Unmarshal_ValidatorClaims : string → res (option (gmap string string))
}.

(** [utf8.ValidString]: what a Go string holds when it is text. *)
Definition tail_byte (b : Z) : bool := (128 <=? b) && (b <=? 191).
Fixpoint utf8_bytes (bs : list Z) : bool :=
  match bs with
  | [] => true
  | b :: r =>
      if b <? 128 then utf8_bytes r
      else match r with
      | c :: r1 =>
          if (194 <=? b) && (b <=? 223) then tail_byte c && utf8_bytes r1
          else match r1 with
          | d :: r2 =>
              if b =? 224 then (160 <=? c) && (c <=? 191) && tail_byte d && utf8_bytes r2
              else if b =? 237 then (128 <=? c) && (c <=? 159) && tail_byte d && utf8_bytes r2
              else if (225 <=? b) && (b <=? 239) then tail_byte c && tail_byte d && utf8_bytes r2
              else match r2 with
              | e :: r3 =>
                  if b =? 240 then
                    (144 <=? c) && (c <=? 191) && tail_byte d && tail_byte e && utf8_bytes r3
                  else if (241 <=? b) && (b <=? 243) then
                    tail_byte c && tail_byte d && tail_byte e && utf8_bytes r3
                  else if b =? 244 then
                    (128 <=? c) && (c <=? 143) && tail_byte d && tail_byte e && utf8_bytes r3
                  else false
              | [] => false
              end
          | [] => false
          end
      | [] => false
      end
  end.
Definition utf8_valid (s : string) : bool :=
  utf8_bytes (Z.of_nat ∘ nat_of_ascii <$> String.list_ascii_of_string s).

(** ** What the proofs ask of the library code *)
Definition val_address_ok (a : ValAddress) : Prop := (0 < String.length a <= 255)%nat.
Class ValAddressLaws `(ValAddressLib) : Prop := {
  val_roundtrip a : val_address_ok a → ValAddressFromBech32 (ValString a) = Ok a;
  val_valid s a : ValAddressFromBech32 s = Ok a → val_address_ok a;
  val_not_panic s : ValAddressFromBech32 s ≠ Panic;
  val_text a : utf8_valid (ValString a) = true
}.
Class StakingLaws (W : Type) `(ValAddressLib) `(StakingKeeper W) : Prop := {
  power_nonneg v : 0 <= GetConsensusPower v;
  bonded_distinct w : NoDup (OperatorAddress <$> GetBondedValidatorsByPower w);
  bonded_operator w v : v ∈ GetBondedValidatorsByPower w →
    ∃ a, val_address_ok a ∧ GetOperator v = Ok a ∧ OperatorAddress v = ValString a
}.
Class ProphecyJsonLaws `(ValAddressLib) `(ProphecyJson) : Prop := {
  claim_validators_roundtrip m :
    (∀ cl addrs, m !! cl = Some addrs → utf8_valid cl = true ∧ Forall val_address_ok addrs) →
    ∃ t, Marshal_ClaimValidators (Some m) = Ok t ∧ Unmarshal_ClaimValidators t = Ok (Some m);
  validator_claims_roundtrip m :
    (∀ v cl, m !! v = Some cl → utf8_valid v = true ∧ utf8_valid cl = true) →
    ∃ t, Marshal_ValidatorClaims (Some m) = Ok t ∧ Unmarshal_ValidatorClaims t = Ok (Some m)
}.

(** ** Data (types.proto, types/prophecy.go); a Go map may be nil, [None] *)
Inductive StatusText := STATUS_TEXT_UNSPECIFIED | STATUS_TEXT_PENDING | STATUS_TEXT_SUCCESS
  | STATUS_TEXT_FAILED.
#[export] Instance StatusText_eq_dec : EqDecision StatusText.
Proof. solve_decision. Defined.
Record Status := mkStatus { Text : StatusText; FinalClaim : string }.
#[export] Instance Status_eq_dec : EqDecision Status.
Proof. solve_decision. Defined.
Record Claim := mkClaim { Id : string; ValidatorAddress : string; Content : string }.
Record Prophecy := mkProphecy {
  ID : string;
  p_Status : Status;
  ClaimValidators : option (gmap string (list ValAddress));
  ValidatorClaims : option (gmap string string)
}.
#[export] Instance Prophecy_settable : Settable Prophecy := λ p,
  mkProphecy p.(ID) p.(p_Status) p.(ClaimValidators) p.(ValidatorClaims).
Record DBProphecy := mkDBProphecy {
  db_Id : string;
  db_Status : Status;
  db_ClaimValidators : string;
  db_ValidatorClaims : string
}.
Record GenesisState := mkGenesisState {
  gs_AddressWhitelist : option (list string);
  gs_AdminAddress : string;
  gs_Prophecies : list DBProphecy
}.

(** The store: the whitelist (prefix 0), the administrator (prefix 1; the empty address reads
    as nil) and the prophecies under prefix 2, an underscore and their id. *)
Record OracleStore := mkOracleStore {
  os_WhiteList : option (list string);
  os_AdminAccount : AccAddress;
  os_Prophecies : gmap string DBProphecy
}.
#[export] Instance OracleStore_settable : Settable OracleStore := λ s,
  mkOracleStore s.(os_WhiteList) s.(os_AdminAccount) s.(os_Prophecies).

(** types/errors.go *)
Definition oracle_error (n : Z) : error := mkErr "oracle" n.
Definition ErrProphecyNotFound := oracle_error 1.
Definition ErrInvalidIdentifier := oracle_error 4.
Definition ErrProphecyFinalized := oracle_error 5.
Definition ErrDuplicateMessage := oracle_error 6.
Definition ErrInvalidClaim := oracle_error 7.
Definition ErrInvalidValidator := oracle_error 8.
Definition ErrValidatorNotInWhiteList := oracle_error 10.
Definition ErrNotAdminAccount := oracle_error 11.
Definition ErrInvalidOperationType := oracle_error 12.

(** ** Prophecies (types/prophecy.go, types/claim.go) *)
Definition DefaultConsensusNeeded : Q := f64 (7 # 10).

Definition NewStatus (text : StatusText) (finalClaim : string) : Status := mkStatus text finalClaim.
Definition NewClaim (id validatorAddress content : string) : Claim :=
  mkClaim id validatorAddress content.
Definition NewProphecy (id : string) : Prophecy :=
  mkProphecy id (NewStatus STATUS_TEXT_PENDING "") (Some ∅) (Some ∅).

(** Reading a key of a map that may be nil gives the zero value, writing to it panics. *)
Definition map_get {V} (zero : V) (m : option (gmap string V)) (k : string) : V :=
  from_option (λ m, default zero (m !! k)) zero m.
Definition map_set {V} (m : option (gmap string V)) (k : string) (v : V)
    : res (option (gmap string V)) :=
  match m with Some m => Ok (Some (<[k := v]> m)) | None => Panic end.

(** [NewKeeper]: the part of the validators' power that decides. *)
Definition NewKeeper (consensusNeeded : Q) : res Q :=
  if Qle_bool consensusNeeded 0 || negb (Qle_bool consensusNeeded 1) then Panic
  else Ok consensusNeeded.

Section prophecy.
Context {vals : ValAddressLib} {json : ProphecyJson}.

Definition SerializeForDB (prophecy : Prophecy) : res DBProphecy :=
  claimValidators ← Marshal_ClaimValidators prophecy.(ClaimValidators);
  validatorClaims ← Marshal_ValidatorClaims prophecy.(ValidatorClaims);
  Ok (mkDBProphecy prophecy.(ID) prophecy.(p_Status) claimValidators validatorClaims).

Definition DeserializeFromDB (dbProphecy : DBProphecy) : res Prophecy :=
  claimValidators ← Unmarshal_ClaimValidators dbProphecy.(db_ClaimValidators);
  validatorClaims ← Unmarshal_ValidatorClaims dbProphecy.(db_ValidatorClaims);
  Ok (mkProphecy dbProphecy.(db_Id) dbProphecy.(db_Status) claimValidators validatorClaims).

Definition AddClaim (prophecy : Prophecy) (validator : ValAddress) (claim : string) : res Prophecy :=
  let claimValidators := map_get [] prophecy.(ClaimValidators) claim in
  cvs ← map_set prophecy.(ClaimValidators) claim (claimValidators ++ [validator]);
  let validatorBech32 := ValString validator in
  vcs ← map_set prophecy.(ValidatorClaims) validatorBech32 claim;
  Ok (prophecy <| ClaimValidators := cvs |> <| ValidatorClaims := vcs |>).
End prophecy.

(** ** Counting votes *)
Section counting.
Context {W : Type} {vals : ValAddressLib} {order : GoRange} {staking : StakingKeeper W}.

Definition inWhiteList (validator : Validator) (whiteListValidatorAddresses : list ValAddress)
    : res bool :=
  foldR (λ found address,
    if (found : bool) then Ok true
    else op ← GetOperator validator; Ok (String.eqb op address)) false whiteListValidatorAddresses.

(** The power of the bonded validators on the whitelist. *)
Definition whitelisted_power (validators : list Validator) (whiteList : list ValAddress) : res Z :=
  foldR (λ totalPower validator,
    isIn ← inWhiteList validator whiteList;
    Ok (if (isIn : bool) then int64 (totalPower + GetConsensusPower validator) else totalPower))
    0 validators.

(** [validatorsByAddress]: of two validators with one address the last counts. *)
Definition by_address (validators : list Validator) : gmap string Validator :=
  foldl (λ m v, <[OperatorAddress v := v]> m) ∅ validators.

Definition claim_power (validatorsByAddress : gmap string Validator) (addrs : list ValAddress) : Z :=
  foldl (λ claimPower addr,
    match validatorsByAddress !! ValString addr with
    | Some validator => int64 (claimPower + GetConsensusPower validator)
    | None => claimPower
    end) 0 addrs.

(** Claim, its power, the power on all claims. *)
Definition tally_step (validatorsByAddress : gmap string Validator) (acc : string * Z * Z)
    (entry : string * list ValAddress) : string * Z * Z :=
  let '(highestClaim, highestClaimPower, totalClaimsPower) := acc in
  let claimPower := claim_power validatorsByAddress entry.2 in
  let totalClaimsPower := int64 (totalClaimsPower + claimPower) in
  if highestClaimPower <? claimPower then (entry.1, claimPower, totalClaimsPower)
  else (highestClaim, highestClaimPower, totalClaimsPower).

Definition FindHighestClaim (prophecy : Prophecy) (validators : list Validator)
    (whiteList : list ValAddress) : res (string * Z * Z * Z) :=
  totalPower ← whitelisted_power validators whiteList;
  let entries := go_range "FindHighestClaim" (from_option map_to_list [] prophecy.(ClaimValidators)) in
  let '(highestClaim, highestClaimPower, totalClaimsPower) :=
    foldl (tally_step (by_address validators)) ("", -1, 0) entries in
  Ok (highestClaim, highestClaimPower, totalClaimsPower, totalPower).
End counting.

(** ** The keeper; [consensusNeeded] is the field of the keeper *)
Class OracleConfig := { consensusNeeded : Q }.

Section keeper.
Context {W : Type} {coins : CoinLib} {vals : ValAddressLib} {json : ProphecyJson} {order : GoRange}
  {staking : StakingKeeper W} {config : OracleConfig} {orc : HasStore OracleStore W}.
Notation M := (M W).

Definition get_oracle : M OracleStore := get_store.
Definition upd_oracle (f : OracleStore → OracleStore) : M unit := upd_store f.

(** validatorWhiteList.go *)
Definition SetOracleWhiteList (validatorList : list ValAddress) : M unit :=
  upd_oracle (λ s, s <| os_WhiteList := Some (ValString <$> validatorList) |>).
Definition ExistsOracleWhiteList : M bool :=
  s ← get_oracle; mret (bool_decide (is_Some s.(os_WhiteList))).
Definition GetOracleWhiteList : M (list ValAddress) :=
  s ← get_oracle;
  foldM (λ vl entry,
    match ValAddressFromBech32 entry with
    | Ok addr => mret (vl ++ [addr])
    | _ => panic
    end) [] (default [] s.(os_WhiteList)).
Definition ValidateAddress (address : ValAddress) : M bool :=
  exists_ ← ExistsOracleWhiteList;
  if negb exists_ then mret false
  else valList ← GetOracleWhiteList; mret (existsb (String.eqb address) valList).
Definition AddOracleWhiteList (validator : ValAddress) : M unit :=
  valList ← GetOracleWhiteList; SetOracleWhiteList (valList ++ [validator]).
Definition RemoveOracleWhiteList (validator : ValAddress) : M unit :=
  valList ← GetOracleWhiteList;
  SetOracleWhiteList (filter (λ addr, validator ≠ addr) valList).

(** adminAccount.go *)
Definition SetAdminAccount (adminAccount : AccAddress) : M unit :=
  upd_oracle (λ s, s <| os_AdminAccount := adminAccount |>).
Definition GetAdminAccount : M AccAddress := s ← get_oracle; mret s.(os_AdminAccount).
Definition IsAdminAccount (adminAccount : AccAddress) : M bool :=
  account ← GetAdminAccount;
  mret (if String.eqb account "" then false else String.eqb account adminAccount).

(** keeper.go *)
Definition GetProphecies : M (list Prophecy) :=
  s ← get_oracle;
  foldM (λ prophecies db,
    match DeserializeFromDB db with
    | Ok prophecy => mret (prophecies ++ [prophecy])
    | _ => panic
    end) [] (kv_values s.(os_Prophecies)).

(** A prophecy whose maps do not decode counts as not found. *)
Definition GetProphecy (id : string) : M (option Prophecy) :=
  s ← get_oracle;
  match s.(os_Prophecies) !! id with
  | None => mret None
  | Some db =>
      found ← try (lift (DeserializeFromDB db));
      mret (match found with inr prophecy => Some prophecy | inl _ => None end)
  end.

Definition SetDBProphecy (prophecy : DBProphecy) : M unit :=
  upd_oracle (λ s, s <| os_Prophecies ::= <[prophecy.(db_Id) := prophecy]> |>).
Definition SetProphecy (prophecy : Prophecy) : M unit :=
  dbProphecy ← lift (SerializeForDB prophecy); SetDBProphecy dbProphecy.

Definition EnsureAddressIsInWhitelist (validatorAddress : string) : M unit :=
  whiteList ← GetOracleWhiteList;
  throw_if (negb (existsb (λ address, String.eqb (ValString address) validatorAddress) whiteList))
    ErrValidatorNotInWhiteList.

Definition checkActiveValidator (validatorAddress : ValAddress) : M bool :=
  gets (λ w, match GetValidator w validatorAddress with
             | Some validator => IsBonded validator
             | None => false
             end).

Definition processCompletion (prophecy : Prophecy) : M Prophecy :=
  validators ← gets GetBondedValidatorsByPower;
  whiteList ← GetOracleWhiteList;
  '(highestClaim, highestClaimPower, totalClaimsPower, totalPower) ←
    lift (FindHighestClaim prophecy validators whiteList);
  let remainingPossibleClaimPower := int64 (totalPower - totalClaimsPower) in
  let highestPossibleClaimPower := int64 (highestClaimPower + remainingPossibleClaimPower) in
  mret
    (if f64_ge highestClaimPower totalPower consensusNeeded then
       prophecy <| p_Status := mkStatus STATUS_TEXT_SUCCESS highestClaim |>
     else if f64_lt highestPossibleClaimPower totalPower consensusNeeded then
       prophecy <| p_Status := mkStatus STATUS_TEXT_FAILED prophecy.(p_Status).(FinalClaim) |>
     else prophecy).

Definition ProcessClaim (claim : Claim) : M Status :=
  _ ← EnsureAddressIsInWhitelist claim.(ValidatorAddress);
  valAddr ← lift (ValAddressFromBech32 claim.(ValidatorAddress));
  activeValidator ← checkActiveValidator valAddr;
  _ ← throw_if (negb activeValidator) ErrInvalidValidator;
  _ ← throw_if (String.eqb claim.(Id) "") ErrInvalidIdentifier;
  _ ← throw_if (String.eqb claim.(Content) "") ErrInvalidClaim;
  found ← GetProphecy claim.(Id);
  let prophecy := default (NewProphecy claim.(Id)) found in
  _ ← throw_if (bool_decide (prophecy.(p_Status).(Text) ≠ STATUS_TEXT_PENDING))
        ErrProphecyFinalized;
  _ ← throw_if (negb (String.eqb (map_get "" prophecy.(ValidatorClaims) claim.(ValidatorAddress)) ""))
        ErrDuplicateMessage;
  prophecy ← lift (AddClaim prophecy valAddr claim.(Content));
  prophecy ← processCompletion prophecy;
  _ ← SetProphecy prophecy;
  mret prophecy.(p_Status).

Definition ProcessUpdateWhiteListValidator (cosmosSender : AccAddress) (validator : ValAddress)
    (operationtype : string) : M unit :=
  isAdmin ← IsAdminAccount cosmosSender;
  _ ← throw_if (negb isAdmin) ErrNotAdminAccount;
  if String.eqb operationtype "add" then AddOracleWhiteList validator
  else if String.eqb operationtype "remove" then RemoveOracleWhiteList validator
  else throw ErrInvalidOperationType.

(** ** Genesis (genesis.go) *)
Definition DefaultGenesisState : GenesisState := mkGenesisState (Some []) "" [].

Definition import_whitelist (entries : list string) : M (list ValAddress) :=
  foldM (λ wl entry,
    if String.eqb (TrimSpace entry) "" then mret wl
    else match ValAddressFromBech32 entry with
         | Ok wlAddress => mret (wl ++ [wlAddress])
         | _ => panic
         end) [] entries.

Definition InitGenesis (data : GenesisState) : M unit :=
  _ ← (match data.(gs_AddressWhitelist) with
       | Some entries => wl ← import_whitelist entries; SetOracleWhiteList wl
       | None => mret tt
       end);
  _ ← (if String.eqb (TrimSpace data.(gs_AdminAddress)) "" then mret tt
       else match AccAddressFromBech32 data.(gs_AdminAddress) with
            | Ok adminAddress => SetAdminAccount adminAddress
            | _ => panic
            end);
  forM SetDBProphecy data.(gs_Prophecies).

Definition ExportGenesis : M GenesisState :=
  whiteList ← GetOracleWhiteList;
  adminAcc ← GetAdminAccount;
  prophecies ← GetProphecies;
  dbProphecies ← lift (foldR (λ l p,
                    match SerializeForDB p with Ok db => Ok (l ++ [db]) | _ => Panic end)
                    [] prophecies);
  mret (mkGenesisState (Some (ValString <$> whiteList)) (AccString adminAcc) dbProphecies).
End keeper.
