(* ===== verification/EthBridge.v ===== *)
(** * EthBridge: x/ethbridge

    x/ethbridge/types/{msgs,claim,errors,keys,events}.go, the keeper
    (x/ethbridge/keeper/{keeper,blacklist,cethReceiverAccount,pauser,peggyTokens}.go), its
    message server, and x/ethbridge/{handler,genesis}.go: coins are minted when the oracle
    decides on a claim from Ethereum, and burned when they leave for it. *)

From S2P Require Import Prelude Sdk Rat Bank Keepers Oracle.
Local Open Scope Z_scope.

(** ** Data (types.proto, tx.proto) *)
Inductive ClaimType := CLAIM_TYPE_UNSPECIFIED | CLAIM_TYPE_BURN | CLAIM_TYPE_LOCK.
#[export] Instance ClaimType_eq_dec : EqDecision ClaimType.
Proof. solve_decision. Defined.

(** [EthereumAddress]: the 20 bytes of go-ethereum's [common.Address]. *)
Definition EthereumAddress : Type := string.
Record EthBridgeClaim := mkEthBridgeClaim {
  ec_EthereumChainId : Z;
  ec_BridgeContractAddress : string;
  ec_Nonce : Z;
  ec_Symbol : string;
  ec_TokenContractAddress : string;
  ec_EthereumSender : string;
  ec_CosmosReceiver : string;
  ec_ValidatorAddress : string;
  ec_Amount : Int;
  ec_ClaimType : ClaimType
}.
Record OracleClaimContent := mkOracleClaimContent {
  oc_CosmosReceiver : AccAddress;
  oc_Amount : Int;
  oc_Symbol : string;
  oc_TokenContractAddress : EthereumAddress;
  oc_ClaimType : ClaimType
}.
Record MsgPause := mkMsgPause { pa_Signer : string; pa_IsPaused : bool }.
Record MsgLock := mkMsgLock {
  lk_CosmosSender : string; lk_Amount : Int; lk_Symbol : string; lk_EthereumChainId : Z;
  lk_EthereumReceiver : string; lk_CethAmount : Int
}.
Record MsgBurn := mkMsgBurn {
  bn_CosmosSender : string; bn_Amount : Int; bn_Symbol : string; bn_EthereumChainId : Z;
  bn_EthereumReceiver : string; bn_CethAmount : Int
}.
Record MsgCreateEthBridgeClaim := mkMsgCreateEthBridgeClaim { cc_EthBridgeClaim : EthBridgeClaim }.
Record MsgUpdateWhiteListValidator := mkMsgUpdateWhiteListValidator {
  uw_CosmosSender : string; uw_Validator : string; uw_OperationType : string
}.
Record MsgUpdateCethReceiverAccount := mkMsgUpdateCethReceiverAccount {
  uc_CosmosSender : string; uc_CethReceiverAccount : string
}.
Record MsgRescueCeth := mkMsgRescueCeth {
  rc_CosmosSender : string; rc_CosmosReceiver : string; rc_CethAmount : Int
}.
Record MsgSetBlacklist := mkMsgSetBlacklist { bl_From : string; bl_Addresses : list string }.
Record GenesisState := mkGenesisState { gs_CethReceiveAccount : string; gs_PeggyTokens : list string }.

(** The store: the pegged tokens (prefix 0), the receiver of ceth (prefix 1, unset reads as the
    empty text), the blacklist (prefix 2) and the pause flag (prefix 3). *)
Record EthBridgeStore := mkEthBridgeStore {
  eb_PeggyTokens : list string;
  eb_CethReceiverAccount : string;
  eb_Blacklist : gmap string string;
  eb_Pause : bool
}.
#[export] Instance EthBridgeStore_settable : Settable EthBridgeStore := λ s,
  mkEthBridgeStore s.(eb_PeggyTokens) s.(eb_CethReceiverAccount) s.(eb_Blacklist) s.(eb_Pause).

Definition ModuleName : string := "ethbridge".
Definition CethSymbol : string := "ceth".
Definition PeggedCoinPrefix : string := "c".
Definition EventTypeCreateClaim : string := "create_claim".
Definition EventTypeProphecyStatus : string := "prophecy_status".
Definition EventTypeBurn : string := "burn".
Definition EventTypeLock : string := "lock".

Definition ethbridge_error (n : Z) : error := mkErr "ethbridge" n.
Definition ErrInvalidEthNonce := ethbridge_error 1.
Definition ErrInvalidEthAddress := ethbridge_error 2.
Definition ErrJSONMarshalling := ethbridge_error 3.
Definition ErrInvalidEthSymbol := ethbridge_error 4.
Definition ErrInvalidClaimType := ethbridge_error 5.
Definition ErrInvalidEthereumChainID := ethbridge_error 6.
Definition ErrInvalidAmount := ethbridge_error 7.
Definition ErrInvalidSymbol := ethbridge_error 8.
Definition ErrInvalidBurnSymbol := ethbridge_error 9.
Definition ErrCethAmount := ethbridge_error 10.
Definition ErrNotEnoughPermissions := ethbridge_error 11.
Definition ErrPaused := ethbridge_error 12.

(** ** Library code *)

(** go-ethereum: is a text 40 hexadecimal digits, with or without 0x; the bytes of a text;
    the checksummed text of an address. *)
Class EthLib := {
  IsHexAddress : string → bool;
  HexToAddress : string → EthereumAddress;
  EthString : EthereumAddress → string
}.
(** The JSON of a claim, with the texts of sdk.AccAddress, sdk.Int and go-ethereum's addresses. *)
Class ClaimJson := {
  Marshal_OracleClaimContent : OracleClaimContent → res string;
  Unmarshal_OracleClaimContent : string → res OracleClaimContent
}.
Class ClaimJsonLaws `(ClaimJson) : Prop := {
  content_roundtrip c : c.(oc_CosmosReceiver) ≠ "" → utf8_valid c.(oc_Symbol) = true →
    Z.abs c.(oc_Amount) < 2 ^ 255 → String.length c.(oc_TokenContractAddress) = 20%nat →
    ∃ t, Marshal_OracleClaimContent c = Ok t ∧ Unmarshal_OracleClaimContent t = Ok c;
  content_text c t : Marshal_OracleClaimContent c = Ok t → utf8_valid t = true
}.
(** [GetAccount], [None] for nil: the sequence number is what the handlers read of it. *)
Class AccountKeeper (W : Type) := { GetAccount : W → AccAddress → option Z }.
(** What x/ethbridge asks of x/oracle. *)
Class OracleKeeper (W : Type) := {
  OracleProcessClaim : Claim → M W Status;
  OracleUpdateWhiteList : AccAddress → ValAddress → string → M W unit;
  OracleIsAdmin : AccAddress → M W bool
}.

(** ** Claims (types/claim.go, types/ethereum.go, types/msgs.go) *)
Section claims.
Context {coins : CoinLib} {vals : ValAddressLib} {eth : EthLib} {json : ClaimJson}
  {order : ClpKeeper.GoRange} {errs : SdkErrors}.

Definition NewEthereumAddress (address : string) : EthereumAddress := HexToAddress address.

Definition NewEthBridgeClaim (ethereumChainID : Z) (bridgeContract : EthereumAddress) (nonce : Z)
    (symbol : string) (tokenContact ethereumSender : EthereumAddress) (cosmosReceiver : AccAddress)
    (validator : ValAddress) (amount : Int) (claimType : ClaimType) : EthBridgeClaim :=
  mkEthBridgeClaim ethereumChainID (EthString bridgeContract) nonce symbol (EthString tokenContact)
    (EthString ethereumSender) (AccString cosmosReceiver) (ValString validator) amount claimType.

Definition NewOracleClaimContent (cosmosReceiver : AccAddress) (amount : Int) (symbol : string)
    (tokenContractAddress : EthereumAddress) (claimType : ClaimType) : OracleClaimContent :=
  mkOracleClaimContent cosmosReceiver amount symbol tokenContractAddress claimType.

(** Chain id, nonce and sender are written one after the other. *)
Definition oracle_id (ethClaim : EthBridgeClaim) : string :=
  pretty ethClaim.(ec_EthereumChainId) +:+ pretty ethClaim.(ec_Nonce)
    +:+ ethClaim.(ec_EthereumSender).

Definition CreateOracleClaimFromEthClaim (ethClaim : EthBridgeClaim) : res Claim :=
  let oracleID := oracle_id ethClaim in
  cosmosReceiver ← AccAddressFromBech32 ethClaim.(ec_CosmosReceiver);
  let claimContent := NewOracleClaimContent cosmosReceiver ethClaim.(ec_Amount)
    ethClaim.(ec_Symbol) (NewEthereumAddress ethClaim.(ec_TokenContractAddress))
    ethClaim.(ec_ClaimType) in
  claimString ← Marshal_OracleClaimContent claimContent;
  Ok (NewClaim oracleID ethClaim.(ec_ValidatorAddress) claimString).

Definition CreateOracleClaimFromOracleString (oracleClaimString : string) : res OracleClaimContent :=
  match Unmarshal_OracleClaimContent oracleClaimString with
  | Err _ => Err ErrJSONMarshalling
  | r => r
  end.

Definition CreateEthClaimFromOracleString (ethereumChainID : Z) (bridgeContract : EthereumAddress)
    (nonce : Z) (ethereumAddress : EthereumAddress) (validator : ValAddress)
    (oracleClaimString : string) : res EthBridgeClaim :=
  oracleClaim ← CreateOracleClaimFromOracleString oracleClaimString;
  Ok (NewEthBridgeClaim ethereumChainID bridgeContract nonce oracleClaim.(oc_Symbol)
        oracleClaim.(oc_TokenContractAddress) ethereumAddress oracleClaim.(oc_CosmosReceiver)
        validator oracleClaim.(oc_Amount) oracleClaim.(oc_ClaimType)).

Definition MapOracleClaimsToEthBridgeClaims (ethereumChainID : Z) (bridgeContract : EthereumAddress)
    (nonce : Z) (symbol : string) (tokenContract ethereumSender : EthereumAddress)
    (oracleValidatorClaims : gmap string string)
    (f : Z → EthereumAddress → Z → EthereumAddress → ValAddress → string → res EthBridgeClaim)
    : res (list EthBridgeClaim) :=
  foldR (λ mappedClaims entry,
    validatorAddress ← (match ValAddressFromBech32 (entry : string * string).1 with
                        | Err _ => Err ErrInvalidAddress | r => r end);
    mappedClaim ← f ethereumChainID bridgeContract nonce ethereumSender validatorAddress entry.2;
    Ok (mappedClaims ++ [mappedClaim])) []
    (ClpKeeper.go_range "MapOracleClaimsToEthBridgeClaims" (map_to_list oracleValidatorClaims)).
End claims.

(** ** Messages (types/msgs.go); the claim of MsgCreateEthBridgeClaim is taken to be set *)
Definition burnGasCost : Z := 60000000000 * 393000.
Definition lockGasCost : Z := 60000000000 * 393000.

(** [strings.ToLower(s) == "eth"]: no other letters than these have e, t and h as lower case. *)
Definition is_eth (symbol : string) : bool := String.eqb (ToLower symbol) "eth".

Inductive BridgeMsg :=
| AMsgCreateEthBridgeClaim (m : MsgCreateEthBridgeClaim)
| AMsgBurn (m : MsgBurn)
| AMsgLock (m : MsgLock)
| AMsgUpdateWhiteListValidator (m : MsgUpdateWhiteListValidator)
| AMsgUpdateCethReceiverAccount (m : MsgUpdateCethReceiverAccount)
| AMsgRescueCeth (m : MsgRescueCeth)
| AMsgSetBlacklist (m : MsgSetBlacklist)
| AMsgPause (m : MsgPause).

Section messages.
Context {coins : CoinLib} {vals : ValAddressLib} {eth : EthLib} {errs : SdkErrors}.

Definition MsgPause_ValidateBasic (msg : MsgPause) : res unit :=
  if String.eqb msg.(pa_Signer) "" then Err ErrInvalidAddress else Ok tt.

Definition MsgLock_ValidateBasic (msg : MsgLock) : res unit :=
  if String.eqb (pretty msg.(lk_EthereumChainId)) "" then Err ErrInvalidEthereumChainID
  else if String.eqb msg.(lk_CosmosSender) "" then Err ErrInvalidAddress
  else if String.eqb msg.(lk_EthereumReceiver) "" then Err ErrInvalidEthAddress
  else if negb (IsHexAddress msg.(lk_EthereumReceiver)) then Err ErrInvalidEthAddress
  else if msg.(lk_Amount) <=? 0 then Err ErrInvalidAmount
  else if msg.(lk_CethAmount) <? lockGasCost then Err ErrCethAmount
  else if String.eqb msg.(lk_Symbol) "" then Err ErrInvalidSymbol
  else Ok tt.

Definition MsgBurn_ValidateBasic (msg : MsgBurn) : res unit :=
  if msg.(bn_EthereumChainId) =? 0 then Err ErrInvalidEthereumChainID
  else if String.eqb msg.(bn_CosmosSender) "" then Err ErrInvalidAddress
  else if String.eqb msg.(bn_EthereumReceiver) "" then Err ErrInvalidEthAddress
  else if negb (IsHexAddress msg.(bn_EthereumReceiver)) then Err ErrInvalidEthAddress
  else if msg.(bn_Amount) <=? 0 then Err ErrInvalidAmount
  else
    let prefixLength := String.length PeggedCoinPrefix in
    if (String.length msg.(bn_Symbol) <=? prefixLength + 1)%nat then Err ErrInvalidBurnSymbol
    else
      let symbolPrefix := String.substring 0 prefixLength msg.(bn_Symbol) in
      if negb (String.eqb symbolPrefix PeggedCoinPrefix) then Err ErrInvalidBurnSymbol
      else if msg.(bn_CethAmount) <? burnGasCost then Err ErrCethAmount
      else if (String.length msg.(bn_Symbol) - prefixLength =? 0)%nat then Err ErrInvalidBurnSymbol
      else Ok tt.

Definition MsgCreateEthBridgeClaim_ValidateBasic (msg : MsgCreateEthBridgeClaim) : res unit :=
  let claim := msg.(cc_EthBridgeClaim) in
  if String.eqb claim.(ec_CosmosReceiver) "" then Err ErrInvalidAddress
  else if String.eqb claim.(ec_ValidatorAddress) "" then Err ErrInvalidAddress
  else if claim.(ec_Nonce) <? 0 then Err ErrInvalidEthNonce
  else if negb (IsHexAddress claim.(ec_EthereumSender)) then Err ErrInvalidEthAddress
  else if negb (IsHexAddress claim.(ec_BridgeContractAddress)) then Err ErrInvalidEthAddress
  else if negb (IsHexAddress claim.(ec_TokenContractAddress)) then Err ErrInvalidEthAddress
  else if is_eth claim.(ec_Symbol)
          && negb (String.eqb (NewEthereumAddress claim.(ec_TokenContractAddress))
                     (NewEthereumAddress "0x0000000000000000000000000000000000000000"))
  then Err ErrInvalidEthSymbol
  else Ok tt.

Definition MsgUpdateCethReceiverAccount_ValidateBasic (msg : MsgUpdateCethReceiverAccount) : res unit :=
  if String.eqb msg.(uc_CosmosSender) "" then Err ErrInvalidAddress
  else if String.eqb msg.(uc_CethReceiverAccount) "" then Err ErrInvalidAddress
  else Ok tt.

Definition MsgRescueCeth_ValidateBasic (msg : MsgRescueCeth) : res unit :=
  if String.eqb msg.(rc_CosmosSender) "" then Err ErrInvalidAddress
  else if String.eqb msg.(rc_CosmosReceiver) "" then Err ErrInvalidAddress
  else Ok tt.

Definition MsgUpdateWhiteListValidator_ValidateBasic (msg : MsgUpdateWhiteListValidator) : res unit :=
  if String.eqb msg.(uw_CosmosSender) "" then Err ErrInvalidAddress
  else if String.eqb msg.(uw_Validator) "" then Err ErrInvalidAddress
  else Ok tt.

Definition MsgSetBlacklist_ValidateBasic (msg : MsgSetBlacklist) : res unit := Ok tt.

Definition ValidateBasic (m : BridgeMsg) : res unit :=
  match m with
  | AMsgCreateEthBridgeClaim m => MsgCreateEthBridgeClaim_ValidateBasic m
  | AMsgBurn m => MsgBurn_ValidateBasic m
  | AMsgLock m => MsgLock_ValidateBasic m
  | AMsgUpdateWhiteListValidator m => MsgUpdateWhiteListValidator_ValidateBasic m
  | AMsgUpdateCethReceiverAccount m => MsgUpdateCethReceiverAccount_ValidateBasic m
  | AMsgRescueCeth m => MsgRescueCeth_ValidateBasic m
  | AMsgSetBlacklist m => MsgSetBlacklist_ValidateBasic m
  | AMsgPause m => MsgPause_ValidateBasic m
  end.

(** [GetSigners]: the validator signs a claim, a text that does not decode panics. *)
Definition must_address (s : string) : res AccAddress :=
  match AccAddressFromBech32 s with Ok a => Ok a | _ => Panic end.
Definition GetSigners (m : BridgeMsg) : res (list AccAddress) :=
  match m with
  | AMsgCreateEthBridgeClaim m =>
      match ValAddressFromBech32 m.(cc_EthBridgeClaim).(ec_ValidatorAddress) with
      | Ok a => Ok [a] | _ => Panic end
  | AMsgBurn m => a ← must_address m.(bn_CosmosSender); Ok [a]
  | AMsgLock m => a ← must_address m.(lk_CosmosSender); Ok [a]
  | AMsgUpdateWhiteListValidator m => a ← must_address m.(uw_CosmosSender); Ok [a]
  | AMsgUpdateCethReceiverAccount m => a ← must_address m.(uc_CosmosSender); Ok [a]
  | AMsgRescueCeth m => a ← must_address m.(rc_CosmosSender); Ok [a]
  | AMsgSetBlacklist m => a ← must_address m.(bl_From); Ok [a]
  | AMsgPause m => a ← must_address m.(pa_Signer); Ok [a]
  end.
End messages.

(** ** The keeper *)
Section keeper.
Context {W : Type} {sdk : Sdk} {coins : CoinLib} {vals : ValAddressLib} {eth : EthLib}
  {json : ClaimJson} {errs : SdkErrors} {bank : BankKeeper W} {accounts : AccountKeeper W}
  {admin : AdminKeeper W} {oracle : OracleKeeper W} {bridge : HasStore EthBridgeStore W}
  {events : HasStore EventLog W}.
Notation M := (M W).

Definition get_bridge : M EthBridgeStore := get_store.
Definition upd_bridge (f : EthBridgeStore → EthBridgeStore) : M unit := upd_store f.

(** pauser.go, peggyTokens.go *)
Definition SetPause (isPaused : bool) : M unit := upd_bridge (λ s, s <| eb_Pause := isPaused |>).
Definition IsPaused : M bool := s ← get_bridge; mret s.(eb_Pause).

Definition GetPeggyToken : M (list string) := s ← get_bridge; mret s.(eb_PeggyTokens).
Definition ExistsPeggyToken (token : string) : M bool :=
  tokens ← GetPeggyToken; mret (existsb (λ value, String.eqb value token) tokens).
Definition AddPeggyToken (token : string) : M unit :=
  found ← ExistsPeggyToken token;
  if (found : bool) then mret tt
  else tokens ← GetPeggyToken; upd_bridge (λ s, s <| eb_PeggyTokens := tokens ++ [token] |>).

(** cethReceiverAccount.go; the empty address stands for nil *)
Definition SetCethReceiverAccount (cethReceiverAccount : AccAddress) : M unit :=
  upd_bridge (λ s, s <| eb_CethReceiverAccount := AccString cethReceiverAccount |>).
Definition GetCethReceiverAccount : M AccAddress :=
  s ← get_bridge;
  if String.eqb s.(eb_CethReceiverAccount) "" then mret ""
  else match AccAddressFromBech32 s.(eb_CethReceiverAccount) with
       | Ok accAddress => mret accAddress
       | Err _ => mret ""
       | Panic => panic
       end.
Definition IsCethReceiverAccount (cethReceiverAccount : AccAddress) : M bool :=
  account ← GetCethReceiverAccount; mret (String.eqb account cethReceiverAccount).
Definition IsCethReceiverAccountSet : M bool :=
  account ← GetCethReceiverAccount; mret (negb (String.eqb account "")).

(** blacklist.go; keys of one byte, the empty address, are never removed *)
Definition IsBlacklisted (address : string) : M bool :=
  s ← get_bridge; mret (bool_decide (is_Some (s.(eb_Blacklist) !! address))).
Definition GetBlacklist : M (list string) := s ← get_bridge; mret (kv_iter s.(eb_Blacklist)).*1.
Definition SetBlacklist (msg : MsgSetBlacklist) : M unit :=
  from ← lift (AccAddressFromBech32 msg.(bl_From));
  isAdmin ← gets (λ w, Keepers.IsAdminAccount w AdminType_ETHBRIDGE from);
  _ ← throw_if (negb isAdmin) ErrNotAdminAccount;
  s ← get_bridge;
  let removals := filter (λ address,
    (0 < String.length address)%nat ∧ address ∉ msg.(bl_Addresses)) (kv_iter s.(eb_Blacklist)).*1 in
  _ ← forM (λ address, upd_bridge (λ s, s <| eb_Blacklist ::= delete address |>)) removals;
  forM (λ address, upd_bridge (λ s, s <| eb_Blacklist ::= <[address := address]> |>))
    msg.(bl_Addresses).

(** keeper.go *)
Definition ProcessClaim (claim : EthBridgeClaim) : M Status :=
  oracleClaim ← lift (CreateOracleClaimFromEthClaim claim);
  OracleProcessClaim oracleClaim.

Definition one_coin (denom : string) (amount : Int) : M Coins :=
  coin ← lift (NewCoin denom amount); lift (NewCoins [coin]).

Definition ProcessSuccessfulClaim (claim : string) : M unit :=
  oracleClaim ← lift (CreateOracleClaimFromOracleString claim);
  let receiverAddress := oracleClaim.(oc_CosmosReceiver) in
  coins ←
    (match oracleClaim.(oc_ClaimType) with
     | CLAIM_TYPE_LOCK =>
         let symbol := PeggedCoinPrefix +:+ oracleClaim.(oc_Symbol) in
         _ ← AddPeggyToken symbol;
         coins ← one_coin symbol oracleClaim.(oc_Amount);
         _ ← MintCoins ModuleName coins; mret coins
     | CLAIM_TYPE_BURN =>
         coins ← one_coin oracleClaim.(oc_Symbol) oracleClaim.(oc_Amount);
         _ ← MintCoins ModuleName coins; mret coins
     | CLAIM_TYPE_UNSPECIFIED => throw ErrInvalidClaimType
     end);
  on_err (SendCoinsFromModuleToAccount ModuleName receiverAddress coins) (λ _, panic).

Definition ProcessBurn (cosmosSender : AccAddress) (msg : MsgBurn) : M unit :=
  blacklisted ← IsBlacklisted msg.(bn_EthereumReceiver);
  _ ← throw_if blacklisted ErrInvalidEthAddress;
  isSet ← IsCethReceiverAccountSet;
  coins ←
    (if (isSet : bool) then
       coins ← one_coin CethSymbol msg.(bn_CethAmount);
       receiver ← GetCethReceiverAccount;
       _ ← SendCoins cosmosSender receiver coins;
       one_coin msg.(bn_Symbol) msg.(bn_Amount)
     else if String.eqb msg.(bn_Symbol) CethSymbol then
       total ← lift (IntAdd msg.(bn_CethAmount) msg.(bn_Amount));
       one_coin CethSymbol total
     else
       coin ← lift (NewCoin msg.(bn_Symbol) msg.(bn_Amount));
       ceth ← lift (NewCoin CethSymbol msg.(bn_CethAmount));
       lift (NewCoins [coin; ceth]));
  _ ← SendCoinsFromAccountToModule cosmosSender ModuleName coins;
  coins ← one_coin msg.(bn_Symbol) msg.(bn_Amount);
  BurnCoins ModuleName coins.

Definition ProcessLock (cosmosSender : AccAddress) (msg : MsgLock) : M unit :=
  blacklisted ← IsBlacklisted msg.(lk_EthereumReceiver);
  _ ← throw_if blacklisted ErrInvalidEthAddress;
  isSet ← IsCethReceiverAccountSet;
  coins ←
    (if (isSet : bool) then
       coins ← one_coin CethSymbol msg.(lk_CethAmount);
       receiver ← GetCethReceiverAccount;
       _ ← SendCoins cosmosSender receiver coins;
       one_coin msg.(lk_Symbol) msg.(lk_Amount)
     else
       coin ← lift (NewCoin msg.(lk_Symbol) msg.(lk_Amount));
       ceth ← lift (NewCoin CethSymbol msg.(lk_CethAmount));
       lift (NewCoins [coin; ceth]));
  _ ← SendCoinsFromAccountToModule cosmosSender ModuleName coins;
  coins ← one_coin msg.(lk_Symbol) msg.(lk_Amount);
  BurnCoins ModuleName coins.

Definition ProcessUpdateWhiteListValidator (cosmosSender : AccAddress) (validator : ValAddress)
    (operationtype : string) : M unit :=
  OracleUpdateWhiteList cosmosSender validator operationtype.

Definition ProcessUpdateCethReceiverAccount (cosmosSender cethReceiverAccount : AccAddress) : M unit :=
  isAdmin ← OracleIsAdmin cosmosSender;
  _ ← throw_if (negb isAdmin) ErrAnonymous;
  SetCethReceiverAccount cethReceiverAccount.

Definition ProcessRescueCeth (msg : MsgRescueCeth) : M unit :=
  cosmosSender ← lift (AccAddressFromBech32 msg.(rc_CosmosSender));
  cosmosReceiver ← lift (AccAddressFromBech32 msg.(rc_CosmosReceiver));
  isAdmin ← OracleIsAdmin cosmosSender;
  _ ← throw_if (negb isAdmin) ErrAnonymous;
  coins ← one_coin CethSymbol msg.(rc_CethAmount);
  SendCoinsFromModuleToAccount ModuleName cosmosReceiver coins.

(** ** The message server (msg_server.go) *)
Definition SetPause_handler (msg : MsgPause) : M unit :=
  signer ← lift (AccAddressFromBech32 msg.(pa_Signer));
  isAdmin ← gets (λ w, Keepers.IsAdminAccount w AdminType_ETHBRIDGE signer);
  _ ← throw_if (negb isAdmin) ErrNotEnoughPermissions;
  SetPause msg.(pa_IsPaused).

(** The account of a sender must exist. *)
Definition existing_account (cosmosSender : AccAddress) (e : error) : M unit :=
  account ← gets (λ w, GetAccount w cosmosSender);
  match account with Some _ => mret tt | None => throw e end.

Definition Lock (msg : MsgLock) : M unit :=
  paused ← IsPaused;
  _ ← throw_if paused ErrPaused;
  pegged ← ExistsPeggyToken msg.(lk_Symbol);
  _ ← throw_if pegged ErrAnonymous;
  cosmosSender ← lift (AccAddressFromBech32 msg.(lk_CosmosSender));
  _ ← existing_account cosmosSender ErrInvalidAddress;
  _ ← ProcessLock cosmosSender msg;
  EmitEvents [EventTypeMessage; EventTypeLock].

Definition Burn (msg : MsgBurn) : M unit :=
  paused ← IsPaused;
  _ ← throw_if paused ErrPaused;
  pegged ← ExistsPeggyToken msg.(bn_Symbol);
  _ ← throw_if (negb pegged) ErrAnonymous;
  cosmosSender ← lift (AccAddressFromBech32 msg.(bn_CosmosSender));
  _ ← existing_account cosmosSender ErrInvalidAddress;
  _ ← ProcessBurn cosmosSender msg;
  EmitEvents [EventTypeMessage; EventTypeBurn].

Definition CreateEthBridgeClaim (msg : MsgCreateEthBridgeClaim) : M unit :=
  status ← ProcessClaim msg.(cc_EthBridgeClaim);
  _ ← (if bool_decide (status.(Text) = STATUS_TEXT_SUCCESS)
       then ProcessSuccessfulClaim status.(FinalClaim) else mret tt);
  EmitEvents [EventTypeMessage; EventTypeCreateClaim; EventTypeProphecyStatus].

Definition UpdateWhiteListValidator (msg : MsgUpdateWhiteListValidator) : M unit :=
  cosmosSender ← lift (AccAddressFromBech32 msg.(uw_CosmosSender));
  _ ← existing_account cosmosSender ErrUnknownAddress;
  valAddr ← wrap_err ErrInvalidAddress (lift (ValAddressFromBech32 msg.(uw_Validator)));
  _ ← ProcessUpdateWhiteListValidator cosmosSender valAddr msg.(uw_OperationType);
  EmitEvents [EventTypeMessage; EventTypeLock].

Definition UpdateCethReceiverAccount (msg : MsgUpdateCethReceiverAccount) : M unit :=
  cosmosSender ← lift (AccAddressFromBech32 msg.(uc_CosmosSender));
  cethReceiverAddress ← lift (AccAddressFromBech32 msg.(uc_CethReceiverAccount));
  _ ← existing_account cosmosSender ErrInvalidAddress;
  _ ← ProcessUpdateCethReceiverAccount cosmosSender cethReceiverAddress;
  EmitEvents [EventTypeMessage; EventTypeLock].

Definition RescueCeth (msg : MsgRescueCeth) : M unit :=
  cosmosSender ← lift (AccAddressFromBech32 msg.(rc_CosmosSender));
  _ ← existing_account cosmosSender ErrInvalidAddress;
  ProcessRescueCeth msg.

(** handler.go *)
Definition NewHandler (m : BridgeMsg) : M unit :=
  match m with
  | AMsgCreateEthBridgeClaim m => CreateEthBridgeClaim m
  | AMsgBurn m => Burn m
  | AMsgLock m => Lock m
  | AMsgUpdateWhiteListValidator m => UpdateWhiteListValidator m
  | AMsgUpdateCethReceiverAccount m => UpdateCethReceiverAccount m
  | AMsgRescueCeth m => RescueCeth m
  | AMsgSetBlacklist m => SetBlacklist m
  | AMsgPause m => SetPause_handler m
  end.

(** genesis.go *)
Definition DefaultGenesis : GenesisState := mkGenesisState "" [].
Definition InitGenesis (data : GenesisState) : M unit :=
  _ ← (if String.eqb data.(gs_CethReceiveAccount) "" then mret tt
       else match AccAddressFromBech32 data.(gs_CethReceiveAccount) with
            | Ok receiveAccount => SetCethReceiverAccount receiveAccount
            | _ => panic
            end);
  forM AddPeggyToken data.(gs_PeggyTokens).
Definition ExportGenesis : M GenesisState :=
  peggyTokens ← GetPeggyToken;
  receiveAccount ← GetCethReceiverAccount;
  mret (mkGenesisState (AccString receiveAccount) peggyTokens).
End keeper.

(** x/oracle as x/ethbridge uses it. *)
#[export] Instance oracle_keeper {W} `{ValAddressLib} `{ProphecyJson} `{ClpKeeper.GoRange}
    `{StakingKeeper W} `{OracleConfig} `{HasStore OracleStore W} : OracleKeeper W := {
  OracleProcessClaim := Oracle.ProcessClaim;
  OracleUpdateWhiteList := Oracle.ProcessUpdateWhiteListValidator;
  OracleIsAdmin := Oracle.IsAdminAccount
}.

(** What the proofs about the bridge share about the world: the bank's laws, and that the stores
    of the two modules and the events are apart from each other and from the balances. *)
Class EthBridgeWorld (W : Type) `{coins : CoinLib} `{bank : BankKeeper W}
    `{orc : HasStore OracleStore W} `{bridge : HasStore EthBridgeStore W}
    `{events : HasStore EventLog W} : Prop := {
  bw_coins :: CoinLaws coins;
  bw_bank :: BankLaws W coins bank;
  bw_oracle :: StoreLaws OracleStore W orc;
  bw_bridge :: StoreLaws EthBridgeStore W bridge;
  bw_oracle_bridge :: StoreIndep OracleStore EthBridgeStore W orc bridge;
  bw_oracle_events :: StoreIndep OracleStore EventLog W orc events;
  bw_bridge_oracle :: StoreIndep EthBridgeStore OracleStore W bridge orc;
  bw_bridge_events :: StoreIndep EthBridgeStore EventLog W bridge events;
  bw_bank_oracle :: BankFrame OracleStore W orc bank;
  bw_bank_bridge :: BankFrame EthBridgeStore W bridge bank;
  bw_bank_events :: BankFrame EventLog W events bank
}.
