(* ===== verification/EthBridgeQuery.v ===== *)
(** * EthBridgeQuery: the queries of x/ethbridge

    x/ethbridge/keeper/{grpc_query,querier}.go and types/querier.go: a prophecy with the claims made
    for it, the blacklist and the pause. *)

From S2P Require Import Prelude Sdk Rat Bank Keepers Oracle EthBridge.
Local Open Scope Z_scope.

Record QueryEthProphecyRequest := mkQueryEthProphecyRequest {
  eq_EthereumChainId : Z; eq_BridgeContractAddress : string; eq_Nonce : Z; eq_Symbol : string;
  eq_TokenContractAddress : string; eq_EthereumSender : string
}.
Record QueryEthProphecyResponse := mkQueryEthProphecyResponse {
  es_Id : string; es_Status : Status; es_Claims : list EthBridgeClaim
}.
Record QueryBlacklistResponse := mkQueryBlacklistResponse { qb_Addresses : list string }.
Record QueryPauseResponse := mkQueryPauseResponse { qp_IsPaused : bool }.

(** What the amino codec of JSON reads and writes. *)
Inductive BridgeAnswer :=
| BProphecy (r : QueryEthProphecyResponse) | BBlacklist (r : QueryBlacklistResponse)
| BPause (r : QueryPauseResponse).
Class BridgeJson := {
  Unmarshal_QueryEthProphecyRequest : string → res QueryEthProphecyRequest;
  Unmarshal_QueryBlacklistRequest : string → res unit;
  Unmarshal_QueryPauseRequest : string → res unit;
  MarshalIndent_Answer : BridgeAnswer → res string
}.

Definition QueryEthProphecy : string := "prophecies".
Definition QueryBlacklist : string := "blacklist".
Definition QueryPause : string := "pause".

Section query.
Context {W : Type} {sdk : Sdk} {coins : CoinLib} {vals : ValAddressLib} {eth : EthLib} {json : ClaimJson}
  {pjson : ProphecyJson} {order : ClpKeeper.GoRange} {errs : SdkErrors} {orc : HasStore OracleStore W}
  {bridge : HasStore EthBridgeStore W} {bjson : BridgeJson}.
Notation M := (M W).

Definition NewQueryEthProphecyRequest (ethereumChainID : Z) (bridgeContractAddress : EthereumAddress) (nonce : Z)
    (symbol : string) (tokenContractAddress ethereumSender : EthereumAddress) : QueryEthProphecyRequest :=
  mkQueryEthProphecyRequest ethereumChainID (EthString bridgeContractAddress) nonce symbol
    (EthString tokenContractAddress) (EthString ethereumSender).
Definition NewQueryEthProphecyResponse (id : string) (status : Status) (claims : list EthBridgeClaim)
    : QueryEthProphecyResponse := mkQueryEthProphecyResponse id status claims.

Definition GetPauseStatus : M QueryPauseResponse := isPaused ← IsPaused; mret (mkQueryPauseResponse isPaused).
Definition GetBlacklist_query : M QueryBlacklistResponse :=
  addresses ← GetBlacklist; mret (mkQueryBlacklistResponse addresses).
Definition EthProphecy (req : QueryEthProphecyRequest) : M QueryEthProphecyResponse :=
  let id := pretty req.(eq_EthereumChainId) +:+ pretty req.(eq_Nonce) +:+ req.(eq_EthereumSender) in
  found ← GetProphecy id;
  match found with
  | None => throw ErrProphecyNotFound
  | Some prophecy =>
      bridgeClaims ← lift (MapOracleClaimsToEthBridgeClaims req.(eq_EthereumChainId)
        (NewEthereumAddress req.(eq_BridgeContractAddress)) req.(eq_Nonce) req.(eq_Symbol)
        (NewEthereumAddress req.(eq_TokenContractAddress)) (NewEthereumAddress req.(eq_EthereumSender))
        (default ∅ prophecy.(ValidatorClaims)) CreateEthClaimFromOracleString);
      mret (NewQueryEthProphecyResponse prophecy.(ID) prophecy.(p_Status) bridgeClaims)
  end.

(** querier.go *)
Definition unmarshal_request {A} (r : res A) : M A := wrap_err ErrJSONMarshalling (lift r).
Definition legacyQueryEthProphecy (data : string) : M string :=
  req ← unmarshal_request (Unmarshal_QueryEthProphecyRequest data);
  response ← EthProphecy req; lift (MarshalIndent_Answer (BProphecy response)).
Definition legacyQueryBlacklist (data : string) : M string :=
  _ ← unmarshal_request (Unmarshal_QueryBlacklistRequest data);
  response ← GetBlacklist_query; lift (MarshalIndent_Answer (BBlacklist response)).
Definition legacyQueryPause (data : string) : M string :=
  _ ← unmarshal_request (Unmarshal_QueryPauseRequest data);
  response ← GetPauseStatus; lift (MarshalIndent_Answer (BPause response)).
Definition NewLegacyQuerier (path : list string) (data : string) : M string :=
  match path with
  | [] => panic
  | p :: _ =>
      if String.eqb p QueryEthProphecy then legacyQueryEthProphecy data
      else if String.eqb p QueryBlacklist then legacyQueryBlacklist data
      else if String.eqb p QueryPause then legacyQueryPause data
      else throw ErrUnknownRequest
  end.
End query.
