(* ===== verification/Disp.v ===== *)
(** * Disp: x/dispensation

    x/dispensation/types/{keys,records,msgs,errors,events,genesis}.go, x/dispensation/utils, the
    keeper (x/dispensation/keeper), its message server and queries, and
    x/dispensation/{abci,handler,genesis}.go: coins collected from a distributor are owed to the
    recipients of records and paid when the authorised runner asks for it; every block mints for
    the ecosystem pool until a fixed total. *)

From Stdlib Require Import DecimalString.
From S2P Require Import Prelude Sdk Bank Keepers ClpTypes.
Local Open Scope Z_scope.

(** ** Library code *)

(** [sdk.Coins] as a whole: [a.Add(b...)], [IsValid], [IsAllPositive], [Sort]; [Coin.IsLT];
    gogoproto's time stamps and an error of x/bank. *)
Class CoinsLib := {
  Coins_Plus : Coins → Coins → res Coins;
  Coins_IsValid : Coins → bool;
  Coins_IsAllPositive : Coins → bool;
  Coins_Sort : Coins → Coins;
  Coin_IsLT : Coin → Coin → res bool;
  TimestampProto : string → res string;
  ErrNoOutputs : error
}.
Class CoinsLaws `(Sdk) `(CoinLib) `(CoinsLib) : Prop := {
  coins_plus_amount a b c d : Coins_Plus a b = Ok c → AmountOf c d = AmountOf a d + AmountOf b d;
  coins_plus_valid a b c : Coins_IsValid a = true → Coins_IsValid b = true →
    Coins_Plus a b = Ok c → Coins_IsValid c = true;
  coins_plus_not_err a b e : Coins_Plus a b ≠ Err e;
  coins_valid cs : Coins_IsValid cs = true →
    NoDup (Denom <$> cs) ∧ Forall (λ c, ValidateDenom c.(Denom) = true ∧ 0 < c.(Amount)) cs;
  coins_valid_one c : ValidateDenom c.(Denom) = true → 0 < c.(Amount) → Coins_IsValid [c] = true;
  coins_all_positive cs : Coins_IsAllPositive cs = true ↔
    cs ≠ [] ∧ Forall (λ c, 0 < c.(Amount)) cs;
  coins_sort cs : Coins_Sort cs ≡ₚ cs;
  new_coins_one c : ValidateDenom c.(Denom) = true → 0 < c.(Amount) → NewCoins [c] = Ok [c];
  coin_add_total a b : a.(Denom) = b.(Denom) → Z.abs (a.(Amount) + b.(Amount)) < 2 ^ 255 →
    Coin_Add a b = Ok (mkCoin a.(Denom) (a.(Amount) + b.(Amount)));
  (* an integer is read from its decimal numeral *)
  int_literal z : 0 <= z < 2 ^ 255 →
    NewIntFromString (NilZero.string_of_int (Z.to_int z)) = Some z;
  coin_is_lt a b : Coin_IsLT a b =
    if String.eqb a.(Denom) b.(Denom) then Ok (a.(Amount) <? b.(Amount)) else Panic
}.

(** ** Data (types.proto, tx.proto) *)
Inductive DistributionType := DISTRIBUTION_TYPE_UNSPECIFIED | DISTRIBUTION_TYPE_AIRDROP
  | DISTRIBUTION_TYPE_VALIDATOR_SUBSIDY | DISTRIBUTION_TYPE_LIQUIDITY_MINING.
#[export] Instance DistributionType_eq_dec : EqDecision DistributionType.
Proof. solve_decision. Defined.
Inductive DistributionStatus := DISTRIBUTION_STATUS_UNSPECIFIED | DISTRIBUTION_STATUS_PENDING
  | DISTRIBUTION_STATUS_COMPLETED | DISTRIBUTION_STATUS_FAILED.
#[export] Instance DistributionStatus_eq_dec : EqDecision DistributionStatus.
Proof. solve_decision. Defined.

Record DistributionRecord := mkDistributionRecord {
  dr_Status : DistributionStatus;
  dr_Type : DistributionType;
  dr_Name : string;
  dr_RecipientAddress : string;
  dr_Coins : Coins;
  dr_StartHeight : Z;
  dr_CompletedHeight : Z;
  dr_AuthorizedRunner : string
}.
#[export] Instance DistributionRecord_settable : Settable DistributionRecord := λ r,
  mkDistributionRecord r.(dr_Status) r.(dr_Type) r.(dr_Name) r.(dr_RecipientAddress) r.(dr_Coins)
    r.(dr_StartHeight) r.(dr_CompletedHeight) r.(dr_AuthorizedRunner).
#[export] Instance DistributionRecord_eq_dec : EqDecision DistributionRecord.
Proof. solve_decision. Defined.
Record Distribution := mkDistribution {
  d_Type : DistributionType; d_Name : string; d_Runner : string
}.
Record UserClaim := mkUserClaim {
  uc_UserAddress : string; uc_Type : DistributionType; uc_Time : string
}.
Record MintController := mkMintController { TotalCounter : Coin }.
(** x/bank's [Output]. *)
Record Output := mkOutput { out_Address : string; out_Coins : Coins }.
Record MsgCreateDistribution := mkMsgCreateDistribution {
  cd_Distributor : string; cd_AuthorizedRunner : string; cd_Type : DistributionType;
  cd_Output : list Output
}.
Record MsgCreateUserClaim := mkMsgCreateUserClaim {
  cu_UserClaimAddress : string; cu_Type : DistributionType
}.
Record MsgRunDistribution := mkMsgRunDistribution {
  rd_AuthorizedRunner : string; rd_Name : string; rd_Type : DistributionType; rd_Count : Z
}.
(** The members of the genesis state are pointers that may be nil. *)
Record GenesisState := mkGenesisState {
  gs_DistributionRecords : option (list DistributionRecord);
  gs_Distributions : option (list Distribution);
  gs_Claims : option (list UserClaim)
}.

(** types/errors.go *)
Definition dispensation_error (n : Z) : error := mkErr "dispensation" n.
Definition ErrInvalid := dispensation_error 1.
Definition ErrFailedInputs := dispensation_error 4.
Definition ErrFailedOutputs := dispensation_error 5.
Definition ErrDistribution := dispensation_error 6.
Definition ErrNotFoundMintController := dispensation_error 7.

(** types/keys.go, types/events.go *)
Definition ModuleName : string := "dispensation".
Definition MaxMintAmount : string := "350000000000000000000000000".
Definition MintAmountPerBlock : string := "225000000000000000000".
Definition EcoPool : string := "black1ct2s3t8u2kffjpaekhtngzv6yc4vm97xajqyl3".
Definition MaxRecordsPerBlock : Z := 20.
Definition EventTypeDistributionStarted : string := "distribution_started".
Definition EventTypeDistributionRun : string := "distribution_run".
Definition EventTypeDistributionRecordsList : string := "distribution_record_".
Definition EventTypeClaimCreated : string := "userClaim_new".

(** ** Keys

    A key is the byte of its prefix and a text.  The prefixes of the records, 0x00, 0x11 and
    0x12, and those of the distributions, claims and the mint controller, 0x01, 0x02 and 0x03,
    are pairwise different: each part of the store is a map of its own. *)
Inductive RecordPrefix := RecordPrefixPending | RecordPrefixCompleted | RecordPrefixFailed.
#[export] Instance RecordPrefix_eq_dec : EqDecision RecordPrefix.
Proof. solve_decision. Defined.

Definition type_number (t : DistributionType) : Z :=
  match t with
  | DISTRIBUTION_TYPE_UNSPECIFIED => 0
  | DISTRIBUTION_TYPE_AIRDROP => 1
  | DISTRIBUTION_TYPE_VALIDATOR_SUBSIDY => 2
  | DISTRIBUTION_TYPE_LIQUIDITY_MINING => 3
  end.
Definition GetDistributionRecordKey (status : DistributionStatus) (name recipient : string)
    (distributionType : DistributionType) : RecordPrefix * string :=
  let key := name +:+ "_" +:+ pretty (type_number distributionType) +:+ "_" +:+ recipient in
  match status with
  | DISTRIBUTION_STATUS_PENDING => (RecordPrefixPending, key)
  | DISTRIBUTION_STATUS_COMPLETED => (RecordPrefixCompleted, key)
  | DISTRIBUTION_STATUS_FAILED => (RecordPrefixFailed, key)
  | _ => (RecordPrefixCompleted, key)
  end.
Definition GetDistributionsKey (name : string) (distributionType : DistributionType)
    (authorizedRunner : string) : string :=
  name +:+ "_" +:+ pretty (type_number distributionType) +:+ "_" +:+ authorizedRunner.
Definition GetUserClaimKey (userAddress : string) (userClaimType : DistributionType) : string :=
  userAddress +:+ "_" +:+ pretty (type_number userClaimType).

Record DispStore := mkDispStore {
  ds_Pending : gmap string DistributionRecord;
  ds_Completed : gmap string DistributionRecord;
  ds_Failed : gmap string DistributionRecord;
  ds_Distributions : gmap string Distribution;
  ds_Claims : gmap string UserClaim;
  ds_MintController : option MintController
}.
#[export] Instance DispStore_settable : Settable DispStore := λ s,
  mkDispStore s.(ds_Pending) s.(ds_Completed) s.(ds_Failed) s.(ds_Distributions) s.(ds_Claims)
    s.(ds_MintController).
Definition ds_Records (p : RecordPrefix) (s : DispStore) : gmap string DistributionRecord :=
  match p with
  | RecordPrefixPending => s.(ds_Pending)
  | RecordPrefixCompleted => s.(ds_Completed)
  | RecordPrefixFailed => s.(ds_Failed)
  end.
Definition ds_set_Records (p : RecordPrefix)
    (f : gmap string DistributionRecord → gmap string DistributionRecord) (s : DispStore)
    : DispStore :=
  match p with
  | RecordPrefixPending => s <| ds_Pending ::= f |>
  | RecordPrefixCompleted => s <| ds_Completed ::= f |>
  | RecordPrefixFailed => s <| ds_Failed ::= f |>
  end.

(** ** Records (types/records.go) *)
Section records.
Context {coinslib : CoinsLib}.

Definition NewDistributionRecord (status : DistributionStatus) (distributionType : DistributionType)
    (distributionName recipientAddress : string) (coins : Coins) (start end_ : Z) (runner : string)
    : DistributionRecord :=
  mkDistributionRecord status distributionType distributionName recipientAddress coins start end_
    runner.
Definition DistributionRecord_Validate (dr : DistributionRecord) : bool :=
  if (String.length dr.(dr_RecipientAddress) =? 0)%nat then false
  else if negb (Coins_IsValid dr.(dr_Coins)) then false
  else if negb (Coins_IsAllPositive dr.(dr_Coins)) then false
  else true.
Definition DistributionRecord_Add (dr dr2 : DistributionRecord) : res DistributionRecord :=
  coins ← Coins_Plus dr.(dr_Coins) dr2.(dr_Coins);
  Ok (dr <| dr_Coins := coins |>).
Definition DoesTypeSupportClaim (dr : DistributionRecord) : bool :=
  bool_decide (dr.(dr_Type) = DISTRIBUTION_TYPE_LIQUIDITY_MINING)
  || bool_decide (dr.(dr_Type) = DISTRIBUTION_TYPE_VALIDATOR_SUBSIDY).
Definition NewUserClaim (userAddress : string) (userClaimType : DistributionType) (t : string)
    : res UserClaim :=
  tProto ← TimestampProto t; Ok (mkUserClaim userAddress userClaimType tProto).
Definition UserClaim_Validate (uc : UserClaim) : bool :=
  if (String.length uc.(uc_UserAddress) =? 0)%nat then false else true.
Definition NewDistribution (t : DistributionType) (name authorizedRunner : string) : Distribution :=
  mkDistribution t name authorizedRunner.
Definition Distribution_Validate (ar : Distribution) : bool :=
  if String.eqb ar.(d_Name) "" then false else true.

(** utils/parser.go *)
Definition TotalOutput (output : list Output) : res Coins :=
  match output with
  | [] => Err ErrNoOutputs
  | first :: rest => foldR (λ total o, Coins_Plus total o.(out_Coins)) first.(out_Coins) rest
  end.
End records.

Definition GetDistributionStatus (status : string) : DistributionStatus * bool :=
  if String.eqb status "Completed" then (DISTRIBUTION_STATUS_COMPLETED, true)
  else if String.eqb status "Pending" then (DISTRIBUTION_STATUS_PENDING, true)
  else if String.eqb status "Failed" then (DISTRIBUTION_STATUS_FAILED, true)
  else (DISTRIBUTION_STATUS_UNSPECIFIED, false).
Definition GetClaimType (claimType : string) : DistributionType * bool :=
  if String.eqb claimType "LiquidityMining" then (DISTRIBUTION_TYPE_LIQUIDITY_MINING, true)
  else if String.eqb claimType "ValidatorSubsidy" then (DISTRIBUTION_TYPE_VALIDATOR_SUBSIDY, true)
  else (DISTRIBUTION_TYPE_UNSPECIFIED, false).
Definition GetDistributionTypeFromShortString (distributionType : string)
    : DistributionType * bool :=
  if String.eqb distributionType "Airdrop" then (DISTRIBUTION_TYPE_AIRDROP, true)
  else if String.eqb distributionType "LiquidityMining"
  then (DISTRIBUTION_TYPE_LIQUIDITY_MINING, true)
  else if String.eqb distributionType "ValidatorSubsidy"
  then (DISTRIBUTION_TYPE_VALIDATOR_SUBSIDY, true)
  else (DISTRIBUTION_TYPE_UNSPECIFIED, false).
(** [DistributionType.String()]: the names of the enumeration. *)
Definition type_name (t : DistributionType) : string :=
  match t with
  | DISTRIBUTION_TYPE_UNSPECIFIED => "DISTRIBUTION_TYPE_UNSPECIFIED"
  | DISTRIBUTION_TYPE_AIRDROP => "DISTRIBUTION_TYPE_AIRDROP"
  | DISTRIBUTION_TYPE_VALIDATOR_SUBSIDY => "DISTRIBUTION_TYPE_VALIDATOR_SUBSIDY"
  | DISTRIBUTION_TYPE_LIQUIDITY_MINING => "DISTRIBUTION_TYPE_LIQUIDITY_MINING"
  end.
Definition IsValidDistributionType (distributionType : string) : DistributionType * bool :=
  if String.eqb distributionType "DISTRIBUTION_TYPE_AIRDROP"
  then (DISTRIBUTION_TYPE_AIRDROP, true)
  else if String.eqb distributionType "DISTRIBUTION_TYPE_LIQUIDITY_MINING"
  then (DISTRIBUTION_TYPE_LIQUIDITY_MINING, true)
  else if String.eqb distributionType "DISTRIBUTION_TYPE_VALIDATOR_SUBSIDY"
  then (DISTRIBUTION_TYPE_VALIDATOR_SUBSIDY, true)
  else (DISTRIBUTION_TYPE_UNSPECIFIED, false).
Definition IsValidClaimType (claimType : string) : DistributionType * bool :=
  if String.eqb claimType "DISTRIBUTION_TYPE_LIQUIDITY_MINING"
  then (DISTRIBUTION_TYPE_LIQUIDITY_MINING, true)
  else if String.eqb claimType "DISTRIBUTION_TYPE_VALIDATOR_SUBSIDY"
  then (DISTRIBUTION_TYPE_VALIDATOR_SUBSIDY, true)
  else (DISTRIBUTION_TYPE_UNSPECIFIED, false).

(** ** Messages (types/msgs.go) *)
Section messages.
Context {coins : CoinLib} {coinslib : CoinsLib} {errs : SdkErrors}.

(** [out.Coins.Sort()] sorts in place the coins the message and the copy [out] share: the
    handler receives the message with sorted coins. *)
Definition check_output (out : Output) : res Output :=
  _ ← (match AccAddressFromBech32 out.(out_Address) with Err _ => Err ErrInvalid | r => r end);
  let sorted := Coins_Sort out.(out_Coins) in
  if negb (Coins_IsValid sorted) then Err ErrInvalid else Ok (mkOutput out.(out_Address) sorted).
Definition MsgCreateDistribution_ValidateBasic (m : MsgCreateDistribution)
    : res MsgCreateDistribution :=
  if negb (IsValidDistributionType (type_name m.(cd_Type))).2 then Err ErrInvalid
  else if (length m.(cd_Output) =? 0)%nat then Err ErrInvalid
  else
    _ ← (match AccAddressFromBech32 m.(cd_Distributor) with Err _ => Err ErrInvalid | r => r end);
    _ ← (match AccAddressFromBech32 m.(cd_AuthorizedRunner) with Err _ => Err ErrInvalid | r => r end);
    outputs ← foldR (λ outputs out, checked ← check_output out; Ok (outputs ++ [checked])) []
      m.(cd_Output);
    Ok (mkMsgCreateDistribution m.(cd_Distributor) m.(cd_AuthorizedRunner) m.(cd_Type) outputs).

Definition MsgCreateUserClaim_ValidateBasic (m : MsgCreateUserClaim) : res unit :=
  _ ← (match AccAddressFromBech32 m.(cu_UserClaimAddress) with
       | Err _ => Err ErrInvalidAddress | r => r end);
  if negb (IsValidClaimType (type_name m.(cu_Type))).2 then Err ErrInvalid else Ok tt.

Definition MsgRunDistribution_ValidateBasic (m : MsgRunDistribution) : res unit :=
  if negb (IsValidDistributionType (type_name m.(rd_Type))).2 then Err ErrInvalid
  else if String.eqb m.(rd_Name) "" then Err ErrInvalid
  else
    _ ← (match AccAddressFromBech32 m.(rd_AuthorizedRunner) with
         | Err _ => Err ErrInvalid | r => r end);
    if (MaxRecordsPerBlock <? m.(rd_Count)) || (m.(rd_Count) <=? 0) then Err ErrInvalid else Ok tt.

Definition must_address (a : string) : res AccAddress :=
  match AccAddressFromBech32 a with Err _ => Panic | r => r end.
Definition MsgCreateDistribution_GetSigners (m : MsgCreateDistribution) : res (list AccAddress) :=
  addr ← must_address m.(cd_Distributor); Ok [addr].
Definition MsgCreateUserClaim_GetSigners (m : MsgCreateUserClaim) : res (list AccAddress) :=
  addr ← must_address m.(cu_UserClaimAddress); Ok [addr].
Definition MsgRunDistribution_GetSigners (m : MsgRunDistribution) : res (list AccAddress) :=
  addr ← must_address m.(rd_AuthorizedRunner); Ok [addr].
Definition NewMsgCreateDistribution (distributor : AccAddress) (t : DistributionType)
    (output : list Output) (authorizedRunner : string) : MsgCreateDistribution :=
  mkMsgCreateDistribution (AccString distributor) authorizedRunner t output.
Definition NewMsgCreateUserClaim (userClaimAddress : AccAddress) (claimType : DistributionType)
    : MsgCreateUserClaim := mkMsgCreateUserClaim (AccString userClaimAddress) claimType.
Definition NewMsgRunDistribution (runner distributionName : string)
    (distributionType : DistributionType) (distributionCount : Z) : MsgRunDistribution :=
  mkMsgRunDistribution runner distributionName distributionType distributionCount.
End messages.

(** ** The keeper *)

(** The loop of [GetLimitedRecordsForRunner]: [count] records have been taken. *)
Fixpoint limited_records (wanted : DistributionRecord → bool) (distributionCount count : Z)
    (l : list DistributionRecord) : list DistributionRecord :=
  match l with
  | [] => []
  | dr :: l =>
      if count =? distributionCount then []
      else if wanted dr then dr :: limited_records wanted distributionCount (int64 (count + 1)) l
      else limited_records wanted distributionCount count l
  end.
(** The loop of [GetLimitedRecordsForStatus]: the count is compared after a record is taken. *)
Fixpoint first_records (count : Z) (l : list DistributionRecord) : list DistributionRecord :=
  match l with
  | [] => []
  | dr :: l =>
      let count := count + 1 in
      dr :: (if count =? MaxRecordsPerBlock then [] else first_records count l)
  end.

Section keeper.
Context {W : Type} {sdk : Sdk} {coins : CoinLib} {coinslib : CoinsLib} {bank : BankKeeper W}
  {disp : HasStore DispStore W} {events : HasStore EventLog W}.
Notation M := (M W).

Definition get_disp : M DispStore := get_store.
Definition upd_disp (f : DispStore → DispStore) : M unit := upd_store f.

Definition HasCoins (user : AccAddress) (coins : Coins) : M bool :=
  gets (λ w, forallb (HasBalance w user) coins).

(** distributionRecords.go *)
Definition SetDistributionRecord (dr : DistributionRecord) : M unit :=
  _ ← throw_if (negb (DistributionRecord_Validate dr)) ErrInvalid;
  let key := GetDistributionRecordKey dr.(dr_Status) dr.(dr_Name) dr.(dr_RecipientAddress)
               dr.(dr_Type) in
  upd_disp (ds_set_Records key.1 <[key.2 := dr]>).
Definition ExistsDistributionRecord (airdropName recipientAddress : string)
    (status : DistributionStatus) (distributionType : DistributionType) : M bool :=
  let key := GetDistributionRecordKey status airdropName recipientAddress distributionType in
  s ← get_disp; mret (bool_decide (is_Some (ds_Records key.1 s !! key.2))).
Definition GetDistributionRecord (airdropName recipientAddress : string)
    (status : DistributionStatus) (distributionType : DistributionType) : M DistributionRecord :=
  let key := GetDistributionRecordKey status airdropName recipientAddress distributionType in
  s ← get_disp; lift (ok_or ErrInvalid (ds_Records key.1 s !! key.2)).
Definition DeleteDistributionRecord (distributionName recipientAddress : string)
    (status : DistributionStatus) (distributionType : DistributionType) : M unit :=
  let key := GetDistributionRecordKey status distributionName recipientAddress distributionType in
  exists_ ← ExistsDistributionRecord distributionName recipientAddress status distributionType;
  _ ← throw_if (negb exists_) ErrInvalid;
  upd_disp (ds_set_Records key.1 (delete key.2)).

(** No iterator for a status without a prefix; [nil.Valid()] panics. *)
Definition GetDistributionRecordsIterator (status : DistributionStatus)
    : M (option (list DistributionRecord)) :=
  s ← get_disp;
  mret match status with
       | DISTRIBUTION_STATUS_PENDING => Some (kv_values s.(ds_Pending))
       | DISTRIBUTION_STATUS_COMPLETED => Some (kv_values s.(ds_Completed))
       | DISTRIBUTION_STATUS_FAILED => Some (kv_values s.(ds_Failed))
       | _ => None
       end.
Definition iterate (status : DistributionStatus) : M (list DistributionRecord) :=
  iterator ← GetDistributionRecordsIterator status;
  match iterator with Some l => mret l | None => panic end.

Definition GetRecordsForNameAndStatus (name : string) (status : DistributionStatus)
    : M (list DistributionRecord) :=
  l ← iterate status; mret (filter (λ dr, dr.(dr_Name) = name) l).
Definition GetRecordsForNameStatusAndType (name : string) (status : DistributionStatus)
    (distributionType : DistributionType) : M (list DistributionRecord) :=
  l ← iterate status;
  mret (filter (λ dr, dr.(dr_Name) = name ∧ dr.(dr_Type) = distributionType) l).
Definition GetRecordsForRecipient (recipient : string) : M (list DistributionRecord) :=
  pending ← iterate DISTRIBUTION_STATUS_PENDING;
  let res := filter (λ dr, dr.(dr_RecipientAddress) = recipient) pending in
  completed ← iterate DISTRIBUTION_STATUS_COMPLETED;
  let res := res ++ filter (λ dr, dr.(dr_RecipientAddress) = recipient) completed in
  failed ← iterate DISTRIBUTION_STATUS_FAILED;
  mret (res ++ filter (λ dr, dr.(dr_RecipientAddress) = recipient) failed).
Definition GetLimitedRecordsForStatus (status : DistributionStatus) : M (list DistributionRecord) :=
  l ← iterate status; mret (first_records 0 l).
Definition runner_wants (distributionName authorizedRunner : string)
    (distributionType : DistributionType) (dr : DistributionRecord) : bool :=
  String.eqb dr.(dr_Name) distributionName
  && bool_decide (dr.(dr_Status) = DISTRIBUTION_STATUS_PENDING)
  && String.eqb dr.(dr_AuthorizedRunner) authorizedRunner
  && bool_decide (dr.(dr_Type) = distributionType).
Definition GetLimitedRecordsForRunner (distributionName authorizedRunner : string)
    (distributionType : DistributionType) (status : DistributionStatus) (distributionCount : Z)
    : M (list DistributionRecord) :=
  l ← iterate status;
  mret (limited_records (runner_wants distributionName authorizedRunner distributionType)
          distributionCount 0 l).
Definition GetRecords : M (list DistributionRecord) :=
  pending ← iterate DISTRIBUTION_STATUS_PENDING;
  completed ← iterate DISTRIBUTION_STATUS_COMPLETED;
  failed ← iterate DISTRIBUTION_STATUS_FAILED;
  mret (pending ++ completed ++ failed).
Definition GetRecordsForName (name : string) : M (list DistributionRecord) :=
  pending ← iterate DISTRIBUTION_STATUS_PENDING;
  let res := filter (λ dr, dr.(dr_Name) = name) pending in
  completed ← iterate DISTRIBUTION_STATUS_COMPLETED;
  let res := res ++ filter (λ dr, dr.(dr_Name) = name) completed in
  failed ← iterate DISTRIBUTION_STATUS_FAILED;
  mret (res ++ filter (λ dr, dr.(dr_Name) = name) failed).

Definition ChangeRecordStatus (dr : DistributionRecord) (height : Z)
    (newStatus : DistributionStatus) : M unit :=
  let oldStatus := dr.(dr_Status) in
  let dr := dr <| dr_Status := newStatus |> <| dr_CompletedHeight := height |> in
  _ ← wrap_err ErrDistribution (SetDistributionRecord dr);
  wrap_err ErrDistribution
    (DeleteDistributionRecord dr.(dr_Name) dr.(dr_RecipientAddress) oldStatus dr.(dr_Type)).

(** distribution.go *)
Definition SetDistribution (ar : Distribution) : M unit :=
  _ ← throw_if (negb (Distribution_Validate ar)) ErrInvalid;
  let key := GetDistributionsKey ar.(d_Name) ar.(d_Type) ar.(d_Runner) in
  upd_disp (λ s, s <| ds_Distributions ::= <[key := ar]> |>).
Definition ExistsDistribution (name : string) (distributionType : DistributionType)
    (authorizedRunner : string) : M bool :=
  s ← get_disp;
  mret (bool_decide (is_Some
    (s.(ds_Distributions) !! GetDistributionsKey name distributionType authorizedRunner))).
Definition GetDistribution (name : string) (distributionType : DistributionType)
    (authorizedRunner : string) : M Distribution :=
  s ← get_disp;
  lift (ok_or ErrInvalid
    (s.(ds_Distributions) !! GetDistributionsKey name distributionType authorizedRunner)).
Definition GetDistributions : M (list Distribution) :=
  s ← get_disp; mret (kv_values s.(ds_Distributions)).

(** userclaim.go *)
Definition SetClaim (ar : UserClaim) : M unit :=
  _ ← throw_if (negb (UserClaim_Validate ar)) ErrInvalid;
  upd_disp (λ s, s <| ds_Claims ::= <[GetUserClaimKey ar.(uc_UserAddress) ar.(uc_Type) := ar]> |>).
Definition ExistsClaim (recipient : string) (userClaimType : DistributionType) : M bool :=
  s ← get_disp;
  mret (bool_decide (is_Some (s.(ds_Claims) !! GetUserClaimKey recipient userClaimType))).
Definition GetClaim (recipient : string) (userClaimType : DistributionType) : M UserClaim :=
  s ← get_disp; lift (ok_or ErrInvalid (s.(ds_Claims) !! GetUserClaimKey recipient userClaimType)).
Definition DeleteClaim (recipient : string) (userClaimType : DistributionType) : M unit :=
  upd_disp (λ s, s <| ds_Claims ::= delete (GetUserClaimKey recipient userClaimType) |>).
Definition GetClaims : M (list UserClaim) :=
  s ← get_disp; mret (kv_values s.(ds_Claims)).
Definition GetClaimsByType (userClaimType : DistributionType) : M (list UserClaim) :=
  s ← get_disp; mret (filter (λ dl, dl.(uc_Type) = userClaimType) (kv_values s.(ds_Claims))).

(** executors.go; [height] is that of the block *)
Definition create_drop (height : Z) (name : string) (distributionType : DistributionType)
    (authorizedRunner : string) (receiver : Output) : M unit :=
  let distributionRecord := NewDistributionRecord DISTRIBUTION_STATUS_PENDING distributionType name
    receiver.(out_Address) receiver.(out_Coins) height (-1) authorizedRunner in
  exists_ ← ExistsDistributionRecord name receiver.(out_Address) DISTRIBUTION_STATUS_PENDING
              distributionRecord.(dr_Type);
  distributionRecord ←
    (if (exists_ : bool) then
       oldRecord ← wrap_err ErrDistribution
         (GetDistributionRecord name receiver.(out_Address) DISTRIBUTION_STATUS_PENDING
            distributionRecord.(dr_Type));
       lift (DistributionRecord_Add distributionRecord oldRecord)
     else mret distributionRecord);
  wrap_err ErrFailedOutputs (SetDistributionRecord distributionRecord).
Definition CreateDrops (height : Z) (output : list Output) (name : string)
    (distributionType : DistributionType) (authorizedRunner : string) : M unit :=
  forM (create_drop height name distributionType authorizedRunner) output.

(** One record: a bad address is passed over, a failed transfer is recorded, and coins whose
    record cannot be completed are taken back. *)
Definition distribute_drop (height : Z) (record : DistributionRecord) : M unit :=
  parsed ← try (lift (AccAddressFromBech32 record.(dr_RecipientAddress)));
  match parsed with
  | inl _ => mret tt
  | inr recipientAddress =>
      sent ← try (SendCoinsFromModuleToAccount ModuleName recipientAddress record.(dr_Coins));
      match sent with
      | inl _ => on_err (ChangeRecordStatus record height DISTRIBUTION_STATUS_FAILED) (λ _, panic)
      | inr _ =>
          changed ← try (ChangeRecordStatus record height DISTRIBUTION_STATUS_COMPLETED);
          match changed with
          | inl _ =>
              on_err (SendCoinsFromAccountToModule recipientAddress ModuleName record.(dr_Coins))
                (λ _, panic)
          | inr _ =>
              if DoesTypeSupportClaim record
              then DeleteClaim record.(dr_RecipientAddress) record.(dr_Type)
              else mret tt
          end
      end
  end.
Definition DistributeDrops (height : Z) (distributionName authorizedRunner : string)
    (distributionType : DistributionType) (distributionCount : Z) : M (list DistributionRecord) :=
  pendingRecords ← GetLimitedRecordsForRunner distributionName authorizedRunner distributionType
                     DISTRIBUTION_STATUS_PENDING distributionCount;
  _ ← forM (distribute_drop height) pendingRecords;
  mret pendingRecords.

Definition AccumulateDrops (addr : string) (amount : Coins) : M unit :=
  address ← lift (AccAddressFromBech32 addr);
  wrap_err ErrFailedInputs (SendCoinsFromAccountToModule address ModuleName amount).
Definition VerifyAndSetDistribution (distributionName : string)
    (distributionType : DistributionType) (authorizedRunner : string) : M unit :=
  exists_ ← ExistsDistribution distributionName distributionType authorizedRunner;
  _ ← throw_if exists_ ErrDistribution;
  wrap_err ErrDistribution
    (SetDistribution (NewDistribution distributionType distributionName authorizedRunner)).

(** mint_controller.go *)
Definition SetMintController (mintController : MintController) : M unit :=
  upd_disp (λ s, s <| ds_MintController := Some mintController |>).
Definition GetMintController : M (option MintController) :=
  s ← get_disp; mret s.(ds_MintController).
Definition AddMintAmount (mintedCoin : Coin) : M unit :=
  found ← GetMintController;
  match found with
  | None => throw ErrNotFoundMintController
  | Some controller =>
      total ← lift (Coin_Add controller.(TotalCounter) mintedCoin);
      SetMintController (mkMintController total)
  end.
Definition TokensCanBeMinted : M bool :=
  found ← GetMintController;
  match found with
  | None => mret false
  | Some controller =>
      match NewIntFromString MaxMintAmount with
      | None => mret false
      | Some maxMintAmount =>
          maxMintAmountCoin ← lift (NewCoin GetSettlementAsset.(Symbol) maxMintAmount);
          lift (Coin_IsLT controller.(TotalCounter) maxMintAmountCoin)
      end
  end.
Definition IsLastBlock : M bool :=
  found ← GetMintController;
  match found with
  | None => mret false
  | Some controller =>
      match NewIntFromString MaxMintAmount, NewIntFromString MintAmountPerBlock with
      | Some maxMintAmount, Some blockMintAmount =>
          left_ ← lift (IntSub maxMintAmount controller.(TotalCounter).(Amount));
          mret (left_ <=? blockMintAmount)
      | _, _ => mret false
      end
  end.

(** abci.go: the amount of this block, then minting, sending and counting.  Errors of the last
    two are only logged. *)
Definition block_mint_amount : M (option Int) :=
  match NewIntFromString MintAmountPerBlock with
  | None => mret None
  | Some mintAmount =>
      last ← IsLastBlock;
      if (last : bool) then
        match NewIntFromString MaxMintAmount with
        | None => mret None
        | Some maxMintAmount =>
            found ← GetMintController;
            match found with
            | None => mret None
            | Some controller =>
                rest ← lift (IntSub maxMintAmount controller.(TotalCounter).(Amount));
                mret (Some rest)
            end
        end
      else mret (Some mintAmount)
  end.
Definition BeginBlocker : M unit :=
  can ← TokensCanBeMinted;
  if negb can then mret tt
  else
    amount ← block_mint_amount;
    match amount with
    | None => mret tt
    | Some mintAmount =>
        coin ← lift (NewCoin GetSettlementAsset.(Symbol) mintAmount);
        mintCoins ← lift (NewCoins [coin]);
        if negb (Coins_IsValid mintCoins) || negb (length mintCoins =? 1)%nat then mret tt
        else
          address ← try (lift (AccAddressFromBech32 EcoPool));
          match address with
          | inl _ => mret tt
          | inr ecoPoolAddress =>
              minted ← try (MintCoins ModuleName mintCoins);
              match minted with
              | inl _ => mret tt
              | inr _ =>
                  _ ← ignore_err (SendCoinsFromModuleToAccount ModuleName ecoPoolAddress mintCoins);
                  match mintCoins with
                  | coin :: _ => ignore_err (AddMintAmount coin)
                  | [] => panic
                  end
              end
          end
    end.

(** migrations.go *)
Definition MigrateToVer2 : M unit :=
  zero ← lift (NewCoin GetSettlementAsset.(Symbol) 0);
  SetMintController (mkMintController zero).

(** ** The message server (msg_server.go), queries and dispatch *)
Definition CreateDistribution (ctx : Ctx) (msg : MsgCreateDistribution) : M unit :=
  let distributionName := pretty ctx.(BlockHeight) +:+ "_" +:+ msg.(cd_Distributor) in
  _ ← VerifyAndSetDistribution distributionName msg.(cd_Type) msg.(cd_AuthorizedRunner);
  totalOutput ← lift (TotalOutput msg.(cd_Output));
  _ ← AccumulateDrops msg.(cd_Distributor) totalOutput;
  _ ← CreateDrops ctx.(BlockHeight) msg.(cd_Output) distributionName msg.(cd_Type)
        msg.(cd_AuthorizedRunner);
  EmitEvents [EventTypeDistributionStarted].

Definition CreateUserClaim (ctx : Ctx) (claim : MsgCreateUserClaim) : M unit :=
  exists_ ← ExistsClaim claim.(cu_UserClaimAddress) claim.(cu_Type);
  _ ← throw_if exists_ ErrInvalid;
  newClaim ← lift (NewUserClaim claim.(cu_UserClaimAddress) claim.(cu_Type) ctx.(BlockTime));
  _ ← SetClaim newClaim;
  EmitEvents [EventTypeClaimCreated].

Definition RunDistribution (ctx : Ctx) (distribution : MsgRunDistribution) : M unit :=
  records ← DistributeDrops ctx.(BlockHeight) distribution.(rd_Name)
              distribution.(rd_AuthorizedRunner) distribution.(rd_Type) distribution.(rd_Count);
  EmitEvents (imap (λ i _, EventTypeDistributionRecordsList +:+ pretty (Z.of_nat i)) records
              ++ [EventTypeDistributionRun]).

(** grpc_querier.go *)
Definition AllDistributions : M (list Distribution) := GetDistributions.
Definition ClaimsByType (userClaimType : DistributionType) : M (list UserClaim) :=
  GetClaimsByType userClaimType.
Definition RecordsByDistributionName (distributionName : string) (status : DistributionStatus)
    : M (list DistributionRecord) :=
  records ← GetRecordsForNameAndStatus distributionName status;
  if bool_decide (status = DISTRIBUTION_STATUS_UNSPECIFIED) then
    more ← GetRecordsForNameAndStatus distributionName DISTRIBUTION_STATUS_PENDING;
    mret (records ++ more)
  else mret records.
Definition RecordsByRecipient (address : string) : M (list DistributionRecord) :=
  GetRecordsForRecipient address.
End keeper.

(** handler.go; [ValidateBasic] hands on the message it may have sorted. *)
Inductive DispMsg :=
| AMsgCreateDistribution (m : MsgCreateDistribution)
| AMsgCreateUserClaim (m : MsgCreateUserClaim)
| AMsgRunDistribution (m : MsgRunDistribution).

Section module.
Context {W : Type} {sdk : Sdk} {coins : CoinLib} {coinslib : CoinsLib} {bank : BankKeeper W}
  {errs : SdkErrors} {disp : HasStore DispStore W} {events : HasStore EventLog W}.
Notation M := (M W).

Definition ValidateBasic (m : DispMsg) : res DispMsg :=
  match m with
  | AMsgCreateDistribution m =>
      m ← MsgCreateDistribution_ValidateBasic m; Ok (AMsgCreateDistribution m)
  | AMsgCreateUserClaim c => _ ← MsgCreateUserClaim_ValidateBasic c; Ok m
  | AMsgRunDistribution r => _ ← MsgRunDistribution_ValidateBasic r; Ok m
  end.
Definition NewHandler (ctx : Ctx) (msg : DispMsg) : M unit :=
  match msg with
  | AMsgCreateDistribution msg => CreateDistribution ctx msg
  | AMsgCreateUserClaim msg => CreateUserClaim ctx msg
  | AMsgRunDistribution msg => RunDistribution ctx msg
  end.

(** ** Genesis (genesis.go) *)
Definition or_panic (m : M unit) : M unit := on_err m (λ _, panic).
Definition InitGenesis (data : GenesisState) : M unit :=
  zero ← lift (NewCoin GetSettlementAsset.(Symbol) 0);
  _ ← SetMintController (mkMintController zero);
  _ ← forM (λ record, or_panic (SetDistributionRecord record))
        (default [] data.(gs_DistributionRecords));
  _ ← forM (λ dist, or_panic (SetDistribution dist)) (default [] data.(gs_Distributions));
  forM (λ claim, or_panic (SetClaim claim)) (default [] data.(gs_Claims)).
Definition ExportGenesis : M GenesisState :=
  distributions ← GetDistributions;
  records ← GetRecords;
  claims ← GetClaims;
  mret (mkGenesisState (Some records) (Some distributions) (Some claims)).
Definition ValidateGenesis (data : GenesisState) : res unit :=
  if negb (forallb DistributionRecord_Validate (default [] data.(gs_DistributionRecords)))
  then Err ErrInvalid
  else if negb (forallb Distribution_Validate (default [] data.(gs_Distributions)))
  then Err ErrInvalid
  else if negb (forallb UserClaim_Validate (default [] data.(gs_Claims))) then Err ErrInvalid
  else Ok tt.
End module.
Definition DefaultGenesisState : GenesisState := mkGenesisState None None None.

(** ** The legacy querier (keeper/querier.go)

    Requests and responses as JSON texts of the codec; a failing text keeps its own error of
    cosmos-sdk. *)
Class QuerierJson := {
  Unmarshal_QueryClaimsByTypeRequest : string → res DistributionType;
  Unmarshal_QueryRecordsByDistributionNameRequest : string → res (string * DistributionStatus);
  Unmarshal_QueryRecordsByRecipientAddrRequest : string → res string;
  Marshal_QueryClaimsResponse : list UserClaim → res string;
  Marshal_DistributionRecords : list DistributionRecord → res string;
  Marshal_QueryAllDistributionsResponse : list Distribution → res string;
  ErrJSONUnmarshal : error;
  ErrJSONMarshal : error
}.

Section querier.
Context {W : Type} {disp : HasStore DispStore W} {errs : SdkErrors} {qjson : QuerierJson}.
Notation M := (M W).

Definition QueryAllDistributions : string := "distributions".
Definition QueryRecordsByDistrName : string := "records_by_name".
Definition QueryRecordsByRecipient : string := "records_by_recipient".
Definition QueryClaimsByType : string := "claims_by_type".

Definition queryClaimsByType (data : string) : M string :=
  params ← wrap_err ErrJSONUnmarshal (lift (Unmarshal_QueryClaimsByTypeRequest data));
  queryResponse ← ClaimsByType params;
  wrap_err ErrJSONMarshal (lift (Marshal_QueryClaimsResponse queryResponse)).
Definition queryDistributionRecordsForName (data : string) : M string :=
  params ← wrap_err ErrJSONUnmarshal (lift (Unmarshal_QueryRecordsByDistributionNameRequest data));
  res ← RecordsByDistributionName params.1 params.2;
  wrap_err ErrJSONMarshal (lift (Marshal_DistributionRecords res)).
Definition queryDistributionRecordsForRecipient (data : string) : M string :=
  params ← wrap_err ErrJSONUnmarshal (lift (Unmarshal_QueryRecordsByRecipientAddrRequest data));
  res ← RecordsByRecipient params;
  wrap_err ErrJSONMarshal (lift (Marshal_DistributionRecords res)).
Definition queryAllDistributions : M string :=
  res ← AllDistributions;
  lift (Marshal_QueryAllDistributionsResponse res).

(** An empty path is an index out of range. *)
Definition NewLegacyQuerier (path : list string) (data : string) : M string :=
  match path with
  | [] => panic
  | endpoint :: _ =>
      if String.eqb endpoint QueryAllDistributions then queryAllDistributions
      else if String.eqb endpoint QueryRecordsByDistrName then queryDistributionRecordsForName data
      else if String.eqb endpoint QueryRecordsByRecipient
      then queryDistributionRecordsForRecipient data
      else if String.eqb endpoint QueryClaimsByType then queryClaimsByType data
      else throw ErrUnknownRequest
  end.
End querier.

(** ** The genesis of version 0.39 (legacy/v39, legacy/v42)

    There the enumerations are numbers, with liquidity mining before validator subsidies. *)
Module V39.
Definition Pending : Z := 1.
Definition Completed : Z := 2.
Definition Airdrop : Z := 1.
Definition LiquidityMining : Z := 2.
Definition ValidatorSubsidy : Z := 3.
Definition status_String (ds : Z) : string :=
  if ds =? Pending then "Pending" else if ds =? Completed then "Completed" else "All".
Definition type_String (dt : Z) : string :=
  if dt =? Airdrop then "Airdrop" else if dt =? LiquidityMining then "LiquidityMining"
  else if dt =? ValidatorSubsidy then "ValidatorSubsidy" else "Invalid".
Record DistributionRecord39 := mkDistributionRecord39 {
  r39_Status : Z; r39_Name : string; r39_Type : Z; r39_RecipientAddress : AccAddress;
  r39_Coins : Coins; r39_StartHeight : Z; r39_CompletedHeight : Z;
  r39_AuthorizedRunner : AccAddress
}.
Record Distribution39 := mkDistribution39 {
  d39_Type : Z; d39_Name : string; d39_Runner : AccAddress
}.
Record UserClaim39 := mkUserClaim39 {
  c39_UserAddress : AccAddress; c39_Type : Z; c39_Time : string
}.
Record GenesisState39 := mkGenesisState39 {
  g39_DistributionRecords : list DistributionRecord39;
  g39_Distributions : list Distribution39;
  g39_Claims : list UserClaim39
}.

Section migrate.
Context {coins : CoinLib} {coinslib : CoinsLib}.

Definition migrateDistributionRecordStatus (status : Z) : DistributionStatus :=
  if status =? Pending then DISTRIBUTION_STATUS_PENDING
  else if status =? Completed then DISTRIBUTION_STATUS_COMPLETED
  else DISTRIBUTION_STATUS_UNSPECIFIED.
Definition migrateDistributionType (t : Z) : DistributionType :=
  if t =? Airdrop then DISTRIBUTION_TYPE_AIRDROP
  else if t =? LiquidityMining then DISTRIBUTION_TYPE_LIQUIDITY_MINING
  else if t =? ValidatorSubsidy then DISTRIBUTION_TYPE_VALIDATOR_SUBSIDY
  else DISTRIBUTION_TYPE_UNSPECIFIED.
Definition Migrate (state : GenesisState39) : res GenesisState :=
  let records := (λ d, mkDistributionRecord (migrateDistributionRecordStatus d.(r39_Status))
      (migrateDistributionType d.(r39_Type)) d.(r39_Name) (AccString d.(r39_RecipientAddress))
      d.(r39_Coins) d.(r39_StartHeight) d.(r39_CompletedHeight)
      (AccString d.(r39_AuthorizedRunner))) <$> state.(g39_DistributionRecords) in
  let distributions := (λ d, mkDistribution (migrateDistributionType d.(d39_Type)) d.(d39_Name)
      (AccString d.(d39_Runner))) <$> state.(g39_Distributions) in
  claims ← foldR (λ claims c,
    t ← must (TimestampProto c.(c39_Time));
    Ok (claims ++ [mkUserClaim (AccString c.(c39_UserAddress))
                     (migrateDistributionType c.(c39_Type)) t])) [] state.(g39_Claims);
  Ok (mkGenesisState (Some records) (Some distributions) (Some claims)).
End migrate.
End V39.

(** ** The chain the theorems speak of

    A transfer from the module's account ends with success or an error: it panics only when the
    module has no account. *)
Class DispWorld (W : Type) `{sdk : Sdk} `{coins : CoinLib} `{coinslib : CoinsLib}
    `{bank : BankKeeper W} `{disp : HasStore DispStore W} `{events : HasStore EventLog W} : Prop := {
  dw_coins :: CoinLaws coins;
  dw_coinslib :: CoinsLaws sdk coins coinslib;
  dw_bank :: BankLaws W coins bank;
  dw_disp :: StoreLaws DispStore W disp;
  dw_disp_events :: StoreIndep DispStore EventLog W disp events;
  dw_bank_disp :: BankFrame DispStore W disp bank;
  dw_bank_events :: BankFrame EventLog W events bank;
  dw_send_ends m a cs (w : W) : (SendCoinsFromModuleToAccount m a cs w).1 ≠ Panic;
  dw_mint_ends m cs (w : W) : Coins_IsValid cs = true → (MintCoins m cs w).1 ≠ Panic
}.
