(* ===== verification/Ibc.v ===== *)
(** * Ibc: x/ibctransfer

    x/ibctransfer/helpers/conversion_helper.go, keeper/msg_server.go, onrecv_packet.go and
    types/{errors,events,keys}.go: what the chain adds to the token transfers of ibc-go.  Only
    listed denominations leave or enter, and a coin that comes in with fewer decimals than its
    unit is exchanged for the unit held in escrow. *)

From S2P Require Import Prelude Sdk Rat Bank Keepers Registry.
Local Open Scope Z_scope.

(** ** Library code *)

(** [Dec.MulTruncate] and [Dec.QuoTruncate] of cosmos-sdk. *)
Class SdkTruncate := {
  DecMulTruncate : Dec → Dec → res Dec;
  DecQuoTruncate : Dec → Dec → res Dec
}.
Class SdkTruncateLaws `(Sdk) `(SdkTruncate) : Prop := {
  dec_mul_trunc a b : Z.abs (a * b) < 2 ^ 315 * dec_one →
    DecMulTruncate a b = Ok (Z.quot (a * b) dec_one);
  dec_mul_trunc_inv a b c : DecMulTruncate a b = Ok c → c = Z.quot (a * b) dec_one;
  dec_quo_trunc a b : b ≠ 0 → Z.abs a * dec_one < 2 ^ 315 * Z.abs b →
    DecQuoTruncate a b = Ok (Z.quot (a * dec_one) b);
  dec_quo_trunc_inv a b c : DecQuoTruncate a b = Ok c → b ≠ 0 ∧ c = Z.quot (a * dec_one) b;
  (* powers of ten are exact as far as a Dec reaches *)
  dec_power_ten k : 0 <= k <= 76 → DecPower (NewDec 10) k = Ok (NewDec (10 ^ k));
  dec_power_ten_inv k p : 0 <= k < 2 ^ 64 → DecPower (NewDec 10) k = Ok p → p = NewDec (10 ^ k)
}.

(** ibc-go: packets of the channel layer, the data of a token transfer, denomination traces,
    the transfer module, and its acknowledgements. *)
Record Packet := mkPacket {
  SourcePort : string; SourceChannel : string; DestPort : string; DestChannel : string;
  PacketData : string
}.
Record FungibleTokenPacketData := mkFungibleTokenPacketData {
  fd_Denom : string; fd_Amount : string; fd_Sender : string; fd_Receiver : string
}.
Record DenomTrace := mkDenomTrace { dt_Path : string; dt_BaseDenom : string }.
Record MsgTransfer := mkMsgTransfer {
  mt_SourcePort : string; mt_SourceChannel : string; mt_Token : Coin; mt_Sender : string;
  mt_Receiver : string; mt_TimeoutHeight : Z * Z; mt_TimeoutTimestamp : Z
}.
Inductive Acknowledgement := AckResult (result : string) | AckError (e : error).

Class IbcLib := {
  ReceiverChainIsSource : string → string → string → bool;
  GetDenomPrefix : string → string → string;
  ParseDenomTrace : string → DenomTrace;
  IBCDenom : DenomTrace → string;
  Unmarshal_PacketData : string → res FungibleTokenPacketData;
  Sha256 : string → string;
  ErrInvalidCoins : error
}.
(** A receiver's chain is the source of what carries the sender's prefix. *)
Class IbcLaws `(IbcLib) : Prop := {
  source_prefix port channel denom : ReceiverChainIsSource port channel denom = true →
    ∃ rest, denom = GetDenomPrefix port channel +:+ rest
}.
Class SdkTransferKeeper (W : Type) := {
  SdkTransfer : MsgTransfer → M W unit;
  SdkOnRecvPacket : Packet → FungibleTokenPacketData → M W unit
}.

(** ** types/errors.go, types/events.go, types/keys.go *)
Definition ModuleName : string := "scibctransfer".
Definition Version : string := "ics20-sc.1".
Definition ibctransfer_error (n : Z) : error := mkErr "scibctransfer" n.
Definition ErrConvertingToUnitDenom := ibctransfer_error 1.
Definition ErrConvertingToCounterpartyDenom := ibctransfer_error 2.
Definition ErrAmountTooLowToConvert := ibctransfer_error 3.
Definition ErrAmountTooLargeToSend := ibctransfer_error 4.
Definition EventTypeConvertTransfer : string := "converted_transfer".
Definition EventTypeConvertReceived : string := "converted_received_packet".
(** [EventTypePacket] of ibc-go's transfer module. *)
Definition EventTypePacket : string := "fungible_token_packet".

Section helpers.
Context {W : Type} {sdk : Sdk} {trunc : SdkTruncate} {coins : CoinLib} {ibc : IbcLib}
  {errs : SdkErrors} {bank : BankKeeper W} {events : HasStore EventLog W}.
Notation M := (M W).

Definition GetEscrowAddress (portID channelID : string) : AccAddress :=
  let contents := portID +:+ "/" +:+ channelID in
  let preImage := Version +:+ String (ascii_of_nat 0) contents in
  String.substring 0 20 (Sha256 preImage).

(** ** Decimals (helpers/conversion_helper.go) *)
Definition IncreasePrecision (dec : Dec) (po : Z) : res Dec :=
  p ← DecPower (NewDec 10) po; DecMulTruncate dec p.
Definition ReducePrecision (dec : Dec) (po : Z) : res Dec :=
  p ← DecPower (NewDec 10) po; DecQuoTruncate dec p.

(** The coin taken and the coin sent for it. *)
Definition ConvertCoinsForTransfer (msg : MsgTransfer)
    (sendRegistryEntry sendAsRegistryEntry : RegistryEntry) : res (Coin * Coin) :=
  let po := uint64 (int64 (sendRegistryEntry.(Decimals) - sendAsRegistryEntry.(Decimals))) in
  let decAmount := NewDec msg.(mt_Token).(Amount) in
  convAmountDec ← ReducePrecision decAmount po;
  truncated ← DecTruncateInt convAmountDec;
  convAmount ← NewIntFromBigInt truncated;
  convToken ← NewCoin sendRegistryEntry.(IbcCounterpartyDenom) convAmount;
  tokenAmountDec ← IncreasePrecision (NewDec convAmount) po;
  truncated ← DecTruncateInt tokenAmountDec;
  tokenAmount ← NewIntFromBigInt truncated;
  token ← NewCoin msg.(mt_Token).(Denom) tokenAmount;
  Ok (token, convToken).

Definition PrepareToSendConvertedCoins (msg : MsgTransfer) (token convToken : Coin) : M unit :=
  sender ← lift (AccAddressFromBech32 msg.(mt_Sender));
  let escrowAddress := GetEscrowAddress msg.(mt_SourcePort) msg.(mt_SourceChannel) in
  tokens ← lift (NewCoins [token]);
  _ ← SendCoins sender escrowAddress tokens;
  convCoins ← lift (NewCoins [convToken]);
  _ ← MintCoins ModuleName convCoins;
  _ ← SendCoinsFromModuleToAccount ModuleName sender convCoins;
  EmitEvent EventTypeConvertTransfer.

Definition IsRecvPacketAllowed (packet : Packet) (data : FungibleTokenPacketData)
    (mintedDenomEntry : RegistryEntry) : bool :=
  if ReceiverChainIsSource packet.(SourcePort) packet.(SourceChannel) data.(fd_Denom) then true
  else CheckEntryPermissions mintedDenomEntry [Permission_IBCIMPORT].

(** [s[n:]] *)
Definition string_from (n : nat) (s : string) : res string :=
  if (String.length s <? n)%nat then Panic
  else Ok (String.substring n (String.length s - n) s).
Definition GetMintedDenomFromPacket (packet : Packet) (data : FungibleTokenPacketData) : res string :=
  if ReceiverChainIsSource packet.(SourcePort) packet.(SourceChannel) data.(fd_Denom) then
    denom ← string_from
      (String.length (GetDenomPrefix packet.(SourcePort) packet.(SourceChannel))) data.(fd_Denom);
    let denomTrace := ParseDenomTrace denom in
    Ok (if negb (String.eqb denomTrace.(dt_Path) "") then IBCDenom denomTrace else denom)
  else
    Ok (IBCDenom (ParseDenomTrace
          (GetDenomPrefix packet.(DestPort) packet.(DestChannel) +:+ data.(fd_Denom)))).

Definition ConvertIncomingCoins (amount : string) (diff : Z) : res Int :=
  intAmount ← ok_or ErrAnonymous (NewIntFromString amount);
  increased ← IncreasePrecision (NewDec intAmount) diff;
  truncated ← DecTruncateInt increased;
  NewIntFromBigInt truncated.

Definition ExecConvForIncomingCoins (mintedDenomEntry convertToDenomEntry : RegistryEntry)
    (packet : Packet) (data : FungibleTokenPacketData) : M unit :=
  receiver ← lift (AccAddressFromBech32 data.(fd_Receiver));
  amount ← lift (ok_or ErrAnonymous (NewIntFromString data.(fd_Amount)));
  incoming ← lift (NewCoin mintedDenomEntry.(re_Denom) amount);
  incomingCoins ← lift (NewCoins [incoming]);
  _ ← SendCoinsFromAccountToModule receiver ModuleName incomingCoins;
  _ ← BurnCoins ModuleName incomingCoins;
  final ← lift (NewCoin convertToDenomEntry.(re_Denom) amount);
  finalCoins ← lift (NewCoins [final]);
  finalCoins ←
    (if mintedDenomEntry.(Decimals) <? convertToDenomEntry.(Decimals) then
       let diff := uint64 (int64 (convertToDenomEntry.(Decimals) - mintedDenomEntry.(Decimals))) in
       convAmount ← lift (ConvertIncomingCoins data.(fd_Amount) diff);
       final ← lift (NewCoin convertToDenomEntry.(re_Denom) convAmount);
       lift (NewCoins [final])
     else mret finalCoins);
  let escrowAddress := GetEscrowAddress packet.(DestPort) packet.(DestChannel) in
  _ ← SendCoins escrowAddress receiver finalCoins;
  EmitEvent EventTypeConvertReceived.
End helpers.

(** ** The message server and the packet handler *)
Section module.
Context {W : Type} {sdk : Sdk} {trunc : SdkTruncate} {coins : CoinLib} {ibc : IbcLib}
  {errs : SdkErrors} {bank : BankKeeper W} {reg : HasStore Registry W}
  {events : HasStore EventLog W} {transfer : SdkTransferKeeper W}.
Notation M := (M W).

Definition Transfer (msg : MsgTransfer) : M unit :=
  registry ← GetRegistry;
  registryEntry ← wrap_err ErrPermissionDenied (lift (GetEntry registry msg.(mt_Token).(Denom)));
  _ ← throw_if (negb (String.eqb registryEntry.(UnitDenom) "")
                && negb (String.eqb registryEntry.(UnitDenom) registryEntry.(re_Denom)))
        ErrPermissionDenied;
  _ ← throw_if (negb (CheckEntryPermissions registryEntry [Permission_IBCEXPORT]))
        ErrPermissionDenied;
  _ ← throw_if (msg.(mt_Token).(Amount) <=? 0) ErrAmountTooLowToConvert;
  SdkTransfer msg.

(** The conversion of what has been received, when there is one to make. *)
Definition convert_received (registry : Registry) (mintedDenomEntry : RegistryEntry)
    (packet : Packet) (data : FungibleTokenPacketData) : M (error + unit) :=
  match GetEntry registry mintedDenomEntry.(UnitDenom) with
  | Ok convertToDenomEntry =>
      if (0 <? convertToDenomEntry.(Decimals)) && (0 <? mintedDenomEntry.(Decimals))
         && (mintedDenomEntry.(Decimals) <? convertToDenomEntry.(Decimals))
      then try (ExecConvForIncomingCoins mintedDenomEntry convertToDenomEntry packet data)
      else mret (inr tt)
  | Err _ => mret (inr tt)
  | Panic => panic
  end.

Definition OnRecvPacketWhitelistConvert (packet : Packet) : M Acknowledgement :=
  decoded ← try (lift (Unmarshal_PacketData packet.(PacketData)));
  match decoded with
  | inl e => mret (AckError e)
  | inr data =>
      received ← try (SdkOnRecvPacket packet data);
      match received with
      | inl e => mret (AckError e)
      | inr _ =>
          mintedDenom ← lift (GetMintedDenomFromPacket packet data);
          registry ← GetRegistry;
          found ← try (lift (GetEntry registry mintedDenom));
          match found with
          | inr mintedDenomEntry =>
              if negb (IsRecvPacketAllowed packet data mintedDenomEntry) then
                _ ← EmitEvent EventTypePacket; mret (AckError ErrInvalidCoins)
              else
                converted ← convert_received registry mintedDenomEntry packet data;
                match converted with
                | inl _ => mret (AckError ErrConvertingToUnitDenom)
                | inr _ => _ ← EmitEvent EventTypePacket; mret (AckResult (String (ascii_of_nat 1) ""))
                end
          | inl _ => _ ← EmitEvent EventTypePacket; mret (AckError ErrInvalidCoins)
          end
      end
  end.
End module.

(** ** The chain the theorems speak of *)
Class IbcWorld (W : Type) `{coins : CoinLib} `{bank : BankKeeper W} `{reg : HasStore Registry W}
    `{events : HasStore EventLog W} `{transfer : SdkTransferKeeper W} : Prop := {
  iw_coins :: CoinLaws coins;
  iw_bank :: BankLaws W coins bank;
  iw_registry :: StoreLaws Registry W reg;
  iw_registry_events :: StoreIndep Registry EventLog W reg events;
  iw_bank_registry :: BankFrame Registry W reg bank;
  iw_bank_events :: BankFrame EventLog W events bank;
  (* the transfer module of ibc-go knows no registry *)
  iw_transfer_registry packet data : preserves (store (S := Registry)) (SdkOnRecvPacket packet data)
}.
