(* ===== verification/Ante.v ===== *)
(** * Ante: the checks before a transaction runs

    app/ante/{ante,commission,handler_options}.go: the minimal fee of a transaction and the
    minimal commission and maximal power of validators, within the chain of checks of
    cosmos-sdk. *)

From S2P Require Import Oracle.
From S2P Require Import Prelude Sdk Rat Bank Keepers Admin ClpTypes.
Local Open Scope Z_scope.

(** ** What the checks see of a transaction; type URLs are ASCII *)
(** The messages of x/staking that the checks look into. *)
Inductive StakingMsg :=
| MsgCreateValidator (Commission_Rate : Dec)
| MsgEditValidator (CommissionRate : option Dec)
| MsgDelegate (ValidatorAddress : string) (Amount : Int)
| MsgBeginRedelegate (ValidatorSrcAddress ValidatorDstAddress : string) (Amount : Int).
(** [sdk.Msg]: its type URL, and what it is if it is one of those. *)
Record Msg := mkMsg { MsgTypeURL : string; staking_msg : option StakingMsg }.
(** [sdk.Tx]; only a [FeeTx] has a fee. *)
Record Tx := mkTx { GetMsgs : list Msg; GetFee : option Coins }.
Record DecCoin := mkDecCoin { dc_Denom : string; dc_Amount : Dec }.
(** Of [sdk.Context], what a check can change: the gas prices of this node. *)
Record AnteCtx := mkAnteCtx { MinGasPrices : list DecCoin }.

(** ** Library code *)
Definition AnteHandler (W : Type) : Type := AnteCtx → Tx → bool → M W AnteCtx.
(** A decorator is given the rest of the chain. *)
Definition AnteDecorator (W : Type) : Type := AnteHandler W → AnteHandler W.
Class AnteLib (W : Type) := {
  ChainAnteDecorators : list (AnteDecorator W) → AnteHandler W;
  DecCoin_IsValid : DecCoin → bool;
  NewDecCoins : list DecCoin → res (list DecCoin);
  (* keepers and functions that the decorators of x/auth are built from *)
  AnteAccountKeeper : Type;
  SignModeHandler : Type;
  SigGasConsumer : Type;
  DefaultSigVerificationGasConsumer : SigGasConsumer;
  SetUpContextDecorator : AnteDecorator W;
  RejectExtensionOptionsDecorator : AnteDecorator W;
  MempoolFeeDecorator : AnteDecorator W;
  ValidateBasicDecorator : AnteDecorator W;
  TxTimeoutHeightDecorator : AnteDecorator W;
  ValidateMemoDecorator : AnteAccountKeeper → AnteDecorator W;
  ConsumeGasForTxSizeDecorator : AnteAccountKeeper → AnteDecorator W;
  DeductFeeDecorator : AnteAccountKeeper → AnteDecorator W;
  SetPubKeyDecorator : AnteAccountKeeper → AnteDecorator W;
  ValidateSigCountDecorator : AnteAccountKeeper → AnteDecorator W;
  SigGasConsumeDecorator : AnteAccountKeeper → SigGasConsumer → AnteDecorator W;
  SigVerificationDecorator : AnteAccountKeeper → SignModeHandler → AnteDecorator W;
  IncrementSequenceDecorator : AnteAccountKeeper → AnteDecorator W;
  ErrLogic : error;
  ErrTxDecode : error;
  ErrNoValidatorExists : error
}.
(** x/staking: the tokens of a validator, and the pools that hold all that is delegated. *)
Class StakingPools (W : Type) `{StakingKeeper W} := {
  GetTokens : Validator → Int;
  BondDenom : W → string;
  GetBondedPool : W → AccAddress;
  GetNotBondedPool : W → AccAddress
}.

(** x/dispensation/types/keys.go, and of cosmos-sdk the types of messages of x/bank and x/gov *)
Definition MsgTypeCreateDistribution : string := "createDistribution".
Definition MsgTypeRunDistribution : string := "runDistribution".
Definition TypeMsgSend : string := "send".
Definition TypeMsgMultiSend : string := "multisend".
Definition TypeMsgSubmitProposal : string := "submit_proposal".

(** ** Fees (ante.go) *)
Definition is_dispensation (msg : Msg) : bool :=
  Contains (ToLower msg.(MsgTypeURL)) (ToLower MsgTypeCreateDistribution)
  || Contains (ToLower msg.(MsgTypeURL)) (ToLower MsgTypeRunDistribution).
(** The condition of the first branch of the loop. *)
Definition high_fee_msg (url : string) : bool :=
  Contains url (ToLower TypeMsgSend) || Contains url (ToLower TypeMsgMultiSend)
  || Contains url "createuserclaim" || Contains url "swap" || Contains url "removeliquidity"
  || Contains url "removeliquidityunits" || Contains url "addliquidity".
Definition high_fee : Int := 100000000000000000.
Definition transfer_fee : Int := 10000000000000000.
(** The body of the loop over the messages. *)
Definition min_fee_step `{Sdk} (submitProposalFee : Uint) (minFee : Int) (msg : Msg) : res Int :=
  let msgTypeURLLower := ToLower msg.(MsgTypeURL) in
  if high_fee_msg msgTypeURLLower then Ok high_fee
  else if Contains msgTypeURLLower "transfer" && (minFee <=? transfer_fee) then Ok transfer_fee
  else if Contains msgTypeURLLower "submitproposal" || Contains msgTypeURLLower TypeMsgSubmitProposal
  then NewIntFromBigInt submitProposalFee
  else Ok minFee.
(** The last of the fees in fury. *)
Definition fury_fee (fees : Coins) : Int :=
  foldl (λ furyFee fee, if String.eqb GetSettlementAsset.(Symbol) fee.(Denom) then fee.(Amount)
                        else furyFee) 0 fees.

Section ante.
Context {W : Type} {sdk : Sdk} {coins : CoinLib} {bank : BankKeeper W} {errs : SdkErrors}
  {adm : HasStore AdminStore W} {vals : ValAddressLib} {staking : StakingKeeper W}
  {pools : StakingPools W} {lib : AnteLib W}.
Notation M := (M W).

Definition AdjustGasPriceDecorator : AnteDecorator W := λ next ctx tx simulate,
  adminParams ← Admin.GetParams;
  let submitProposalFee := adminParams.(SubmitProposalFee) in
  let msgs := tx.(GetMsgs) in
  if match msgs with [msg] => is_dispensation msg | _ => false end then
    price ← lift (MustNewDecFromStr "0.00000005");
    let minGasPrice := mkDecCoin "fury" price in
    _ ← throw_if (negb (DecCoin_IsValid minGasPrice)) ErrLogic;
    prices ← lift (NewDecCoins [minGasPrice]);
    next (mkAnteCtx prices) tx simulate
  else
    minFee ← lift (foldR (λ minFee msg, min_fee_step submitProposalFee minFee msg) 0 msgs);
    if minFee =? 0 then next ctx tx simulate
    else
      match tx.(GetFee) with
      | None => throw ErrTxDecode
      | Some fees =>
          let furyFee := fury_fee fees in
          _ ← throw_if (furyFee <=? 0) ErrLogic;
          _ ← throw_if (furyFee <? minFee) ErrLogic;
          next ctx tx simulate
      end.

(** ** Commission and power of validators (commission.go) *)
Definition MinCommission : Dec := NewDecWithPrec 5 2.
Definition maxVotingPower : Dec := NewDecWithPrec 66 1.

Definition getValidator (w : W) (bech32ValAddr : string) : res Validator :=
  match ValAddressFromBech32 bech32ValAddr with
  | Ok valAddr => ok_or ErrNoValidatorExists (GetValidator w valAddr)
  | Err _ => Err ErrInvalidAddress
  | Panic => Panic
  end.
Definition getTotalDelegatedTokens (w : W) : res Int :=
  let bondDenom := BondDenom w in
  let notBondedAmount := (GetBalance w (GetNotBondedPool w) bondDenom).(Bank.Amount) in
  let bondedAmount := (GetBalance w (GetBondedPool w) bondDenom).(Bank.Amount) in
  IntAdd notBondedAmount bondedAmount.
Definition CalculateDelegateProjectedVotingPower (w : W) (validator : Validator)
    (delegateAmount : Dec) : res Dec :=
  let validatorTokens := NewDec (GetTokens validator) in
  total ← getTotalDelegatedTokens w;
  projectedTotalDelegatedTokens ← DecAdd (NewDec total) delegateAmount;
  projectedValidatorTokens ← DecAdd validatorTokens delegateAmount;
  q ← DecQuo projectedValidatorTokens projectedTotalDelegatedTokens;
  DecMul q (NewDec 100).
Definition CalculateRedelegateProjectedVotingPower (w : W) (validator : Validator)
    (delegateAmount : Dec) : res Dec :=
  let validatorTokens := NewDec (GetTokens validator) in
  total ← getTotalDelegatedTokens w;
  let projectedTotalDelegatedTokens := NewDec total in
  projectedValidatorTokens ← DecAdd validatorTokens delegateAmount;
  q ← DecQuo projectedValidatorTokens projectedTotalDelegatedTokens;
  DecMul q (NewDec 100).

Definition validateMsg (w : W) (msg : Msg) : res unit :=
  let refuse_if (c : bool) := if c then Err ErrInvalidRequest else Ok tt in
  match msg.(staking_msg) with
  | Some (MsgCreateValidator rate) => refuse_if (rate <? MinCommission)
  | Some (MsgEditValidator None) => Ok tt
  | Some (MsgEditValidator (Some rate)) => refuse_if (rate <? MinCommission)
  | Some (MsgDelegate address amount) =>
      val ← getValidator w address;
      projectedVotingPower ← CalculateDelegateProjectedVotingPower w val (NewDec amount);
      refuse_if (maxVotingPower <=? projectedVotingPower)
  | Some (MsgBeginRedelegate src dst amount) =>
      dstVal ← getValidator w dst;
      let delegateAmount := if String.eqb src dst then ZeroDec else NewDec amount in
      projectedVotingPower ← CalculateRedelegateProjectedVotingPower w dstVal delegateAmount;
      refuse_if (maxVotingPower <=? projectedVotingPower)
  | None => Ok tt
  end.
Definition ValidateMinCommissionDecorator : AnteDecorator W := λ next ctx tx simulate,
  _ ← forM (λ msg, w ← get; lift (validateMsg w msg)) tx.(GetMsgs);
  next ctx tx simulate.

(** ** The chain of checks (handler_options.go, ante.go)

    What is missing is [nil]; the other keepers of the options are the chain itself. *)
Record HandlerOptions := mkHandlerOptions {
  o_AccountKeeper : option AnteAccountKeeper;
  o_SignModeHandler : option SignModeHandler;
  o_SigGasConsumer : option SigGasConsumer
}.
Definition NewAnteHandler (options : HandlerOptions) : res (AnteHandler W) :=
  match options.(o_AccountKeeper), options.(o_SignModeHandler) with
  | None, _ => Err ErrLogic
  | _, None => Err ErrLogic
  | Some accountKeeper, Some signModeHandler =>
      let sigGasConsumer := default DefaultSigVerificationGasConsumer options.(o_SigGasConsumer) in
      Ok (ChainAnteDecorators [
        SetUpContextDecorator;
        AdjustGasPriceDecorator;
        RejectExtensionOptionsDecorator;
        MempoolFeeDecorator;
        ValidateBasicDecorator;
        TxTimeoutHeightDecorator;
        ValidateMemoDecorator accountKeeper;
        ConsumeGasForTxSizeDecorator accountKeeper;
        DeductFeeDecorator accountKeeper;
        ValidateMinCommissionDecorator;
        SetPubKeyDecorator accountKeeper;
        ValidateSigCountDecorator accountKeeper;
        SigGasConsumeDecorator accountKeeper sigGasConsumer;
        SigVerificationDecorator accountKeeper signModeHandler;
        IncrementSequenceDecorator accountKeeper])
  end.
End ante.

(** A chain runs its decorators from the outside in; one that lets a transaction pass has let the
    rest of the chain see it, and those of cosmos-sdk keep the parameters of x/admin. *)
Definition lets_through {W : Type} (keeps : W → W → Prop) (d : AnteDecorator W) : Prop :=
  ∀ next ctx tx simulate w c w',
    d next ctx tx simulate w = (Ok c, w') →
    ∃ ctx1 w1 c1 w2, keeps w w1 ∧ next ctx1 tx simulate w1 = (Ok c1, w2).
Class AnteLaws (W : Type) `(Sdk) `(HasStore AdminStore W) `(AnteLib W) : Prop := {
  chain_cons d ds ctx tx simulate :
    ChainAnteDecorators (d :: ds) ctx tx simulate = d (ChainAnteDecorators ds) ctx tx simulate;
  sdk_decorators_let_through :
    let same_admin w w' := store (S := AdminStore) w' = store (S := AdminStore) w in
    lets_through same_admin SetUpContextDecorator ∧
    lets_through same_admin RejectExtensionOptionsDecorator ∧
    lets_through same_admin MempoolFeeDecorator ∧
    lets_through same_admin ValidateBasicDecorator ∧
    lets_through same_admin TxTimeoutHeightDecorator ∧
    (∀ k, lets_through same_admin (ValidateMemoDecorator k)) ∧
    (∀ k, lets_through same_admin (ConsumeGasForTxSizeDecorator k)) ∧
    (∀ k, lets_through same_admin (DeductFeeDecorator k));
  (* the numerals of the code, and a positive price is a set of prices *)
  low_price_parses : NewDecFromStr "0.00000005" = Ok (NewDecWithPrec 5 8);
  default_fee_parses : NewUintFromString "5000000000000000000000" = Ok (5000 * 10 ^ 18);
  fury_price p : 0 < p → DecCoin_IsValid (mkDecCoin "fury" p) = true
    ∧ NewDecCoins [mkDecCoin "fury" p] = Ok [mkDecCoin "fury" p]
}.
Class StakingPoolsLaws (W : Type) `(StakingPools W) : Prop := {
  tokens_nonneg v : 0 <= GetTokens v
}.
