(* ===== verification/Migrations.v ===== *)
(** * Migrations: upgrading a running chain and an exported genesis

    The migrations of x/clp and x/margin (keeper/migrations.go), which run once in an upgrade of the
    chain, and the migration of a genesis exported by version 0.39 (x/{clp,oracle,ethbridge}/legacy,
    cmd/blackfuryd/cmd/migrate.go). *)

From S2P Require Import Disp Oracle EthBridge MarginTypes Margin.
From S2P Require Import Prelude Sdk Rat Bank Keepers ClpTypes ClpMath ClpKeeper ClpModule.
Local Open Scope Z_scope.

Section migrator.
Context {W : Type} {sdk : Sdk} {coins : CoinLib} {bank : BankKeeper W} {paginator : Paginator}
  {registry : TokenRegistryKeeper W} {clp : HasStore ClpStore W} {events : HasStore EventLog W}
  {margin : HasStore MarginStore W} {float : MarginFloat}.
Notation M := (M W).

(** ** x/clp *)
Definition reset_pool (pool : Pool) : Pool :=
  pool <| SwapPriceExternal := Some ZeroDec |> <| SwapPriceNative := Some ZeroDec |>
       <| RewardPeriodNativeDistributed := 0 |>.
Definition MigrateToVer2 : M unit :=
  _ ← SetRewardParams GetDefaultRewardParams;
  _ ← SetPmtpRateParams (mkPmtpRateParams ZeroDec ZeroDec ZeroDec);
  _ ← SetPmtpEpoch (mkPmtpEpoch 0 0);
  pmtp ← lift GetDefaultPmtpParams;
  _ ← SetPmtpParams pmtp;
  _ ← SetPmtpInterPolicyRate (NewDec 0);
  pools ← GetPools;
  forM (λ pool, on_err (SetPool (reset_pool pool)) (λ _, panic)) pools.

Definition removed_units : list (string * string) := [
  ("black1smknl4uf89ef84kg020ff7ask7l0sxz3s93gva", "49661617604396299845632");
  ("black1gy2ne7m62uer4h5s4e7xlfq7aeem5zpwx6nu9q", "57436791960686469054464");
  ("black1uk77p6he26undp9wjjav6ygtu53kswl60cd5va", "54301402049261093257216");
  ("black1hspkfnzexvn4drk9dlfpg8n0ppw8sxsl00t65a", "55396192200751201648640");
  ("black1y2rfrgh374gd40gj0yusjasw2paaysahu9qk5j", "138696029054663414251520");
  ("black1ra9563z5tn2lmqhydt2atrgzftk2d7umyr4vqw", "139123862445111950442496")].
(** A provider that is not there is passed over; the error of [SetPool] is not looked at. *)
Definition remove_units (symbol : string) (lp : string * Uint) : M unit :=
  found ← try (GetLiquidityProvider symbol lp.1);
  match found with
  | inl _ => mret tt
  | inr l =>
      pool ← on_err (GetPool symbol) (λ _, panic);
      units ← lift (UintSub l.(LiquidityProviderUnits) lp.2);
      _ ← SetLiquidityProvider (l <| LiquidityProviderUnits := units |>);
      poolUnits ← lift (UintSub pool.(PoolUnits) lp.2);
      _ ← try (SetPool (pool <| PoolUnits := poolUnits |>));
      mret tt
  end.
Definition MigrateToVer3 : M unit :=
  lps ← lift (foldR (λ lps lp, units ← must (NewUintFromString (lp : string * string).2);
                Ok (lps ++ [(lp.1, units)])) [] removed_units);
  forM (remove_units "cusdc") lps.
Definition MigrateToVer4 : M unit := ClpKeeper.SetParams ClpTypes.DefaultParams.
(** module.go registers them for the versions 1, 2 and 3. *)
Definition clp_migration (from : Z) : option (M unit) :=
  if from =? 1 then Some MigrateToVer2
  else if from =? 2 then Some MigrateToVer3
  else if from =? 3 then Some MigrateToVer4 else None.

(** ** x/margin *)
Definition margin_MigrateToVer2 : M unit :=
  params ← Margin.GetParams; Margin.SetParams (params <| FuryCollateralEnabled := false |>).
End migrator.

(** ** The genesis of version 0.39 (x/clp/legacy, x/oracle/legacy, x/ethbridge/legacy) *)
Record Pool39 := mkPool39 {
  p39_ExternalAsset : string; p39_NativeAssetBalance : Uint; p39_ExternalAssetBalance : Uint; p39_PoolUnits : Uint
}.
Record LiquidityProvider39 := mkLiquidityProvider39 {
  l39_Asset : string; l39_LiquidityProviderUnits : Uint; l39_LiquidityProviderAddress : AccAddress
}.
Record ClpGenesis39 := mkClpGenesis39 {
  c39_MinCreatePoolThreshold : Z; c39_AddressWhitelist : list AccAddress; c39_PoolList : list Pool39;
  c39_LiquidityProviderList : list LiquidityProvider39
}.
Inductive StatusText39 := PendingStatusText | SuccessStatusText | FailedStatusText.
Record DBProphecy39 := mkDBProphecy39 {
  d39_ID : string; d39_Text : StatusText39; d39_FinalClaim : string; d39_ClaimValidators : string;
  d39_ValidatorClaims : string
}.
Record OracleGenesis39 := mkOracleGenesis39 {
  o39_AddressWhitelist : list ValAddress; o39_AdminAddress : AccAddress; o39_Prophecies : list DBProphecy39
}.
Record EthBridgeGenesis39 := mkEthBridgeGenesis39 {
  e39_PeggyTokens : list string; e39_CethReceiverAccount : AccAddress
}.

(** The text of a status in JSON; another text is pending. *)
Definition StatusTextToString (text : StatusText39) : string :=
  match text with
  | PendingStatusText => "pending" | SuccessStatusText => "success" | FailedStatusText => "failed"
  end.
Definition StringToStatusText (s : string) : StatusText39 :=
  if String.eqb s "success" then SuccessStatusText
  else if String.eqb s "failed" then FailedStatusText else PendingStatusText.

Section genesis.
Context {coins : CoinLib} {vals : ValAddressLib}.

(** Numbers that are not given are zero, as the JSON of their missing values reads. *)
Definition migrate_pool (pool : Pool39) : Pool :=
  mkPool (mkAsset pool.(p39_ExternalAsset)) pool.(p39_NativeAssetBalance) pool.(p39_ExternalAssetBalance)
    pool.(p39_PoolUnits) None None 0 0 0 0 0 0 0 0 0 0 0 0.
Definition migrate_lp (lp : LiquidityProvider39) : LiquidityProvider :=
  mkLP (mkAsset lp.(l39_Asset)) lp.(l39_LiquidityProviderUnits) (AccString lp.(l39_LiquidityProviderAddress)) [].
Definition clp_Migrate (genesis : ClpGenesis39) : ClpModule.GenesisState :=
  ClpModule.mkGenesisState
    (ClpTypes.mkParams genesis.(c39_MinCreatePoolThreshold) false)
    (AccString <$> genesis.(c39_AddressWhitelist)) (migrate_pool <$> genesis.(c39_PoolList))
    (migrate_lp <$> genesis.(c39_LiquidityProviderList)).
Definition migrate_status (text : StatusText39) : StatusText :=
  match text with
  | PendingStatusText => STATUS_TEXT_PENDING
  | FailedStatusText => STATUS_TEXT_FAILED
  | SuccessStatusText => STATUS_TEXT_SUCCESS
  end.
Definition oracle_Migrate (genesis : OracleGenesis39) : Oracle.GenesisState :=
  Oracle.mkGenesisState (Some (ValString <$> genesis.(o39_AddressWhitelist)))
    (AccString genesis.(o39_AdminAddress))
    ((λ legacy, mkDBProphecy legacy.(d39_ID) (mkStatus (migrate_status legacy.(d39_Text)) legacy.(d39_FinalClaim))
        legacy.(d39_ClaimValidators) legacy.(d39_ValidatorClaims)) <$> genesis.(o39_Prophecies)).
Definition ethbridge_Migrate (state : EthBridgeGenesis39) : EthBridge.GenesisState :=
  EthBridge.mkGenesisState (AccString state.(e39_CethReceiverAccount)) state.(e39_PeggyTokens).

(** *** The whole genesis (cmd/blackfuryd/cmd/migrate.go) *)
(** The JSON of the parts, by the codecs of both versions, and the genesis of x/evidence. *)
Class GenesisJson := {
  Unmarshal39_clp : string → res ClpGenesis39;
  Unmarshal39_ethbridge : string → res EthBridgeGenesis39;
  Unmarshal39_oracle : string → res OracleGenesis39;
  Unmarshal39_dispensation : string → res Disp.V39.GenesisState39;
  Marshal_clp : ClpModule.GenesisState → res string;
  Marshal_ethbridge : EthBridge.GenesisState → res string;
  Marshal_oracle : Oracle.GenesisState → res string;
  Marshal_dispensation : Disp.GenesisState → res string;
  evidence_DefaultGenesisState : string
}.
Context {coinslib : CoinsLib} {json : GenesisJson}.
(** The part of a module, if there is one, is read, migrated and written again. *)
Definition migrate_part {A B} (name : string) (unmarshal : string → res A) (migrate : A → res B)
    (marshal : B → res string) (appState : gmap string string) : res (gmap string string) :=
  match appState !! name with
  | None => Ok appState
  | Some bz =>
      genesis ← must (unmarshal bz);
      newGenesis ← migrate genesis;
      bz ← must (marshal newGenesis);
      Ok (<[name := bz]> appState)
  end.
Definition Migrate_genesis (appState : gmap string string) : res (gmap string string) :=
  appState ← migrate_part "clp" Unmarshal39_clp (λ g, Ok (clp_Migrate g)) Marshal_clp appState;
  appState ← migrate_part "ethbridge" Unmarshal39_ethbridge (λ g, Ok (ethbridge_Migrate g)) Marshal_ethbridge appState;
  appState ← migrate_part "oracle" Unmarshal39_oracle (λ g, Ok (oracle_Migrate g)) Marshal_oracle appState;
  appState ← migrate_part "dispensation" Unmarshal39_dispensation Disp.V39.Migrate Marshal_dispensation appState;
  Ok (match appState !! "evidence" with
      | None => <["evidence" := evidence_DefaultGenesisState]> appState
      | Some _ => appState
      end).
(** *** The command *)
Definition GetMigrationCallback (version : string) : option (gmap string string → res (gmap string string)) :=
  if String.eqb version "v0.9" then Some Migrate_genesis else None.
End genesis.
