(* ===== verification/Messages.v ===== *)
(** * Messages: what cosmos-sdk asks of a message

    The interface of a legacy message (its route, type, validation, bytes to sign and signers) and
    its implementation by every message of the modules (x/*/types/msgs.go). *)

From S2P Require Import Prelude Sdk Rat Bank Keepers Admin Registry RegistryModule.
From S2P Require Import Disp Oracle EthBridge MarginTypes Margin MarginServer.
From S2P Require Import ClpTypes ClpMath ClpKeeper ClpLiquidity ClpMsgs ClpModule.
Local Open Scope Z_scope.

(** [legacytx.LegacyMsg].  Validation answers the message as it leaves it: the one of a distribution
    sorts coins in place. *)
Class LegacyMsg (A : Type) := {
  Route : A → string;
  MsgType : A → string;
  ValidateBasic : A → res A;
  GetSignBytes : A → res string;
  GetSigners : A → res (list AccAddress)
}.
(** The JSON of a message, by the amino codec of its module and by encoding/json, and
    [sdk.SortJSON]. *)
Class SignJson := {
  Codec_MarshalJSON {A} : A → res string;
  json_Marshal {A} : A → res string;
  SortJSON : string → res string
}.

(** [MsgUpdateStakingRewardParams] carries the parameters of the mint module. *)
Record MsgUpdateStakingRewardParams (W : Type) `{MintKeeper W} := mkMsgUpdateStakingRewardParams {
  us_Signer : string; us_Minter : Minter; us_Params : MintParams
}.
Arguments us_Signer {_ _}.
Arguments us_Params {_ _}.

(** The key of the routes of a module is its name. *)
Definition admin_RouterKey : string := "admin".
Definition registry_RouterKey : string := "tokenregistry".
Definition MsgTypeCreateUserClaim : string := "createUserClaim".
Definition MsgTypeRunDistribution : string := "runDistribution".
Definition MsgTypeCreateDistribution : string := "createDistribution".

Section messages.
Context {sdk : Sdk} {coins : CoinLib} {coinslib : CoinsLib} {vals : ValAddressLib} {eth : EthLib}
  {errs : SdkErrors} {json : SignJson}.

(** [sdk.MustSortJSON(ModuleCdc.MustMarshalJSON(&m))], and the same with encoding/json. *)
Definition sign_bytes {A} (m : A) : res string :=
  bz ← must (Codec_MarshalJSON m); must (SortJSON bz).
Definition json_sign_bytes {A} (m : A) : res string :=
  b ← must (json_Marshal m); must (SortJSON b).
(** A validation that does not change the message. *)
Definition kept {A} (f : A → res unit) (m : A) : res A := _ ← f m; Ok m.

(** *** x/clp *)
#[export] Instance MsgCancelUnlock_msg : LegacyMsg MsgCancelUnlock := {
  Route _ := ClpTypes.ModuleName; MsgType _ := "cancel_unlock"; ValidateBasic := kept ClpMsgs.MsgCancelUnlock_ValidateBasic;
  GetSignBytes := sign_bytes; GetSigners m := ClpMsgs.GetSigners m.(cu_Signer)
}.
#[export] Instance MsgUpdateStakingRewardParams_msg {W} `{MintKeeper W}
    : LegacyMsg (MsgUpdateStakingRewardParams W) := {
  Route _ := ClpTypes.ModuleName; MsgType _ := "update_staking_reward";
  ValidateBasic := kept (λ m, MintParams_Validate m.(us_Params));
  GetSignBytes := sign_bytes; GetSigners m := ClpMsgs.GetSigners m.(us_Signer)
}.
#[export] Instance MsgAddRewardPeriodRequest_msg : LegacyMsg MsgAddRewardPeriodRequest := {
  Route _ := ClpTypes.ModuleName; MsgType _ := "add_reward_period"; ValidateBasic := kept ClpMsgs.MsgAddRewardPeriodRequest_ValidateBasic;
  GetSignBytes := sign_bytes; GetSigners m := ClpMsgs.GetSigners m.(arp_Signer)
}.
#[export] Instance MsgUpdateRewardsParamsRequest_msg : LegacyMsg MsgUpdateRewardsParamsRequest := {
  Route _ := ClpTypes.ModuleName; MsgType _ := "update_reward_params"; ValidateBasic := kept ClpMsgs.MsgUpdateRewardsParamsRequest_ValidateBasic;
  GetSignBytes := sign_bytes; GetSigners m := ClpMsgs.GetSigners m.(urp_Signer)
}.
#[export] Instance MsgUpdatePmtpParams_msg : LegacyMsg MsgUpdatePmtpParams := {
  Route _ := ClpTypes.ModuleName; MsgType _ := "update_pmtp_params"; ValidateBasic := kept ClpMsgs.MsgUpdatePmtpParams_ValidateBasic;
  GetSignBytes := sign_bytes; GetSigners m := ClpMsgs.GetSigners m.(up_Signer)
}.
#[export] Instance MsgModifyPmtpRates_msg : LegacyMsg MsgModifyPmtpRates := {
  Route _ := ClpTypes.ModuleName; MsgType _ := "modify_pmtp_rates"; ValidateBasic := kept ClpMsgs.MsgModifyPmtpRates_ValidateBasic;
  GetSignBytes := sign_bytes; GetSigners m := ClpMsgs.GetSigners m.(mp_Signer)
}.
#[export] Instance MsgDecommissionPool_msg : LegacyMsg MsgDecommissionPool := {
  Route _ := ClpTypes.ModuleName; MsgType _ := "decommission_pool"; ValidateBasic := kept ClpMsgs.MsgDecommissionPool_ValidateBasic;
  GetSignBytes := sign_bytes; GetSigners m := ClpMsgs.GetSigners m.(dp_Signer)
}.
#[export] Instance MsgSwap_msg : LegacyMsg MsgSwap := {
  Route _ := ClpTypes.ModuleName; MsgType _ := "swap"; ValidateBasic := kept ClpMsgs.MsgSwap_ValidateBasic;
  GetSignBytes := sign_bytes; GetSigners m := ClpMsgs.GetSigners m.(sw_Signer)
}.
#[export] Instance MsgRemoveLiquidity_msg : LegacyMsg MsgRemoveLiquidity := {
  Route _ := ClpTypes.ModuleName; MsgType _ := "remove_liquidity"; ValidateBasic := kept ClpMsgs.MsgRemoveLiquidity_ValidateBasic;
  GetSignBytes := sign_bytes; GetSigners m := ClpMsgs.GetSigners m.(rl_Signer)
}.
#[export] Instance MsgRemoveLiquidityUnits_msg : LegacyMsg MsgRemoveLiquidityUnits := {
  Route _ := ClpTypes.ModuleName; MsgType _ := "remove_liquidity"; ValidateBasic := kept ClpMsgs.MsgRemoveLiquidityUnits_ValidateBasic;
  GetSignBytes := sign_bytes; GetSigners m := ClpMsgs.GetSigners m.(rlu_Signer)
}.
#[export] Instance MsgAddLiquidity_msg : LegacyMsg MsgAddLiquidity := {
  Route _ := ClpTypes.ModuleName; MsgType _ := "add_liquidity"; ValidateBasic := kept ClpMsgs.MsgAddLiquidity_ValidateBasic;
  GetSignBytes := sign_bytes; GetSigners m := ClpMsgs.GetSigners m.(al_Signer)
}.
#[export] Instance MsgCreatePool_msg : LegacyMsg MsgCreatePool := {
  Route _ := ClpTypes.ModuleName; MsgType _ := "create_pool"; ValidateBasic := kept ClpMsgs.MsgCreatePool_ValidateBasic;
  GetSignBytes := sign_bytes; GetSigners m := ClpMsgs.GetSigners m.(cp_Signer)
}.
#[export] Instance MsgUnlockLiquidityRequest_msg : LegacyMsg MsgUnlockLiquidityRequest := {
  Route _ := ClpTypes.ModuleName; MsgType _ := "unlock_liquidity"; ValidateBasic := kept ClpMsgs.MsgUnlockLiquidityRequest_ValidateBasic;
  GetSignBytes := sign_bytes; GetSigners m := ClpMsgs.GetSigners m.(ul_Signer)
}.
#[export] Instance MsgSetSymmetryThreshold_msg : LegacyMsg MsgSetSymmetryThreshold := {
  Route _ := ClpTypes.ModuleName; MsgType _ := "set_symmetry_threshold"; ValidateBasic := kept ClpMsgs.MsgSetSymmetryThreshold_ValidateBasic;
  GetSignBytes := sign_bytes; GetSigners m := ClpMsgs.GetSigners m.(st_Signer)
}.
#[export] Instance MsgUpdateLiquidityProtectionParams_msg : LegacyMsg MsgUpdateLiquidityProtectionParams := {
  Route _ := ClpTypes.ModuleName; MsgType _ := "update_liquidity_protection_params"; ValidateBasic := kept ClpMsgs.MsgUpdateLiquidityProtectionParams_ValidateBasic;
  GetSignBytes := sign_bytes; GetSigners m := ClpMsgs.GetSigners m.(ulp_Signer)
}.
#[export] Instance MsgModifyLiquidityProtectionRates_msg : LegacyMsg MsgModifyLiquidityProtectionRates := {
  Route _ := ClpTypes.ModuleName; MsgType _ := "modify_liquidity_protection_rates"; ValidateBasic := kept ClpMsgs.MsgModifyLiquidityProtectionRates_ValidateBasic;
  GetSignBytes := sign_bytes; GetSigners m := ClpMsgs.GetSigners m.(mlr_Signer)
}.
#[export] Instance MsgAddProviderDistributionPeriodRequest_msg : LegacyMsg MsgAddProviderDistributionPeriodRequest := {
  Route _ := ClpTypes.ModuleName; MsgType _ := "add_provider_distribution_period"; ValidateBasic := kept ClpMsgs.MsgAddProviderDistributionPeriodRequest_ValidateBasic;
  GetSignBytes := sign_bytes; GetSigners m := ClpMsgs.GetSigners m.(apd_Signer)
}.
#[export] Instance MsgUpdateSwapFeeParamsRequest_msg : LegacyMsg MsgUpdateSwapFeeParamsRequest := {
  Route _ := ClpTypes.ModuleName; MsgType _ := "update_swap_fee_rate"; ValidateBasic := kept ClpMsgs.MsgUpdateSwapFeeParamsRequest_ValidateBasic;
  GetSignBytes := sign_bytes; GetSigners m := ClpMsgs.GetSigners m.(usf_Signer)
}.
(** *** x/margin *)
#[export] Instance MsgOpen_msg : LegacyMsg MsgOpen := {
  Route _ := MarginTypes.ModuleName; MsgType _ := "open"; ValidateBasic := kept MarginTypes.MsgOpen_ValidateBasic;
  GetSignBytes := sign_bytes; GetSigners m := ClpMsgs.GetSigners m.(mo_Signer)
}.
#[export] Instance MsgClose_msg : LegacyMsg MsgClose := {
  Route _ := MarginTypes.ModuleName; MsgType _ := "close"; ValidateBasic := kept MarginTypes.MsgClose_ValidateBasic;
  GetSignBytes := sign_bytes; GetSigners m := ClpMsgs.GetSigners m.(mc_Signer)
}.
#[export] Instance MsgForceClose_msg : LegacyMsg MsgForceClose := {
  Route _ := MarginTypes.ModuleName; MsgType _ := "force_close"; ValidateBasic := kept MarginTypes.MsgForceClose_ValidateBasic;
  GetSignBytes := sign_bytes; GetSigners m := ClpMsgs.GetSigners m.(fc_Signer)
}.
#[export] Instance MsgUpdateParams_msg : LegacyMsg MsgUpdateParams := {
  Route _ := MarginTypes.ModuleName; MsgType _ := "update_params"; ValidateBasic := kept MarginTypes.MsgUpdateParams_ValidateBasic;
  GetSignBytes := sign_bytes; GetSigners m := ClpMsgs.GetSigners m.(mup_Signer)
}.
#[export] Instance MsgUpdatePools_msg : LegacyMsg MsgUpdatePools := {
  Route _ := MarginTypes.ModuleName; MsgType _ := "update_pools"; ValidateBasic := kept MarginTypes.MsgUpdatePools_ValidateBasic;
  GetSignBytes := sign_bytes; GetSigners m := ClpMsgs.GetSigners m.(mpl_Signer)
}.
#[export] Instance MsgUpdateFuryCollateral_msg : LegacyMsg MsgUpdateFuryCollateral := {
  Route _ := MarginTypes.ModuleName; MsgType _ := "update_fury_collateral"; ValidateBasic := kept MarginTypes.MsgUpdateFuryCollateral_ValidateBasic;
  GetSignBytes := sign_bytes; GetSigners m := ClpMsgs.GetSigners m.(ufc_Signer)
}.
#[export] Instance MsgWhitelist_msg : LegacyMsg MsgWhitelist := {
  Route _ := MarginTypes.ModuleName; MsgType _ := "whitelist"; ValidateBasic := kept MarginTypes.MsgWhitelist_ValidateBasic;
  GetSignBytes := sign_bytes; GetSigners m := ClpMsgs.GetSigners m.(wl_Signer)
}.
#[export] Instance MsgDewhitelist_msg : LegacyMsg MsgDewhitelist := {
  Route _ := MarginTypes.ModuleName; MsgType _ := "dewhitelist"; ValidateBasic := kept MarginTypes.MsgDewhitelist_ValidateBasic;
  GetSignBytes := sign_bytes; GetSigners m := ClpMsgs.GetSigners m.(dw_Signer)
}.
#[export] Instance MsgAdminClose_msg : LegacyMsg MsgAdminClose := {
  Route _ := MarginTypes.ModuleName; MsgType _ := "admin_close"; ValidateBasic := kept MarginTypes.MsgAdminClose_ValidateBasic;
  GetSignBytes := sign_bytes; GetSigners m := ClpMsgs.GetSigners m.(ac_Signer)
}.
#[export] Instance MsgAdminCloseAll_msg : LegacyMsg MsgAdminCloseAll := {
  Route _ := MarginTypes.ModuleName; MsgType _ := "admin_close_all"; ValidateBasic := kept MarginTypes.MsgAdminCloseAll_ValidateBasic;
  GetSignBytes := sign_bytes; GetSigners m := ClpMsgs.GetSigners m.(aca_Signer)
}.
(** *** x/ethbridge *)
#[export] Instance MsgPause_msg : LegacyMsg MsgPause := {
  Route _ := EthBridge.ModuleName; MsgType _ := "pause"; ValidateBasic := kept EthBridge.MsgPause_ValidateBasic;
  GetSignBytes := sign_bytes; GetSigners m := EthBridge.GetSigners (EthBridge.AMsgPause m)
}.
#[export] Instance MsgLock_msg : LegacyMsg MsgLock := {
  Route _ := EthBridge.ModuleName; MsgType _ := "lock"; ValidateBasic := kept EthBridge.MsgLock_ValidateBasic;
  GetSignBytes := sign_bytes; GetSigners m := EthBridge.GetSigners (EthBridge.AMsgLock m)
}.
#[export] Instance MsgBurn_msg : LegacyMsg MsgBurn := {
  Route _ := EthBridge.ModuleName; MsgType _ := "burn"; ValidateBasic := kept EthBridge.MsgBurn_ValidateBasic;
  GetSignBytes := sign_bytes; GetSigners m := EthBridge.GetSigners (EthBridge.AMsgBurn m)
}.
#[export] Instance MsgCreateEthBridgeClaim_msg : LegacyMsg MsgCreateEthBridgeClaim := {
  Route _ := EthBridge.ModuleName; MsgType _ := "create_bridge_claim"; ValidateBasic := kept EthBridge.MsgCreateEthBridgeClaim_ValidateBasic;
  GetSignBytes := json_sign_bytes; GetSigners m := EthBridge.GetSigners (EthBridge.AMsgCreateEthBridgeClaim m)
}.
#[export] Instance MsgUpdateCethReceiverAccount_msg : LegacyMsg MsgUpdateCethReceiverAccount := {
  Route _ := EthBridge.ModuleName; MsgType _ := "update_ceth_receiver_account"; ValidateBasic := kept EthBridge.MsgUpdateCethReceiverAccount_ValidateBasic;
  GetSignBytes := json_sign_bytes; GetSigners m := EthBridge.GetSigners (EthBridge.AMsgUpdateCethReceiverAccount m)
}.
#[export] Instance MsgRescueCeth_msg : LegacyMsg MsgRescueCeth := {
  Route _ := EthBridge.ModuleName; MsgType _ := "rescue_ceth"; ValidateBasic := kept EthBridge.MsgRescueCeth_ValidateBasic;
  GetSignBytes := json_sign_bytes; GetSigners m := EthBridge.GetSigners (EthBridge.AMsgRescueCeth m)
}.
#[export] Instance MsgUpdateWhiteListValidator_msg : LegacyMsg MsgUpdateWhiteListValidator := {
  Route _ := EthBridge.ModuleName; MsgType _ := "update_whitelist_validator"; ValidateBasic := kept EthBridge.MsgUpdateWhiteListValidator_ValidateBasic;
  GetSignBytes := json_sign_bytes; GetSigners m := EthBridge.GetSigners (EthBridge.AMsgUpdateWhiteListValidator m)
}.
#[export] Instance MsgSetBlacklist_msg : LegacyMsg MsgSetBlacklist := {
  Route _ := EthBridge.ModuleName; MsgType _ := "setblacklist"; ValidateBasic := kept EthBridge.MsgSetBlacklist_ValidateBasic;
  GetSignBytes := sign_bytes; GetSigners m := EthBridge.GetSigners (EthBridge.AMsgSetBlacklist m)
}.
(** *** x/tokenregistry *)
#[export] Instance MsgRegister_msg : LegacyMsg MsgRegister := {
  Route _ := registry_RouterKey; MsgType _ := "register"; ValidateBasic := kept Registry.MsgRegister_ValidateBasic;
  GetSignBytes := sign_bytes; GetSigners m := ClpMsgs.GetSigners m.(rg_From)
}.
#[export] Instance MsgSetRegistry_msg : LegacyMsg MsgSetRegistry := {
  Route _ := registry_RouterKey; MsgType _ := "set_registry"; ValidateBasic := kept Registry.MsgSetRegistry_ValidateBasic;
  GetSignBytes := sign_bytes; GetSigners m := ClpMsgs.GetSigners m.(sr_From)
}.
#[export] Instance MsgDeregister_msg : LegacyMsg MsgDeregister := {
  Route _ := registry_RouterKey; MsgType _ := "deregister"; ValidateBasic := kept Registry.MsgDeregister_ValidateBasic;
  GetSignBytes := sign_bytes; GetSigners m := ClpMsgs.GetSigners m.(dr_From)
}.
(** *** x/dispensation *)
#[export] Instance MsgCreateDistribution_msg : LegacyMsg MsgCreateDistribution := {
  Route _ := Disp.ModuleName; MsgType _ := MsgTypeCreateDistribution; ValidateBasic := Disp.MsgCreateDistribution_ValidateBasic;
  GetSignBytes := sign_bytes; GetSigners m := Disp.MsgCreateDistribution_GetSigners m
}.
#[export] Instance MsgCreateUserClaim_msg : LegacyMsg MsgCreateUserClaim := {
  Route _ := Disp.ModuleName; MsgType _ := MsgTypeCreateUserClaim; ValidateBasic := kept Disp.MsgCreateUserClaim_ValidateBasic;
  GetSignBytes := sign_bytes; GetSigners m := Disp.MsgCreateUserClaim_GetSigners m
}.
#[export] Instance MsgRunDistribution_msg : LegacyMsg MsgRunDistribution := {
  Route _ := Disp.ModuleName; MsgType _ := MsgTypeRunDistribution; ValidateBasic := kept Disp.MsgRunDistribution_ValidateBasic;
  GetSignBytes := sign_bytes; GetSigners m := Disp.MsgRunDistribution_GetSigners m
}.
(** *** x/admin (its messages are not validated) *)
#[export] Instance MsgAddAccount_msg : LegacyMsg MsgAddAccount := {
  Route _ := admin_RouterKey; MsgType _ := "add_account"; ValidateBasic := Ok;
  GetSignBytes := sign_bytes; GetSigners m := ClpMsgs.GetSigners m.(ad_Signer)
}.
#[export] Instance MsgRemoveAccount_msg : LegacyMsg MsgRemoveAccount := {
  Route _ := admin_RouterKey; MsgType _ := "remove_account"; ValidateBasic := Ok;
  GetSignBytes := sign_bytes; GetSigners m := ClpMsgs.GetSigners m.(ra_Signer)
}.
#[export] Instance MsgSetParams_msg : LegacyMsg MsgSetParams := {
  Route _ := admin_RouterKey; MsgType _ := "set_params"; ValidateBasic := Ok;
  GetSignBytes := sign_bytes; GetSigners m := ClpMsgs.GetSigners m.(sp_Signer)
}.

(** ** Constructors *)
Definition NewMsgDecommissionPool (signer : AccAddress) (symbol : string) : MsgDecommissionPool :=
  mkMsgDecommissionPool (AccString signer) symbol.
Definition NewMsgSwap (signer : AccAddress) (sentAsset receivedAsset : Asset)
    (sentAmount minReceivingAmount : Uint) : MsgSwap :=
  mkMsgSwap (AccString signer) sentAsset receivedAsset sentAmount minReceivingAmount.
Definition NewMsgRemoveLiquidity (signer : AccAddress) (externalAsset : Asset) (wBasisPoints asymmetry : Int)
    : MsgRemoveLiquidity := mkMsgRemoveLiquidity (AccString signer) externalAsset wBasisPoints asymmetry.
Definition NewMsgRemoveLiquidityUnits (signer : AccAddress) (externalAsset : Asset) (withdrawUnits : Uint)
    : MsgRemoveLiquidityUnits := mkMsgRemoveLiquidityUnits (AccString signer) externalAsset withdrawUnits.
Definition NewMsgAddLiquidity (signer : AccAddress) (externalAsset : Asset)
    (nativeAssetAmount externalAssetAmount : Uint) : MsgAddLiquidity :=
  mkMsgAddLiquidity (AccString signer) externalAsset nativeAssetAmount externalAssetAmount.
Definition NewMsgCreatePool (signer : AccAddress) (externalAsset : Asset)
    (nativeAssetAmount externalAssetAmount : Uint) : MsgCreatePool :=
  mkMsgCreatePool (AccString signer) externalAsset nativeAssetAmount externalAssetAmount.
Definition NewMsgLock (ethereumChainID : Z) (cosmosSender : AccAddress) (ethereumReceiver : EthereumAddress)
    (amount : Int) (symbol : string) (cethAmount : Int) : MsgLock :=
  mkMsgLock (AccString cosmosSender) amount symbol ethereumChainID (EthString ethereumReceiver) cethAmount.
Definition NewMsgBurn (ethereumChainID : Z) (cosmosSender : AccAddress) (ethereumReceiver : EthereumAddress)
    (amount : Int) (symbol : string) (cethAmount : Int) : MsgBurn :=
  mkMsgBurn (AccString cosmosSender) amount symbol ethereumChainID (EthString ethereumReceiver) cethAmount.
Definition NewMsgCreateEthBridgeClaim (ethBridgeClaim : EthBridgeClaim) : MsgCreateEthBridgeClaim :=
  mkMsgCreateEthBridgeClaim ethBridgeClaim.
Definition NewMsgUpdateCethReceiverAccount (cosmosSender cethReceiverAccount : AccAddress)
    : MsgUpdateCethReceiverAccount :=
  mkMsgUpdateCethReceiverAccount (AccString cosmosSender) (AccString cethReceiverAccount).
Definition NewMsgRescueCeth (cosmosSender cosmosReceiver : AccAddress) (cethAmount : Int) : MsgRescueCeth :=
  mkMsgRescueCeth (AccString cosmosSender) (AccString cosmosReceiver) cethAmount.
Definition NewMsgUpdateWhiteListValidator (cosmosSender : AccAddress) (validator : ValAddress)
    (operationType : string) : MsgUpdateWhiteListValidator :=
  mkMsgUpdateWhiteListValidator (AccString cosmosSender) (ValString validator) operationType.
End messages.
