(* ===== verification/Relayer.v ===== *)
(** * Relayer: the texts and symbols of the relayer

    cmd/ebrelayer/types/types.go, txs/parser.go, internal/symbol_translator and
    internal/bimap_with_default: what the relayer of a validator reads from the logs of Ethereum
    and from the events of this chain, and what it sends to the other side. *)

From S2P Require Import Prelude Sdk Rat Bank Keepers Oracle EthBridge.
Local Open Scope Z_scope.

(** ** Library code *)
(** What a Go interface value holds here: a text, or something else that may or may not be a key
    of a Go map. *)
Inductive Any := AString (s : string) | AOther (n : Z) | AUnhashable.
#[export] Instance Any_eq_dec : EqDecision Any.
Proof. solve_decision. Defined.
(** github.com/vishalkuo/bimap, a map with its inverse; the JSON of an object;
    [strings.ToLower] on all texts. *)
Class BiMapLib := {
  BiMap : Type;
  NewBiMap : BiMap;
  BiMap_Insert : BiMap → Any → Any → res BiMap;
  BiMap_MakeImmutable : BiMap → BiMap;
  BiMap_Get : BiMap → Any → option Any;
  BiMap_GetInverse : BiMap → Any → option Any;
  Unmarshal_symbolMap : string → res (list (string * Any));
  go_ToLower : string → string
}.
(** A new entry of two texts that are new on their sides is added on both. *)
Class BiMapLaws `(BiMapLib) : Prop := {
  bimap_new k : BiMap_Get NewBiMap k = None ∧ BiMap_GetInverse NewBiMap k = None;
  bimap_insert b k v : BiMap_Get b (AString k) = None → BiMap_GetInverse b (AString v) = None →
    ∃ b', BiMap_Insert b (AString k) (AString v) = Ok b' ∧
      (∀ x, BiMap_Get b' x = if decide (x = AString k) then Some (AString v) else BiMap_Get b x) ∧
      (∀ x, BiMap_GetInverse b' x = if decide (x = AString v) then Some (AString k)
                                     else BiMap_GetInverse b x);
  bimap_immutable b k : BiMap_Get (BiMap_MakeImmutable b) k = BiMap_Get b k ∧
    BiMap_GetInverse (BiMap_MakeImmutable b) k = BiMap_GetInverse b k;
  unmarshal_symbolMap_keys t l : Unmarshal_symbolMap t = Ok l → NoDup l.*1;
  go_ToLower_ascii s : ascii_only s = true → go_ToLower s = ToLower s
}.
(** Texts of addresses and numbers read back ([EthLib], [CoinLib] and [Sdk]). *)
Class RelayerLaws `(Sdk) `(EthLib) : Prop := {
  eth_roundtrip a : String.length a = 20%nat → HexToAddress (EthString a) = a;
  eth_is_hex a : String.length a = 20%nat → IsHexAddress (EthString a) = true;
  eth_length s : String.length (HexToAddress s) = 20%nat;
  int_int_parse z : Z.abs z < 2 ^ 255 → NewIntFromString (IntString z) = Some z;
  int_of_decimal z : 0 <= z < 2 ^ 255 → NewIntFromString (pretty z) = Some z
}.

(** [strings.SplitAfter] by one byte, [strings.Join] with nothing between. *)
Fixpoint SplitAfter (sep : ascii) (s : string) : list string :=
  match s with
  | EmptyString => [""]
  | String c s =>
      match SplitAfter sep s with
      | [] => []
      | p :: ps => if Ascii.eqb c sep then String c "" :: p :: ps else String c p :: ps
      end
  end.
Definition Join (l : list string) : string := foldr String.append "" l.

(** [big.Int.SetString(s, 10)]: digits after an optional sign. *)
Fixpoint digits_value (acc : Z) (s : string) : option Z :=
  match s with
  | EmptyString => Some acc
  | String c s =>
      let n := Z.of_nat (nat_of_ascii c) in
      if (48 <=? n) && (n <=? 57) then digits_value (10 * acc + (n - 48)) s else None
  end.
Definition SetString10 (s : string) : option Z :=
  match s with
  | EmptyString => None
  | String c rest =>
      if Ascii.eqb c "-" then if String.eqb rest "" then None else Z.opp <$> digits_value 0 rest
      else if Ascii.eqb c "+" then if String.eqb rest "" then None else digits_value 0 rest
      else digits_value 0 s
  end.

(** ** types.go *)
Inductive Event := Unsupported | Event_MsgBurn | Event_MsgLock | Event_LogLock | Event_LogBurn
  | Event_LogNewProphecyClaim | Event_NewProphecyClaim | Event_CreateEthBridgeClaim.
#[export] Instance Event_eq_dec : EqDecision Event.
Proof. solve_decision. Defined.
Definition Event_byte (d : Event) : Z :=
  match d with
  | Unsupported => 0 | Event_MsgBurn => 1 | Event_MsgLock => 2 | Event_LogLock => 3
  | Event_LogBurn => 4 | Event_LogNewProphecyClaim => 5 | Event_NewProphecyClaim => 6
  | Event_CreateEthBridgeClaim => 7
  end.
Definition Event_String (d : Event) : string :=
  match d with
  | Unsupported => "unsupported" | Event_MsgBurn => "burn" | Event_MsgLock => "lock"
  | Event_LogLock => "LogLock" | Event_LogBurn => "LogBurn"
  | Event_LogNewProphecyClaim => "LogNewProphecyClaim"
  | Event_NewProphecyClaim => "newProphecyClaim" | Event_CreateEthBridgeClaim => "create_claim"
  end.

(** The attributes of the events of this chain. *)
Inductive CosmosMsgAttributeKey := UnsupportedAttributeKey | CosmosSender | CosmosSenderSequence
  | EthereumReceiver | Key_Amount | Key_Symbol | EthereumSender | EthereumSenderNonce.
Definition Key_String (d : CosmosMsgAttributeKey) : string :=
  match d with
  | UnsupportedAttributeKey => "unsupported" | CosmosSender => "cosmos_sender"
  | CosmosSenderSequence => "cosmos_sender_sequence" | EthereumReceiver => "ethereum_receiver"
  | Key_Amount => "amount" | Key_Symbol => "symbol" | EthereumSender => "ethereum_sender"
  | EthereumSenderNonce => "ethereum_sender_nonce"
  end.
Record EventAttribute := mkAttribute { a_Key : string; a_Value : string }.
Record AbciEvent := mkAbciEvent { ev_Type : string; ev_Attributes : list EventAttribute }.

(** A log of the bridge bank; its numbers are set, as the decoder of the contract sets them. *)
Record EthereumEvent := mkEthereumEvent {
  ee_To : string; ee_Symbol : string; ee_EthereumChainID : Z; ee_Value : Z; ee_Nonce : Z;
  ee_ClaimType : ClaimType; ee_ID : string; ee_BridgeContractAddress : EthereumAddress;
  ee_From : EthereumAddress; ee_Token : EthereumAddress
}.
(** The numbers of a message are [None] for nil. *)
Record CosmosMsg := mkCosmosMsg {
  cm_CosmosSender : string; cm_CosmosSenderSequence : option Z; cm_Symbol : string;
  cm_Amount : option Int; cm_EthereumReceiver : EthereumAddress; cm_ClaimType : Event
}.
Definition NewCosmosMsg (claimType : Event) (cosmosSender : string) (cosmosSenderSequence : option Z)
    (ethereumReceiver : EthereumAddress) (symbol : string) (amount : option Int) : CosmosMsg :=
  mkCosmosMsg cosmosSender cosmosSenderSequence symbol amount ethereumReceiver claimType.
Record EthereumBridgeClaim := mkEthereumBridgeClaim {
  eb_EthereumSender : EthereumAddress; eb_CosmosSender : ValAddress; eb_Nonce : option Int
}.
Record ProphecyClaimUnique := mkProphecyClaimUnique {
  pc_CosmosSenderSequence : Z; pc_CosmosSender : string
}.
(** The zero value of [common.Address]. *)
Definition no_address : EthereumAddress :=
  String.string_of_list_ascii (repeat (ascii_of_nat 0) 20).

(** ** The translation of symbols *)
Section symbols.
Context {bimap : BiMapLib} {order : ClpKeeper.GoRange}.

Record SymbolTranslator := mkSymbolTranslator { symbolTable : BiMap }.
Definition GetWithDefault (b : BiMap) (k defaultValue : Any) : Any :=
  match BiMap_Get b k with Some result => result | None => defaultValue end.
Definition GetInverseWithDefault (b : BiMap) (k defaultValue : Any) : Any :=
  match BiMap_GetInverse b k with Some result => result | None => defaultValue end.
(** [.(string)] *)
Definition must_string (a : Any) : res string := match a with AString s => Ok s | _ => Panic end.
Definition OffsideswapToEthereum (s : SymbolTranslator) (denom : string) : res string :=
  must_string (GetWithDefault s.(symbolTable) (AString denom) (AString denom)).
Definition EthereumToOffsideswap (s : SymbolTranslator) (symbol : string) : res string :=
  must_string (GetInverseWithDefault s.(symbolTable) (AString symbol) (AString symbol)).
Definition NewSymbolTranslator : SymbolTranslator := mkSymbolTranslator NewBiMap.
Definition NewSymbolTranslatorFromJSONBytes (jsonContents : string) : res SymbolTranslator :=
  symbolMap ← Unmarshal_symbolMap jsonContents;
  symbolBiMap ← foldR (λ b kv, BiMap_Insert b (AString (kv : string * Any).1) kv.2) NewBiMap
    (ClpKeeper.go_range "NewSymbolTranslatorFromJSONBytes" symbolMap);
  Ok (mkSymbolTranslator (BiMap_MakeImmutable symbolBiMap)).
End symbols.

(** ** parser.go *)
Section parser.
Context {sdk : Sdk} {coins : CoinLib} {vals : ValAddressLib} {eth : EthLib} {bimap : BiMapLib}.

Definition nullAddress : string := "0x0000000000000000000000000000000000000000".
Definition defaultOffsideswapPrefix : string := "c".
Definition isZeroAddress (address : EthereumAddress) : bool :=
  String.eqb address (HexToAddress nullAddress).

Definition EthereumEventToEthBridgeClaim (valAddr : ValAddress) (event : EthereumEvent)
    (symbolTranslator : SymbolTranslator) : res EthBridgeClaim :=
  let chainID := int64 event.(ee_EthereumChainID) in
  let bridgeContractAddress := NewEthereumAddress (EthString event.(ee_BridgeContractAddress)) in
  let sender := NewEthereumAddress (EthString event.(ee_From)) in
  recipient ← AccAddressFromBech32 event.(ee_To);
  _ ← (if String.eqb recipient "" then Err ErrAnonymous else Ok tt);
  let tokenContractAddress := NewEthereumAddress (EthString event.(ee_Token)) in
  symbol ←
    match event.(ee_ClaimType) with
    | CLAIM_TYPE_LOCK =>
        let symbol := go_ToLower event.(ee_Symbol) in
        if String.eqb symbol "eth" && negb (isZeroAddress event.(ee_Token)) then Err ErrAnonymous
        else Ok symbol
    | CLAIM_TYPE_BURN => EthereumToOffsideswap symbolTranslator event.(ee_Symbol)
    | CLAIM_TYPE_UNSPECIFIED => Ok event.(ee_Symbol)
    end;
  amount ← NewIntFromBigInt event.(ee_Value);
  let nonce := int64 event.(ee_Nonce) in
  Ok (mkEthBridgeClaim chainID (EthString bridgeContractAddress) nonce symbol
        (EthString tokenContractAddress) (EthString sender) (AccString recipient)
        (ValString valAddr) amount event.(ee_ClaimType)).

(** The variables of [BurnLockEventToCosmosMsg]. *)
Record Collected := mkCollected {
  c_sender : string; c_sequence : option Z; c_receiver : EthereumAddress; c_symbol : string;
  c_amount : option Int; c_number : Z
}.
#[export] Instance Collected_settable : Settable Collected := λ c,
  mkCollected c.(c_sender) c.(c_sequence) c.(c_receiver) c.(c_symbol) c.(c_amount) c.(c_number).
Definition burned_symbol (val : string) : res string :=
  if negb (Contains val defaultOffsideswapPrefix) then Err ErrAnonymous
  else Ok (Join (tail (SplitAfter "c" val))).
(** The body of the loop. *)
Definition collect (claimType : Event) (symbolTranslator : SymbolTranslator) (c : Collected)
    (attribute : EventAttribute) : res Collected :=
  let key := attribute.(a_Key) in
  let val := attribute.(a_Value) in
  let counted := c <| c_number ::= Z.succ |> in
  if String.eqb key (Key_String CosmosSender) then Ok (counted <| c_sender := val |>)
  else if String.eqb key (Key_String CosmosSenderSequence) then
    match SetString10 val with
    | Some sequence => Ok (counted <| c_sequence := Some sequence |>)
    | None => Err ErrAnonymous
    end
  else if String.eqb key (Key_String EthereumReceiver) then
    if negb (IsHexAddress val) then Err ErrAnonymous
    else Ok (counted <| c_receiver := HexToAddress val |>)
  else if String.eqb key (Key_String Key_Symbol) then
    match claimType with
    | Event_MsgLock =>
        symbol ← OffsideswapToEthereum symbolTranslator val; Ok (counted <| c_symbol := symbol |>)
    | Event_MsgBurn => symbol ← burned_symbol val; Ok (counted <| c_symbol := symbol |>)
    | _ => Ok counted
    end
  else if String.eqb key (Key_String Key_Amount) then
    match NewIntFromString val with
    | Some amount => Ok (counted <| c_amount := Some amount |>)
    | None => Err ErrAnonymous
    end
  else Ok c.
Definition BurnLockEventToCosmosMsg (claimType : Event) (attributes : list EventAttribute)
    (symbolTranslator : SymbolTranslator) : res CosmosMsg :=
  c ← foldR (collect claimType symbolTranslator) (mkCollected "" None no_address "" None 0) attributes;
  if c.(c_number) <? 5 then Err ErrAnonymous
  else Ok (NewCosmosMsg claimType c.(c_sender) c.(c_sequence) c.(c_receiver) c.(c_symbol)
             c.(c_amount)).

Definition collect_claim (c : EthereumBridgeClaim) (attribute : EventAttribute)
    : res EthereumBridgeClaim :=
  let key := attribute.(a_Key) in
  let val := attribute.(a_Value) in
  if String.eqb key (Key_String CosmosSender) then
    sender ← ValAddressFromBech32 val;
    Ok (mkEthereumBridgeClaim c.(eb_EthereumSender) sender c.(eb_Nonce))
  else if String.eqb key (Key_String EthereumSender) then
    if negb (IsHexAddress val) then Err ErrAnonymous
    else Ok (mkEthereumBridgeClaim (HexToAddress val) c.(eb_CosmosSender) c.(eb_Nonce))
  else if String.eqb key (Key_String EthereumSenderNonce) then
    match NewIntFromString val with
    | Some nonce => Ok (mkEthereumBridgeClaim c.(eb_EthereumSender) c.(eb_CosmosSender) (Some nonce))
    | None => Err ErrAnonymous
    end
  else Ok c.
Definition AttributesToEthereumBridgeClaim (attributes : list EventAttribute)
    : res EthereumBridgeClaim :=
  foldR collect_claim (mkEthereumBridgeClaim no_address "" None) attributes.

(** What x/ethbridge emits with a lock, a burn and a claim (x/ethbridge/keeper/msg_server.go). *)
Definition lock_event (msg : MsgLock) (sequence : N) : AbciEvent :=
  mkAbciEvent EventTypeLock
    [mkAttribute "ethereum_chain_id" (pretty msg.(lk_EthereumChainId));
     mkAttribute "cosmos_sender" msg.(lk_CosmosSender);
     mkAttribute "cosmos_sender_sequence" (pretty sequence);
     mkAttribute "ethereum_receiver" msg.(lk_EthereumReceiver);
     mkAttribute "amount" (IntString msg.(lk_Amount));
     mkAttribute "symbol" msg.(lk_Symbol);
     mkAttribute "ceth_amount" (IntString msg.(lk_CethAmount))].
Definition burn_event (msg : MsgBurn) (sequence : N) : AbciEvent :=
  mkAbciEvent EventTypeBurn
    [mkAttribute "ethereum_chain_id" (pretty msg.(bn_EthereumChainId));
     mkAttribute "cosmos_sender" msg.(bn_CosmosSender);
     mkAttribute "cosmos_sender_sequence" (pretty sequence);
     mkAttribute "ethereum_receiver" msg.(bn_EthereumReceiver);
     mkAttribute "amount" (IntString msg.(bn_Amount));
     mkAttribute "symbol" msg.(bn_Symbol);
     mkAttribute "ceth_amount" (IntString msg.(bn_CethAmount))].
Definition ClaimType_String (t : ClaimType) : string :=
  match t with
  | CLAIM_TYPE_UNSPECIFIED => "CLAIM_TYPE_UNSPECIFIED" | CLAIM_TYPE_BURN => "CLAIM_TYPE_BURN"
  | CLAIM_TYPE_LOCK => "CLAIM_TYPE_LOCK"
  end.
Definition create_claim_event (claim : EthBridgeClaim) : AbciEvent :=
  mkAbciEvent EventTypeCreateClaim
    [mkAttribute "cosmos_sender" claim.(ec_ValidatorAddress);
     mkAttribute "ethereum_sender" claim.(ec_EthereumSender);
     mkAttribute "ethereum_sender_nonce" (pretty claim.(ec_Nonce));
     mkAttribute "cosmos_receiver" claim.(ec_CosmosReceiver);
     mkAttribute "amount" (IntString claim.(ec_Amount));
     mkAttribute "symbol" claim.(ec_Symbol);
     mkAttribute "token_contract_address" claim.(ec_TokenContractAddress);
     mkAttribute "claim_type" (ClaimType_String claim.(ec_ClaimType))].
End parser.
