(* ===== verification/RelayerSub.v ===== *)
(** * RelayerSub: the loops of the relayer

    cmd/ebrelayer/relayer/{cosmos,ethereum,listMissedEvent}.go and
    txs/{relayToCosmos,relayToEthereum}.go: which blocks the relayer reads, what it sends, what it
    remembers, and how it replays missed events.  Networks, keys and the clients' libraries are the
    outside, whose every answer may depend on when it is asked. *)

From S2P Require Import Prelude Sdk Rat Bank Keepers Oracle EthBridge Relayer.
Local Open Scope Z_scope.

(** ** The outside *)
(** A log of a contract of Ethereum, and a transaction: who signed it and its data. *)
Record Log := mkLog { log_Topics : list string; log_Data : string; log_TxHash : string }.
Record EthTx := mkEthTx { tx_Sender : option EthereumAddress; tx_Data : string }.
(** Each takes the number of earlier calls; [None] and [false] are errors.  The events of a block
    of this chain are listed per transaction.  The ids and the decoder are those of the contracts'
    interface. *)
Class Outside := {
  BlockResults : nat → Z → option (list (list AbciEvent));
  BlockByNumber : nat → Z → option (list EthTx);
  FilterLogs : nat → Z → Z → option (list Log);
  (* InitRelayConfig: a client, a signer and the address of the contract *)
  InitRelayConfig : nat → bool;
  NewCosmosBridge : nat → bool;
  NewProphecyClaim_tx : nat → CosmosMsg → bool;
  TransactionReceipt : nat → bool;
  GetValAddressFromKeyring : nat → option ValAddress;
  BroadcastTx : nat → list MsgCreateEthBridgeClaim → bool;
  LogBurn_ID : string;
  LogLock_ID : string;
  NewProphecyClaim_ID : string;
  UnpackIntoInterface : string → string → res EthereumEvent
}.

(** ** What the relayer keeps and does *)
Inductive Action :=
| Relayed (claim : CosmosMsg)
| Broadcasted (messages : list MsgCreateEthBridgeClaim)
| Queried (from to : Z)
| SavedCosmos (block : Z)
| SavedEthereum (block : Z)
| Missed (msg : CosmosMsg).
(** The two entries of the database, the record of events, the calls made and what was done. *)
Record RelayerState := mkRelayerState {
  rs_calls : nat;
  rs_CosmosDB : option Z;
  rs_EthereumDB : option Z;
  rs_EventRecords : gmap string EthereumEvent;
  rs_done : list Action
}.
#[export] Instance RelayerState_settable : Settable RelayerState := λ s,
  mkRelayerState s.(rs_calls) s.(rs_CosmosDB) s.(rs_EthereumDB) s.(rs_EventRecords) s.(rs_done).
Notation R := (M RelayerState).

Definition call {A} (f : nat → A) : R A := λ s, (Ok (f s.(rs_calls)), s <| rs_calls ::= S |>).
Definition act (a : Action) : R unit := modify (λ s, s <| rs_done ::= λ l, l ++ [a] |>).

(** ** Bytes of a call of a contract *)
Definition slice (a b : nat) (s : string) : string := String.substring a (b - a) s.
Definition hex_char (n : nat) : ascii := ascii_of_nat (if (n <? 10)%nat then 48 + n else 87 + n).
Fixpoint hex_Encode (s : string) : string :=
  match s with
  | EmptyString => EmptyString
  | String c s => let n := nat_of_ascii c in
      String (hex_char (n / 16)) (String (hex_char (n mod 16)) (hex_Encode s))
  end.
Definition hex_value (c : ascii) : option Z :=
  let n := Z.of_nat (nat_of_ascii c) in
  if (48 <=? n) && (n <=? 57) then Some (n - 48)
  else if (97 <=? n) && (n <=? 102) then Some (n - 87)
  else if (65 <=? n) && (n <=? 70) then Some (n - 55)
  else None.
(** [strconv.ParseUint(s, 16, 32)]: no digits and values beyond 32 bits are errors. *)
Fixpoint hex_digits (acc : Z) (s : string) : option Z :=
  match s with
  | EmptyString => Some acc
  | String c s => n ← hex_value c; hex_digits (16 * acc + n) s
  end.
Definition ParseUint_16_32 (s : string) : res Z :=
  if String.eqb s "" then Err ErrAnonymous
  else match hex_digits 0 s with
       | Some n => if n <? 2 ^ 32 then Ok n else Err ErrAnonymous
       | None => Err ErrAnonymous
       end.
Definition MyDecode (data : string) : res ProphecyClaimUnique :=
  if (String.length data <? 32 * 7 + 42)%nat then Err ErrAnonymous
  else
    let dst := hex_Encode (slice 64 96 data) in
    sequence ← ParseUint_16_32 dst;
    Ok (mkProphecyClaimUnique sequence (slice (32 * 7) (32 * 7 + 42) data)).

(** A nil number of a message panics when it is compared. *)
Fixpoint MessageProcessed (message : CosmosMsg) (prophecyClaims : list ProphecyClaimUnique)
    : res bool :=
  match prophecyClaims with
  | [] => Ok false
  | p :: rest =>
      if String.eqb message.(cm_CosmosSender) p.(pc_CosmosSender) then
        match message.(cm_CosmosSenderSequence) with
        | None => Panic
        | Some sequence =>
            if sequence =? p.(pc_CosmosSenderSequence) then Ok true
            else MessageProcessed message rest
        end
      else MessageProcessed message rest
  end.
Fixpoint EventProcessed (bridgeClaims : list EthereumBridgeClaim) (event : EthereumEvent)
    : res bool :=
  match bridgeClaims with
  | [] => Ok false
  | claim :: rest =>
      if String.eqb event.(ee_From) claim.(eb_EthereumSender) then
        match claim.(eb_Nonce) with
        | None => Panic
        | Some nonce => if event.(ee_Nonce) =? nonce then Ok true else EventProcessed rest event
        end
      else EventProcessed rest event
  end.

Definition getOracleClaimType (eventType : string) : Event :=
  if String.eqb eventType (Event_String Event_MsgBurn) then Event_MsgBurn
  else if String.eqb eventType (Event_String Event_MsgLock) then Event_MsgLock
  else Unsupported.

(** ** From this chain to Ethereum (cosmos.go, relayToEthereum.go) *)
Section cosmos.
Context {sdk : Sdk} {coins : CoinLib} {vals : ValAddressLib} {eth : EthLib} {bimap : BiMapLib}
  {outside : Outside} {errs : SdkErrors}.
Implicit Type symbolTranslator : SymbolTranslator.

Fixpoint await_receipt (retries : nat) : R bool :=
  match retries with
  | O => mret false
  | S retries => ok ← call TransactionReceipt; if (ok : bool) then mret true else await_receipt retries
  end.
Definition RelayProphecyClaimToEthereum (claim : CosmosMsg) : R unit :=
  sent ← call (λ n, NewProphecyClaim_tx n claim);
  if negb sent then throw ErrAnonymous
  else
    _ ← act (Relayed claim);
    found ← await_receipt 60;
    throw_if (negb found) ErrAnonymous.
Fixpoint tryInitRelayConfig (tries : nat) : R bool :=
  match tries with
  | O => mret false
  | S tries => ok ← call InitRelayConfig; if (ok : bool) then mret true else tryInitRelayConfig tries
  end.
Fixpoint relay_attempts (maxRetries : nat) (cosmosMsg : CosmosMsg) : R unit :=
  match maxRetries with
  | O => mret tt
  | S maxRetries =>
      r ← try (RelayProphecyClaimToEthereum cosmosMsg);
      match r with inr _ => mret tt | inl _ => relay_attempts maxRetries cosmosMsg end
  end.
Definition handleBurnLockMsg (cosmosMsg : CosmosMsg) : R unit :=
  ready ← tryInitRelayConfig 5;
  if negb ready then mret tt
  else
    bridge ← call NewCosmosBridge;
    if negb bridge then mret tt else relay_attempts 5 cosmosMsg.

(** A lock or burn that cannot be read is logged and skipped. *)
Definition with_burn_lock symbolTranslator (k : CosmosMsg → R unit) (event : AbciEvent) : R unit :=
  let claimType := getOracleClaimType event.(ev_Type) in
  match claimType with
  | Event_MsgBurn | Event_MsgLock =>
      match BurnLockEventToCosmosMsg claimType event.(ev_Attributes) symbolTranslator with
      | Ok cosmosMsg => k cosmosMsg
      | Err _ => mret tt
      | Panic => panic
      end
  | _ => mret tt
  end.
Definition relay_block symbolTranslator (txs : list (list AbciEvent)) : R unit :=
  forM (forM (with_burn_lock symbolTranslator handleBurnLockMsg)) txs.

Definition put_cosmos (block : Z) : R unit :=
  _ ← modify (λ s, s <| rs_CosmosDB := Some (Z.abs block) |>); act (SavedCosmos block).
(** The loop over blocks, which asks for a block until it gets it; [None] when the fuel is gone. *)
Fixpoint relay_blocks symbolTranslator (fuel : nat) (lastProcessedBlock blockNumber blockHeight : Z)
    : R (option Z) :=
  match fuel with
  | O => mret None
  | S fuel =>
      if blockHeight <? blockNumber then mret (Some lastProcessedBlock)
      else
        block ← call (λ n, BlockResults n blockNumber);
        match block with
        | None => relay_blocks symbolTranslator fuel lastProcessedBlock blockNumber blockHeight
        | Some txs =>
            _ ← relay_block symbolTranslator txs;
            _ ← put_cosmos blockNumber;
            relay_blocks symbolTranslator fuel blockNumber (int64 (blockNumber + 1)) blockHeight
        end
  end.
(** A new block is announced. *)
Definition new_block symbolTranslator (fuel : nat) (lastProcessedBlock blockHeight : Z)
    : R (option Z) :=
  let last := if lastProcessedBlock =? 0 then blockHeight else lastProcessedBlock in
  relay_blocks symbolTranslator fuel last (int64 (last + 1)) blockHeight.
Definition last_cosmos_block (s : RelayerState) : Z :=
  match s.(rs_CosmosDB) with Some data => int64 data | None => 0 end.
(** [CosmosSub.Start], for the blocks announced until it is told to quit. *)
Fixpoint cosmos_loop symbolTranslator (fuel : nat) (lastProcessedBlock : Z) (heads : list Z)
    : R (option Z) :=
  match heads with
  | [] => mret (Some lastProcessedBlock)
  | h :: heads =>
      last ← new_block symbolTranslator fuel lastProcessedBlock h;
      match last with
      | None => mret None
      | Some last => cosmos_loop symbolTranslator fuel last heads
      end
  end.
Definition CosmosSub_Start symbolTranslator (fuel : nat) (heads : list Z) : R (option Z) :=
  last ← gets last_cosmos_block; cosmos_loop symbolTranslator fuel last heads.

(** ** What has been relayed already *)
Definition decode_tx (ethereumAddress : EthereumAddress) (tx : EthTx) : res (option ProphecyClaimUnique) :=
  match tx.(tx_Sender) with
  | None => Ok None
  | Some sender =>
      if negb (String.eqb sender ethereumAddress) then Ok None
      else if (String.length tx.(tx_Data) <? 4)%nat then Ok None
      else if negb (String.eqb (slice 0 4 tx.(tx_Data)) NewProphecyClaim_ID) then Ok None
      else match MyDecode (slice 4 (String.length tx.(tx_Data)) tx.(tx_Data)) with
           | Ok claim => Ok (Some claim)
           | Err _ => Ok None
           | Panic => Panic
           end
  end.
Definition GetAllProphecyClaim (ethereumAddress : EthereumAddress) (ethFromBlock ethToBlock : Z)
    : R (list ProphecyClaimUnique) :=
  foldM (λ claims blockNumber,
    block ← call (λ n, BlockByNumber n blockNumber);
    match block with
    | None => mret claims
    | Some txs => foldM (λ claims tx,
        claim ← lift (decode_tx ethereumAddress tx);
        mret (claims ++ option_list claim)) claims txs
    end) [] (seqZ ethFromBlock (ethToBlock - ethFromBlock)).

(** Blocks that cannot be had are left out. *)
Definition over_blocks (f : list (list AbciEvent) → R unit) (fromBlock toBlock : Z) : R unit :=
  forM (λ blockNumber,
    block ← call (λ n, BlockResults n blockNumber);
    match block with None => mret tt | Some txs => f txs end) (seqZ fromBlock (toBlock - fromBlock)).
Definition unprocessed (claims : list ProphecyClaimUnique) (k : CosmosMsg → R unit)
    (cosmosMsg : CosmosMsg) : R unit :=
  processed ← lift (MessageProcessed cosmosMsg claims);
  if (processed : bool) then mret tt else k cosmosMsg.
Definition CosmosSub_Replay symbolTranslator (mySender : EthereumAddress)
    (fromBlock toBlock ethFromBlock ethToBlock : Z) : R unit :=
  claims ← GetAllProphecyClaim mySender ethFromBlock ethToBlock;
  over_blocks (forM (forM (with_burn_lock symbolTranslator (unprocessed claims handleBurnLockMsg))))
    fromBlock toBlock.
(** [ListMissedCosmosEvent], from the current heights of both chains. *)
Definition ListMissedCosmosEvent symbolTranslator (ethereumAddress : EthereumAddress)
    (days currentEthHeight currentCosmosHeight : Z) : R unit :=
  let ethFromHeight := Z.max 0 (int64 (currentEthHeight - int64 (4 * 60 * 24 * days))) in
  claims ← GetAllProphecyClaim ethereumAddress ethFromHeight currentEthHeight;
  let cosmosFromHeight := Z.max 0 (int64 (currentCosmosHeight - int64 (10 * 60 * 24 * days))) in
  over_blocks (forM (forM (with_burn_lock symbolTranslator
    (unprocessed claims (λ msg, act (Missed msg)))))) cosmosFromHeight currentCosmosHeight.

(** ** From Ethereum to this chain (ethereum.go, relayToCosmos.go) *)
Definition trailingBlocks : Z := 50.
(** Claims that are not valid are logged and left out. *)
Fixpoint valid_messages (claims : list EthBridgeClaim) : res (list MsgCreateEthBridgeClaim) :=
  match claims with
  | [] => Ok []
  | claim :: claims =>
      let msg := mkMsgCreateEthBridgeClaim claim in
      match MsgCreateEthBridgeClaim_ValidateBasic msg with
      | Ok _ => messages ← valid_messages claims; Ok (msg :: messages)
      | Err _ => valid_messages claims
      | Panic => Panic
      end
  end.
Definition RelayToCosmos (claims : list EthBridgeClaim) : R unit :=
  messages ← lift (valid_messages claims);
  ok ← call (λ n, BroadcastTx n messages);
  if negb ok then throw ErrAnonymous else act (Broadcasted messages).
(** Events that cannot be read are logged and left out. *)
Fixpoint readable_claims (valAddr : ValAddress) symbolTranslator (events : list EthereumEvent)
    : res (list EthBridgeClaim) :=
  match events with
  | [] => Ok []
  | event :: events =>
      match EthereumEventToEthBridgeClaim valAddr event symbolTranslator with
      | Ok claim => claims ← readable_claims valAddr symbolTranslator events; Ok (claim :: claims)
      | Err _ => readable_claims valAddr symbolTranslator events
      | Panic => Panic
      end
  end.
Definition handleEthereumEvent symbolTranslator (events : list EthereumEvent) : R unit :=
  key ← call GetValAddressFromKeyring;
  match key with
  | None => throw ErrAnonymous
  | Some valAddr =>
      claims ← lift (readable_claims valAddr symbolTranslator events);
      if (length events =? 0)%nat then mret tt else RelayToCosmos claims
  end.

Definition NewEventWrite (txHash : string) (event : EthereumEvent) : R unit :=
  modify (λ s, s <| rs_EventRecords ::= <[txHash := event]> |>).
(** The event of a log, [None] if it is neither a lock nor a burn. *)
Definition logToEvent (clientChainID : Z) (contractAddress : EthereumAddress) (cLog : Log)
    : R (option EthereumEvent) :=
  match cLog.(log_Topics) with
  | [] => panic
  | topic :: _ =>
      let eventName := if String.eqb topic LogBurn_ID then Event_String Event_LogBurn
                       else if String.eqb topic LogLock_ID then Event_String Event_LogLock else "" in
      if String.eqb eventName "" then mret None
      else
        e ← lift (UnpackIntoInterface eventName cLog.(log_Data));
        let claimType := if String.eqb eventName (Event_String Event_LogBurn)
                         then CLAIM_TYPE_BURN else CLAIM_TYPE_LOCK in
        let event := mkEthereumEvent e.(ee_To) e.(ee_Symbol) clientChainID e.(ee_Value) e.(ee_Nonce)
          claimType e.(ee_ID) contractAddress e.(ee_From) e.(ee_Token) in
        _ ← NewEventWrite cLog.(log_TxHash) event;
        mret (Some event)
  end.
Definition collect_events (clientChainID : Z) (contractAddress : EthereumAddress)
    (logs : list Log) : R (list EthereumEvent) :=
  foldM (λ events ethLog,
    r ← try (logToEvent clientChainID contractAddress ethLog);
    match r with
    | inr (Some event) => mret (events ++ [event])
    | _ => mret events
    end) [] logs.

Definition put_ethereum (block : Z) : R unit :=
  _ ← modify (λ s, s <| rs_EthereumDB := Some (Z.abs block) |>); act (SavedEthereum block).
(** A new header is announced.  The numbers are pointers in the code, [lastProcessedBlock] and the
    header's may be one; none is read after it was changed through another. *)
Definition new_head symbolTranslator (clientChainID : Z) (bridgeBankAddress : EthereumAddress)
    (lastProcessedBlock number : Z) : R Z :=
  let endingBlock := number - trailingBlocks in
  if endingBlock <? 0 then mret lastProcessedBlock
  else
    let last := if lastProcessedBlock =? 0 then endingBlock else lastProcessedBlock in
    logs ← call (λ n, FilterLogs n last endingBlock);
    match logs with
    | None => mret last
    | Some ethLogs =>
        _ ← act (Queried last endingBlock);
        events ← collect_events clientChainID bridgeBankAddress ethLogs;
        _ ← (if (0 <? length events)%nat then ignore_err (handleEthereumEvent symbolTranslator events)
             else mret tt);
        _ ← put_ethereum (endingBlock + 1);
        mret (endingBlock + 1)
    end.
(** [EthereumSub.Start], for the headers announced until it is told to quit. *)
Definition EthereumSub_Start symbolTranslator (clientChainID : Z)
    (bridgeBankAddress : EthereumAddress) (heads : list Z) : R Z :=
  stored ← gets rs_EthereumDB;
  foldM (new_head symbolTranslator clientChainID bridgeBankAddress) (default 0 stored) heads.

Definition own_claims (validatorAddress : ValAddress) (txs : list (list AbciEvent))
    : res (list EthereumBridgeClaim) :=
  foldR (λ claims event,
    if String.eqb event.(ev_Type) "create_claim" then
      match AttributesToEthereumBridgeClaim event.(ev_Attributes) with
      | Ok claim => Ok (if String.eqb claim.(eb_CosmosSender) validatorAddress
                        then claims ++ [claim] else claims)
      | Err _ => Ok claims
      | Panic => Panic
      end
    else Ok claims) [] (concat txs).
Definition getAllClaims (validatorAddress : ValAddress) (fromBlock toBlock : Z)
    : R (list EthereumBridgeClaim) :=
  foldM (λ claims blockNumber,
    block ← call (λ n, BlockResults n blockNumber);
    match block with
    | None => mret claims
    | Some txs => own ← lift (own_claims validatorAddress txs); mret (claims ++ own)
    end) [] (seqZ fromBlock (toBlock - fromBlock)).
Definition EthereumSub_Replay symbolTranslator (validatorAddress : ValAddress) (clientChainID : Z)
    (contractAddress : EthereumAddress) (fromBlock toBlock cosmosFromBlock cosmosToBlock : Z)
    : R unit :=
  bridgeClaims ← getAllClaims validatorAddress cosmosFromBlock cosmosToBlock;
  logs ← call (λ n, FilterLogs n fromBlock toBlock);
  match logs with
  | None => mret tt
  | Some logs =>
      forM (λ ethLog,
        r ← try (logToEvent clientChainID contractAddress ethLog);
        match r with
        | inr (Some event) =>
            processed ← lift (EventProcessed bridgeClaims event);
            if (processed : bool) then mret tt
            else ignore_err (handleEthereumEvent symbolTranslator [event])
        | _ => mret tt
        end) logs
  end.
End cosmos.
