(* ===== verification/RelayerText.v ===== *)
(** * RelayerText: numerals and symbols as texts

    The texts of numbers are read back as the numbers; what cutting and joining does to a symbol. *)

From S2P Require Import Prelude Sdk Rat Bank Keepers Oracle EthBridge Relayer.
Local Open Scope Z_scope.

(** ** Numerals *)
Definition is_digit (c : ascii) : Prop := 48 <= Z.of_nat (nat_of_ascii c) <= 57.
Lemma digit_step acc c s : is_digit c →
  digits_value acc (String c s) = digits_value (10 * acc + (Z.of_nat (nat_of_ascii c) - 48)) s.
Proof.
  intros [H1 H2]. cbn [digits_value].
  by rewrite (proj2 (Z.leb_le _ _) H1), (proj2 (Z.leb_le _ _) H2).
Qed.
Lemma digit_of (n : N) : (n < 10)%N → Z.of_nat (nat_of_ascii (pretty_N_char n)) = 48 + Z.of_N n.
Proof.
  intros H. destruct n as [|p]; [done|]. do 4 (destruct p as [p|p|]; try done; try lia).
Qed.
Lemma pretty_go_value x : ∀ s, digits_value 0 (pretty_N_go x s) = digits_value (Z.of_N x) s.
Proof.
  induction x as [x IH] using (well_founded_induction N.lt_wf_0). intros s.
  destruct (decide (x = 0)%N) as [->|Hx]; [by rewrite pretty_N_go_0|].
  rewrite pretty_N_go_step by lia. pose proof (N.mod_lt x 10 ltac:(lia)) as Hm.
  pose proof (N.div_mod x 10 ltac:(lia)) as Hd. pose proof (digit_of _ Hm) as Hc.
  rewrite IH by (apply N.div_lt; lia). set (m := (x mod 10)%N) in *. set (q := (x / 10)%N) in *.
  clearbody m q. rewrite digit_step, Hc by (unfold is_digit; rewrite Hc; lia). f_equal. lia.
Qed.
(** A text that begins with a digit is read without a sign. *)
Lemma unsigned c s : is_digit c → SetString10 (String c s) = digits_value 0 (String c s).
Proof.
  unfold is_digit, SetString10. intros H.
  destruct (Ascii.eqb_spec c "-") as [->|]; [by destruct H|].
  by destruct (Ascii.eqb_spec c "+") as [->|]; [destruct H|].
Qed.
Lemma pretty_go_first x : ∀ s, (0 < x)%N → ∃ c r, pretty_N_go x s = String c r ∧ is_digit c.
Proof.
  induction x as [x IH] using (well_founded_induction N.lt_wf_0). intros s Hx.
  rewrite pretty_N_go_step by done. pose proof (N.mod_lt x 10 ltac:(lia)) as Hm.
  destruct (decide (x / 10 = 0)%N) as [->|Hd].
  - rewrite pretty_N_go_0. do 2 eexists. split; [done|]. unfold is_digit.
    rewrite digit_of by done. clear -Hm. revert Hm. generalize (x mod 10)%N. lia.
  - apply IH; [apply N.div_lt; lia|by apply N.neq_0_lt_0].
Qed.
Lemma SetString_pretty (n : N) : SetString10 (pretty n) = Some (Z.of_N n).
Proof.
  unfold pretty, pretty_N. destruct (decide (n = 0)%N) as [->|Hn]; [done|].
  destruct (pretty_go_first n "" ltac:(lia)) as (c & r & E & Hc).
  rewrite E, unsigned, <- E by done. apply pretty_go_value.
Qed.

(** ** Symbols *)
Lemma Join_SplitAfter sep s : Join (SplitAfter sep s) = s.
Proof.
  induction s as [|c s IH]; [done|]. simpl. destruct (SplitAfter sep s) as [|p ps] eqn:E.
  - exfalso. destruct s as [|x s]; [done|]. simpl in E. destruct (SplitAfter sep s); [|by destruct (Ascii.eqb x sep)].
    simpl in IH. done.
  - destruct (Ascii.eqb c sep); simpl in *; by rewrite <- IH.
Qed.
Lemma burned_pegged s : burned_symbol (String "c" s) = Ok s.
Proof.
  unfold burned_symbol. simpl. assert (String.prefix "" s = true) as -> by (by destruct s).
  pose proof (Join_SplitAfter "c" s) as H. destruct (SplitAfter "c" s); simpl; by rewrite <- H.
Qed.
