(* ===== verification/World.v ===== *)
(** * World: one concrete chain state

    The theorems hold in every world that provides the keepers and obeys their laws.  This file
    gives one: a record of the modules' stores with a ledger as the bank, and the proofs of the
    laws, so that the hypotheses of the theorems are satisfiable and their witnesses evaluate. *)

From S2P Require Import Disp Oracle EthBridge MarginTypes Margin.
From S2P Require Import Prelude Sdk SdkRef Rat Bank Keepers Admin Registry ClpTypes ClpMath.
From S2P Require Import ClpKeeper Pages ClpPolicy ClpRewards ClpLiquidity ClpMsgs.
Local Open Scope Z_scope.

(** ** Coins and addresses *)
Definition denom_char (c : ascii) : bool :=
  let n := nat_of_ascii c in
  (97 <=? n)%nat && (n <=? 122)%nat || (65 <=? n)%nat && (n <=? 90)%nat
  || (48 <=? n)%nat && (n <=? 57)%nat || (n =? 47)%nat || (n =? 45)%nat.
Definition ref_valid_denom (d : string) : bool :=
  (3 <=? Z.of_nat (String.length d)) && (Z.of_nat (String.length d) <=? 128)
  && forallb denom_char (String.list_ascii_of_string d).
Definition ref_new_coin (d : string) (a : Z) : res Coin :=
  if ref_valid_denom d && (0 <=? a) then Ok (mkCoin d a) else Panic.

(** Insertion into a list of coins, keeping one entry per denomination. *)
Fixpoint coins_insert (cs : Coins) (c : Coin) : Coins :=
  match cs with
  | [] => [c]
  | x :: r => if String.eqb x.(Denom) c.(Denom)
              then mkCoin x.(Denom) (x.(Amount) + c.(Amount)) :: r
              else x :: coins_insert r c
  end.
Definition drop_zero (cs : list Coin) : list Coin := filter (λ c, (c.(Amount) =? 0) = false) cs.
Definition duplicate_free (cs : Coins) : bool := bool_decide (NoDup (Denom <$> cs)).

#[export] Instance ref_coins : CoinLib := {
  NewCoin := ref_new_coin;
  Coin_IsValid c := ref_valid_denom c.(Denom) && (0 <=? c.(Amount));
  NewCoins cs := if duplicate_free cs then Ok (drop_zero cs) else Panic;
  Coins_Add cs c := Ok (drop_zero (coins_insert cs c));
  Coin_Add a b := if String.eqb a.(Denom) b.(Denom)
                  then Ok (mkCoin a.(Denom) (a.(Amount) + b.(Amount))) else Panic;
  Coin_Sub a b := if String.eqb a.(Denom) b.(Denom) && (b.(Amount) <=? a.(Amount))
                  then Ok (mkCoin a.(Denom) (a.(Amount) - b.(Amount))) else Panic;
  ValidateDenom := ref_valid_denom;
  AccAddressFromBech32 s := match s with
                            | String "@" a => if String.eqb a "" then Err ErrAnonymous else Ok a
                            | _ => Err ErrAnonymous end;
  AccString a := if String.eqb a "" then "" else String "@" a;
  NewModuleAddress m := "module/" +:+ m
}.

Lemma AmountOf_drop_zero cs d : AmountOf (drop_zero cs) d = AmountOf cs d.
Proof.
  unfold drop_zero, AmountOf. induction cs as [|c cs IH]; [done|].
  rewrite filter_cons. case_decide as E; simpl; [lia|].
  destruct (Z.eqb_spec (Amount c) 0); [|done]. destruct (String.eqb _ _); lia.
Qed.
Lemma AmountOf_insert cs c d : AmountOf (coins_insert cs c) d = AmountOf cs d + AmountOf [c] d.
Proof.
  unfold AmountOf. induction cs as [|x cs IH]; simpl; [lia|].
  destruct (String.eqb_spec (Denom x) (Denom c)) as [E|E]; simpl in *; [|lia].
  rewrite E. destruct (String.eqb _ _); lia.
Qed.

#[export] Instance ref_coin_laws : CoinLaws ref_coins.
Proof.
  split; simpl.
  - intros d a c. unfold ref_new_coin. case_match eqn:E; [|done]. intros [= <-].
    apply andb_prop in E as [? E]. apply Z.leb_le in E. done.
  - intros d a e. unfold ref_new_coin. by case_match.
  - intros d a E Ha. unfold ref_new_coin. rewrite E. apply Z.leb_le in Ha. by rewrite Ha.
  - done.
  - intros l cs d. case_match; [|done]. intros [= <-]. apply AmountOf_drop_zero.
  - intros cs c cs' d [= <-]. by rewrite AmountOf_drop_zero, AmountOf_insert.
  - intros a b c. destruct (String.eqb_spec (Denom a) (Denom b)); [|done]. by intros [= <-].
  - intros a b c. destruct (String.eqb_spec (Denom a) (Denom b)); simpl; [|done].
    destruct (Z.leb_spec (Amount b) (Amount a)); [|done]. by intros [= <-].
  - intros a Ha. destruct (String.eqb_spec a "") as [|E]; [done|].
    destruct (String.eqb_spec a ""); done.
  - intros s. destruct s as [|[[] [] [] [] [] [] [] []] a]; try done. by destruct (String.eqb a "").
  - intros s a. destruct s as [|[[] [] [] [] [] [] [] []] s]; try done.
    destruct (String.eqb_spec s ""); intros; simplify_eq; done.
  - done.
  - intros l e. by case_match.
  - intros a b e. by case_match.
Qed.

#[export] Instance ref_errors : SdkErrors := {
  ErrInvalidAddress := mkErr "sdk" 7;
  ErrInvalidRequest := mkErr "sdk" 18;
  ErrUnknownRequest := mkErr "sdk" 6;
  ErrKeyNotFound := mkErr "sdk" 30;
  ErrUnknownAddress := mkErr "sdk" 9
}.

(** [FilteredPaginate] with a limit only. *)
#[export] Instance ref_paginator : Paginator := {
  FilteredPaginate V entries limit f :=
    (λ p, taken (λ v _, f v) p.1) <$> FilteredCalls entries (limit_page limit) (λ v _, f v)
}.
#[export] Instance ref_paginator_laws : PaginatorLaws ref_paginator.
Proof.
  split.
  - intros V entries limit f page [= <-]. etrans; [|apply calls_sublist].
    apply fmap_sublist, sublist_filter.
  - intros V entries limit f Hl Hlen. simpl. unfold stop_at. simpl. f_equal.
    assert (uint64 (0 + limit + 1) = limit + 1) as ->
      by (rewrite uint64_id; unfold MaxUint64 in *; lia).
    rewrite calls_taken, Z.sub_0_r, take_ge by lia. done.
  - intros V entries f Hlen. simpl. f_equal. destruct entries as [|[k v] entries]; [done|].
    pose proof (length_filter (λ v, f v = true) entries.*2) as Hf. rewrite length_fmap in Hf.
    unfold taken, stop_at. csimpl. change (uint64 (0 + MaxUint64 + 1)) with 0.
    rewrite !filter_cons. destruct (f v) eqn:Ef; simpl; [|by rewrite Ef].
    rewrite !Ef. csimpl. f_equal. change (0 + 1) with 1.
    pose proof (calls_taken f MaxUint64 0 entries 1 ltac:(lia) ltac:(lia)) as Ht. unfold taken in Ht.
    rewrite Ht, take_ge; [done|]. simpl in Hlen. lia.
Qed.
#[export] Instance ref_pages_laws : PagesLaws ref_pages ref_paginator.
Proof.
  split.
  - intros V entries limit _. eexists. done.
  - intros V before after k v limit _ Hk Hn. simpl. unfold cut. simpl.
    rewrite (proj2 (String.eqb_neq k "") Hk), entries_from_key by done. by eexists.
  - done.
  - intros V entries [key offset limit c b] f calls resp before v after. simpl. intros -> [= <- _] E.
    simpl in *. by apply calls_offset in E.
Qed.
#[export] Instance ref_range : GoRange := { go_range A site l := l }.
#[export] Instance ref_range_laws : GoRangeLaws ref_range.
Proof. split. done. Qed.
#[export] Instance ref_policy_float : PolicyFloat := { block_rate_text _ _ _ := Ok "0.001" }.

(** ** The world *)
Notation Ledger := (gmap (string * string) Z) (only parsing).
Record World := mkWorld {
  w_bank : Ledger;
  w_clp : ClpStore;
  w_registry : Registry;
  w_admin : AdminStore;
  w_events : EventLog;
  w_margin : MarginStore;
  w_minter : Minter;
  w_oracle : OracleStore;
  w_bridge : EthBridgeStore;
  w_validators : gmap string N;
  w_disp : DispStore
}.
#[export] Instance World_settable : Settable World := λ w,
  mkWorld w.(w_bank) w.(w_clp) w.(w_registry) w.(w_admin) w.(w_events) w.(w_margin)
    w.(w_minter) w.(w_oracle) w.(w_bridge) w.(w_validators) w.(w_disp).

#[export] Instance world_clp : HasStore ClpStore World :=
  { store := w_clp; put_store s w := w <| w_clp := s |> }.
#[export] Instance world_registry : HasStore Registry World :=
  { store := w_registry; put_store s w := w <| w_registry := s |> }.
#[export] Instance world_admin : HasStore AdminStore World :=
  { store := w_admin; put_store s w := w <| w_admin := s |> }.
#[export] Instance world_events : HasStore EventLog World :=
  { store := w_events; put_store s w := w <| w_events := s |> }.
#[export] Instance world_oracle : HasStore OracleStore World :=
  { store := w_oracle; put_store s w := w <| w_oracle := s |> }.
#[export] Instance world_bridge : HasStore EthBridgeStore World :=
  { store := w_bridge; put_store s w := w <| w_bridge := s |> }.
#[export] Instance world_disp : HasStore DispStore World :=
  { store := w_disp; put_store s w := w <| w_disp := s |> }.
#[export] Instance world_mint : MintKeeper World := {
  MintParams := unit;
  MintParams_Validate _ := Ok tt;
  SetMinter m := modify (λ w, w <| w_minter := m |>);
  SetMintParams _ := mret tt
}.
#[export] Instance world_margin : HasStore MarginStore World :=
  { store := w_margin; put_store s w := w <| w_margin := s |> }.
#[export] Instance world_margin_keeper : MarginKeeper World := margin_keeper.
#[export] Instance ref_margin_float : MarginFloat := { decay_text _ _ := "0.5" }.

#[export] Instance world_clp_laws : StoreLaws ClpStore World _.
Proof. split; done. Qed.
#[export] Instance world_registry_laws : StoreLaws Registry World _.
Proof. split; done. Qed.
#[export] Instance world_admin_laws : StoreLaws AdminStore World _.
Proof. split; done. Qed.
#[export] Instance world_events_laws : StoreLaws EventLog World _.
Proof. split; done. Qed.
#[export] Instance world_clp_events : StoreIndep ClpStore EventLog World _ _.
Proof. split; done. Qed.
#[export] Instance world_margin_laws : StoreLaws MarginStore World _.
Proof. split; done. Qed.
#[export] Instance world_clp_margin : StoreIndep ClpStore MarginStore World _ _.
Proof. split; done. Qed.
#[export] Instance world_margin_clp : StoreIndep MarginStore ClpStore World _ _.
Proof. split; done. Qed.
#[export] Instance world_margin_events : StoreIndep MarginStore EventLog World _ _.
Proof. split; done. Qed.

(** ** The bank: a ledger *)
Definition held (l : Ledger) (a d : string) : Z := Z.max 0 (default 0 (l !! (a, d))).
Definition credit (a : string) (cs : Coins) (l : Ledger) : Ledger :=
  foldr (λ c l, <[(a, c.(Denom)) := held l a c.(Denom) + c.(Amount)]> l) l cs.
Definition debit (a : string) (cs : Coins) (l : Ledger) : Ledger :=
  foldr (λ c l, <[(a, c.(Denom)) := held l a c.(Denom) - c.(Amount)]> l) l cs.
(** Coins of one entry per denomination with positive amounts the account holds. *)
Definition spendable (l : Ledger) (a : string) (cs : Coins) : bool :=
  duplicate_free cs && forallb (λ c, (0 <=? c.(Amount)) && (c.(Amount) <=? held l a c.(Denom))) cs.
Definition ErrInsufficientFunds : error := mkErr "sdk" 5.

Definition ref_send (a b : string) (cs : Coins) : M World unit := λ w,
  if spendable w.(w_bank) a cs
  then (Ok tt, w <| w_bank ::= λ l, credit b cs (debit a cs l) |>)
  else (Err ErrInsufficientFunds, w).

#[export] Instance world_bank : BankKeeper World := {
  SendCoins := ref_send;
  SendCoinsFromModuleToAccount m a := ref_send (NewModuleAddress m) a;
  SendCoinsFromAccountToModule a m := ref_send a (NewModuleAddress m);
  MintCoins m cs w :=
    if duplicate_free cs && forallb (λ c, 0 <=? c.(Amount)) cs
    then (Ok tt, w <| w_bank ::= credit (NewModuleAddress m) cs |>)
    else (Err ErrAnonymous, w);
  BurnCoins m cs w :=
    if spendable w.(w_bank) (NewModuleAddress m) cs
    then (Ok tt, w <| w_bank ::= debit (NewModuleAddress m) cs |>)
    else (Err ErrInsufficientFunds, w);
  GetBalance w a d := mkCoin d (held w.(w_bank) a d);
  HasBalance w a c := c.(Amount) <=? held w.(w_bank) a c.(Denom)
}.

#[export] Instance world_bank_frame : BankFrame ClpStore World _ _.
Proof.
  split; intros; simpl; try done; intros w; simpl; unfold ref_send; by case_match.
Qed.
#[export] Instance world_bank_margin : BankFrame MarginStore World _ _.
Proof.
  split; intros; simpl; try done; intros w; simpl; unfold ref_send; by case_match.
Qed.

Lemma held_insert_ne l a d a' d' v : (a, d) ≠ (a', d') → held (<[(a, d) := v]> l) a' d' = held l a' d'.
Proof. intros. unfold held. by rewrite lookup_insert_ne. Qed.
Lemma held_insert l a d v : 0 <= v → held (<[(a, d) := v]> l) a d = v.
Proof. intros. unfold held. rewrite lookup_insert_eq. simpl. lia. Qed.

Lemma duplicate_free_cons c cs :
  duplicate_free (c :: cs) = true → Denom c ∉ (Denom <$> cs) ∧ duplicate_free cs = true.
Proof.
  unfold duplicate_free. intros E%bool_decide_eq_true. apply NoDup_cons in E as [? ?].
  split; [done|]. by apply bool_decide_eq_true.
Qed.

Lemma AmountOf_not_in cs d : d ∉ (Denom <$> cs) → AmountOf cs d = 0.
Proof.
  unfold AmountOf. induction cs as [|c cs IH]; simpl; [done|]. intros Hn.
  apply not_elem_of_cons in Hn as [? ?]. destruct (String.eqb_spec (Denom c) d); [congruence|].
  by rewrite IH.
Qed.

Section ledger.
Implicit Types (l : Ledger) (cs : Coins).

Lemma held_credit_other l a cs a' d : a' ≠ a → held (credit a cs l) a' d = held l a' d.
Proof.
  intros. induction cs as [|c cs IH]; [done|]. simpl. rewrite held_insert_ne; [done|congruence].
Qed.
Lemma held_debit_other l a cs a' d : a' ≠ a → held (debit a cs l) a' d = held l a' d.
Proof.
  intros. induction cs as [|c cs IH]; [done|]. simpl. rewrite held_insert_ne; [done|congruence].
Qed.
Lemma held_credit l a cs d :
  duplicate_free cs = true → forallb (λ c, 0 <=? c.(Amount)) cs = true →
  held (credit a cs l) a d = held l a d + AmountOf cs d.
Proof.
  induction cs as [|c cs IH]; [simpl; unfold AmountOf; simpl; lia|].
  intros [Hn Hd]%duplicate_free_cons [Hc Ha]%andb_prop. apply Z.leb_le in Hc.
  specialize (IH Hd Ha). simpl. unfold AmountOf; simpl. fold (AmountOf cs d).
  destruct (String.eqb_spec (Denom c) d) as [<-|E].
  - rewrite held_insert by (unfold held; lia). rewrite IH, AmountOf_not_in by done. lia.
  - rewrite held_insert_ne by congruence. rewrite IH. lia.
Qed.
Lemma held_debit l a cs d :
  spendable l a cs = true → held (debit a cs l) a d = held l a d - AmountOf cs d.
Proof.
  unfold spendable. intros [Hd Hs]%andb_prop. revert Hd Hs.
  induction cs as [|c cs IH]; [simpl; unfold AmountOf; simpl; lia|].
  intros [Hn Hd]%duplicate_free_cons Hall. simpl in Hall.
  apply andb_prop in Hall as [[Hp%Z.leb_le Hc%Z.leb_le]%andb_prop Ha].
  specialize (IH Hd Ha). simpl. unfold AmountOf; simpl. fold (AmountOf cs d).
  assert (∀ d', d' ∉ (Denom <$> cs) → held (debit a cs l) a d' = held l a d') as Hout.
  { clear. intros d' Hn. induction cs as [|x cs IH]; [done|]. simpl in *.
    apply not_elem_of_cons in Hn as [? ?]. rewrite held_insert_ne by congruence. by apply IH. }
  destruct (String.eqb_spec (Denom c) d) as [<-|E].
  - rewrite Hout by done. rewrite held_insert by lia. rewrite AmountOf_not_in by done. lia.
  - rewrite held_insert_ne by congruence. rewrite IH. lia.
Qed.
End ledger.

Lemma spendable_parts l a cs : spendable l a cs = true →
  duplicate_free cs = true ∧ forallb (λ c, 0 <=? c.(Amount)) cs = true.
Proof.
  unfold spendable. intros [? Hs]%andb_prop. split; [done|].
  induction cs as [|c cs IH]; [done|]. simpl in *.
  apply andb_prop in Hs as [[-> _]%andb_prop Hs]. simpl. apply IH; [|done].
  by eapply duplicate_free_cons.
Qed.

(** Every account, the two of the transfer included, also when they are the same. *)
Lemma ref_send_ok a b cs w w' : ref_send a b cs w = (Ok tt, w') → ∀ x d,
  held w'.(w_bank) x d = held w.(w_bank) x d
    - (if String.eqb x a then AmountOf cs d else 0) + (if String.eqb x b then AmountOf cs d else 0).
Proof.
  unfold ref_send. destruct (spendable _ _ _) eqn:Hs; [|done]. intros [= <-] x d. simpl.
  destruct (spendable_parts _ _ _ Hs).
  assert (held (debit a cs (w_bank w)) x d
    = held (w_bank w) x d - (if String.eqb x a then AmountOf cs d else 0)) as E.
  { destruct (String.eqb_spec x a) as [->|]; [by apply held_debit|].
    rewrite held_debit_other by done. lia. }
  destruct (String.eqb_spec x b) as [->|]; [rewrite held_credit by done|
    rewrite held_credit_other by done]; rewrite E; lia.
Qed.
Lemma ref_send_err a b cs w w' r : ref_send a b cs w = (r, w') → is_ok r = false → w' = w.
Proof. unfold ref_send. by case_match; intros [= <- <-]. Qed.

#[export] Instance world_bank_laws : BankLaws World ref_coins world_bank.
Proof.
  split; unfold balance; simpl.
  - intros w m a cs w' a0 d E. by rewrite (ref_send_ok _ _ _ _ _ E).
  - intros w m a cs w' r a0 d E Hr. by rewrite (ref_send_err _ _ _ _ _ _ E Hr).
  - intros w m a cs w' a0 d E. by rewrite (ref_send_ok _ _ _ _ _ E).
  - intros w m a cs w' r a0 d E Hr. by rewrite (ref_send_err _ _ _ _ _ _ E Hr).
  - intros w a b cs w' a0 d E. by rewrite (ref_send_ok _ _ _ _ _ E).
  - intros w m cs w' a0 d. case_match eqn:Hc; [|done]. intros [= <-]. simpl.
    apply andb_prop in Hc as [??].
    destruct (String.eqb_spec a0 ("module/" +:+ m)) as [->|]; [by rewrite held_credit|].
    rewrite held_credit_other by done. lia.
  - intros w m cs w' r a0 d. by case_match; intros [= <- <-].
  - intros w m cs w' a0 d. case_match eqn:Hc; [|done]. intros [= <-]. simpl.
    destruct (String.eqb_spec a0 ("module/" +:+ m)) as [->|]; [by rewrite held_debit|].
    rewrite held_debit_other by done. lia.
  - intros w m cs w' r a0 d. by case_match; intros [= <- <-].
  - intros w a d. unfold held. lia.
Qed.
