(* ===== verification/ClpMathSpec.v ===== *)
(** * ClpMathSpec: what the arithmetic of the pools promises

    Rational pipelines are shown equal to integer reference formulas, the constant-product
    inequality of swaps, and that the amount swapped before an asymmetric add solves the
    equation of the documentation and never exceeds the amount added. *)

From Stdlib Require Import Lqa.
From S2P Require Import Prelude Sdk SdkRef Rat Bank ClpTypes ClpMath.
Local Open Scope Z_scope.

(** ** Rationals *)
Lemma Qle_lin (a b : Q) : (a <= b ↔ 0 <= b - a)%Q.
Proof. split; intros; lra. Qed.

Lemma Qsq_le (a b : Q) : (0 <= b → a * a <= b * b → a <= b)%Q.
Proof. intros Hb H. destruct (Qlt_le_dec b a) as [Hlt|]; [|done]. exfalso. nra. Qed.

Lemma Qsq_lt (a b : Q) : (0 <= b → a * a < b * b → a < b)%Q.
Proof. intros Hb H. destruct (Qlt_le_dec a b) as [|Hle]; [done|]. exfalso. nra. Qed.

Lemma Qplus_nonneg (a b : Q) : (0 <= a → 0 <= b → 0 <= a + b)%Q.
Proof. intros. lra. Qed.

(** Products and sums of nonnegative factors. *)
Ltac q_nonneg :=
  repeat first [ lra | apply Qmult_le_0_compat | apply Qplus_nonneg ].

(** The integer square root of a rational's floor brackets its square root. *)
Lemma sqrt_bracket (z : Q) : (0 <= z)%Q →
  0 <= Z.sqrt (rat_trunc z) ∧
  (inject_Z (Z.sqrt (rat_trunc z)) * inject_Z (Z.sqrt (rat_trunc z)) <= z)%Q ∧
  (z < (inject_Z (Z.sqrt (rat_trunc z)) + 1) * (inject_Z (Z.sqrt (rat_trunc z)) + 1))%Q.
Proof.
  intros Hz. destruct (rat_trunc_spec z Hz) as (H0 & H1 & H2).
  pose proof (Z.sqrt_spec (rat_trunc z) H0) as [H3 H4]. pose proof (Z.sqrt_nonneg (rat_trunc z)).
  set (t := rat_trunc z) in *. set (s := Z.sqrt t) in *. split; [done|].
  assert (inject_Z (s * s) <= inject_Z t)%Q as H5 by (rewrite <- Zle_Qle; lia).
  assert (inject_Z (t + 1) <= inject_Z ((s + 1) * (s + 1)))%Q as H6 by (rewrite <- Zle_Qle; lia).
  rewrite !inject_Z_mult in *. rewrite !inject_Z_plus in *.
  change (inject_Z 1) with 1%Q in *. split; lra.
Qed.

Lemma inject_nonneg (n : Z) : 0 <= n → (0 <= inject_Z n)%Q.
Proof. intros. change 0%Q with (inject_Z 0). by rewrite <- Zle_Qle. Qed.

(** The shape both swap amounts have, [|(isqrt z + B) / D|] truncated, where the exact root
    [(sqrt z + B) / D] lies between 0 and [n]. *)
Lemma truncated_root (z B D : Q) (n : Z) :
  (0 <= z)%Q → (1 <= D)%Q → 0 <= n →
  (B * B <= z)%Q →
  (0 <= inject_Z n * D - B)%Q →
  (z <= (inject_Z n * D - B) * (inject_Z n * D - B))%Q →
  let s := rat_trunc (Qabs ((inject_Z (Z.sqrt (rat_trunc z)) + B) / D)) in
  0 <= s <= n ∧
  ((inject_Z s * D - B) * (inject_Z s * D - B) <= z)%Q ∧
  (0 <= (inject_Z s + 2) * D - B)%Q ∧
  (z < ((inject_Z s + 2) * D - B) * ((inject_Z s + 2) * D - B))%Q.
Proof.
  intros Hz HD Hn HB Hbase Hup. cbv zeta.
  destruct (sqrt_bracket z Hz) as (Hs0 & Hs1 & Hs2).
  pose proof (inject_nonneg _ Hs0) as Hsq. pose proof (inject_nonneg _ Hn) as Hn'.
  set (t := inject_Z (Z.sqrt (rat_trunc z))) in *.
  assert (t <= inject_Z n * D - B)%Q as Hle by (apply Qsq_le; [done|]; lra).
  assert (-1 < t + B)%Q as Hlow.
  { destruct (Qlt_le_dec 0 B); [lra|].
    assert (- B < t + 1)%Q by (apply Qsq_lt; [lra|]; lra). lra. }
  assert ((t + B) / D * D == t + B)%Q as Hdiv by (field; lra).
  set (d := ((t + B) / D)%Q) in *. set (q := Qabs d).
  assert (0 <= q)%Q as Hq0 by apply Qabs_nonneg.
  destruct (rat_trunc_spec q Hq0) as (Hr0 & Hr1 & Hr2).
  rewrite inject_Z_plus in Hr2. change (inject_Z 1) with 1%Q in Hr2.
  set (s := rat_trunc q) in *. pose proof (inject_nonneg _ Hr0) as Hs.
  assert (inject_Z s * D <= t + B ∨ s = 0%Z ∧ t + B < 0)%Q as Hsd.
  { destruct (Qlt_le_dec d 0) as [Hd|Hd].
    - right. assert (q == - d)%Q as Hq by (apply Qabs_neg; lra).
      assert (q < 1)%Q as Hq1 by (rewrite Hq; nra). split; [|nra].
      assert (inject_Z s < inject_Z 1)%Q as H1 by (change (inject_Z 1) with 1%Q; lra).
      rewrite <- Zlt_Qlt in H1. lia.
    - left. assert (q == d)%Q as Hq by (apply Qabs_pos; lra). nra. }
  assert (t + B < (inject_Z s + 1) * D)%Q as Hsu.
  { destruct (Qlt_le_dec d 0) as [Hd|Hd]; [nra|].
    assert (q == d)%Q as Hq by (apply Qabs_pos; lra). nra. }
  clearbody s d t. repeat split.
  - done.
  - destruct Hsd as [Hsd|[-> _]]; [|done].
    assert (inject_Z s <= inject_Z n)%Q as H3 by nra. by rewrite <- Zle_Qle in H3.
  - destruct Hsd as [Hsd|[-> _]]; [|change (inject_Z 0) with 0%Q; lra].
    destruct (Qlt_le_dec (inject_Z s * D - B) 0) as [Hneg|Hpos]; [|nra].
    assert (0 <= inject_Z s * D)%Q by nra. nra.
  - nra.
  - assert (t + 1 <= (inject_Z s + 2) * D - B)%Q by nra. nra.
Qed.

(** ** The swap before an asymmetric add

    The documentation states the amount [s] to swap as the solution of
    [(a+A)/(r+R) = (a-s) / (r + s*R/(s+A)*(1-f)/(1+p))] for the external asset and of
    [(r+R)/(a+A) = (r-s) / (a + s*A/(s+R)*(1+p)*(1-f))] for the native one.  Cleared of
    fractions, left minus right is the residual: it is zero at the exact solution and
    decreasing through it. *)
Definition external_residual (Y X y x f p s : Q) : Q :=
  ((x - s) * (y + Y) * (s + X) * (1 + p) - (x + X) * (y * (s + X) * (1 + p) + s * Y * (1 - f)))%Q.
Definition native_residual (Y X y x f p s : Q) : Q :=
  ((y - s) * (x + X) * (s + Y) - (y + Y) * (x * (s + Y) + s * X * (1 + p) * (1 - f)))%Q.

Lemma approx_sqrt_ok z z' : (z == z')%Q → (0 <= z')%Q →
  ApproxRatSquareRoot z = Ok (Z.sqrt (rat_trunc z')).
Proof.
  intros E Hz. unfold ApproxRatSquareRoot, RatIntQuo, big_Sqrt.
  assert (rat_trunc z = rat_trunc z') as -> by (by rewrite E).
  destruct (rat_trunc_spec z' Hz) as (H0 & _).
  by rewrite (proj2 (Z.ltb_ge _ _) H0).
Qed.

Lemma rat_Quo_proper a b a' b' : (a == a')%Q → (b == b')%Q → (0 < b')%Q →
  ∃ q, rat_Quo a b = Ok q ∧ (q == a' / b')%Q.
Proof.
  intros Ea Eb Hb. exists (a / b)%Q. split.
  - apply rat_Quo_ok. rewrite Eb. lra.
  - by rewrite Ea, Eb.
Qed.

Lemma mul_nonneg_iff (c d e : Q) : (0 < c → c * d == e → 0 <= e → 0 <= d)%Q.
Proof. intros Hc He H. rewrite <- He in H. destruct (Qlt_le_dec d 0); [|done]. nra. Qed.
Lemma mul_neg_iff (c d e : Q) : (0 < c → c * d == e → e < 0 → d < 0)%Q.
Proof. intros Hc He H. rewrite <- He in H. destruct (Qlt_le_dec d 0); [done|]. nra. Qed.

Section asymmetric.
Context (R A r a : Z) (f p : Q).
Context (HR : 0 < R) (HA : 0 < A) (Hr : 0 <= r) (Ha : 0 <= a).
Context (Hf : (0 <= f <= 1)%Q) (Hp : (0 <= p)%Q).
Notation Y := (inject_Z R). Notation X := (inject_Z A).
Notation y := (inject_Z r). Notation x := (inject_Z a).
Notation S := (X * (y + Y))%Q. Notation T := (Y * (x + X))%Q.

Lemma sides : (1 <= Y ∧ 1 <= X ∧ 0 <= y ∧ 0 <= x)%Q.
Proof.
  change 1%Q with (inject_Z 1). change 0%Q with (inject_Z 0).
  rewrite <- !Zle_Qle. lia.
Qed.

Lemma external_swap_amount : r * A < R * a →
  ∃ q, CalculateExternalSwapAmountAsymmetricRat Y X y x f p = Ok q ∧
    0 <= RatIntQuo q <= a ∧
    (0 <= external_residual Y X y x f p (inject_Z (RatIntQuo q)))%Q ∧
    (external_residual Y X y x f p (inject_Z (RatIntQuo q) + 2) < 0)%Q.
Proof.
  intros Hlt. destruct sides as (HY & HX & Hy & Hx).
  assert (S < T)%Q as HST.
  { assert (y * X < Y * x)%Q by (rewrite <- !inject_Z_mult, <- Zlt_Qlt; lia). lra. }
  set (z := (T * ((f + p) * (f + p) * T + 4 * (1 + p) * (1 - f) * S))%Q).
  set (D := (2 * (1 + p) * (y + Y))%Q). set (B := ((f + p) * T - 2 * (1 + p) * S)%Q).
  assert (0 < S ∧ 0 < T)%Q as [HS HT] by (split; nra).
  assert (0 <= z)%Q as Hz.
  { unfold z. q_nonneg. }
  assert (z - B * B == 4 * ((1 + p) * (1 + p)) * (S * (T - S)))%Q as HzB by (unfold z, B; ring).
  unfold CalculateExternalSwapAmountAsymmetricRat.
  rewrite (approx_sqrt_ok _ z) by (done || (unfold z, rat_SetInt; ring)).
  rewrite rbind_Ok.
  match goal with |- context [rat_Quo ?ab ?ac] =>
    destruct (rat_Quo_proper ab ac (inject_Z (Z.sqrt (rat_trunc z)) + B) D) as (q & -> & Eq)
  end; [unfold B, rat_SetInt; ring | unfold D, rat_SetInt; ring | unfold D; nra |].
  rewrite rbind_Ok. eexists. split; [done|].
  unfold RatIntQuo. rewrite Eq.
  set (V := ((x + X) * (y + Y))%Q).
  assert (T <= V ∧ S <= V)%Q as [HTV HSV] by (unfold V; split; nra).
  assert (x * D - B == 2 * (1 + p) * V - (f + p) * T)%Q as HDV by (unfold D, B, V; ring).
  destruct (truncated_root z B D a) as (H1 & H2 & H3 & H4); try done.
  - unfold D. nra.
  - assert (0 <= S * (T - S))%Q by nra.
    assert (0 <= (1 + p) * (1 + p))%Q by nra. nra.
  - rewrite HDV. nra.
  - rewrite HDV.
    assert ((2 * (1 + p) * V - (f + p) * T) * (2 * (1 + p) * V - (f + p) * T) - z
      == 4 * (1 + p) * ((1 + p) * (V * V) - (f + p) * (V * T) - (1 - f) * (S * T)))%Q as E
      by (unfold z; ring).
    assert (V * T <= V * V ∧ S * T <= V * V)%Q as [] by (split; nra).
    assert (0 <= (1 + p) * (V * V) - (f + p) * (V * T) - (1 - f) * (S * T))%Q by nra.
    nra.
  - set (s := inject_Z (rat_trunc _)) in *. split; [done|].
    assert (∀ s, 2 * D * external_residual Y X y x f p s == z - (s * D - B) * (s * D - B))%Q as E
      by (intros; unfold external_residual, D, z, B; ring).
    assert (0 < 2 * D)%Q by (unfold D; nra).
    split; [eapply mul_nonneg_iff; [done|apply E|lra] | eapply mul_neg_iff; [done|apply E|lra]].
Qed.

Lemma native_swap_amount : R * a < r * A →
  ∃ q, CalculateNativeSwapAmountAsymmetricRat Y X y x f p = Ok q ∧
    0 <= RatIntQuo q <= r ∧
    (0 <= native_residual Y X y x f p (inject_Z (RatIntQuo q)))%Q ∧
    (native_residual Y X y x f p (inject_Z (RatIntQuo q) + 2) < 0)%Q.
Proof.
  intros Hlt. destruct sides as (HY & HX & Hy & Hx).
  assert (T < S)%Q as HST.
  { assert (Y * x < y * X)%Q by (rewrite <- !inject_Z_mult, <- Zlt_Qlt; lia). lra. }
  set (k := ((1 + p) * (1 - f) - 1)%Q). assert (-1 <= k)%Q as Hk by (unfold k; nra).
  set (z := (S * (k * k * S + 4 * (1 + k) * T))%Q).
  set (D := (2 * (x + X))%Q). set (B := (- (k * S + 2 * T))%Q).
  assert (0 < S ∧ 0 < T)%Q as [HS HT] by (split; nra).
  assert (0 <= z)%Q as Hz.
  { unfold z. assert (0 <= k * k)%Q by nra. q_nonneg. }
  assert (z - B * B == 4 * (T * (S - T)))%Q as HzB by (unfold z, B; ring).
  unfold CalculateNativeSwapAmountAsymmetricRat.
  rewrite (approx_sqrt_ok _ z) by (done || (unfold z, k, rat_SetInt; ring)).
  rewrite rbind_Ok.
  match goal with |- context [rat_Quo ?ab ?ac] =>
    destruct (rat_Quo_proper ab ac (inject_Z (Z.sqrt (rat_trunc z)) + B) D) as (q & -> & Eq)
  end; [unfold B, k, rat_SetInt; ring | unfold D, rat_SetInt; ring | unfold D; nra |].
  rewrite rbind_Ok. eexists. split; [done|].
  unfold RatIntQuo. rewrite Eq.
  set (V := ((x + X) * (y + Y))%Q).
  assert (T <= V ∧ S <= V)%Q as [HTV HSV] by (unfold V; split; nra).
  assert (y * D - B == k * S + 2 * V)%Q as HDV by (unfold D, B, V; ring).
  destruct (truncated_root z B D r) as (H1 & H2 & H3 & H4); try done.
  - unfold D. lra.
  - assert (0 <= T * (S - T))%Q by nra. lra.
  - rewrite HDV. nra.
  - rewrite HDV.
    assert ((k * S + 2 * V) * (k * S + 2 * V) - z
      == 4 * ((1 + k) * (S * (V - T)) + V * (V - S)))%Q as E by (unfold z; ring).
    assert (0 <= S * (V - T) ∧ 0 <= V * (V - S))%Q as [] by (split; nra).
    assert (0 <= (1 + k) * (S * (V - T)))%Q by (apply Qmult_le_0_compat; lra). lra.
  - set (s := inject_Z (rat_trunc _)) in *. split; [done|].
    assert (∀ s, 2 * D * native_residual Y X y x f p s == z - (s * D - B) * (s * D - B))%Q as E
      by (intros; unfold native_residual, D, z, B, k; ring).
    assert (0 < 2 * D)%Q by (unfold D; lra).
    split; [eapply mul_nonneg_iff; [done|apply E|lra] | eapply mul_neg_iff; [done|apply E|lra]].
Qed.
End asymmetric.

(** ** Swaps

    Reference formulas of the amount bought before the fee, and of the fee, in integers. *)
Definition swap_adjusted (toFury : bool) (X x Y p : Z) : Z :=
  if toFury then x * Y * dec_one / ((X + x) * (dec_one + p))
  else x * Y * (dec_one + p) / ((X + x) * dec_one).
Definition swap_fee (toFury : bool) (X x Y p f : Z) : Z :=
  if toFury then x * Y * f / ((X + x) * (dec_one + p))
  else x * Y * (dec_one + p) * f / ((X + x) * dec_one * dec_one).

Lemma inject_pos (n : Z) : 0 < n → (0 < inject_Z n)%Q.
Proof. intros. change 0%Q with (inject_Z 0). by rewrite <- Zlt_Qlt. Qed.

Lemma DecToRat_ok d : DecToRat d = Ok (inject_Z d / inject_Z dec_one)%Q.
Proof. done. Qed.



Lemma calcPmtpFactor_ok p : 0 <= p →
  ∃ q, calcPmtpFactor p = Ok q ∧ (q == inject_Z (dec_one + p) / inject_Z dec_one)%Q.
Proof.
  intros Hp. unfold calcPmtpFactor. rewrite DecToRat_ok, rbind_Ok. eexists; split; [done|].
  rewrite inject_Z_plus. field. unfold Qeq; done.
Qed.

Lemma calcRawXYK_ok x X Y : 0 < x → 0 < X →
  ∃ q, calcRawXYK x X Y = Ok q ∧ (q == inject_Z (x * Y) / inject_Z (X + x))%Q.
Proof.
  intros Hx HX. unfold calcRawXYK, rat_SetInt. apply rat_Quo_proper.
  - by rewrite inject_Z_mult.
  - by rewrite inject_Z_plus.
  - apply inject_pos. lia.
Qed.

Ltac inject_ne0 := apply not_eq_sym, Qlt_not_eq, inject_pos; unfold dec_one in *; lia.

Section swap.
Context {sdk : Sdk} {HL : SdkLaws sdk}.

(** The rationals computed are the reference formulas; only their conversions can fail. *)
Lemma CalcSwapResult_pipeline toFury X x Y p f :
  0 < X → 0 < x → 0 < Y → 0 <= p → 0 <= f <= dec_one →
  CalcSwapResult toFury X x Y p f =
    (fee ← checked_uint (swap_fee toFury X x Y p f);
     adjusted ← checked_uint (swap_adjusted toFury X x Y p);
     y ← checked_uint (adjusted - fee); Ok (y, fee))
  ∧ 0 <= swap_fee toFury X x Y p f <= swap_adjusted toFury X x Y p.
Proof.
  intros HX Hx HY Hp Hf. unfold CalcSwapResult. simpl (IsAnyZero _).
  rewrite (proj2 (Z.eqb_neq X 0)), (proj2 (Z.eqb_neq x 0)), (proj2 (Z.eqb_neq Y 0)) by lia.
  simpl (_ || _).
  destruct (calcRawXYK_ok x X Y) as (raw & -> & Eraw); [done..|]. rewrite rbind_Ok.
  destruct (calcPmtpFactor_ok p) as (fac & -> & Efac); [done|]. rewrite rbind_Ok.
  pose proof (inject_pos dec_one eq_refl) as H1. pose proof (inject_pos (X + x) ltac:(lia)) as H2.
  pose proof (inject_pos (dec_one + p) ltac:(unfold dec_one; lia)) as H3.
  assert (∃ adj, (if toFury then rat_Quo raw fac else Ok (raw * fac)%Q) = Ok adj ∧
    (adj == (if toFury then inject_Z (x * Y * dec_one) / inject_Z ((X + x) * (dec_one + p))
             else inject_Z (x * Y * (dec_one + p)) / inject_Z ((X + x) * dec_one)))%Q)
    as (adj & -> & Eadj).
  { destruct toFury.
    - rewrite rat_Quo_ok.
      2:{ rewrite Efac. apply not_eq_sym, Qlt_not_eq. apply Qlt_shift_div_l; lra. }
      eexists; split; [done|]. rewrite Eraw, Efac, !inject_Z_mult. field. repeat split; lra.
    - eexists; split; [done|]. rewrite Eraw, Efac, !inject_Z_mult. field. repeat split; lra. }
  rewrite rbind_Ok, DecToRat_ok, rbind_Ok. unfold RatIntQuo.
  assert (rat_trunc adj = swap_adjusted toFury X x Y p) as ->.
  { rewrite Eadj. unfold swap_adjusted. destruct toFury; apply rat_trunc_frac;
      unfold dec_one in *; nia. }
  assert (rat_trunc (adj * (inject_Z f / inject_Z dec_one)) = swap_fee toFury X x Y p f) as ->.
  { assert (adj * (inject_Z f / inject_Z dec_one) ==
      (if toFury then inject_Z (x * Y * f) / inject_Z ((X + x) * (dec_one + p))
       else inject_Z (x * Y * (dec_one + p) * f) / inject_Z ((X + x) * dec_one * dec_one)))%Q as ->.
    { rewrite Eadj. destruct toFury; rewrite !inject_Z_mult; field; repeat split; lra. }
    unfold swap_fee. destruct toFury; apply rat_trunc_frac; unfold dec_one in *; nia. }
  assert (0 <= swap_fee toFury X x Y p f <= swap_adjusted toFury X x Y p) as Hfee.
  { unfold swap_fee, swap_adjusted. destruct toFury.
    - split; [apply Z.div_pos; unfold dec_one in *; nia|].
      apply Z.div_le_mono; unfold dec_one in *; nia.
    - split; [apply Z.div_pos; unfold dec_one in *; nia|].
      rewrite <- (Z.div_mul_cancel_r (x * Y * (dec_one + p)) ((X + x) * dec_one) dec_one)
        by (unfold dec_one; lia).
      apply Z.div_le_mono; [unfold dec_one in *; nia|].
      apply Z.mul_le_mono_nonneg_l; unfold dec_one in *; nia. }
  split; [|done]. rewrite !uint_new.
  destruct (checked_uint (swap_fee _ _ _ _ _ _)) as [fee| |]; [rewrite !rbind_Ok|reflexivity..].
  destruct (checked_uint (swap_adjusted _ _ _ _ _)) as [adjusted| |]; [rewrite !rbind_Ok|reflexivity..].
  by rewrite uint_sub.
Qed.
Lemma CalcSwapResult_ref toFury X x Y p f :
  0 < X → 0 < x → 0 < Y → 0 <= p → 0 <= f <= dec_one →
  swap_adjusted toFury X x Y p < 2 ^ 256 →
  CalcSwapResult toFury X x Y p f =
    Ok (swap_adjusted toFury X x Y p - swap_fee toFury X x Y p f, swap_fee toFury X x Y p f)
  ∧ 0 <= swap_fee toFury X x Y p f <= swap_adjusted toFury X x Y p.
Proof.
  intros HX Hx HY Hp Hf Hlt.
  destruct (CalcSwapResult_pipeline toFury X x Y p f HX Hx HY Hp Hf) as (-> & Hfee). split; [|done].
  rewrite !checked_uint_total, !rbind_Ok, checked_uint_total by lia. done.
Qed.
End swap.

Section swap_facts.
Context {sdk : Sdk} {HL : SdkLaws sdk}.

(** Without ratio shifting in the buyer's favour the amount bought, fee included, is at
    most the constant-product amount. *)
Lemma swap_adjusted_xyk toFury X x Y p :
  0 < X → 0 < x → 0 < Y → 0 <= p → toFury = true ∨ p = 0 →
  swap_adjusted toFury X x Y p * (X + x) <= x * Y.
Proof.
  intros HX Hx HY Hp Hmode. unfold swap_adjusted.
  assert (swap_adjusted toFury X x Y p <= x * Y / (X + x)) as Hle.
  { unfold swap_adjusted. destruct toFury.
    - rewrite <- (Z.div_mul_cancel_r (x * Y) (X + x) (dec_one + p)) by (unfold dec_one; lia).
      apply Z.div_le_mono; [unfold dec_one; nia|].
      apply Z.mul_le_mono_nonneg_l; unfold dec_one; nia.
    - destruct Hmode as [|Hp0]; [done|]. rewrite Hp0 in *. rewrite Z.add_0_r.
      rewrite Z.div_mul_cancel_r; unfold dec_one; lia. }
  unfold swap_adjusted in Hle. pose proof (Z.mul_div_le (x * Y) (X + x) ltac:(lia)). nia.
Qed.

Lemma CalcSwapResult_zero toFury X x Y p f :
  X = 0 ∨ x = 0 ∨ Y = 0 → CalcSwapResult toFury X x Y p f = Ok (0, 0).
Proof.
  intros Hz. unfold CalcSwapResult. simpl (IsAnyZero _).
  assert ((X =? 0) || ((x =? 0) || ((Y =? 0) || false)) = true) as ->; [|done].
  destruct Hz as [Hz|[Hz|Hz]]; rewrite Hz, ?Z.eqb_refl, ?orb_true_r; done.
Qed.

(** Without a shift in the buyer's favour the pipeline always produces a result. *)
Lemma CalcSwapResult_fair toFury X x Y p f :
  0 <= X → 0 <= x → 0 <= Y < 2 ^ 256 → 0 <= p → 0 <= f <= dec_one → toFury = true ∨ p = 0 →
  ∃ y fee, CalcSwapResult toFury X x Y p f = Ok (y, fee) ∧
    0 <= y ∧ 0 <= fee ∧ (y + fee) * (X + x) <= x * Y.
Proof.
  intros HX Hx HY Hp Hf Hmode.
  destruct (decide (X = 0 ∨ x = 0 ∨ Y = 0)) as [Hz|Hz].
  { exists 0, 0. rewrite CalcSwapResult_zero by done. repeat split; lia. }
  assert (0 < X ∧ 0 < x ∧ 0 < Y) as (HX' & Hx' & HY') by lia.
  pose proof (swap_adjusted_xyk toFury X x Y p HX' Hx' HY' Hp Hmode) as Hadj.
  assert (swap_adjusted toFury X x Y p <= Y) by nia.
  destruct (CalcSwapResult_ref toFury X x Y p f) as (-> & Hfee); try done; [lia|].
  do 2 eexists; split; [done|]. repeat split; nia.
Qed.
End swap_facts.

(** [floor((1-f)*t)] and the two roundings of the code differ by less than two. *)
Lemma two_floors N D f : 0 <= N → 0 < D → 0 <= f <= dec_one →
  let y := N * dec_one / (D * dec_one) - N * f / (D * dec_one) in
  y * (D * dec_one) < N * (dec_one - f) + D * dec_one ∧
  N * (dec_one - f) < (y + 1) * (D * dec_one).
Proof.
  intros HN HD Hf. cbv zeta. assert (0 < D * dec_one) as HE by (unfold dec_one; lia).
  set (E := D * dec_one) in *.
  pose proof (Z.div_mod (N * dec_one) E ltac:(lia)). pose proof (Z.mod_pos_bound (N * dec_one) E HE).
  pose proof (Z.div_mod (N * f) E ltac:(lia)). pose proof (Z.mod_pos_bound (N * f) E HE).
  set (q1 := N * dec_one / E) in *. set (q2 := N * f / E) in *.
  replace (N * (dec_one - f)) with (N * dec_one - N * f) by ring.
  replace ((q1 - q2) * E) with (E * q1 - E * q2) by ring.
  replace ((q1 - q2 + 1) * E) with (E * q1 - E * q2 + E) by ring. lia.
Qed.

(** The amount received as two floors of one fraction. *)
Lemma swap_two_floors (toFury : bool) (X x Y p f : Z) :
  0 < X → 0 < x → 0 < Y → 0 <= p → 0 <= f →
  ∃ N D, 0 <= N ∧ 0 < D ∧
    N * (X + x) * (if toFury then dec_one + p else dec_one)
      = x * Y * D * (if toFury then dec_one else dec_one + p) ∧
    swap_adjusted toFury X x Y p = N * dec_one / (D * dec_one) ∧
    swap_fee toFury X x Y p f = N * f / (D * dec_one).
Proof.
  intros HX Hx HY Hp Hf. unfold swap_adjusted, swap_fee. destruct toFury.
  - exists (x * Y * dec_one), ((X + x) * (dec_one + p)).
    split; [unfold dec_one; nia|]. split; [unfold dec_one; nia|]. split; [ring|].
    split; [rewrite Z.div_mul_cancel_r; [done|unfold dec_one; nia..]|].
    replace (x * Y * dec_one * f) with (x * Y * f * dec_one) by ring.
    rewrite Z.div_mul_cancel_r; [done|unfold dec_one; nia..].
  - exists (x * Y * (dec_one + p)), ((X + x) * dec_one).
    split; [unfold dec_one; nia|]. split; [unfold dec_one; nia|]. split; [ring|].
    split; [rewrite Z.div_mul_cancel_r; [done|unfold dec_one; nia..]|]. done.
Qed.

(** ** Units *)
Section units_facts.
Context {sdk : Sdk} {HL : SdkLaws sdk}.

Lemma symmetry_state_cross X x Y y :
  0 < X → 0 < Y → 0 <= x → 0 <= y → ¬ (x = 0 ∧ y = 0) →
  GetLiquidityAddSymmetryState X x Y y =
    Ok (match Z.compare (Y * x) (y * X) with
        | Lt => NeedMoreX | Eq => Symmetric | Gt => NeedMoreY end).
Proof.
  intros HX HY Hx Hy Hne. unfold GetLiquidityAddSymmetryState.
  rewrite (proj2 (Z.eqb_neq X 0)), (proj2 (Z.eqb_neq Y 0)) by lia. simpl.
  destruct (Z.eqb_spec x 0) as [Hx0|Hx0]; simpl.
  - rewrite (proj2 (Z.eqb_neq y 0)) by lia. rewrite Hx0, Z.mul_0_r.
    rewrite (proj2 (Z.compare_lt_iff _ _)); [done|nia].
  - rewrite !rat_SetFrac_pos by lia. rewrite !rbind_Ok.
    rewrite (rat_Cmp_cross Y X y x) by (rewrite ?rat_SetFrac_pos; done || lia).
    by destruct (Z.compare (Y * x) (y * X)).
Qed.


Lemma CalculateExternalSwapAmountAsymmetric_ok R A r a f p :
  0 < R → 0 < A → 0 <= r → 0 <= a < 2 ^ 256 → (0 <= f <= 1)%Q → (0 <= p)%Q →
  r * A < R * a →
  ∃ s, CalculateExternalSwapAmountAsymmetric R A r a f p = Ok s ∧ 0 <= s <= a ∧
    (0 <= external_residual (inject_Z R) (inject_Z A) (inject_Z r) (inject_Z a) f p (inject_Z s))%Q ∧
    (external_residual (inject_Z R) (inject_Z A) (inject_Z r) (inject_Z a) f p (inject_Z s + 2) < 0)%Q.
Proof.
  intros HR HA Hr Ha Hf Hp Hlt.
  destruct (external_swap_amount R A r a f p HR HA Hr ltac:(lia) Hf Hp Hlt) as (q & Hq & Hs & H1 & H2).
  exists (RatIntQuo q). unfold CalculateExternalSwapAmountAsymmetric, rat_SetInt.
  rewrite Hq, rbind_Ok, uint_new, checked_uint_total by lia. done.
Qed.

Lemma CalculateNativeSwapAmountAsymmetric_ok R A r a f p :
  0 < R → 0 < A → 0 <= r < 2 ^ 256 → 0 <= a → (0 <= f <= 1)%Q → (0 <= p)%Q →
  R * a < r * A →
  ∃ s, CalculateNativeSwapAmountAsymmetric R A r a f p = Ok s ∧ 0 <= s <= r ∧
    (0 <= native_residual (inject_Z R) (inject_Z A) (inject_Z r) (inject_Z a) f p (inject_Z s))%Q ∧
    (native_residual (inject_Z R) (inject_Z A) (inject_Z r) (inject_Z a) f p (inject_Z s + 2) < 0)%Q.
Proof.
  intros HR HA Hr Ha Hf Hp Hlt.
  destruct (native_swap_amount R A r a f p HR HA ltac:(lia) Ha Hf Hp Hlt) as (q & Hq & Hs & H1 & H2).
  exists (RatIntQuo q). unfold CalculateNativeSwapAmountAsymmetric, rat_SetInt.
  rewrite Hq, rbind_Ok, uint_new, checked_uint_total by lia. done.
Qed.
End units_facts.




(** the first deposit into a pool with an empty side sets the units to the native amount,
    and is refused with [ErrInValidAmount] when it leaves a side empty. *)
Theorem CalculatePoolUnits_empty_pool `{Sdk} (P R A r a sellFee buyFee pmtp : Z) :
  R = 0 ∨ A = 0 →
  CalculatePoolUnits P R A r a sellFee buyFee pmtp =
    if (a =? 0) || (r =? 0) then Err ErrInValidAmount else Ok (r, r, NoSwap, None).
Proof.
  intros HE. unfold CalculatePoolUnits. rewrite !DecToRat_ok, !rbind_Ok.
  unfold GetLiquidityAddSymmetryState.
  assert ((A =? 0) || (R =? 0) = true) as ->; [|done].
  destruct HE as [HE|HE]; rewrite HE; simpl; rewrite ?orb_true_r; done.
Qed.

Lemma CalculatePoolUnits_empty_pool_witness :
  CalculatePoolUnits 0 0 0 500 700 0 0 0 = Ok (500, 500, NoSwap, None).
Proof. apply (CalculatePoolUnits_empty_pool 0 0 0 500 700 0 0 0). by left. Defined.

(** the comparison of an add with the pool's ratio is total and exact: it compares the
    cross products [Y*x] and [y*X], with no rounding. *)
Theorem GetLiquidityAddSymmetryState_spec (X x Y y : Z) :
  0 <= X → 0 <= x → 0 <= Y → 0 <= y →
  GetLiquidityAddSymmetryState X x Y y = Ok
    (if (X =? 0) || (Y =? 0) then ErrorEmptyPool
     else if (x =? 0) && (y =? 0) then ErrorNothingAdded
     else match Z.compare (Y * x) (y * X) with
          | Lt => NeedMoreX | Eq => Symmetric | Gt => NeedMoreY end).
Proof.
  intros HX Hx HY Hy.
  destruct (Z.eqb_spec X 0); [by subst|]. destruct (Z.eqb_spec Y 0).
  { subst. unfold GetLiquidityAddSymmetryState. by rewrite orb_true_r. }
  simpl. destruct ((x =? 0) && (y =? 0)) eqn:E.
  - unfold GetLiquidityAddSymmetryState.
    rewrite (proj2 (Z.eqb_neq X 0)), (proj2 (Z.eqb_neq Y 0)) by done. simpl. by rewrite E.
  - apply symmetry_state_cross; lia.
Qed.

Lemma GetLiquidityAddSymmetryState_spec_witness :
  GetLiquidityAddSymmetryState 300 2 100 1 = Ok NeedMoreX.
Proof. apply (GetLiquidityAddSymmetryState_spec 300 2 100 1); lia. Defined.

(** Before an add with too much external asset, the amount swapped is nonnegative, at
    most the amount added, and solves the documented equation: the residual changes sign
    within two units above it. *)
Theorem external_swap_solves_equation `{HL : SdkLaws} (R A r a : Z) (f p : Q) :
  0 < R → 0 < A → 0 <= r → 0 <= a < 2 ^ 256 → (0 <= f <= 1)%Q → (0 <= p)%Q →
  r * A < R * a →
  ∃ s, CalculateExternalSwapAmountAsymmetric R A r a f p = Ok s ∧ 0 <= s <= a ∧
    (0 <= external_residual (inject_Z R) (inject_Z A) (inject_Z r) (inject_Z a) f p (inject_Z s))%Q ∧
    (external_residual (inject_Z R) (inject_Z A) (inject_Z r) (inject_Z a) f p (inject_Z s + 2) < 0)%Q.
Proof. apply CalculateExternalSwapAmountAsymmetric_ok. Qed.

Lemma external_swap_solves_equation_witness :
  ∃ s, CalculateExternalSwapAmountAsymmetric 1000 1000 0 500 (3 # 1000) (1 # 10) = Ok s
    ∧ 0 <= s <= 500 ∧
    (0 <= external_residual 1000 1000 0 500 (3 # 1000) (1 # 10) (inject_Z s))%Q ∧
    (external_residual 1000 1000 0 500 (3 # 1000) (1 # 10) (inject_Z s + 2) < 0)%Q.
Proof. apply (external_swap_solves_equation 1000 1000 0 500); done || lia || lra. Defined.

(** The same for an add with too much native asset. *)
Theorem native_swap_solves_equation `{HL : SdkLaws} (R A r a : Z) (f p : Q) :
  0 < R → 0 < A → 0 <= r < 2 ^ 256 → 0 <= a → (0 <= f <= 1)%Q → (0 <= p)%Q →
  R * a < r * A →
  ∃ s, CalculateNativeSwapAmountAsymmetric R A r a f p = Ok s ∧ 0 <= s <= r ∧
    (0 <= native_residual (inject_Z R) (inject_Z A) (inject_Z r) (inject_Z a) f p (inject_Z s))%Q ∧
    (native_residual (inject_Z R) (inject_Z A) (inject_Z r) (inject_Z a) f p (inject_Z s + 2) < 0)%Q.
Proof. apply CalculateNativeSwapAmountAsymmetric_ok. Qed.

Lemma native_swap_solves_equation_witness :
  ∃ s, CalculateNativeSwapAmountAsymmetric 1000 1000 700 0 (3 # 1000) (1 # 10) = Ok s
    ∧ 0 <= s <= 700 ∧
    (0 <= native_residual 1000 1000 700 0 (3 # 1000) (1 # 10) (inject_Z s))%Q ∧
    (native_residual 1000 1000 700 0 (3 # 1000) (1 # 10) (inject_Z s + 2) < 0)%Q.
Proof. apply (native_swap_solves_equation 1000 1000 700 0); done || lia || lra. Defined.


(** With a rate the product falls. *)
Example CalcSwapResult_lowers_product :
  CalcSwapResult false 1000000 5000 2000000 (NewDecWithPrec 1 1) 0 = Ok (10945, 0) ∧
  (1000000 + 5000) * (2000000 - 10945) < 1000000 * 2000000.
Proof. by vm_compute. Qed.

(** C21: the rational pipeline of a swap computes the documented formula: the fee is the fee
    rate's share of the ratio-shifted constant-product amount, rounded down, and the
    swapper receives that amount, rounded down, less the fee. *)
Theorem CalcSwapResult_exact `{HL : SdkLaws} (toFury : bool) (X x Y p f : Z) :
  0 < X → 0 < x → 0 < Y → 0 <= p → 0 <= f <= dec_one →
  swap_adjusted toFury X x Y p < 2 ^ 256 →
  CalcSwapResult toFury X x Y p f =
    Ok (swap_adjusted toFury X x Y p - swap_fee toFury X x Y p f, swap_fee toFury X x Y p f).
Proof. intros. by apply CalcSwapResult_ref. Qed.

Lemma CalcSwapResult_exact_witness :
  CalcSwapResult false 1000000 5000 2000000 (NewDecWithPrec 1 1) (NewDecWithPrec 3 3) = Ok (10913, 32).
Proof.
  apply (CalcSwapResult_exact false 1000000 5000 2000000);
    unfold NewDecWithPrec, dec_one; simpl; try lia; reflexivity.
Defined.

(** sending more never buys less, up to the one unit lost between the two roundings. *)
Theorem CalcSwapResult_monotone `{HL : SdkLaws} (toFury : bool) (X x x' Y p f : Z) :
  0 < X → 0 < x <= x' → 0 < Y → 0 <= p → 0 <= f <= dec_one →
  swap_adjusted toFury X x' Y p < 2 ^ 256 →
  ∃ y fee y' fee', CalcSwapResult toFury X x Y p f = Ok (y, fee) ∧
    CalcSwapResult toFury X x' Y p f = Ok (y', fee') ∧ y <= y' + 1.
Proof.
  intros HX Hx HY Hp Hf Hlt.
  destruct (swap_two_floors toFury X x Y p f) as (N & D & HN & HD & E & Ea & Ef); [lia..|].
  destruct (swap_two_floors toFury X x' Y p f) as (N' & D' & HN' & HD' & E' & Ea' & Ef'); [lia..|].
  assert (N * D' <= N' * D) as Hfrac.
  { set (g := if toFury then dec_one + p else dec_one) in *.
    set (h := if toFury then dec_one else dec_one + p) in *.
    assert (0 < g ∧ 0 < h) as [Hg Hh] by (unfold g, h, dec_one; destruct toFury; lia).
    assert (N * D' * ((X + x) * (X + x') * g * h) <= N' * D * ((X + x) * (X + x') * g * h)) as H0;
      [|clearbody g h; apply Z.mul_le_mono_pos_r in H0; [done|]; repeat apply Z.mul_pos_pos; lia].
    replace (N * D' * ((X + x) * (X + x') * g * h)) with ((N * (X + x) * g) * (D' * (X + x') * h)) by ring.
    replace (N' * D * ((X + x) * (X + x') * g * h)) with ((N' * (X + x') * g) * (D * (X + x) * h)) by ring.
    rewrite E, E'.
    replace (x * Y * D * h * (D' * (X + x') * h)) with ((x * (X + x')) * (Y * D * D' * h * h)) by ring.
    replace (x' * Y * D' * h * (D * (X + x) * h)) with ((x' * (X + x)) * (Y * D * D' * h * h)) by ring.
    apply Z.mul_le_mono_nonneg_r; [repeat apply Z.mul_nonneg_nonneg; lia|nia]. }
  assert (swap_adjusted toFury X x Y p <= swap_adjusted toFury X x' Y p) as Hadj.
  { rewrite Ea, Ea', !Z.div_mul_cancel_r by (unfold dec_one; lia).
    apply Z.div_le_lower_bound; [done|].
    pose proof (Z.mul_div_le N D ltac:(lia)). nia. }
  destruct (CalcSwapResult_ref toFury X x Y p f) as (-> & _); try lia.
  destruct (CalcSwapResult_ref toFury X x' Y p f) as (-> & _); try lia.
  do 4 eexists. split; [done|]. split; [done|]. rewrite Ea, Ef, Ea', Ef'.
  pose proof (two_floors N D f HN HD Hf) as [H1 _]. pose proof (two_floors N' D' f HN' HD' Hf) as [_ H2].
  cbv zeta in *. set (y := _ - N * f / _) in *. set (y' := _ - N' * f / _) in *.
  clearbody y y'. assert (0 < dec_one) by done. set (o := dec_one) in *. clearbody o.
  assert (y * (D * o) * D' < (N * (o - f) + D * o) * D') by (apply Z.mul_lt_mono_pos_r; lia).
  assert (N' * (o - f) * D < (y' + 1) * (D' * o) * D) by (apply Z.mul_lt_mono_pos_r; lia).
  assert (N * D' * (o - f) <= N' * D * (o - f)) by (apply Z.mul_le_mono_nonneg_r; lia).
  assert (y * (D * D' * o) < (y' + 2) * (D * D' * o)) as H6 by lia.
  apply Z.mul_lt_mono_pos_r in H6; [lia|]. repeat apply Z.mul_pos_pos; lia.
Qed.

Lemma CalcSwapResult_monotone_witness :
  ∃ y fee y' fee', CalcSwapResult true 1000 10 1000 0 (NewDecWithPrec 3 3) = Ok (y, fee) ∧
    CalcSwapResult true 1000 11 1000 0 (NewDecWithPrec 3 3) = Ok (y', fee') ∧ y <= y' + 1.
Proof.
  apply (CalcSwapResult_monotone true 1000 10 11 1000); unfold NewDecWithPrec, dec_one; simpl; try lia.
  reflexivity.
Defined.

(** the price impact the swap event reports is always zero: the integer quotient
    [x / (x + X)] is taken before anything scales it. *)
Theorem calcPriceImpact_zero `{HL : SdkLaws} (X x : Z) :
  0 < X → 0 <= x → calcPriceImpact X x = Ok 0.
Proof.
  intros HX Hx. unfold calcPriceImpact. destruct (Z.eqb_spec x 0) as [->|Hne]; [done|].
  unfold big_Quo. rewrite (proj2 (Z.eqb_neq (x + X) 0)) by lia. rewrite rbind_Ok.
  rewrite Z.quot_small by lia. by rewrite uint_new.
Qed.

Lemma calcPriceImpact_zero_witness : calcPriceImpact 1000 999999 = Ok 0.
Proof. apply calcPriceImpact_zero; lia. Defined.

(** A pool all of whose amounts are [Uint]s. *)
Definition pool_nonneg (p : Pool) : Prop :=
  0 <= p.(NativeAssetBalance) ∧ 0 <= p.(ExternalAssetBalance) ∧ 0 <= p.(PoolUnits) ∧
  0 <= p.(NativeLiabilities) ∧ 0 <= p.(ExternalLiabilities) ∧
  0 <= p.(NativeCustody) ∧ 0 <= p.(ExternalCustody).

(** The pool after [sent] came in on one side and [y] went out on the other. *)
Definition swapped_pool (p : Pool) (toFury : bool) (sent y : Z) : Pool :=
  if toFury
  then p <| ExternalAssetBalance := p.(ExternalAssetBalance) + sent |>
         <| NativeAssetBalance := p.(NativeAssetBalance) - y |>
  else p <| NativeAssetBalance := p.(NativeAssetBalance) + sent |>
         <| ExternalAssetBalance := p.(ExternalAssetBalance) - y |>.

Section swap_one.
Context {sdk : Sdk} {HL : SdkLaws sdk}.

Lemma ExtractDebt_ok p X Y toFury Xi Yi :
  ExtractDebt p X Y toFury = Ok (Xi, Yi) →
  Xi = X + (if toFury then p.(ExternalLiabilities) else p.(NativeLiabilities)) ∧
  Yi = Y + (if toFury then p.(NativeLiabilities) else p.(ExternalLiabilities)) ∧
  0 <= Xi < 2 ^ 256 ∧ 0 <= Yi < 2 ^ 256.
Proof. unfold ExtractDebt. destruct toFury; intros H; inv_sdk; lia. Qed.

Lemma UpdateBalances_ok p toFury X x Y s p' :
  UpdateBalances p toFury X x Y s = Ok p' →
  s <= Y ∧ X + x < 2 ^ 256 ∧
  p' = if toFury
       then p <| ExternalAssetBalance := X + x |> <| NativeAssetBalance := Y - s |>
       else p <| NativeAssetBalance := X + x |> <| ExternalAssetBalance := Y - s |>.
Proof. unfold UpdateBalances. destruct toFury; intros H; inv_sdk; split; try lia; done. Qed.

(** A successful swap: the amount is the one [CalcSwapResult] gives on the balances with
    the liabilities of the margin positions added, it leaves something on the bought side,
    and exactly the two balances change. *)
Lemma SwapOne_ok from sent to p pmtp fee y liquidityFee impact p' :
  SwapOne from sent to p pmtp fee = Ok (y, liquidityFee, impact, p') →
  CalcSwapResult (IsSettlementAsset to)
    (if IsSettlementAsset to then p.(ExternalAssetBalance) + p.(ExternalLiabilities)
     else p.(NativeAssetBalance) + p.(NativeLiabilities)) sent
    (if IsSettlementAsset to then p.(NativeAssetBalance) + p.(NativeLiabilities)
     else p.(ExternalAssetBalance) + p.(ExternalLiabilities)) pmtp fee = Ok (y, liquidityFee) ∧
  y < (if IsSettlementAsset to then p.(NativeAssetBalance) else p.(ExternalAssetBalance)) ∧
  p' = swapped_pool p (IsSettlementAsset to) sent y.
Proof.
  unfold SwapOne, ExtractValues, ExtractDebt, UpdateBalances.
  destruct (IsSettlementAsset to); intros H; inv_ok_if; inv_sdk;
    (split; [done|]); (split; [|done]); rewrite Z.geb_leb, Z.leb_gt in *; done.
Qed.

Lemma SwapOne_debt_bounds from sent to p pmtp fee r :
  SwapOne from sent to p pmtp fee = Ok r →
  0 <= p.(NativeAssetBalance) + p.(NativeLiabilities) < 2 ^ 256 ∧
  0 <= p.(ExternalAssetBalance) + p.(ExternalLiabilities) < 2 ^ 256.
Proof.
  unfold SwapOne, ExtractValues, ExtractDebt.
  destruct (IsSettlementAsset to); intros H; inv_ok_if; inv_sdk; lia.
Qed.
End swap_one.

(** The product the constant-product rule is about: the depths with the liabilities of the
    margin positions counted in. *)
Definition depth_product (p : Pool) : Z :=
  (p.(NativeAssetBalance) + p.(NativeLiabilities)) * (p.(ExternalAssetBalance) + p.(ExternalLiabilities)).

(** A swap that succeeds pays what [CalcSwapResult] computes on the depths, moves exactly
    the two balances of the pool, leaves the bought side nonempty, and, unless the running
    rate subsidises the buyer, does not lower the depth product. *)
Theorem SwapOne_spec `{HL : SdkLaws} (from to : Asset) (p p' : Pool) (sent pmtp fee y liqFee impact : Z) :
  pool_nonneg p → 0 <= sent → 0 <= pmtp → 0 <= fee <= dec_one →
  SwapOne from sent to p pmtp fee = Ok (y, liqFee, impact, p') →
  let toFury := IsSettlementAsset to in
  p' = swapped_pool p toFury sent y ∧
  y < (if toFury then p.(NativeAssetBalance) else p.(ExternalAssetBalance)) ∧
  (toFury = true ∨ pmtp = 0 → 0 <= y ∧ 0 <= liqFee ∧ depth_product p <= depth_product p').
Proof.
  intros (Hn & He & _ & Hnl & Hel & _) Hs Hp Hf Hswap. cbv zeta.
  pose proof (SwapOne_debt_bounds from sent to p pmtp fee _ Hswap) as Hb.
  apply SwapOne_ok in Hswap as (Hcalc & Hlt & ->). split; [done|]. split; [done|].
  intros Hmode. destruct (CalcSwapResult_fair (IsSettlementAsset to)
    (if IsSettlementAsset to then p.(ExternalAssetBalance) + p.(ExternalLiabilities)
     else p.(NativeAssetBalance) + p.(NativeLiabilities)) sent
    (if IsSettlementAsset to then p.(NativeAssetBalance) + p.(NativeLiabilities)
     else p.(ExternalAssetBalance) + p.(ExternalLiabilities)) pmtp fee)
    as (y' & fee' & Hcalc' & Hy & Hfee & Hk); try done.
  1-2: destruct (IsSettlementAsset to); lia.
  rewrite Hcalc' in Hcalc. simplify_eq. split; [done|]. split; [done|].
  unfold depth_product, swapped_pool. destruct (IsSettlementAsset to); simpl; nia.
Qed.

Definition sample_pool : Pool := NewPool (mkAsset "ceth") 2000000 1000000 2000000.

Lemma SwapOne_spec_witness :
  ∃ p', SwapOne (mkAsset "ceth") 5000 GetSettlementAsset sample_pool 0 (NewDecWithPrec 3 3)
    = Ok (9921, 29, 0, p') ∧
    p' = swapped_pool sample_pool true 5000 9921 ∧ 9921 < 2000000 ∧
    (true = true ∨ 0 = 0 → 0 <= 9921 ∧ 0 <= 29 ∧ depth_product sample_pool <= depth_product p').
Proof.
  eexists; split; [vm_compute; reflexivity|].
  apply (SwapOne_spec (mkAsset "ceth") GetSettlementAsset sample_pool _ 5000 0 (NewDecWithPrec 3 3) 9921 29 0);
    [unfold pool_nonneg; simpl; lia | lia | lia | unfold NewDecWithPrec, dec_one; simpl; lia | vm_compute; reflexivity].
Defined.

(** ** Withdrawals *)
Section withdrawal.
Context {sdk : Sdk} {HL : SdkLaws sdk}.

(** A depth divided by [P/w]: the provider's share of it, both divisions rounded. *)
Lemma share_bounds (D P w c q n : Z) :
  0 <= D → 0 < w <= P → 
  DecQuo (NewDec P) (NewDec w) = Ok c → DecQuo (NewDec D) c = Ok q → DecRoundInt q = Ok n →
  0 <= n <= D ∧ (n - 1) * (P * dec_one - w) <= D * w * dec_one ∧
  D * w * dec_one <= (n + 1) * (P * dec_one + w).
Proof.
  intros HD Hw [_ Hc]%dec_quo_inv [Hc0 Hq]%dec_quo_inv Hn%dec_round_inv.
  assert (0 < dec_one) as Ho by done. assert (2 <= dec_one) as Ho2 by (unfold dec_one; lia).
  unfold NewDec in *. set (o := dec_one) in *. clearbody o.
  rewrite (Z.abs_eq (w * o)) in Hc by nia.
  replace (c * (w * o) - P * o * o) with ((c * w - P * o) * o) in Hc by ring.
  rewrite Z.abs_mul, (Z.abs_eq o) in Hc by lia. apply Z.mul_lt_mono_pos_r in Hc; [|done].
  assert (o <= c) as Hco by nia. rewrite (Z.abs_eq c) in Hq by lia.
  assert (0 <= q) as Hq0 by nia. assert (q <= D * o) as HqD by nia.
  assert (0 <= n) as Hn0 by nia. assert (n <= D) as HnD by nia.
  assert ((n - 1) * c <= D * o) as Hup.
  { assert ((n - 1) * o <= q - 1) by lia.
    assert ((n - 1) * o * c <= (q - 1) * c) by (apply Z.mul_le_mono_nonneg_r; lia).
    assert ((n - 1) * c * o <= D * o * o) as H1 by lia.
    apply Z.mul_le_mono_pos_r in H1; done. }
  assert (D * o <= (n + 1) * c) as Hlow.
  { assert (q + 1 <= (n + 1) * o) by lia.
    assert ((q + 1) * c <= (n + 1) * o * c) by (apply Z.mul_le_mono_nonneg_r; lia).
    assert (D * o * o <= (n + 1) * c * o) as H1 by lia.
    apply Z.mul_le_mono_pos_r in H1; done. }
  split; [done|]. split.
  - destruct (Z.eq_dec n 0) as [->|]; [nia|].
    assert ((n - 1) * (P * o - w) <= (n - 1) * (c * w)) by (apply Z.mul_le_mono_nonneg_l; lia).
    assert ((n - 1) * c * w <= D * o * w) by (apply Z.mul_le_mono_nonneg_r; lia). lia.
  - assert ((n + 1) * (c * w) <= (n + 1) * (P * o + w)) by (apply Z.mul_le_mono_nonneg_l; lia).
    assert (D * o * w <= (n + 1) * c * w) by (apply Z.mul_le_mono_nonneg_r; lia). lia.
Qed.

Lemma share_total (P w D : Z) :
  0 < w <= P → P < 2 ^ 127 → 0 <= D < 2 ^ 127 →
  ∃ c q n, DecQuo (NewDec P) (NewDec w) = Ok c ∧ DecQuo (NewDec D) c = Ok q ∧ DecRoundInt q = Ok n.
Proof.
  intros Hw HP HD.
  destruct (dec_quo_total (NewDec P) (NewDec w)) as [c Hc];
    [unfold NewDec, dec_one; lia | unfold NewDec, dec_one; nia |].
  pose proof (dec_quo_inv _ _ _ Hc) as [_ Hc'].
  assert (dec_one <= c) as Hco.
  { unfold NewDec in Hc'. assert (0 < dec_one) by done. set (o := dec_one) in *. clearbody o.
    rewrite (Z.abs_eq (w * o)) in Hc' by nia. nia. }
  destruct (dec_quo_total (NewDec D) c) as [q Hq];
    [unfold dec_one in *; lia | unfold NewDec; rewrite !Z.abs_eq by (unfold dec_one in *; lia);
     unfold dec_one in *; nia |].
  pose proof (dec_quo_inv _ _ _ Hq) as [_ Hq'].
  destruct (dec_round_total q) as [n Hn]; [|eauto 10].
  rewrite (Z.abs_eq c) in Hq' by (unfold dec_one in *; lia). unfold NewDec, dec_one in *. nia.
Qed.
End withdrawal.

(** Withdrawing [w] of a provider's units never fails, leaves exactly the others, and
    pays on each side the share [w/P] of the depth, to within one unit and the rounding of
    the two divisions, and never more than the depth. *)
Theorem CalculateWithdrawalFromUnits_share `{HL : SdkLaws} (P N E U w : Z) :
  0 < w <= U → U <= P → P < 2 ^ 127 → 0 <= N < 2 ^ 127 → 0 <= E < 2 ^ 127 →
  ∃ n e, CalculateWithdrawalFromUnits P (UintString N) (UintString E) (UintString U) w = Ok (n, e, U - w) ∧
    (0 <= n <= N ∧ (n - 1) * (P * dec_one - w) <= N * w * dec_one ∧
     N * w * dec_one <= (n + 1) * (P * dec_one + w)) ∧
    (0 <= e <= E ∧ (e - 1) * (P * dec_one - w) <= E * w * dec_one ∧
     E * w * dec_one <= (e + 1) * (P * dec_one + w)).
Proof.
  intros Hw HU HP HN HE. unfold CalculateWithdrawalFromUnits. cbv zeta.
  rewrite !uint_dec_parse by lia. cbn [must]. rewrite !rbind_Ok.
  destruct (share_total P w N) as (c & qn & n & Hc & Hqn & Hn); [lia..|].
  destruct (share_total P w E) as (c' & qe & e & Hc' & Hqe & He); [lia..|].
  assert (c' = c) as -> by congruence.
  change (NewDecFromBigInt P) with (NewDec P).
  rewrite Hc, !rbind_Ok, Hqe, !rbind_Ok, Hqn, rbind_Ok.
  assert (NewDec U - NewDec w = NewDec (U - w)) as Esub by (unfold NewDec; lia).
  rewrite dec_sub_total by (rewrite Esub; unfold NewDec, dec_one; lia).
  rewrite rbind_Ok, Hn, rbind_Ok, Esub.
  destruct (share_bounds N P w c qn n) as (Hn1 & Hn2); try done; [lia..|].
  destruct (share_bounds E P w c qe e) as (He1 & He2); try done; [lia..|].
  rewrite !uint_new, (checked_uint_total n), rbind_Ok, He, rbind_Ok by lia.
  rewrite uint_new, (checked_uint_total e), rbind_Ok by lia.
  destruct (dec_round_total (NewDec (U - w))) as [l Hl]; [unfold NewDec, dec_one; lia|].
  rewrite Hl, rbind_Ok. apply dec_round_int in Hl as ->.
  rewrite uint_new, checked_uint_total, rbind_Ok by lia. exists n, e. done.
Qed.

Lemma CalculateWithdrawalFromUnits_share_witness :
  ∃ n e, CalculateWithdrawalFromUnits 3000 (UintString 1000) (UintString 500) (UintString 700) 100 = Ok (n, e, 700 - 100) ∧
    (0 <= n <= 1000 ∧ (n - 1) * (3000 * dec_one - 100) <= 1000 * 100 * dec_one ∧
     1000 * 100 * dec_one <= (n + 1) * (3000 * dec_one + 100)) ∧
    (0 <= e <= 500 ∧ (e - 1) * (3000 * dec_one - 100) <= 500 * 100 * dec_one ∧
     500 * 100 * dec_one <= (e + 1) * (3000 * dec_one + 100)).
Proof. apply CalculateWithdrawalFromUnits_share; lia. Defined.

(** the conversion of basis points to units is a quotient by [10000/w] rounded down, so it
    is at least the exact share [total*w/10000] and exact when [w] divides 10000; outside
    [1..10000] it panics. *)
Theorem ConvWBasisPointsToUnits_over `{HL : SdkLaws} (total w : Z) :
  0 <= total < 2 ^ 255 → 0 <= w < 2 ^ 255 →
  (0 < w <= 10000 → ∃ u, ConvWBasisPointsToUnits total w = Ok u ∧
     total * w / 10000 <= u <= total ∧ (10000 mod w = 0 → u = total * w / 10000)) ∧
  (w = 0 ∨ 10000 < w → ConvWBasisPointsToUnits total w = Panic).
Proof.
  intros Ht Hw. unfold ConvWBasisPointsToUnits. rewrite int_uint_parse, rbind_Ok by done.
  split.
  - intros Hr. rewrite uint_quo, (proj2 (Z.eqb_neq w 0)) by lia.
    rewrite Z.quot_div_nonneg by lia. set (d := 10000 / w).
    assert (1 <= d <= 10000) as Hd.
    { unfold d. split; [apply Z.div_le_lower_bound; lia|apply Z.div_le_upper_bound; lia]. }
    rewrite checked_uint_total, rbind_Ok by lia.
    rewrite uint_quo, (proj2 (Z.eqb_neq d 0)) by lia. rewrite Z.quot_div_nonneg by lia.
    assert (total / d <= total) by (apply Z.div_le_upper_bound; nia).
    assert (0 <= total / d) by (apply Z.div_pos; lia).
    rewrite checked_uint_total by lia. eexists; split; [done|].
    pose proof (Z.mul_div_le 10000 w ltac:(lia)) as Hdw. fold d in Hdw.
    split; [split; [|done]|].
    + apply Z.div_le_lower_bound; [lia|]. pose proof (Z.mul_div_le (total * w) 10000 ltac:(lia)). nia.
    + intros Hm. assert (10000 = w * d) as E10 by (unfold d; pose proof (Z.div_mod 10000 w); lia).
      rewrite E10, (Z.mul_comm total w), Z.div_mul_cancel_l by lia. done.
  - intros Hr. rewrite uint_quo. destruct (Z.eqb_spec w 0); [done|].
    rewrite Z.quot_small by lia. simpl. rewrite uint_quo. done.
Qed.

Lemma ConvWBasisPointsToUnits_over_witness :
  (0 < 6000 <= 10000 → ∃ u, ConvWBasisPointsToUnits 500 6000 = Ok u ∧
     500 * 6000 / 10000 <= u <= 500 ∧ (10000 mod 6000 = 0 → u = 500 * 6000 / 10000)) ∧
  (6000 = 0 ∨ 10000 < 6000 → ConvWBasisPointsToUnits 500 6000 = Panic).
Proof. apply ConvWBasisPointsToUnits_over; lia. Defined.

(** ** Machine integers *)
Lemma Abs_spec a : -32768 <= a < 32768 → Abs a = Z.abs a.
Proof.
  intros Ha. unfold Abs, uint16, int16, wrap_u, wrap_s. destruct (Z.ltb_spec a 0).
  - destruct (Z.eq_dec a (-32768)) as [->|]; [done|].
    rewrite (Z.mod_small (- a + 2 ^ (16 - 1))) by lia. rewrite Z.mod_small; lia.
  - rewrite Z.mod_small; lia.
Qed.

(** [Int64ToUint8Safe] accepts exactly the values of a uint8, and the change of
    denomination between two assets is the exact power of ten of the difference of their
    decimals, wraparound of int8-sized differences included. *)
Theorem decimals_conversion (x dx dy : Z) :
  - 2 ^ 63 <= x < 2 ^ 63 → 0 <= dx < 256 → 0 <= dy < 256 →
  Int64ToUint8Safe x = (if (0 <=? x) && (x <? 256) then Ok x else Err ErrTypeCast) ∧
  ∃ q, CalcDenomChangeMultiplier dx dy = Ok q ∧
    (q * inject_Z (10 ^ dy) == inject_Z (10 ^ dx))%Q.
Proof.
  intros Hx Hdx Hdy. split.
  - unfold Int64ToUint8Safe, uint8, int64, wrap_u, wrap_s.
    pose proof (Z.mod_pos_bound x (2 ^ 8) ltac:(lia)) as Hm. set (t := x mod 2 ^ 8) in *.
    rewrite (Z.mod_small (t + 2 ^ (64 - 1))) by lia.
    replace (t + 2 ^ (64 - 1) - 2 ^ (64 - 1)) with t by lia.
    destruct (Z.leb_spec 0 x), (Z.ltb_spec x 256); simpl.
    + assert (t = x) as -> by (apply Z.mod_small; lia). by rewrite Z.eqb_refl.
    + rewrite (proj2 (Z.eqb_neq t x)) by lia. done.
    + rewrite (proj2 (Z.eqb_neq t x)) by lia. done.
    + rewrite (proj2 (Z.eqb_neq t x)) by lia. done.
  - unfold CalcDenomChangeMultiplier, int16.
    rewrite !(wrap_s_id 16) by (rewrite ?(wrap_s_id 16); lia). rewrite Abs_spec by lia.
    rewrite Z.gtb_ltb. destruct (Z.ltb_spec dy dx).
    + eexists; split; [done|]. unfold rat_SetInt. rewrite <- inject_Z_mult, <- Z.pow_add_r by lia.
      do 2 f_equiv. f_equal. lia.
    + destruct (rat_SetFrac_spec 1 (10 ^ Z.abs (dx - dy))) as (q & -> & Eq);
        [apply Z.pow_pos_nonneg; lia|].
      eexists; split; [done|]. rewrite Eq.
      replace (10 ^ dy) with (10 ^ dx * 10 ^ Z.abs (dx - dy))
        by (rewrite <- Z.pow_add_r by lia; f_equal; lia).
      rewrite inject_Z_mult. field. apply not_eq_sym, Qlt_not_eq, inject_pos, Z.pow_pos_nonneg; lia.
Qed.

Lemma decimals_conversion_witness :
  Int64ToUint8Safe 300 = (if (0 <=? 300) && (300 <? 256) then Ok 300 else Err ErrTypeCast) ∧
  ∃ q, CalcDenomChangeMultiplier 6 18 = Ok q ∧ (q * inject_Z (10 ^ 18) == inject_Z (10 ^ 6))%Q.
Proof. apply decimals_conversion; lia. Defined.
