(* ===== verification/ClpStoreSpec.v ===== *)
(** * ClpStoreSpec: what the store operations of x/clp do, and the pool store as a map

    Inversion lemmas for the operations of ClpKeeper.v, shared by the proofs about the
    handlers: every read leaves the world alone ([ro]), every write is one update of the
    store ([inv_clp]). *)

From S2P Require Import Prelude Sdk SdkRef Rat Bank Keepers ClpTypes ClpMath ClpKeeper ClpPolicy.
From S2P Require Import ClpRewards ClpLiquidity World.
Local Open Scope Z_scope.

(** A computation that only reads. *)
Notation readonly m := (preserves (λ w, w) m).

Lemma readonly_ok {W A} (m : M W A) w r w' : readonly m → m w = (r, w') → w' = w.
Proof. intros Hm E. specialize (Hm w). by rewrite E in Hm. Qed.

(** A reading computation reads the same again. *)
Section reads.
Context {W : Type} {sdk : Sdk} {coins : CoinLib} {bank : BankKeeper W} {paginator : Paginator}
  {registry : TokenRegistryKeeper W} {clp : HasStore ClpStore W} {events : HasStore EventLog W}.

Lemma ro_get_clp : readonly (get_clp (W := W)).
Proof. done. Qed.
Lemma ro_get_store {S} `{HasStore S W} : readonly (get_store (S := S) (W := W)).
Proof. done. Qed.
#[local] Hint Resolve ro_get_clp ro_get_store : frame.

Lemma ro_GetPool s : readonly (GetPool (W := W) s).
Proof. unfold GetPool. solve_frame. Qed.
Lemma ro_ExistsPool s : readonly (ExistsPool (W := W) s).
Proof. unfold ExistsPool. solve_frame. Qed.
Lemma ro_GetPools : readonly (GetPools (W := W)).
Proof. unfold GetPools. solve_frame. Qed.
Lemma ro_GetLiquidityProvider s a : readonly (GetLiquidityProvider (W := W) s a).
Proof. unfold GetLiquidityProvider. solve_frame. Qed.
Lemma ro_GetLiquidityProvidersForAssetPaginated a l :
  readonly (GetLiquidityProvidersForAssetPaginated (W := W) a l).
Proof. unfold GetLiquidityProvidersForAssetPaginated. solve_frame. Qed.
Lemma ro_GetAllLiquidityProviders : readonly (GetAllLiquidityProviders (W := W)).
Proof. unfold GetAllLiquidityProviders. solve_frame. Qed.
#[local] Hint Resolve ro_GetAllLiquidityProviders : frame.
Lemma ro_GetAllLiquidityProvidersPartitions :
  readonly (GetAllLiquidityProvidersPartitions (W := W)).
Proof. unfold GetAllLiquidityProvidersPartitions. solve_frame. Qed.
Lemma ro_GetAssetDecimals a : readonly (GetAssetDecimals (W := W) a).
Proof. unfold GetAssetDecimals. solve_frame. Qed.
Lemma ro_IsRemovalQueueEnabled : readonly (IsRemovalQueueEnabled (W := W)).
Proof. unfold IsRemovalQueueEnabled. solve_frame. Qed.
Lemma ro_GetSwapFeeParams : readonly (GetSwapFeeParams (W := W)).
Proof. unfold GetSwapFeeParams. solve_frame. Qed.
#[local] Hint Resolve ro_GetSwapFeeParams : frame.
Lemma ro_GetSwapFeeRate a b : readonly (GetSwapFeeRate (W := W) a b).
Proof. unfold GetSwapFeeRate. solve_frame. Qed.
Lemma ro_GetRewardsParams : readonly (GetRewardsParams (W := W)).
Proof. unfold GetRewardsParams. solve_frame. Qed.
Lemma ro_GetPmtpParams : readonly (GetPmtpParams (W := W)).
Proof. unfold GetPmtpParams. solve_frame. Qed.
Lemma ro_GetPmtpRateParams : readonly (GetPmtpRateParams (W := W)).
Proof. unfold GetPmtpRateParams. solve_frame. Qed.
Lemma ro_GetPmtpEpoch : readonly (GetPmtpEpoch (W := W)).
Proof. unfold GetPmtpEpoch. solve_frame. Qed.
Lemma ro_GetLiquidityProtectionParams : readonly (GetLiquidityProtectionParams (W := W)).
Proof. unfold GetLiquidityProtectionParams. solve_frame. Qed.
Lemma ro_GetLiquidityProtectionRateParams : readonly (GetLiquidityProtectionRateParams (W := W)).
Proof. unfold GetLiquidityProtectionRateParams. solve_frame. Qed.
Lemma ro_GetProviderDistributionParams : readonly (GetProviderDistributionParams (W := W)).
Proof. unfold GetProviderDistributionParams. solve_frame. Qed.
Lemma ro_GetBlockDistributionAccu : readonly (GetBlockDistributionAccu (W := W)).
Proof. unfold GetBlockDistributionAccu. solve_frame. Qed.
#[local] Hint Resolve ro_GetPool ro_GetPmtpRateParams ro_GetPmtpParams
  ro_GetLiquidityProtectionParams ro_GetLiquidityProtectionRateParams : frame.
Lemma ro_ExistsClpWhiteList : readonly (ExistsClpWhiteList (W := W)).
Proof. unfold ExistsClpWhiteList. solve_frame. Qed.
Lemma ro_GetClpWhiteList : readonly (GetClpWhiteList (W := W)).
Proof. unfold GetClpWhiteList. solve_frame. Qed.
#[local] Hint Resolve ro_ExistsClpWhiteList ro_GetClpWhiteList : frame.
Lemma ro_ValidateAddress a : readonly (ValidateAddress (W := W) a).
Proof. unfold ValidateAddress. solve_frame. Qed.
Lemma ro_IsInsidePmtpWindow ctx : readonly (IsInsidePmtpWindow (W := W) ctx).
Proof. unfold IsInsidePmtpWindow. solve_frame. Qed.
Lemma ro_GetNativePrice : readonly (GetNativePrice (W := W)).
Proof. unfold GetNativePrice. solve_frame. Qed.
Lemma ro_IsBlockedByLiquidityProtection n p :
  readonly (IsBlockedByLiquidityProtection (W := W) n p).
Proof. unfold IsBlockedByLiquidityProtection. solve_frame. Qed.
Lemma ro_GetRemovalQueue s : readonly (GetRemovalQueue (W := W) s).
Proof. unfold GetRemovalQueue. solve_frame. Qed.
Lemma ro_GetRemovalQueueUnitsForLP lp : readonly (GetRemovalQueueUnitsForLP (W := W) lp).
Proof. unfold GetRemovalQueueUnitsForLP. solve_frame. Qed.
Lemma ro_HasBalanceM a c : readonly (HasBalanceM (W := W) a c).
Proof. done. Qed.
#[local] Hint Resolve ro_HasBalanceM : frame.
Lemma ro_coin_at cs i : readonly (coin_at (W := W) cs i).
Proof. unfold coin_at. solve_frame. Qed.
Lemma ro_holds_neither a (c0 c1 : M W Coin) :
  readonly c0 → readonly c1 → readonly (holds_neither a c0 c1).
Proof. unfold holds_neither. solve_frame. Qed.
Lemma ro_parse_int s : readonly (parse_int (W := W) s).
Proof. done. Qed.
Lemma ro_IsDistributionBlock ctx : readonly (IsDistributionBlock (W := W) ctx).
Proof. unfold IsDistributionBlock. pose proof ro_GetProviderDistributionParams. solve_frame. Qed.
Lemma ro_GetModuleFury : readonly (GetModuleFury (W := W)).
Proof. done. Qed.
End reads.

#[export] Hint Resolve ro_get_clp ro_get_store ro_GetPool ro_ExistsPool ro_GetPools
  ro_GetLiquidityProvider ro_GetLiquidityProvidersForAssetPaginated ro_GetAllLiquidityProviders
  ro_GetAllLiquidityProvidersPartitions ro_GetAssetDecimals ro_IsRemovalQueueEnabled
  ro_GetSwapFeeParams ro_GetSwapFeeRate ro_GetRewardsParams ro_GetPmtpParams
  ro_GetPmtpRateParams ro_GetPmtpEpoch ro_GetLiquidityProtectionParams
  ro_GetLiquidityProtectionRateParams ro_GetProviderDistributionParams
  ro_GetBlockDistributionAccu ro_ExistsClpWhiteList ro_GetClpWhiteList ro_ValidateAddress
  ro_IsInsidePmtpWindow ro_GetNativePrice ro_IsBlockedByLiquidityProtection ro_GetRemovalQueue
  ro_GetRemovalQueueUnitsForLP ro_HasBalanceM ro_coin_at ro_holds_neither ro_parse_int
  ro_IsDistributionBlock ro_GetModuleFury : frame.

(** Identify the worlds before and after a read. *)
Ltac ro_step :=
  match goal with
  | H : ?m ?w = (Ok _, ?w') |- _ =>
      is_var w'; lazymatch w with w' => fail | _ => idtac end;
      let E := fresh "E" in
      assert (w' = w) as E by (refine (readonly_ok m w _ w' _ H); solve [eauto 8 with frame nocore]);
      subst w'
  end.

(** ** Writes *)
Definition pool_key (symbol : string) : string := GetPoolKey symbol NativeSymbol.
Definition set_pool (p : Pool) (s : ClpStore) : ClpStore :=
  s <| cs_Pools ::= <[pool_key p.(ExternalAsset).(Symbol) := p]> |>.
Definition lp_key (lp : LiquidityProvider) : string :=
  GetLiquidityProviderKey lp.(LPAsset).(Symbol) lp.(LiquidityProviderAddress).
Definition set_lp (lp : LiquidityProvider) (s : ClpStore) : ClpStore :=
  s <| cs_LPs ::= <[lp_key lp := lp]> |>.
Definition del_lp (symbol addr : string) (s : ClpStore) : ClpStore :=
  s <| cs_LPs ::= delete (GetLiquidityProviderKey symbol addr) |>.
Definition del_pool (symbol : string) (s : ClpStore) : ClpStore :=
  s <| cs_Pools ::= delete (pool_key symbol) |>.

#[global] Arguments set_pool : simpl never.
#[global] Arguments set_lp : simpl never.
#[global] Arguments del_lp : simpl never.
#[global] Arguments del_pool : simpl never.

Section writes.
Context {W : Type} {sdk : Sdk} {coins : CoinLib} {bank : BankKeeper W} {paginator : Paginator}
  {clp : HasStore ClpStore W} {events : HasStore EventLog W}.
Implicit Types w : W.

Lemma upd_clp_ok f w a w' : upd_clp f w = (Ok a, w') ↔ w' = put_store (f (store w)) w.
Proof. apply upd_store_ok. Qed.
Lemma get_clp_ok w s w' : get_clp w = (Ok s, w') ↔ s = store w ∧ w' = w.
Proof. apply gets_ok. Qed.
Lemma EmitEvent_ok e w a w' :
  EmitEvent e w = (Ok a, w') ↔ w' = put_store (store (S := EventLog) w ++ [e]) w.
Proof. unfold EmitEvent. by rewrite upd_store_ok. Qed.
Lemma EmitEvents_ok es w a w' :
  EmitEvents es w = (Ok a, w') ↔ w' = put_store (store (S := EventLog) w ++ es) w.
Proof. unfold EmitEvents. by rewrite upd_store_ok. Qed.

Lemma SetPool_ok p w a w' :
  SetPool p w = (Ok a, w') ↔
  Asset_Validate p.(ExternalAsset) = Ok true ∧
  w' = put_store (set_pool p (store w)) w.
Proof.
  unfold SetPool. split.
  - intros H. inv_ok. unfold Pool_Validate in *. destruct a0; [|done].
    apply upd_clp_ok in H as ->. done.
  - intros [E ->]. destruct a. unfold Pool_Validate, mbind, M_bind, lift. by rewrite E.
Qed.

Lemma GetPool_ok s w p w' :
  GetPool s w = (Ok p, w') ↔ w' = w ∧ (store w).(cs_Pools) !! pool_key s = Some p.
Proof.
  unfold GetPool. split.
  - intros H. apply bind_ok in H as (st & w1 & [-> ->]%get_clp_ok & H). fold (pool_key s) in H.
    change (GetPoolKey s (Symbol GetSettlementAsset)) with (pool_key s) in H.
    case_match; inv_ok; done.
  - intros [-> E]. unfold mbind, M_bind, get_clp, get_store, gets.
    change (GetPoolKey s (Symbol GetSettlementAsset)) with (pool_key s). by rewrite E.
Qed.

Lemma GetPool_err s w e w' :
  GetPool s w = (Err e, w') → w' = w ∧ (store w).(cs_Pools) !! pool_key s = None.
Proof.
  unfold GetPool, mbind, M_bind, get_clp, get_store, gets.
  change (GetPoolKey s (Symbol GetSettlementAsset)) with (pool_key s).
  case_match eqn:E; intros H; [discriminate H|]. by unfold throw in H; simplify_eq.
Qed.

Lemma ExistsPool_ok s w b w' :
  ExistsPool s w = (Ok b, w') ↔ w' = w ∧ b = bool_decide (is_Some ((store w).(cs_Pools) !! pool_key s)).
Proof.
  unfold ExistsPool, mbind, M_bind, get_clp, get_store, gets, mret, M_ret.
  split; [intros H; by simplify_eq | by intros [-> ->]].
Qed.

Lemma DestroyPool_ok s w a w' :
  DestroyPool s w = (Ok a, w') →
  is_Some ((store w).(cs_Pools) !! pool_key s) ∧
  w' = put_store (del_pool s (store w)) w.
Proof.
  unfold DestroyPool. intros H. apply bind_ok in H as (st & w1 & [-> ->]%get_clp_ok & H).
  change (GetPoolKey s (Symbol GetSettlementAsset)) with (pool_key s) in H.
  case_match; inv_ok. apply upd_clp_ok in H as ->. eauto.
Qed.

Lemma SetLiquidityProvider_ok lp w a w' :
  Asset_Validate lp.(LPAsset) = Ok true →
  SetLiquidityProvider lp w = (Ok a, w') →
  w' = put_store (set_lp lp (store w)) w.
Proof.
  intros E. unfold SetLiquidityProvider, LP_Validate. rewrite E. intros H. inv_ok.
  by apply upd_clp_ok in H.
Qed.

(** Without a valid asset the write is dropped. *)
Lemma SetLiquidityProvider_cases lp w a w' :
  SetLiquidityProvider lp w = (Ok a, w') →
  w' = w ∨ Asset_Validate lp.(LPAsset) = Ok true ∧
  w' = put_store (set_lp lp (store w)) w.
Proof.
  unfold SetLiquidityProvider, LP_Validate. intros H. inv_ok. destruct a1; simpl in *; inv_ok; [|auto].
  right. split; [done|]. by apply upd_clp_ok in H.
Qed.

Lemma GetLiquidityProvider_ok s addr w lp w' :
  GetLiquidityProvider s addr w = (Ok lp, w') ↔
  w' = w ∧ (store w).(cs_LPs) !! GetLiquidityProviderKey s addr = Some lp.
Proof.
  unfold GetLiquidityProvider, mbind, M_bind, get_clp, get_store, gets. split.
  - intros H. destruct (_ !! _) eqn:E; inv_ok. done.
  - intros [-> E]. by rewrite E.
Qed.
Lemma GetLiquidityProvider_err s addr w e w' :
  GetLiquidityProvider s addr w = (Err e, w') →
  w' = w ∧ (store w).(cs_LPs) !! GetLiquidityProviderKey s addr = None.
Proof.
  unfold GetLiquidityProvider, mbind, M_bind, get_clp, get_store, gets.
  case_match eqn:E; intros H; [discriminate H|]. by unfold throw in H; simplify_eq.
Qed.

Lemma DestroyLiquidityProvider_ok s addr w a w' :
  DestroyLiquidityProvider s addr w = (Ok a, w') →
  w' = w ∧ (store w).(cs_LPs) !! GetLiquidityProviderKey s addr = None ∨
  w' = put_store (del_lp s addr (store w)) w.
Proof.
  unfold DestroyLiquidityProvider. intros H.
  apply bind_ok in H as (st & w1 & [-> ->]%get_clp_ok & H).
  case_match; inv_ok; [|auto]. apply upd_clp_ok in H as ->. eauto.
Qed.
End writes.

(** Read a run of a handler as the equations of the stores between its steps. *)
Ltac inv_clp_step :=
  match goal with
  | H : get_clp _ = (Ok _, _) |- _ => apply get_clp_ok in H as [? ?]; subst
  | H : upd_clp _ _ = (Ok _, _) |- _ => apply upd_clp_ok in H; subst
  | H : EmitEvent _ _ = (Ok _, _) |- _ => apply EmitEvent_ok in H; subst
  | H : EmitEvents _ _ = (Ok _, _) |- _ => apply EmitEvents_ok in H; subst
  | H : GetPool _ _ = (Ok _, _) |- _ => apply GetPool_ok in H as [? H]; subst
  | H : ExistsPool _ _ = (Ok _, _) |- _ => apply ExistsPool_ok in H as [? H]; subst
  | H : GetLiquidityProvider _ _ _ = (Ok _, _) |- _ => apply GetLiquidityProvider_ok in H as [? H]; subst
  | H : SetPool _ _ = (Ok _, _) |- _ =>
      let V := fresh "V" in apply SetPool_ok in H as [V H]; subst
  end.
Ltac inv_clp := repeat (inv_ok; first [inv_clp_step | ro_step]); inv_ok.
