(* ===== verification/ClpUnits.v ===== *)
(** * ClpUnits: the well-formed store of x/clp, and the units of a pool

    Pools and providers are stored under their own keys, amounts are nonnegative, no pool has
    an empty side, and the units of a pool are the sum of the units of its providers: what
    [UnitsCheck] (x/clp/keeper/invariants.go) tests at run time.  The definitions of the
    invariant and how each write of the store changes it. *)

From S2P Require Import Prelude Sdk Rat Bank ClpTypes ClpKeeper ClpStoreSpec.
Local Open Scope Z_scope.

(** ** Keys *)
Definition no_underscore (s : string) : Prop := ascii_of 95 ∉ String.list_ascii_of_string s.
#[export] Instance no_underscore_dec s : Decision (no_underscore s).
Proof. unfold no_underscore. apply _. Defined.

Lemma string_app_inv_tail a b c : a +:+ c = b +:+ c → a = b.
Proof.
  revert b. induction a as [|x a IH]; intros [|y b] E;
    rewrite ?string_app_nil, ?string_app_cons in E.
  - done.
  - apply (f_equal String.length) in E. simpl in E. rewrite string_length_app in E. lia.
  - apply (f_equal String.length) in E. simpl in E. rewrite string_length_app in E. lia.
  - injection E as -> E. by rewrite (IH _ E).
Qed.

Lemma list_ascii_app a b :
  String.list_ascii_of_string (a +:+ b)
  = String.list_ascii_of_string a ++ String.list_ascii_of_string b.
Proof. induction a as [|x a IH]; [done|]. rewrite string_app_cons. simpl. by rewrite IH. Qed.

(** The last underscore separates the two parts of a key. *)
Lemma underscore_in s a : ¬ no_underscore (s +:+ "_" +:+ a).
Proof.
  unfold no_underscore. rewrite !list_ascii_app. intros H. apply H, elem_of_app. right. left.
Qed.
Lemma string_split_inv s1 a1 s2 a2 :
  no_underscore a1 → no_underscore a2 → s1 +:+ "_" +:+ a1 = s2 +:+ "_" +:+ a2 →
  s1 = s2 ∧ a1 = a2.
Proof.
  intros H1 H2. revert s2. induction s1 as [|x s1 IH]; intros [|y s2] E;
    rewrite ?(string_app_nil (_ +:+ _)), ?string_app_cons in E.
  - change (String (ascii_of 95) a1 = String (ascii_of 95) a2) in E. by injection E as ->.
  - change (String (ascii_of 95) a1 = String y (s2 +:+ "_" +:+ a2)) in E.
    injection E as <- ->. by apply underscore_in in H1.
  - change (String x (s1 +:+ "_" +:+ a1) = String (ascii_of 95) a2) in E.
    injection E as -> <-. by apply underscore_in in H2.
  - injection E as -> E. destruct (IH _ E) as [-> ->]. done.
Qed.

Lemma pool_key_inj s1 s2 : pool_key s1 = pool_key s2 → s1 = s2.
Proof. unfold pool_key, GetPoolKey. intros E. injection E as E. by apply string_app_inv_tail in E. Qed.

Lemma lp_key_inj s1 a1 s2 a2 :
  no_underscore a1 → no_underscore a2 →
  GetLiquidityProviderKey s1 a1 = GetLiquidityProviderKey s2 a2 → s1 = s2 ∧ a1 = a2.
Proof.
  unfold GetLiquidityProviderKey. intros H1 H2 E. injection E as E. by apply string_split_inv.
Qed.

(** ** The invariant *)

(** Both depths the swap and unit formulas divide by are positive. *)
Record pool_ok (p : Pool) : Prop := {
  pool_native : 0 <= p.(NativeAssetBalance);
  pool_external : 0 <= p.(ExternalAssetBalance);
  pool_native_debt : 0 <= p.(NativeLiabilities);
  pool_external_debt : 0 <= p.(ExternalLiabilities);
  pool_native_custody : 0 <= p.(NativeCustody);
  pool_external_custody : 0 <= p.(ExternalCustody);
  pool_native_depth : 0 < p.(NativeAssetBalance) + p.(NativeLiabilities);
  pool_external_depth : 0 < p.(ExternalAssetBalance) + p.(ExternalLiabilities)
}.

Record store_wf (s : ClpStore) : Prop := {
  pools_keyed k p : s.(cs_Pools) !! k = Some p → k = pool_key p.(ExternalAsset).(Symbol);
  pools_ok k p : s.(cs_Pools) !! k = Some p → pool_ok p;
  lps_keyed k lp : s.(cs_LPs) !! k = Some lp →
    k = GetLiquidityProviderKey lp.(LPAsset).(Symbol) lp.(LiquidityProviderAddress) ∧
    no_underscore lp.(LiquidityProviderAddress);
  lps_units k lp : s.(cs_LPs) !! k = Some lp → 0 <= lp.(LiquidityProviderUnits)
}.

Definition units_for (symbol : string) (lp : LiquidityProvider) : Z :=
  if String.eqb lp.(LPAsset).(Symbol) symbol then lp.(LiquidityProviderUnits) else 0.
Definition provider_units (s : ClpStore) (symbol : string) : Z := map_sumZ (units_for symbol) s.(cs_LPs).
Definition pool_units (s : ClpStore) (symbol : string) : Z :=
  from_option PoolUnits 0 (s.(cs_Pools) !! pool_key symbol).

(** By how much the pool's units exceed those of its providers. *)
Definition units_off (s : ClpStore) (symbol : string) : Z :=
  pool_units s symbol - provider_units s symbol.

(** The invariant: [PoolUnits] is the sum of the providers' units, for every asset; an asset
    without a pool has no units. *)
Definition units_ok (s : ClpStore) : Prop := store_wf s ∧ ∀ symbol, units_off s symbol = 0.

(** Units already held by a provider. *)
Definition held_units (s : ClpStore) (symbol addr : string) : Z :=
  from_option LiquidityProviderUnits 0 (s.(cs_LPs) !! GetLiquidityProviderKey symbol addr).

Section writes.
Implicit Types s : ClpStore.

Lemma set_pool_wf s p : store_wf s → pool_ok p → store_wf (set_pool p s).
Proof.
  intros [] Hp. split; simpl; try done; intros k q.
  all: rewrite lookup_insert_Some; intros [[<- <-]|[_ E]]; eauto.
Qed.
Lemma del_pool_wf s symbol : store_wf s → store_wf (del_pool symbol s).
Proof.
  intros []. split; simpl; try done; intros k q; rewrite lookup_delete_Some; intros [_ E]; eauto.
Qed.
Lemma set_lp_wf s lp :
  store_wf s → no_underscore lp.(LiquidityProviderAddress) → 0 <= lp.(LiquidityProviderUnits) →
  store_wf (set_lp lp s).
Proof.
  intros [] Ha Hu. split; simpl; try done; intros k q.
  all: rewrite lookup_insert_Some; intros [[<- <-]|[_ E]]; eauto.
Qed.
Lemma del_lp_wf s symbol addr : store_wf s → store_wf (del_lp symbol addr s).
Proof.
  intros []. split; simpl; try done; intros k q; rewrite lookup_delete_Some; intros [_ E]; eauto.
Qed.

Lemma pool_units_set_pool s p symbol :
  pool_units (set_pool p s) symbol =
  if String.eqb symbol p.(ExternalAsset).(Symbol) then p.(PoolUnits) else pool_units s symbol.
Proof.
  unfold pool_units, set_pool. simpl. destruct (String.eqb_spec symbol p.(ExternalAsset).(Symbol)) as [->|E].
  - by rewrite lookup_insert_eq.
  - rewrite lookup_insert_ne; [done|]. intros E'%pool_key_inj. congruence.
Qed.
Lemma pool_units_del_pool s x symbol :
  pool_units (del_pool x s) symbol = if String.eqb symbol x then 0 else pool_units s symbol.
Proof.
  unfold pool_units, del_pool. simpl. destruct (String.eqb_spec symbol x) as [->|E].
  - by rewrite lookup_delete_eq.
  - rewrite lookup_delete_ne; [done|]. intros E'%pool_key_inj. congruence.
Qed.

(** The units of an asset stored under a provider's key. *)
Lemma old_units s symbol addr x :
  store_wf s → no_underscore addr →
  old_value (units_for x) s.(cs_LPs) (GetLiquidityProviderKey symbol addr) =
  if String.eqb symbol x then held_units s symbol addr else 0.
Proof.
  intros Hwf Ha. unfold old_value, held_units.
  destruct (s.(cs_LPs) !! GetLiquidityProviderKey symbol addr) as [lp|] eqn:E; simpl; [|by case_match].
  destruct (lps_keyed _ Hwf _ _ E) as [Ek Hl]. apply lp_key_inj in Ek as [-> _]; done.
Qed.
Lemma provider_units_set_lp s lp x :
  store_wf s → no_underscore lp.(LiquidityProviderAddress) →
  provider_units (set_lp lp s) x = provider_units s x +
    if String.eqb lp.(LPAsset).(Symbol) x
    then lp.(LiquidityProviderUnits)
         - held_units s lp.(LPAsset).(Symbol) lp.(LiquidityProviderAddress) else 0.
Proof.
  intros Hwf Ha. unfold provider_units, set_lp, lp_key. simpl.
  rewrite map_sumZ_insert, old_units by done. unfold units_for. case_match; lia.
Qed.
Lemma provider_units_del_lp s symbol addr x :
  store_wf s → no_underscore addr →
  provider_units (del_lp symbol addr s) x =
  provider_units s x - if String.eqb symbol x then held_units s symbol addr else 0.
Proof.
  intros Hwf Ha. unfold provider_units, del_lp. simpl. by rewrite map_sumZ_delete_any, old_units.
Qed.

Lemma held_units_nonneg s symbol addr : store_wf s → 0 <= held_units s symbol addr.
Proof.
  intros Hwf. unfold held_units. destruct (_ !! _) eqn:E; simpl; [|lia]. by eapply lps_units.
Qed.
Lemma units_for_nonneg s x k lp :
  store_wf s → (k, lp) ∈ map_to_list s.(cs_LPs) → 0 <= units_for x lp.
Proof.
  intros Hwf E%elem_of_map_to_list. apply (lps_units _ Hwf) in E. unfold units_for.
  case_match; lia.
Qed.
Lemma held_units_le s symbol addr :
  store_wf s → no_underscore addr → held_units s symbol addr <= provider_units s symbol.
Proof.
  intros Hwf Ha. pose proof (old_units s symbol addr symbol Hwf Ha) as E.
  rewrite String.eqb_refl in E. rewrite <- E. unfold old_value.
  assert (∀ kv, kv ∈ map_to_list s.(cs_LPs) → 0 <= units_for symbol kv.2) as Hn
    by (intros [k lp] ?; by eapply units_for_nonneg).
  unfold provider_units, map_sumZ.
  destruct (s.(cs_LPs) !! _) as [lp|] eqn:El; simpl; [|by apply sumZ_nonneg].
  apply (sumZ_elem_le (λ kv, units_for symbol kv.2) _
    (GetLiquidityProviderKey symbol addr, lp)); [done|]. by apply elem_of_map_to_list.
Qed.

(** Writes of other parts of the store. *)
Lemma units_ok_same s s' : s'.(cs_Pools) = s.(cs_Pools) → s'.(cs_LPs) = s.(cs_LPs) → units_ok s → units_ok s'.
Proof.
  intros Hp Hl [Hwf Hu]. unfold units_ok, units_off, pool_units, provider_units in *.
  rewrite Hp, Hl. split; [|done]. destruct Hwf. split; rewrite ?Hp, ?Hl; done.
Qed.

(** A pool replaced by one of the same asset and units. *)
Lemma units_ok_set_pool s p p0 :
  units_ok s → s.(cs_Pools) !! pool_key p.(ExternalAsset).(Symbol) = Some p0 →
  pool_ok p → p.(PoolUnits) = p0.(PoolUnits) → units_ok (set_pool p s).
Proof.
  intros [Hwf Hu] E Hp HU. split; [by apply set_pool_wf|]. intros x. rewrite <- (Hu x).
  unfold units_off. rewrite pool_units_set_pool.
  change (provider_units (set_pool p s) x) with (provider_units s x).
  destruct (String.eqb_spec x p.(ExternalAsset).(Symbol)) as [->|]; [|done].
  unfold pool_units. rewrite E. simpl. lia.
Qed.

(** A provider's record rewritten without changing its units. *)
Lemma units_ok_set_lp s lp :
  units_ok s → no_underscore lp.(LiquidityProviderAddress) →
  lp.(LiquidityProviderUnits) = held_units s lp.(LPAsset).(Symbol) lp.(LiquidityProviderAddress) →
  units_ok (set_lp lp s).
Proof.
  intros [Hwf Hu] Ha HU. split.
  { apply set_lp_wf; [done..|]. rewrite HU. by apply held_units_nonneg. }
  intros x. rewrite <- (Hu x). unfold units_off. rewrite provider_units_set_lp by done.
  change (pool_units (set_lp lp s) x) with (pool_units s x). case_match; lia.
Qed.

(** Pool and provider change together. *)
Lemma units_ok_set_both s p lp :
  units_ok s → pool_ok p → no_underscore lp.(LiquidityProviderAddress) →
  0 <= lp.(LiquidityProviderUnits) → p.(ExternalAsset).(Symbol) = lp.(LPAsset).(Symbol) →
  p.(PoolUnits) = pool_units s lp.(LPAsset).(Symbol)
    - held_units s lp.(LPAsset).(Symbol) lp.(LiquidityProviderAddress) + lp.(LiquidityProviderUnits) →
  units_ok (set_lp lp (set_pool p s)).
Proof.
  intros [Hwf Hu] Hp Ha Hn Hsym HU.
  assert (store_wf (set_pool p s)) by (by apply set_pool_wf).
  split; [by apply set_lp_wf|]. intros x. specialize (Hu x). unfold units_off in *.
  rewrite provider_units_set_lp by done.
  change (held_units (set_pool p s)) with (held_units s).
  change (provider_units (set_pool p s) x) with (provider_units s x).
  change (pool_units (set_lp lp (set_pool p s)) x) with (pool_units (set_pool p s) x).
  rewrite pool_units_set_pool, Hsym, String.eqb_sym.
  destruct (String.eqb_spec lp.(LPAsset).(Symbol) x) as [<-|]; lia.
Qed.
Lemma units_ok_remove_both s p addr :
  units_ok s → pool_ok p → no_underscore addr →
  p.(PoolUnits) = pool_units s p.(ExternalAsset).(Symbol)
    - held_units s p.(ExternalAsset).(Symbol) addr →
  units_ok (del_lp p.(ExternalAsset).(Symbol) addr (set_pool p s)).
Proof.
  intros [Hwf Hu] Hp Ha HU.
  assert (store_wf (set_pool p s)) by (by apply set_pool_wf).
  split; [by apply del_lp_wf|]. intros x. specialize (Hu x). unfold units_off in *.
  rewrite provider_units_del_lp by done.
  change (held_units (set_pool p s)) with (held_units s).
  change (provider_units (set_pool p s) x) with (provider_units s x).
  change (pool_units (del_lp _ addr (set_pool p s)) x) with (pool_units (set_pool p s) x).
  rewrite pool_units_set_pool, String.eqb_sym.
  destruct (String.eqb_spec p.(ExternalAsset).(Symbol) x) as [<-|]; lia.
Qed.
End writes.
