(* ===== verification/ClpExec.v ===== *)
(** * ClpExec: what the executors of x/clp do to the store and to the balances

    One lemma per executor of x/clp/keeper/executors.go: from a successful run to the writes it
    made and the coins it moved.  The proofs about the handlers (ClpUnitsSpec.v,
    ClpBalanceSpec.v) use these lemmas only. *)

From S2P Require Import Prelude Sdk Rat Bank Keepers ClpTypes ClpMath ClpKeeper ClpRewards.
From S2P Require Import ClpLiquidity ClpMathSpec ClpStoreSpec ClpUnits.
Local Open Scope Z_scope.

(** The world's stores and the bank are independent of each other: what the proofs about the
    handlers share.  [CW] is assumed by the sections below and proved for [World] in World.v. *)
Class ClpWorld (W : Type) `{coins : CoinLib} `{bank : BankKeeper W} `{clp : HasStore ClpStore W}
    `{events : HasStore EventLog W} : Prop := {
  cw_coins :: CoinLaws coins;
  cw_bank :: BankLaws W coins bank;
  cw_clp :: StoreLaws ClpStore W clp;
  cw_events :: StoreLaws EventLog W events;
  cw_indep :: StoreIndep ClpStore EventLog W clp events;
  cw_bank_clp :: BankFrame ClpStore W clp bank;
  cw_bank_events :: BankFrame EventLog W events bank
}.

(** [f d] of every denomination [d] went from one account to another. *)
Definition moved `{BankKeeper W} (from to : AccAddress) (f : string → Z) (w w' : W) : Prop :=
  ∀ a d, balance w' a d = balance w a d
    - (if String.eqb a from then f d else 0) + (if String.eqb a to then f d else 0).
Definition still `{BankKeeper W} (w w' : W) : Prop := ∀ a d, balance w' a d = balance w a d.

(** [n] fury and [e] of an external asset. *)
Definition pair_amount (symbol : string) (e n : Z) (d : string) : Z :=
  (if String.eqb symbol d then e else 0) + (if String.eqb NativeSymbol d then n else 0).

Section exec.
Context {W : Type} {sdk : Sdk} {HL : SdkLaws sdk} {coins : CoinLib} {bank : BankKeeper W}
  {paginator : Paginator} {registry : TokenRegistryKeeper W} {clp : HasStore ClpStore W}
  {events : HasStore EventLog W} {CW : ClpWorld W}.
Implicit Types w : W.
Notation clp_of w := (store (S := ClpStore) w).

Lemma balance_put_clp (s : ClpStore) w a d : balance (put_store s w) a d = balance w a d.
Proof. unfold balance. by rewrite frame_balance. Qed.
Lemma balance_put_events (l : EventLog) w a d : balance (put_store l w) a d = balance w a d.
Proof. unfold balance. by rewrite frame_balance. Qed.
Lemma clp_put_clp (s : ClpStore) w : clp_of (put_store s w) = s.
Proof. apply store_put. Qed.
Lemma clp_put_events (l : EventLog) w : clp_of (put_store l w) = clp_of w.
Proof. apply store_put_other. Qed.

Lemma still_refl w : still w w.
Proof. done. Qed.
Lemma still_trans w1 w2 w3 : still w1 w2 → still w2 w3 → still w1 w3.
Proof. intros H1 H2 a d. by rewrite H2, H1. Qed.
Lemma still_put_clp (s : ClpStore) w : still w (put_store s w).
Proof. intros a d. apply balance_put_clp. Qed.
Lemma still_put_events (l : EventLog) w : still w (put_store l w).
Proof. intros a d. apply balance_put_events. Qed.
Lemma moved_still_r from to f w1 w2 w3 : moved from to f w1 w2 → still w2 w3 → moved from to f w1 w3.
Proof. intros H1 H2 a d. by rewrite H2, H1. Qed.
Lemma moved_still_l from to f w1 w2 w3 : still w1 w2 → moved from to f w2 w3 → moved from to f w1 w3.
Proof. intros H1 H2 a d. by rewrite H2, H1. Qed.

(** ** The bank *)
Lemma send_am_ok a m cs w u w' :
  SendCoinsFromAccountToModule a m cs w = (Ok u, w') →
  clp_of w' = clp_of w ∧ moved a (NewModuleAddress m) (AmountOf cs) w w'.
Proof.
  destruct u. intros E. split.
  - by eapply (preserves_ok (store (S := ClpStore))); [apply frame_send_am|].
  - intros a0 d. by apply send_account_module.
Qed.
Lemma send_ma_ok m a cs w u w' :
  SendCoinsFromModuleToAccount m a cs w = (Ok u, w') →
  clp_of w' = clp_of w ∧ moved (NewModuleAddress m) a (AmountOf cs) w w'.
Proof.
  destruct u. intros E. split.
  - by eapply (preserves_ok (store (S := ClpStore))); [apply frame_send_ma|].
  - intros a0 d. by apply send_module_account.
Qed.

Lemma parse_int_ok z w i w' : parse_int (UintString z) w = (Ok i, w') → i = z ∧ w' = w.
Proof.
  unfold parse_int, ParseToInt, ok_or. intros H. inv_ok.
  destruct (NewIntFromString _) eqn:E; inv_ok. by apply uint_int_parse_inv in E as ->.
Qed.

Lemma NewCoin_ok d a c : NewCoin d a = Ok c → c = mkCoin d a ∧ 0 <= a.
Proof. intros (-> & ? & _)%new_coin_inv. done. Qed.

Lemma AmountOf_pair symbol e n d :
  AmountOf [mkCoin symbol e; mkCoin NativeSymbol n] d = pair_amount symbol e n d.
Proof. unfold AmountOf, pair_amount. simpl. lia. Qed.

Lemma Asset_Equals_spec a b : Asset_Equals a b = bool_decide (a = b).
Proof.
  unfold Asset_Equals. destruct a as [x], b as [y]. simpl.
  destruct (String.eqb_spec x y) as [->|]; case_bool_decide; congruence.
Qed.

Lemma moved_ext from to f g w w' : (∀ d, f d = g d) → moved from to f w w' → moved from to g w w'.
Proof. intros Hf H a d. by rewrite <- !Hf. Qed.
End exec.

Ltac inv_exec_step :=
  match goal with
  | H : parse_int (UintString _) _ = (Ok _, _) |- _ => apply parse_int_ok in H as [? ?]; subst
  | H : NewCoin _ _ = Ok _ |- _ => apply NewCoin_ok in H as [? ?]; subst
  | H : SendCoinsFromAccountToModule _ _ _ _ = (Ok _, _) |- _ =>
      let S := fresh "S" in let B := fresh "B" in apply send_am_ok in H as [S B]
  | H : SendCoinsFromModuleToAccount _ _ _ _ = (Ok _, _) |- _ =>
      let S := fresh "S" in let B := fresh "B" in apply send_ma_ok in H as [S B]
  end.
Ltac inv_exec := repeat (inv_clp; inv_exec_step); inv_clp.

(** Reads of the stores and balances of an updated world. *)
Ltac world_simpl :=
  repeat first
    [ rewrite clp_put_clp in * | rewrite clp_put_events in *
    | rewrite balance_put_clp in * | rewrite balance_put_events in * ].

Section executors.
Context {W : Type} {sdk : Sdk} {HL : SdkLaws sdk} {coins : CoinLib} {bank : BankKeeper W}
  {paginator : Paginator} {registry : TokenRegistryKeeper W} {clp : HasStore ClpStore W}
  {events : HasStore EventLog W} {CW : ClpWorld W}.
Implicit Types w : W.
Notation clp_of w := (store (S := ClpStore) w).

Lemma CreatePool_ok units msg w pool w' :
  CreatePool units msg w = (Ok pool, w') →
  ∃ addr,
    AccAddressFromBech32 msg.(cp_Signer) = Ok addr ∧
    Asset_Validate msg.(cp_ExternalAsset) = Ok true ∧
    0 <= msg.(cp_NativeAssetAmount) ∧ 0 <= msg.(cp_ExternalAssetAmount) ∧
    pool = NewPool msg.(cp_ExternalAsset) msg.(cp_NativeAssetAmount) msg.(cp_ExternalAssetAmount) units ∧
    clp_of w' = set_pool pool (clp_of w) ∧
    moved addr GetCLPModuleAddress
      (pair_amount msg.(cp_ExternalAsset).(Symbol) msg.(cp_ExternalAssetAmount) msg.(cp_NativeAssetAmount))
      w w'.
Proof.
  unfold CreatePool. intros H. inv_exec. eexists. repeat (split; [done|]). world_simpl.
  split; [by f_equal|]. eapply moved_still_r; [|apply still_put_clp].
  eapply moved_ext; [|done]. intros d. by erewrite new_coins_amount, AmountOf_pair.
Qed.

Lemma SetLiquidityProvider_still lp w u w' : SetLiquidityProvider lp w = (Ok u, w') → still w w'.
Proof.
  intros [->|[_ ->]]%SetLiquidityProvider_cases; [apply still_refl | apply still_put_clp].
Qed.

(** [lp, err := GetLiquidityProvider(...)], the error kept as "not found". *)
Lemma try_provider symbol addr w r w' :
  try (GetLiquidityProvider symbol addr) w = (Ok r, w') →
  w' = w ∧ match (clp_of w).(cs_LPs) !! GetLiquidityProviderKey symbol addr with
           | Some lp => r = inr lp | None => ∃ e, r = inl e end.
Proof.
  intros [(lp & -> & [-> E]%GetLiquidityProvider_ok)|(e & -> & [-> E]%GetLiquidityProvider_err)]%try_ok;
    rewrite E; eauto.
Qed.

Lemma CreateLiquidityProvider_ok asset units addr w lp w' :
  CreateLiquidityProvider asset units addr w = (Ok lp, w') →
  lp = NewLiquidityProvider asset units addr ∧ still w w' ∧
  (Asset_Validate asset = Ok true → clp_of w' = set_lp lp (clp_of w)).
Proof.
  unfold CreateLiquidityProvider. intros H.
  apply bind_ok in H as (u & w1 & E & [<- <-]%ret_ok). split; [done|].
  split; [by eapply SetLiquidityProvider_still|].
  intros V. apply SetLiquidityProvider_ok in E as ->; [|done]. by world_simpl.
Qed.

Lemma set_lp_twice lp lp0 p s :
  lp_key lp = lp_key lp0 → set_lp lp (set_pool p (set_lp lp0 s)) = set_lp lp (set_pool p s).
Proof. intros E. unfold set_lp, set_pool. simpl. by rewrite E, insert_insert_eq. Qed.

Definition added_pool (pool : Pool) (newUnits n e : Z) : Pool :=
  pool <| PoolUnits := newUnits |>
       <| NativeAssetBalance := pool.(NativeAssetBalance) + n |>
       <| ExternalAssetBalance := pool.(ExternalAssetBalance) + e |>.

(** The provider after an add: found under the signer's text, or created under the canonical
    text of the signer's address. *)
Definition provider_after_add (s : ClpStore) (msg : MsgAddLiquidity) (addr : AccAddress) (lpUnits : Z)
    : LiquidityProvider :=
  match s.(cs_LPs) !! GetLiquidityProviderKey msg.(al_ExternalAsset).(Symbol) msg.(al_Signer) with
  | Some lp0 => lp0 <| LiquidityProviderUnits := lp0.(LiquidityProviderUnits) + lpUnits |>
  | None => NewLiquidityProvider msg.(al_ExternalAsset) lpUnits addr
  end.

Lemma AddLiquidity_ok msg pool newUnits lpUnits w lp w' :
  AddLiquidity msg pool newUnits lpUnits w = (Ok lp, w') →
  let pool' := added_pool pool newUnits msg.(al_NativeAssetAmount) msg.(al_ExternalAssetAmount) in
  ∃ addr,
    AccAddressFromBech32 msg.(al_Signer) = Ok addr ∧
    Asset_Validate pool.(ExternalAsset) = Ok true ∧
    0 <= msg.(al_NativeAssetAmount) ∧ 0 <= msg.(al_ExternalAssetAmount) ∧
    lp = provider_after_add (clp_of w) msg addr lpUnits ∧ 0 <= lp.(LiquidityProviderUnits) ∧
    moved addr GetCLPModuleAddress
      (pair_amount msg.(al_ExternalAsset).(Symbol) msg.(al_ExternalAssetAmount) msg.(al_NativeAssetAmount))
      w w' ∧
    (Asset_Validate lp.(LPAsset) = Ok true → clp_of w' = set_lp lp (set_pool pool' (clp_of w))).
Proof.
  unfold AddLiquidity. intros H. cbv zeta. unfold provider_after_add, added_pool. inv_exec. inv_sdk.
  eexists. repeat (split; [done|]).
  apply try_provider in E11 as [_ E11]. rewrite S in E11.
  assert (moved a5 GetCLPModuleAddress
    (pair_amount msg.(al_ExternalAsset).(Symbol) msg.(al_ExternalAssetAmount)
       msg.(al_NativeAssetAmount)) w w9) as Hm.
  { eapply moved_ext; [|done]. intros d. erewrite coins_add_amount by done.
    erewrite coins_add_amount by done. unfold pair_amount, AmountOf. simpl. lia. }
  pose proof (SetLiquidityProvider_still _ _ _ _ E14) as Hst.
  destruct (cs_LPs (clp_of w) !! _) as [lp0|] eqn:El.
  - subst a11. inv_ok. split; [done|]. split; [lia|]. split.
    { eapply moved_still_r; [done|]. eapply still_trans; [apply still_put_clp|done]. }
    intros V2. apply SetLiquidityProvider_ok in E14 as ->; [|done]. world_simpl. by rewrite S.
  - destruct E11 as [e ->]. apply bind_ok in E12 as (lp1 & w1 & Ec & E12). inv_clp.
    apply CreateLiquidityProvider_ok in Ec as (-> & Hst0 & Hc). simpl in *. rewrite !Z.add_0_r in *.
    split; [done|]. split; [done|]. split.
    { eapply moved_still_r; [done|]. eapply still_trans; [done|].
      eapply still_trans; [apply still_put_events|].
      eapply still_trans; [apply still_put_clp|done]. }
    intros V2. apply SetLiquidityProvider_ok in E14 as ->; [|done].
    world_simpl. rewrite (Hc V2), S. by apply set_lp_twice.
Qed.
Lemma add_positive_amount cs c cs' d :
  0 <= c.(Amount) → add_positive cs c = Ok cs' → AmountOf cs' d = AmountOf cs d + AmountOf [c] d.
Proof.
  unfold add_positive. intros Hc H. inv_ok_if; [by apply coins_add_amount|].
  unfold AmountOf. simpl. destruct (Z.eqb_spec c.(Amount) 0) as [E|E]; simpl in *.
  - rewrite E. case_match; lia.
  - destruct (Z.ltb_spec c.(Amount) 0); simpl in *; [lia|done].
Qed.

Lemma DestroyLiquidityProvider_ok' symbol addr w u w' :
  DestroyLiquidityProvider symbol addr w = (Ok u, w') →
  still w w' ∧ clp_of w' = del_lp symbol addr (clp_of w).
Proof.
  intros [[-> E]| ->]%DestroyLiquidityProvider_ok.
  - split; [apply still_refl|]. unfold del_lp. destruct (clp_of w). simpl in *. by rewrite delete_id.
  - split; [apply still_put_clp|]. by world_simpl.
Qed.

(** What a removal leaves of the provider. *)
Definition removed (lp : LiquidityProvider) (left : Z) (pool : Pool) (s : ClpStore) : ClpStore :=
  if left =? 0 then del_lp lp.(LPAsset).(Symbol) lp.(LiquidityProviderAddress) (set_pool pool s)
  else set_lp (lp <| LiquidityProviderUnits := left |>) (set_pool pool s).

Lemma RemoveLiquidity_ok pool symbol e n lp left eb nb w u w' :
  RemoveLiquidity pool (mkCoin symbol e) (mkCoin NativeSymbol n) lp left eb nb w = (Ok u, w') →
  0 <= e → 0 <= n →
  ∃ addr,
    AccAddressFromBech32 lp.(LiquidityProviderAddress) = Ok addr ∧
    Asset_Validate pool.(ExternalAsset) = Ok true ∧ e < eb ∧ n < nb ∧
    moved GetCLPModuleAddress addr (pair_amount symbol e n) w w' ∧
    (Asset_Validate lp.(LPAsset) = Ok true → clp_of w' = removed lp left pool (clp_of w)).
Proof.
  unfold RemoveLiquidity. intros H He Hn. inv_exec. eexists. split; [done|]. split; [done|].
  apply orb_false_elim in E3 as [L1 L2]. rewrite Z.geb_leb, Z.leb_gt in L1, L2.
  do 2 (split; [done|]).
  match goal with Hs : match ?cs with _ => _ end ?w0 = (Ok _, ?w1) |- _ => rename w1 into ws;
    assert (clp_of ws = clp_of w0 ∧ moved GetCLPModuleAddress a (AmountOf cs) w0 ws) as [S B] end.
  { destruct a2 as [|c cs]; [|by inv_exec].
    inv_ok. split; [reflexivity|]. intros x d. change (AmountOf [] d) with 0.
    repeat case_match; lia. }
  world_simpl.
  assert (moved GetCLPModuleAddress a (pair_amount symbol e n) w ws) as Hm.
  { eapply moved_still_l; [apply still_put_clp|]. eapply moved_ext; [|done]. intros d.
    rewrite (add_positive_amount _ (mkCoin NativeSymbol n) _ d Hn E2).
    rewrite (add_positive_amount _ (mkCoin symbol e) _ d He E1).
    erewrite new_coins_amount by done. unfold pair_amount, AmountOf. simpl. lia. }
  unfold removed. destruct (left =? 0).
  - apply DestroyLiquidityProvider_ok' in H as [Hst H]. split; [by eapply moved_still_r|].
    intros _. by rewrite H, S.
  - split; [eapply moved_still_r; [done|by eapply SetLiquidityProvider_still]|].
    intros V2. apply SetLiquidityProvider_ok in H as ->; [|done]. world_simpl. by rewrite S.
Qed.

Lemma AmountOf_single symbol x d :
  AmountOf [mkCoin symbol x] d = if String.eqb symbol d then x else 0.
Proof. unfold AmountOf. simpl. lia. Qed.

Lemma InitiateSwap_ok symbol x addr w u w' :
  InitiateSwap (mkCoin symbol x) addr w = (Ok u, w') →
  clp_of w' = clp_of w ∧
  moved addr GetCLPModuleAddress (λ d, if String.eqb symbol d then x else 0) w w'.
Proof.
  unfold InitiateSwap. intros H. inv_exec. split; [done|]. eapply moved_ext; [|done].
  intros d. erewrite new_coins_amount by done. apply AmountOf_single.
Qed.

Lemma FinalizeSwap_ok x pool msg w u w' :
  FinalizeSwap (UintString x) pool msg w = (Ok u, w') →
  ∃ addr,
    AccAddressFromBech32 msg.(sw_Signer) = Ok addr ∧ 0 <= x ∧
    Asset_Validate pool.(ExternalAsset) = Ok true ∧ clp_of w' = set_pool pool (clp_of w) ∧
    moved GetCLPModuleAddress addr
      (λ d, if String.eqb msg.(sw_ReceivedAsset).(Symbol) d then x else 0) w w'.
Proof.
  unfold FinalizeSwap. intros H. inv_exec. eexists. repeat (split; [done|]).
  split; [rewrite S; by world_simpl|].
  eapply moved_still_l; [apply still_put_clp|]. eapply moved_ext; [|done].
  intros d. erewrite new_coins_amount by done. apply AmountOf_single.
Qed.

Lemma RemoveLiquidityProvider_ok cs lp w u w' :
  RemoveLiquidityProvider cs lp w = (Ok u, w') →
  ∃ addr,
    AccAddressFromBech32 lp.(LiquidityProviderAddress) = Ok addr ∧
    clp_of w' = del_lp lp.(LPAsset).(Symbol) lp.(LiquidityProviderAddress) (clp_of w) ∧
    moved GetCLPModuleAddress addr (AmountOf cs) w w'.
Proof.
  unfold RemoveLiquidityProvider. intros H. inv_exec. eexists. split; [done|].
  apply DestroyLiquidityProvider_ok' in H as [Hst H]. rewrite H, S. split; [done|].
  by eapply moved_still_r.
Qed.
End executors.
