(* ===== verification/ClpSettings.v ===== *)
(** * ClpSettings: what the executors and the user messages of x/clp do not write

    The store without its pools, providers and removal queue holds the module's settings.  A
    view of the settings ([Setting]) is unchanged by every executor and by every message a user
    can send; only the protection threshold moves with swaps and adds. *)

From S2P Require Import Prelude Sdk Rat Bank Keepers ClpTypes ClpMath ClpKeeper ClpPolicy.
From S2P Require Import ClpRewards ClpLiquidity ClpMsgs ClpServer ClpModule ClpStoreSpec ClpUnits.
From S2P Require Import ClpExec.
Local Open Scope Z_scope.

(** A view of the store that the pools and the providers do not show in. *)
Class Setting {X} (f : ClpStore → X) : Prop := {
  setting_pools s g : f (s <| cs_Pools ::= g |>) = f s;
  setting_lps s g : f (s <| cs_LPs ::= g |>) = f s
}.
(** A view that the removal queue does not show in. *)
Class QueueFree {X} (f : ClpStore → X) : Prop := {
  setting_requests s g : f (s <| cs_RemovalRequests ::= g |>) = f s;
  setting_queues s g : f (s <| cs_RemovalQueues ::= g |>) = f s
}.
#[export] Instance params_setting : Setting cs_Params.
Proof. done. Qed.
#[export] Instance params_queue_free : QueueFree cs_Params.
Proof. done. Qed.
#[export] Instance requests_setting : Setting cs_RemovalRequests.
Proof. done. Qed.

#[export] Hint Extern 0 (Setting _) => apply _ : frame.
#[export] Hint Extern 0 (QueueFree _) => apply _ : frame.

Section view.
Context {W : Type} {sdk : Sdk} {coins : CoinLib} {bank : BankKeeper W}
  {clp : HasStore ClpStore W} {events : HasStore EventLog W} {CW : ClpWorld W}.
Context {X : Type} (f : ClpStore → X).

Definition view (w : W) : X := f (store w).

Lemma view_upd g : (∀ s, f (g s) = f s) → preserves view (upd_clp g).
Proof. intros Hg w. unfold view, upd_clp, upd_store, modify. simpl. by rewrite clp_put_clp. Qed.
Lemma view_EmitEvent e : preserves view (EmitEvent e).
Proof. intros w. unfold view, EmitEvent, upd_store, modify. simpl. by rewrite clp_put_events. Qed.
Lemma view_EmitEvents es : preserves view (EmitEvents es).
Proof. intros w. unfold view, EmitEvents, upd_store, modify. simpl. by rewrite clp_put_events. Qed.
Lemma view_send a m cs : preserves view (SendCoinsFromAccountToModule a m cs).
Proof. intros w. unfold view. by rewrite (frame_send_am (S := ClpStore)). Qed.
Lemma view_pay m a cs : preserves view (SendCoinsFromModuleToAccount m a cs).
Proof. intros w. unfold view. by rewrite (frame_send_ma (S := ClpStore)). Qed.
Lemma view_mint m cs : preserves view (MintCoins m cs).
Proof. intros w. unfold view. by rewrite (frame_mint (S := ClpStore)). Qed.
Lemma view_burn m cs : preserves view (BurnCoins m cs).
Proof. intros w. unfold view. by rewrite (frame_burn (S := ClpStore)). Qed.
Lemma view_readonly {A} (m : M W A) : readonly m → preserves view m.
Proof. intros Hm w. by rewrite (Hm w). Qed.
End view.
#[export] Hint Resolve view_EmitEvent view_EmitEvents view_send view_pay view_mint view_burn : frame.
#[export] Hint Extern 1 (preserves (view _) (upd_clp _)) =>
  (apply view_upd; intros ?; first [apply setting_pools | apply setting_lps
   | apply setting_requests | apply setting_queues | done]) : frame.
#[export] Hint Extern 4 (preserves (view _) _) =>
  (apply view_readonly; solve [eauto 8 with frame nocore]) : frame.

Section executors.
Context {W : Type} {sdk : Sdk} {HL : SdkLaws sdk} {coins : CoinLib} {bank : BankKeeper W}
  {paginator : Paginator} {registry : TokenRegistryKeeper W}
  {clp : HasStore ClpStore W} {events : HasStore EventLog W} {CW : ClpWorld W}.
Context {X : Type} (f : ClpStore → X) {Hf : Setting f} {Hqf : QueueFree f}.

Lemma view_SetPool p : preserves (view (W := W) f) (SetPool p).
Proof. unfold SetPool. solve_frame. Qed.
Lemma view_SetLP lp : preserves (view (W := W) f) (SetLiquidityProvider lp).
Proof. unfold SetLiquidityProvider. solve_frame. Qed.
Lemma view_DestroyLP s a : preserves (view (W := W) f) (DestroyLiquidityProvider s a).
Proof. unfold DestroyLiquidityProvider. solve_frame. Qed.
#[local] Hint Resolve view_SetPool view_SetLP view_DestroyLP : frame.
Lemma view_CreatePool u m : preserves (view (W := W) f) (CreatePool u m).
Proof. unfold CreatePool. solve_frame. Qed.
Lemma view_CreateLP x n a : preserves (view (W := W) f) (CreateLiquidityProvider x n a).
Proof. unfold CreateLiquidityProvider. solve_frame. Qed.
#[local] Hint Resolve view_CreateLP : frame.
Lemma view_AddLiquidity msg p n l : preserves (view (W := W) f) (AddLiquidity msg p n l).
Proof. unfold AddLiquidity. solve_frame. Qed.
Lemma view_RemoveLP cs lp : preserves (view (W := W) f) (RemoveLiquidityProvider cs lp).
Proof. unfold RemoveLiquidityProvider. solve_frame. Qed.
Lemma view_Decommission p : preserves (view (W := W) f) (DecommissionPool p).
Proof. unfold DecommissionPool, DestroyPool. solve_frame. Qed.
Lemma view_RemoveLiquidity p c1 c2 lp l e n :
  preserves (view (W := W) f) (RemoveLiquidity p c1 c2 lp l e n).
Proof. unfold RemoveLiquidity. solve_frame. Qed.
#[local] Hint Resolve view_RemoveLiquidity : frame.
Lemma view_withdraw x y p lp n e l s r f1 f2 eb nb :
  preserves (view (W := W) f) (withdraw_and_remove x y p lp n e l s r f1 f2 eb nb).
Proof. unfold withdraw_and_remove, asymmetric_swap, parse_int. solve_frame. Qed.
#[local] Hint Resolve view_withdraw : frame.
Lemma view_ProcessRemoval m : preserves (view (W := W) f) (ProcessRemoveLiquidityMsg m).
Proof. unfold ProcessRemoveLiquidityMsg. solve_frame. Qed.
Lemma view_SetProcessed r p v : preserves (view (W := W) f) (SetProcessedRemovalRequest r p v).
Proof.
  unfold SetProcessedRemovalRequest, DequeueRemovalRequest, SetRemovalRequest, SetRemovalQueue,
    GetRemovalQueue. solve_frame.
Qed.
#[local] Hint Resolve view_ProcessRemoval view_SetProcessed : frame.
Lemma view_ProcessQueue m n : preserves (view (W := W) f) (ProcessRemovalQueue m n).
Proof. unfold ProcessRemovalQueue, process_request, GetRemovalQueue. solve_frame. Qed.
Lemma view_QueueRemoval ctx m v : preserves (view (W := W) f) (QueueRemoval ctx m v).
Proof. unfold QueueRemoval, SetRemovalRequest, SetRemovalQueue, GetRemovalQueue. solve_frame. Qed.
Lemma view_UseUnlocked ctx lp u any :
  preserves (view (W := W) f) (UseUnlockedLiquidity ctx lp u any).
Proof. unfold UseUnlockedLiquidity. solve_frame. Qed.
Lemma view_Prune ctx lp l c : preserves (view (W := W) f) (PruneUnlockRecords ctx lp l c).
Proof. unfold PruneUnlockRecords. solve_frame. Qed.
Lemma view_Initiate c a : preserves (view (W := W) f) (InitiateSwap c a).
Proof. unfold InitiateSwap. solve_frame. Qed.
Lemma view_Finalize x p m : preserves (view (W := W) f) (FinalizeSwap x p m).
Proof. unfold FinalizeSwap, parse_int. solve_frame. Qed.
End executors.
#[export] Hint Resolve view_SetPool view_SetLP view_DestroyLP view_CreatePool view_CreateLP
  view_AddLiquidity view_RemoveLP view_Decommission view_RemoveLiquidity view_withdraw
  view_ProcessRemoval view_SetProcessed view_ProcessQueue view_QueueRemoval view_UseUnlocked
  view_Prune view_Initiate view_Finalize : frame.

Section handlers.
Context {W : Type} {sdk : Sdk} {HL : SdkLaws sdk} {coins : CoinLib} {bank : BankKeeper W}
  {paginator : Paginator} {registry : TokenRegistryKeeper W} {admin : AdminKeeper W}
  {margin : MarginKeeper W} {mint : MintKeeper W} {errs : SdkErrors}
  {clp : HasStore ClpStore W} {events : HasStore EventLog W} {CW : ClpWorld W}.
Context {X : Type} (f : ClpStore → X) {Hf : Setting f} {Hqf : QueueFree f}.

Lemma view_guard ctx x p n e r q g :
  (∀ v, preserves (view (W := W) f) (g v)) →
  preserves (view (W := W) f) (guard_pool_health ctx x p n e r q g).
Proof. intros Hq. unfold guard_pool_health. solve_frame. Qed.
#[local] Hint Extern 1 (preserves _ (guard_pool_health _ _ _ _ _ _ _ _)) =>
  (apply view_guard; intros) : frame.
Lemma view_prune_for_message ctx lp : preserves (view (W := W) f) (prune_for_message ctx lp).
Proof. unfold prune_for_message. solve_frame. Qed.
#[local] Hint Resolve view_prune_for_message : frame.

Lemma view_CreatePool_handler m : preserves (view (W := W) f) (CreatePool_handler m).
Proof. unfold CreatePool_handler. solve_frame. Qed.
Lemma view_DecommissionPool_handler m : preserves (view (W := W) f) (DecommissionPool_handler m).
Proof. unfold DecommissionPool_handler, refund_provider. solve_frame. Qed.
Lemma view_RemoveLiquidity_handler ctx m :
  preserves (view (W := W) f) (RemoveLiquidity_handler ctx m).
Proof. unfold RemoveLiquidity_handler. solve_frame. Qed.
Lemma view_RemoveLiquidityUnits ctx m : preserves (view (W := W) f) (RemoveLiquidityUnits ctx m).
Proof. unfold RemoveLiquidityUnits. solve_frame. Qed.
Lemma view_CancelUnlock ctx m : preserves (view (W := W) f) (CancelUnlockLiquidity ctx m).
Proof. unfold CancelUnlockLiquidity. solve_frame. Qed.
Lemma view_UnlockLiquidity ctx m : preserves (view (W := W) f) (UnlockLiquidity ctx m).
Proof. unfold UnlockLiquidity. solve_frame. Qed.

(** Swaps and adds, for a view that does not show the threshold either. *)
Hypothesis Hrate : ∀ s p, f (s <| cs_LiquidityProtectionRateParams := p |>) = f s.
Lemma view_MustUpdate b n p :
  preserves (view (W := W) f) (MustUpdateLiquidityProtectionThreshold b n p).
Proof.
  assert (∀ t, preserves (view (W := W) f) (SetLiquidityProtectionCurrentFuryLiquidityThreshold t)).
  { intros t. unfold SetLiquidityProtectionCurrentFuryLiquidityThreshold,
      SetLiquidityProtectionRateParams.
    apply preserves_bind; [solve_frame|]. intros. by apply view_upd. }
  unfold MustUpdateLiquidityProtectionThreshold. solve_frame.
Qed.
#[local] Hint Resolve view_MustUpdate : frame.
Lemma view_add_checks n e st s nd ed p f1 f2 :
  preserves (view (W := W) f) (add_liquidity_swap_checks n e st s nd ed p f1 f2).
Proof. unfold add_liquidity_swap_checks, when_set. solve_frame. Qed.
#[local] Hint Resolve view_add_checks : frame.
Lemma view_AddLiquidity_handler m : preserves (view (W := W) f) (AddLiquidity_handler m).
Proof. unfold AddLiquidity_handler. solve_frame. Qed.
Lemma view_Swap m : preserves (view (W := W) f) (Swap m).
Proof. unfold Swap, swap_protection, when_set. walk_frame. Qed.
End handlers.
