(* ===== verification/ClpEffects.v ===== *)
(** * ClpEffects: what the message handlers of x/clp do to the books and to the balances

    The books are the pools and the providers.  One lemma per handler of
    x/clp/keeper/msg_server.go that changes them: from a successful run to the new books and
    the coins moved.  All other handlers leave the books and the balances alone ([quiet]). *)

From S2P Require Import Prelude Sdk Rat Bank Keepers ClpTypes ClpMath ClpKeeper ClpPolicy.
From S2P Require Import ClpRewards ClpLiquidity ClpMsgs ClpServer ClpMathSpec ClpStoreSpec.
From S2P Require Import ClpUnits ClpExec.
From S2P Require Import ClpSettings.
Local Open Scope Z_scope.

(** ** Stores with the same books: pools, providers, and the queued removals and the module's
    parameters, which no successful message changes while no removal is queued *)
Definition books (s : ClpStore) : gmap string Pool * gmap string LiquidityProvider
    * (Params * gmap string RemovalRequest) :=
  (s.(cs_Pools), s.(cs_LPs), (s.(cs_Params), s.(cs_RemovalRequests))).
Record same_books (s s' : ClpStore) : Prop := { same_books_eq : books s = books s' }.

Lemma same_books_split s s' : same_books s s' ↔
  s.(cs_Pools) = s'.(cs_Pools) ∧ s.(cs_LPs) = s'.(cs_LPs) ∧ s.(cs_Params) = s'.(cs_Params) ∧
  s.(cs_RemovalRequests) = s'.(cs_RemovalRequests).
Proof.
  split; [intros [E]; by injection E | intros (E1 & E2 & E3 & E4); split].
  unfold books. by rewrite E1, E2, E3, E4.
Qed.
#[export] Instance same_books_equiv : Equivalence same_books.
Proof. split; [done|by intros ?? []|intros ??? [] []; split; congruence]. Qed.
Ltac solve_books := intros s s'; rewrite !same_books_split; intros (E1 & E2 & E3 & E4);
  unfold set_pool, set_lp, del_lp, del_pool; simpl; by rewrite ?E1, ?E2, ?E3, ?E4.
#[export] Instance set_pool_proper p : Proper (same_books ==> same_books) (set_pool p).
Proof. solve_books. Qed.
#[export] Instance set_lp_proper lp : Proper (same_books ==> same_books) (set_lp lp).
Proof. solve_books. Qed.
#[export] Instance del_lp_proper x a : Proper (same_books ==> same_books) (del_lp x a).
Proof. solve_books. Qed.
#[export] Instance del_pool_proper x : Proper (same_books ==> same_books) (del_pool x).
Proof. solve_books. Qed.
#[export] Instance removed_proper lp l p : Proper (same_books ==> same_books) (removed lp l p).
Proof. intros s s' E. unfold removed. case_match; by rewrite E. Qed.
#[export] Instance store_wf_proper : Proper (same_books ==> iff) store_wf.
Proof.
  intros s s' (E1 & E2 & _)%same_books_split.
  split; intros []; split; by rewrite <-?E1, <-?E2 || rewrite ?E1, ?E2.
Qed.
#[export] Instance units_ok_proper : Proper (same_books ==> iff) units_ok.
Proof. intros s s' (E1 & E2 & _)%same_books_split. split; by apply units_ok_same. Qed.

(** ** Quiet code: neither the books nor the balances change *)
Section quiet.
Context {W : Type} {sdk : Sdk} {HL : SdkLaws sdk} {coins : CoinLib} {bank : BankKeeper W}
  {paginator : Paginator} {registry : TokenRegistryKeeper W} {clp : HasStore ClpStore W}
  {events : HasStore EventLog W} {CW : ClpWorld W}.
Implicit Types w : W.
Notation clp_of w := (store (S := ClpStore) w).

Definition seen (a : AccAddress) (d : string) (w : W)
    : gmap string Pool * gmap string LiquidityProvider * (Params * gmap string RemovalRequest) * Z :=
  (books (clp_of w), balance w a d).
Definition quiet {A} (m : M W A) : Prop := ∀ a d, preserves (seen a d) m.

Lemma quiet_ok {A} (m : M W A) w r w' :
  quiet m → m w = (r, w') → same_books (clp_of w') (clp_of w) ∧ still w w'.
Proof.
  intros Hq E. assert (∀ a d, seen a d w' = seen a d w) as Hs.
  { intros a d. by apply (preserves_ok _ m w r w' (Hq a d)). }
  split.
  - specialize (Hs "" ""). split. by apply (f_equal fst) in Hs.
  - intros a d. specialize (Hs a d). by apply (f_equal snd) in Hs.
Qed.

Lemma preserves_readonly {A X} (f : W → X) (m : M W A) : readonly m → preserves f m.
Proof. intros Hm w. by rewrite (Hm w). Qed.

Lemma quiet_upd a d f : (∀ s, books (f s) = books s) → preserves (seen a d) (upd_clp f).
Proof.
  intros Hf w. unfold seen, upd_clp, upd_store, modify. simpl.
  by rewrite clp_put_clp, balance_put_clp, Hf.
Qed.
Lemma quiet_EmitEvent a d e : preserves (seen a d) (EmitEvent (W := W) e).
Proof.
  intros w. unfold seen, EmitEvent, upd_store, modify. simpl.
  by rewrite clp_put_events, balance_put_events.
Qed.
Lemma quiet_EmitEvents a d es : preserves (seen a d) (EmitEvents (W := W) es).
Proof.
  intros w. unfold seen, EmitEvents, upd_store, modify. simpl.
  by rewrite clp_put_events, balance_put_events.
Qed.
End quiet.
#[export] Hint Resolve quiet_EmitEvent quiet_EmitEvents : frame.
#[export] Hint Extern 1 (preserves (seen _ _) (upd_clp _)) => (apply quiet_upd; done) : frame.
#[export] Hint Extern 4 (preserves (seen _ _) _) =>
  (apply preserves_readonly; solve [eauto 8 with frame nocore]) : frame.

Section quiet_ops.
Context {W : Type} {sdk : Sdk} {HL : SdkLaws sdk} {coins : CoinLib} {bank : BankKeeper W}
  {paginator : Paginator} {registry : TokenRegistryKeeper W} {clp : HasStore ClpStore W}
  {events : HasStore EventLog W} {CW : ClpWorld W}.

Lemma quiet_SetLiquidityProtectionRateParams a d p :
  preserves (seen (W := W) a d) (SetLiquidityProtectionRateParams p).
Proof. unfold SetLiquidityProtectionRateParams. solve_frame. Qed.
#[local] Hint Resolve quiet_SetLiquidityProtectionRateParams : frame.
Lemma quiet_SetCurrentThreshold a d t :
  preserves (seen (W := W) a d) (SetLiquidityProtectionCurrentFuryLiquidityThreshold t).
Proof. unfold SetLiquidityProtectionCurrentFuryLiquidityThreshold. solve_frame. Qed.
#[local] Hint Resolve quiet_SetCurrentThreshold : frame.
Lemma quiet_MustUpdate a d b n p :
  preserves (seen (W := W) a d) (MustUpdateLiquidityProtectionThreshold b n p).
Proof. unfold MustUpdateLiquidityProtectionThreshold. solve_frame. Qed.
End quiet_ops.
#[export] Hint Resolve quiet_SetLiquidityProtectionRateParams quiet_SetCurrentThreshold
  quiet_MustUpdate : frame.

(** The mint keeper has its own store. *)
Class MintQuiet (W : Type) `{ClpWorld W} `{MintKeeper W} : Prop := {
  frame_SetMinter m : preserves (store (S := ClpStore)) (SetMinter m);
  frame_SetMintParams p : preserves (store (S := ClpStore)) (SetMintParams p);
  balance_SetMinter a d m : preserves (λ w, balance w a d) (SetMinter m);
  balance_SetMintParams a d p : preserves (λ w, balance w a d) (SetMintParams p)
}.

Section mint.
Context `{MQ : MintQuiet W}.
Lemma quiet_SetMinter a d m : preserves (seen a d) (SetMinter m).
Proof. intros w. unfold seen. by rewrite (frame_SetMinter m w), (balance_SetMinter a d m w). Qed.
Lemma quiet_SetMintParams a d p : preserves (seen a d) (SetMintParams p).
Proof. intros w. unfold seen. by rewrite (frame_SetMintParams p w), (balance_SetMintParams a d p w). Qed.
Lemma view_SetMinter {X} (f : ClpStore → X) m : preserves (view f) (SetMinter m).
Proof. intros w. unfold view. by rewrite (frame_SetMinter m w). Qed.
Lemma view_SetMintParams {X} (f : ClpStore → X) p : preserves (view f) (SetMintParams p).
Proof. intros w. unfold view. by rewrite (frame_SetMintParams p w). Qed.
End mint.
#[export] Hint Resolve quiet_SetMinter quiet_SetMintParams view_SetMinter view_SetMintParams : frame.

Section quiet_handlers.
Context {W : Type} {sdk : Sdk} {HL : SdkLaws sdk} {coins : CoinLib} {bank : BankKeeper W}
  {paginator : Paginator} {registry : TokenRegistryKeeper W} {admin : AdminKeeper W}
  {margin : MarginKeeper W} {mint : MintKeeper W} {errs : SdkErrors}
  {clp : HasStore ClpStore W} {events : HasStore EventLog W} {CW : ClpWorld W}
  {MQ : MintQuiet W}.
Implicit Types w : W.

Lemma ro_require_admin t s : readonly (require_admin (W := W) t s).
Proof. unfold require_admin, IsAdminAccountM. solve_frame. Qed.
#[local] Hint Resolve ro_require_admin : frame.

Lemma quiet_SetSymmetryThreshold m : quiet (W := W) (SetSymmetryThreshold_handler m).
Proof. intros a d. unfold SetSymmetryThreshold_handler, SetSymmetryThreshold. solve_frame. Qed.
Lemma quiet_UpdateStakingRewardParams s m p : quiet (W := W) (UpdateStakingRewardParams s m p).
Proof. intros a d. unfold UpdateStakingRewardParams. solve_frame. Qed.
Lemma quiet_UpdateRewardsParams m : quiet (W := W) (UpdateRewardsParams m).
Proof. intros a d. unfold UpdateRewardsParams, SetRewardParams. solve_frame. Qed.
Lemma quiet_AddRewardPeriod m : quiet (W := W) (AddRewardPeriod m).
Proof. intros a d. unfold AddRewardPeriod, SetRewardParams. solve_frame. Qed.
Lemma quiet_AddProviderDistributionPeriod m : quiet (W := W) (AddProviderDistributionPeriod m).
Proof.
  intros a d. unfold AddProviderDistributionPeriod, SetProviderDistributionParams. solve_frame.
Qed.
Lemma quiet_UpdatePmtpParams ctx m : quiet (W := W) (UpdatePmtpParams ctx m).
Proof. intros a d. unfold UpdatePmtpParams, SetPmtpParams. solve_frame. Qed.
Lemma quiet_ModifyPmtpRates ctx m : quiet (W := W) (ModifyPmtpRates ctx m).
Proof.
  intros a d. unfold ModifyPmtpRates, SetPmtpParams, SetPmtpEpoch, SetPmtpInterPolicyRate,
    SetPmtpRateParams. solve_frame.
Qed.
Lemma quiet_UpdateLiquidityProtectionParams m : quiet (W := W) (UpdateLiquidityProtectionParams m).
Proof.
  intros a d. unfold UpdateLiquidityProtectionParams, SetLiquidityProtectionParams. solve_frame.
Qed.
Lemma quiet_ModifyLiquidityProtectionRates m : quiet (W := W) (ModifyLiquidityProtectionRates m).
Proof. intros a d. unfold ModifyLiquidityProtectionRates. solve_frame. Qed.
Lemma quiet_UpdateSwapFeeParams m : quiet (W := W) (UpdateSwapFeeParams m).
Proof. intros a d. unfold UpdateSwapFeeParams, SetSwapFeeParams. solve_frame. Qed.
Lemma ro_swap_protection e n : readonly (swap_protection (W := W) e n).
Proof. unfold swap_protection. solve_frame. Qed.
Lemma ro_when_set o : readonly (when_set (W := W) o).
Proof. unfold when_set. solve_frame. Qed.
#[local] Hint Resolve ro_when_set : frame.
Lemma quiet_add_liquidity_swap_checks n e st s nd ed p f1 f2 :
  quiet (W := W) (add_liquidity_swap_checks n e st s nd ed p f1 f2).
Proof. intros a d. unfold add_liquidity_swap_checks. solve_frame. Qed.
End quiet_handlers.
#[export] Hint Resolve ro_require_admin ro_swap_protection ro_when_set : frame.

(** ** Unlock bookkeeping: at most one provider's record of unlocks is rewritten *)
Section touched.
Context {W : Type} {sdk : Sdk} {HL : SdkLaws sdk} {coins : CoinLib} {bank : BankKeeper W}
  {paginator : Paginator} {registry : TokenRegistryKeeper W}
  {clp : HasStore ClpStore W} {events : HasStore EventLog W} {CW : ClpWorld W}.
Implicit Types w : W.
Notation clp_of w := (store (S := ClpStore) w).

Definition touched (lp : LiquidityProvider) (w w' : W) : Prop :=
  still w w' ∧ (same_books (clp_of w') (clp_of w) ∨
    ∃ us, same_books (clp_of w') (set_lp (lp <| Unlocks := us |>) (clp_of w))).

Lemma SetLiquidityProvider_touched lp us w0 w u w' :
  same_books (clp_of w) (clp_of w0) → still w0 w →
  SetLiquidityProvider (lp <| Unlocks := us |>) w = (Ok u, w') → touched lp w0 w'.
Proof.
  intros Hb Hst H. split; [by eapply still_trans; [|eapply SetLiquidityProvider_still]|].
  apply SetLiquidityProvider_cases in H as [->|[_ ->]]; [by left|].
  right. exists us. rewrite clp_put_clp. by rewrite Hb.
Qed.

Lemma quiet_prune_loop (a : AccAddress) (d : string) (l c h : Z) records (acc : bool * list LiquidityUnlock) :
  preserves (seen (W := W) a d)
    (foldM (λ acc record,
      let '(write, records) := acc in
      if unlock_expired l c h record then
        _ ← EmitEvent EventTypeCancelUnlock; mret (true, records)
      else if record.(UnlockUnits) =? 0 then mret (true, records)
      else mret (write, records ++ [record])) acc records).
Proof. apply preserves_foldM. intros [] x. solve_frame. Qed.

Lemma PruneUnlockRecords_ok ctx lp l c w lp' w' :
  PruneUnlockRecords ctx lp l c w = (Ok lp', w') →
  (∃ us, lp' = lp <| Unlocks := us |>) ∧ touched lp w w'.
Proof.
  unfold PruneUnlockRecords. intros H. apply bind_ok in H as ([write records] & w1 & E & H).
  eapply quiet_ok in E as [Hb Hst]; [|intros a d; apply quiet_prune_loop].
  destruct write.
  - apply bind_ok in H as (u & w2 & Es & [<- <-]%ret_ok). split; [eauto|].
    by eapply SetLiquidityProvider_touched.
  - apply ret_ok in H as [<- <-]. split; [exists lp.(Unlocks); by destruct lp|]. split; [done|by left].
Qed.

Lemma UseUnlockedLiquidity_ok ctx lp units any w us w' :
  UseUnlockedLiquidity ctx lp units any w = (Ok us, w') → touched lp w w'.
Proof.
  unfold UseUnlockedLiquidity. intros H. inv_clp.
  eapply (SetLiquidityProvider_touched lp _ w); [reflexivity|apply still_refl|exact E2].
Qed.

(** The pools, and the provider up to its unlocks, are those of before. *)
Lemma touched_lookup lp w w' :
  touched lp w w' → (clp_of w).(cs_LPs) !! lp_key lp = Some lp →
  (clp_of w').(cs_Pools) = (clp_of w).(cs_Pools) ∧
  ∃ us, (clp_of w').(cs_LPs) !! lp_key lp = Some (lp <| Unlocks := us |>).
Proof.
  intros [_ [(Ep & El & _)%same_books_split|[us (Ep & El & _)%same_books_split]]] Hlp; rewrite Ep, El.
  - split; [done|]. exists lp.(Unlocks). rewrite Hlp. by destruct lp.
  - split; [done|]. exists us. unfold set_lp. simpl. by rewrite lookup_insert_eq.
Qed.
Lemma touched_requests lp w w' :
  touched lp w w' → (clp_of w').(cs_RemovalRequests) = (clp_of w).(cs_RemovalRequests).
Proof. by intros [_ [(_ & _ & _ & E)%same_books_split|[us (_ & _ & _ & E)%same_books_split]]]. Qed.
Lemma touched_wf lp w w' :
  touched lp w w' → (clp_of w).(cs_LPs) !! lp_key lp = Some lp →
  store_wf (clp_of w) → store_wf (clp_of w').
Proof.
  intros [_ [Hb|[us Hb]]] Hlp Hwf; rewrite Hb; [done|].
  destruct (lps_keyed _ Hwf _ _ Hlp) as [_ ?]. by apply set_lp_wf, (lps_units _ Hwf _ _ Hlp).
Qed.
Lemma touched_units_ok lp w w' :
  touched lp w w' → (clp_of w).(cs_LPs) !! lp_key lp = Some lp →
  units_ok (clp_of w) → units_ok (clp_of w').
Proof.
  intros [_ [Hb|[us Hb]]] Hlp Hu; rewrite Hb; [done|].
  destruct (lps_keyed _ (proj1 Hu) _ _ Hlp) as [_ ?].
  apply units_ok_set_lp; [done..|]. unfold held_units, lp_key in *. simpl. by rewrite Hlp.
Qed.
Lemma touched_trans lp lp' w w1 w2 :
  touched lp w w1 → touched lp' w1 w2 → lp' = lp <| Unlocks := lp'.(Unlocks) |> → touched lp w w2.
Proof.
  intros [S1 B1] [S2 B2] E. split; [by eapply still_trans|]. rewrite E in B2. simpl in B2.
  destruct B2 as [B2|[us2 B2]].
  - destruct B1 as [B1|[us1 B1]]; [left; by rewrite B2|].
    right. exists us1. by rewrite B2.
  - right. exists us2. rewrite B2. destruct B1 as [->|[us1 ->]]; [done|].
    apply same_books_split. unfold set_lp. simpl. by rewrite insert_insert_eq.
Qed.
Lemma touched_events lp w w1 (l : EventLog) : touched lp w w1 → touched lp w (put_store l w1).
Proof.
  intros [Hst Hb]. split; [by eapply still_trans; [|apply still_put_events]|].
  by rewrite clp_put_events.
Qed.
End touched.

(** ** Arithmetic of the handlers *)
Section arithmetic.
Context {sdk : Sdk} {HL : SdkLaws sdk}.

Lemma symmetric_units_total X x P nu lu :
  CalculatePoolUnitsSymmetric X x P = Ok (nu, lu) → nu = P + lu.
Proof. unfold CalculatePoolUnitsSymmetric. intros H. inv_sdk. done. Qed.

Lemma symmetry_state_not_empty X x Y y :
  X ≠ 0 → Y ≠ 0 → GetLiquidityAddSymmetryState X x Y y ≠ Ok ErrorEmptyPool.
Proof.
  intros HX HY. unfold GetLiquidityAddSymmetryState.
  rewrite (proj2 (Z.eqb_neq X 0)), (proj2 (Z.eqb_neq Y 0)) by done. simpl.
  intros H. by inv_ok_if.
Qed.

Lemma CalculatePoolUnits_total P R A r a f1 f2 p nu lu st sw :
  R ≠ 0 → A ≠ 0 → CalculatePoolUnits P R A r a f1 f2 p = Ok (nu, lu, st, sw) → nu = P + lu.
Proof.
  intros HR HA. unfold CalculatePoolUnits. intros H.
  do 3 apply rbind_ok in H as (? & _ & H). apply rbind_ok in H as (s & Es & H).
  destruct s; inv_ok; try (by eapply symmetric_units_total); [|lia].
  by apply symmetry_state_not_empty in Es.
Qed.

Lemma CalculatePoolUnits_first r a f1 f2 p nu lu st sw :
  CalculatePoolUnits 0 0 0 r a f1 f2 p = Ok (nu, lu, st, sw) → nu = r ∧ lu = r ∧ r ≠ 0 ∧ a ≠ 0.
Proof.
  unfold CalculatePoolUnits, GetLiquidityAddSymmetryState. simpl. intros H. inv_ok_if.
  apply orb_false_elim in Heqb as [?%Z.eqb_neq ?%Z.eqb_neq]. done.
Qed.

Lemma CalcSwapResult_nonneg (toFury : bool) X x Y p f y fee :
  CalcSwapResult toFury X x Y p f = Ok (y, fee) → 0 <= y.
Proof. unfold CalcSwapResult. intros H. inv_ok_if; inv_sdk; lia. Qed.

Lemma swapped_pool_ok p (toFury : bool) sent y :
  pool_ok p → 0 <= sent →
  0 <= y < (if toFury then p.(NativeAssetBalance) else p.(ExternalAssetBalance)) →
  pool_ok (swapped_pool p toFury sent y).
Proof. intros [] Hs Hy. unfold swapped_pool. destruct toFury; split; simpl; lia. Qed.

(** A swap bounds what it takes from the pool and keeps the pool's asset and units. *)
Lemma SwapOne_effect from sent to p pmtp fee y lf impact p' :
  SwapOne from sent to p pmtp fee = Ok (y, lf, impact, p') →
  p' = swapped_pool p (IsSettlementAsset to) sent y ∧ 0 <= y ∧
  (pool_ok p → 0 <= sent → pool_ok p').
Proof.
  intros (Hc%CalcSwapResult_nonneg & Hy & ->)%SwapOne_ok. split; [done|]. split; [done|].
  intros Hp Hs. apply swapped_pool_ok; [done..|]. lia.
Qed.
End arithmetic.

(** ** The handlers *)
Section handlers.
Context {W : Type} {sdk : Sdk} {HL : SdkLaws sdk} {coins : CoinLib} {bank : BankKeeper W}
  {paginator : Paginator} {registry : TokenRegistryKeeper W} {admin : AdminKeeper W}
  {margin : MarginKeeper W} {mint : MintKeeper W} {errs : SdkErrors}
  {clp : HasStore ClpStore W} {events : HasStore EventLog W} {CW : ClpWorld W}.
Implicit Types w : W.
Notation clp_of w := (store (S := ClpStore) w).

Lemma CreatePool_effect msg w u w' :
  CreatePool_handler msg w = (Ok u, w') →
  let symbol := msg.(cp_ExternalAsset).(Symbol) in
  let n := msg.(cp_NativeAssetAmount) in
  let e := msg.(cp_ExternalAssetAmount) in
  ∃ addr,
    AccAddressFromBech32 msg.(cp_Signer) = Ok addr ∧
    (clp_of w).(cs_Pools) !! pool_key symbol = None ∧ 0 < n ∧ 0 < e ∧
    moved addr GetCLPModuleAddress (pair_amount symbol e n) w w' ∧
    same_books (clp_of w')
      (set_lp (NewLiquidityProvider msg.(cp_ExternalAsset) n addr)
         (set_pool (NewPool msg.(cp_ExternalAsset) n e n) (clp_of w))).
Proof.
  unfold CreatePool_handler. intros H. cbv zeta. inv_clp.
  match goal with Hc : CalculatePoolUnits _ _ _ _ _ _ _ _ = Ok _ |- _ =>
    apply CalculatePoolUnits_first in Hc as (-> & -> & Hn & He) end.
  match goal with Hc : CreatePool _ _ _ = (Ok _, _) |- _ =>
    apply CreatePool_ok in Hc as (addr & Ea & V & ? & ? & -> & S & B) end.
  match goal with Hl : CreateLiquidityProvider _ _ _ _ = (Ok _, _) |- _ =>
    apply CreateLiquidityProvider_ok in Hl as (-> & Hst & Hlp) end.
  exists addr. split; [done|]. split.
  { match goal with Hx : false = bool_decide _ |- _ =>
      symmetry in Hx; apply bool_decide_eq_false in Hx; by apply eq_None_not_Some end. }
  split; [lia|]. split; [lia|]. world_simpl. split.
  - eapply moved_still_r; [done|]. eapply still_trans; [done|apply still_put_events].
  - rewrite (Hlp V), S. replace a4 with addr by congruence. done.
Qed.

Definition queue_off (s : ClpStore) : Prop := s.(cs_Params).(EnableRemovalQueue) = false.
(** Nothing is removed by the queue: it is switched off or holds no request. *)
Definition queue_idle (s : ClpStore) : Prop := queue_off s ∨ s.(cs_RemovalRequests) = ∅.
Lemma ProcessRemovalQueue_idle msg units w u w' :
  ProcessRemovalQueue msg units w = (Ok u, w') → (clp_of w).(cs_RemovalRequests) = ∅ → w' = w.
Proof. unfold ProcessRemovalQueue. intros H E. inv_clp. rewrite E in H. by injection H. Qed.
Lemma queue_idle_run msg symbol units (enabled queueing : bool) w u w' :
  (if negb enabled || negb queueing then mret tt
   else queue ← GetRemovalQueue symbol;
        if queue.(rq_Count) >? 0 then ProcessRemovalQueue msg units else mret tt) w = (Ok u, w') →
  queueing = (clp_of w).(cs_Params).(EnableRemovalQueue) → queue_idle (clp_of w) → w' = w.
Proof.
  intros H E [Hq|Hq].
  - unfold queue_off in Hq. rewrite E, Hq, orb_true_r in H. by injection H.
  - destruct (negb enabled || negb queueing); [by injection H|]. unfold GetRemovalQueue in H. inv_clp.
    case_match; [by eapply ProcessRemovalQueue_idle|by injection H].
Qed.

Lemma AddLiquidity_effect msg w u w' :
  AddLiquidity_handler msg w = (Ok u, w') → queue_idle (clp_of w) →
  let symbol := msg.(al_ExternalAsset).(Symbol) in
  let n := msg.(al_NativeAssetAmount) in
  let e := msg.(al_ExternalAssetAmount) in
  ∃ addr pool newUnits lpUnits s,
    AccAddressFromBech32 msg.(al_Signer) = Ok addr ∧
    (clp_of w).(cs_Pools) !! pool_key symbol = Some pool ∧
    (pool_ok pool → newUnits = pool.(PoolUnits) + lpUnits) ∧
    Asset_Validate pool.(ExternalAsset) = Ok true ∧ 0 <= n ∧ 0 <= e ∧
    same_books s (clp_of w) ∧
    let lp := provider_after_add s msg addr lpUnits in
    0 <= lp.(LiquidityProviderUnits) ∧
    moved addr GetCLPModuleAddress (pair_amount symbol e n) w w' ∧
    (Asset_Validate lp.(LPAsset) = Ok true →
     same_books (clp_of w') (set_lp lp (set_pool (added_pool pool newUnits n e) s))).
Proof.
  unfold AddLiquidity_handler. intros H Hq. cbv zeta. inv_clp.
  match goal with Hc : add_liquidity_swap_checks _ _ _ _ _ _ _ _ _ ?w = (Ok _, ?w') |- _ =>
    eapply quiet_ok in Hc as [Hb Hst]; [|apply quiet_add_liquidity_swap_checks] end.
  match goal with Ha : AddLiquidity _ _ _ _ ?w1 = (Ok _, ?w2) |- _ =>
    pose proof (preserves_ok _ _ _ _ _ (view_AddLiquidity cs_Params _ _ _ _) Ha) as Hpar;
    pose proof (preserves_ok _ _ _ _ _ (view_AddLiquidity cs_RemovalRequests _ _ _ _) Ha) as Hreq;
    apply AddLiquidity_ok in Ha as (addr & Ea & V & Hn & He & -> & Hu & Hm & Hset) end.
  unfold view in Hpar, Hreq. unfold IsRemovalQueueEnabled in E12. inv_clp. world_simpl.
  apply queue_idle_run in H as ->; world_simpl; [|done|].
  2: { apply same_books_split in Hb as (_ & _ & Hb1 & Hb2). unfold queue_idle, queue_off in *.
       by rewrite Hpar, Hreq, Hb1, Hb2. }
  exists addr, a3, z1, z2, (clp_of w0). repeat (split; [done|]). split.
  { intros []. inv_sdk. eapply CalculatePoolUnits_total; [| |done]; lia. }
  repeat (split; [done|]). split.
  - eapply moved_still_r; [|apply still_put_events]. by eapply moved_still_l.
  - intros V2. world_simpl. by rewrite (Hset V2).
Qed.

(** What a successful add leaves in the queue. *)
Lemma AddLiquidity_requests msg w u w' :
  AddLiquidity_handler msg w = (Ok u, w') → queue_idle (clp_of w) →
  (clp_of w').(cs_RemovalRequests) = (clp_of w).(cs_RemovalRequests).
Proof.
  unfold AddLiquidity_handler. intros H Hq. inv_clp.
  match goal with Hc : add_liquidity_swap_checks _ _ _ _ _ _ _ _ _ ?w = (Ok _, ?w') |- _ =>
    eapply quiet_ok in Hc as [Hb Hst]; [|apply quiet_add_liquidity_swap_checks] end.
  match goal with Ha : AddLiquidity _ _ _ _ ?w1 = (Ok _, ?w2) |- _ =>
    pose proof (preserves_ok _ _ _ _ _ (view_AddLiquidity cs_Params _ _ _ _) Ha) as Hpar;
    pose proof (preserves_ok _ _ _ _ _ (view_AddLiquidity cs_RemovalRequests _ _ _ _) Ha) as Hreq end.
  apply same_books_split in Hb as (_ & _ & Hb1 & Hb2).
  unfold view in Hpar, Hreq. unfold IsRemovalQueueEnabled in E12. inv_clp. world_simpl.
  apply queue_idle_run in H as ->; world_simpl; [congruence|done|].
  unfold queue_idle, queue_off in *. by rewrite Hpar, Hreq, Hb1, Hb2.
Qed.

Lemma guard_pool_health_ok ctx e p n x r f q w u w' :
  guard_pool_health ctx e p n x r f q w = (Ok u, w') → w' = w.
Proof.
  unfold guard_pool_health. intros H. inv_ok_if; try done. all: inv_clp; done.
Qed.
Lemma prune_for_message_ok ctx lp w lp' w' :
  prune_for_message ctx lp w = (Ok lp', w') → (∃ us, lp' = lp <| Unlocks := us |>) ∧ touched lp w w'.
Proof. unfold prune_for_message. intros H. inv_clp. by eapply PruneUnlockRecords_ok. Qed.

Definition withdrawn_pool (pool : Pool) (units n e : Z) : Pool :=
  pool <| PoolUnits := units |>
       <| NativeAssetBalance := pool.(NativeAssetBalance) - n |>
       <| ExternalAssetBalance := pool.(ExternalAssetBalance) - e |>.

(** A removal of either kind: bookkeeping of the unlocks, then [n] fury and [e] of the external
    asset go to the provider, who keeps [left] units. *)
Definition removal (asset : Asset) (signer : string) (w w' : W) : Prop :=
  ∃ lp pool us w1 addr left n e,
    (clp_of w).(cs_LPs) !! GetLiquidityProviderKey asset.(Symbol) signer = Some lp ∧
    (clp_of w).(cs_Pools) !! pool_key asset.(Symbol) = Some pool ∧
    touched lp w w1 ∧ AccAddressFromBech32 lp.(LiquidityProviderAddress) = Ok addr ∧
    Asset_Validate pool.(ExternalAsset) = Ok true ∧
    0 <= left ∧ 0 <= n <= pool.(NativeAssetBalance) ∧ 0 <= e <= pool.(ExternalAssetBalance) ∧
    n < pool.(NativeAssetBalance) + pool.(NativeLiabilities) ∧
    e < pool.(ExternalAssetBalance) + pool.(ExternalLiabilities) ∧
    moved GetCLPModuleAddress addr (pair_amount asset.(Symbol) e n) w1 w' ∧
    (Asset_Validate lp.(LPAsset) = Ok true →
     same_books (clp_of w')
       (removed (lp <| Unlocks := us |>) left
          (withdrawn_pool pool (pool.(PoolUnits) - lp.(LiquidityProviderUnits) + left) n e)
          (clp_of w1))).

Lemma units_left_nonneg P N E U (x : Z) n e l :
  CalculateWithdrawalFromUnits P N E U x = Ok (n, e, l) → 0 <= l.
Proof. unfold CalculateWithdrawalFromUnits. intros H. inv_sdk. lia. Qed.
Lemma points_left_nonneg P N E U (x : string) a n e l s :
  CalculateWithdrawal P N E U x a = Ok (n, e, l, s) → 0 <= l.
Proof.
  unfold CalculateWithdrawal. intros H.
  repeat match goal with H : (_ ≫= _) = Ok (_, _, _, _) |- _ => apply rbind_ok in H as (? & ? & H) end.
  inv_sdk. lia.
Qed.

Lemma removal_intro asset signer lp pool us w w1 N E rest units nb eb n e left u w2 w' :
  (clp_of w).(cs_LPs) !! GetLiquidityProviderKey asset.(Symbol) signer = Some lp →
  (clp_of w).(cs_Pools) !! pool_key asset.(Symbol) = Some pool →
  touched lp w w1 → 0 <= left → 0 <= n → 0 <= e →
  UintAdd pool.(NativeAssetBalance) pool.(NativeLiabilities) = Ok N →
  UintAdd pool.(ExternalAssetBalance) pool.(ExternalLiabilities) = Ok E →
  UintSub pool.(PoolUnits) lp.(LiquidityProviderUnits) = Ok rest → UintAdd rest left = Ok units →
  UintSub pool.(NativeAssetBalance) n = Ok nb → UintSub pool.(ExternalAssetBalance) e = Ok eb →
  RemoveLiquidity
    (pool <| PoolUnits := units |> <| NativeAssetBalance := nb |> <| ExternalAssetBalance := eb |>)
    (mkCoin asset.(Symbol) e) (mkCoin NativeSymbol n) (lp <| Unlocks := us |>) left E N w1
  = (Ok u, w2) →
  clp_of w' = clp_of w2 → still w2 w' → removal asset signer w w'.
Proof.
  intros Hlp Hp T Hl Hn He HN HE H1 H2 H3 H4 HR Hc Hst.
  apply RemoveLiquidity_ok in HR as (addr & Ea & V & Le & Ln & Hm & Hset); [|done..].
  inv_sdk. exists lp, pool, us, w1, addr, left, n, e. repeat (split; [done || lia|]). split.
  - by eapply moved_still_r.
  - intros V2. rewrite Hc, (Hset V2). done.
Qed.

(** The provider after pruning and using its unlocks. *)
Ltac inv_unlocks :=
  repeat match goal with
  | Hp : prune_for_message _ _ _ = (Ok _, _) |- _ =>
      let T1 := fresh "T1" in let us := fresh "us" in
      apply prune_for_message_ok in Hp as [[us ->] T1]
  | Hu : UseUnlockedLiquidity _ _ _ _ _ = (Ok _, _) |- _ =>
      let T2 := fresh "T2" in apply UseUnlockedLiquidity_ok in Hu as T2; clear Hu
  | Hg : guard_pool_health _ _ _ _ _ _ _ _ _ = (Ok _, _) |- _ =>
      apply guard_pool_health_ok in Hg as ->
  end.

Lemma RemoveLiquidityUnits_effect ctx msg w u w' :
  RemoveLiquidityUnits ctx msg w = (Ok u, w') → removal msg.(rlu_ExternalAsset) msg.(rlu_Signer) w w'.
Proof.
  unfold RemoveLiquidityUnits. intros H. inv_exec. inv_unlocks. inv_exec.
  match goal with HR : RemoveLiquidity _ _ _ _ _ _ _ _ = (Ok _, _) |- _ =>
    refine (removal_intro _ _ _ _ _ _ _ _ _ _ _ _ _ _ _ _ _ _ _
              _ _ _ _ _ _ _ _ _ _ _ _ HR _ _); try eassumption end.
  - by eapply touched_trans; [done|done|].
  - by eapply units_left_nonneg.
  - by world_simpl.
  - apply still_put_events.
Qed.

Lemma RemoveLiquidity_effect ctx msg w u w' :
  RemoveLiquidity_handler ctx msg w = (Ok u, w') → removal msg.(rl_ExternalAsset) msg.(rl_Signer) w w'.
Proof.
  unfold RemoveLiquidity_handler, withdraw_and_remove. intros H. inv_exec. inv_unlocks.
  match goal with Ha : negb (rl_Asymmetry _ =? 0) = false |- _ =>
    apply negb_false_iff, Z.eqb_eq in Ha; rewrite Ha in * end.
  simpl in *. inv_exec.
  match goal with HR : RemoveLiquidity _ _ _ _ _ _ _ _ = (Ok _, _) |- _ =>
    refine (removal_intro _ _ _ _ _ _ _ _ _ _ _ _ _ _ _ _ _ _ _
              _ _ _ _ _ _ _ _ _ _ _ _ HR _ _); try eassumption end.
  - by eapply touched_trans; [done|done|].
  - by eapply points_left_nonneg.
  - by world_simpl.
  - apply still_put_events.
Qed.
(** A removal that succeeds was not queued. *)
Lemma RemoveLiquidityUnits_requests ctx msg w u w' : RemoveLiquidityUnits ctx msg w = (Ok u, w') →
  (clp_of w').(cs_RemovalRequests) = (clp_of w).(cs_RemovalRequests).
Proof.
  unfold RemoveLiquidityUnits. intros H. inv_exec. inv_unlocks. inv_exec.
  match goal with HR : RemoveLiquidity _ _ _ _ _ _ _ ?w1 = (Ok _, _) |- _ =>
    pose proof (preserves_ok _ _ _ _ _ (view_RemoveLiquidity cs_RemovalRequests _ _ _ _ _ _ _) HR) as Hreq end.
  unfold view in Hreq. world_simpl. rewrite Hreq, (touched_requests _ _ _ T2). by apply touched_requests in T1.
Qed.
Lemma RemoveLiquidity_requests ctx msg w u w' : RemoveLiquidity_handler ctx msg w = (Ok u, w') →
  (clp_of w').(cs_RemovalRequests) = (clp_of w).(cs_RemovalRequests).
Proof.
  unfold RemoveLiquidity_handler. intros H. inv_exec. inv_unlocks. inv_exec.
  match goal with HR : withdraw_and_remove _ _ _ _ _ _ _ _ _ _ _ _ _ _ = (Ok _, _) |- _ =>
    pose proof (preserves_ok _ _ _ _ _ (view_withdraw cs_RemovalRequests _ _ _ _ _ _ _ _ _ _ _ _ _) HR) as Hreq end.
  unfold view in Hreq. world_simpl. rewrite Hreq, (touched_requests _ _ _ T2). by apply touched_requests in T1.
Qed.
(** What is computed is paid. *)
Lemma leaving_pays ctx msg w u w' : RemoveLiquidity_handler ctx msg w = (Ok u, w') →
  ∃ lp pool nd ed addr n e left sa,
    (clp_of w).(cs_LPs) !! GetLiquidityProviderKey msg.(rl_ExternalAsset).(Symbol) msg.(rl_Signer) = Some lp ∧
    (clp_of w).(cs_Pools) !! pool_key msg.(rl_ExternalAsset).(Symbol) = Some pool ∧
    UintAdd pool.(NativeAssetBalance) pool.(NativeLiabilities) = Ok nd ∧
    UintAdd pool.(ExternalAssetBalance) pool.(ExternalLiabilities) = Ok ed ∧
    CalculateWithdrawal pool.(PoolUnits) (UintString nd) (UintString ed)
      (UintString lp.(LiquidityProviderUnits)) (IntString msg.(rl_WBasisPoints)) 0 = Ok (n, e, left, sa) ∧
    AccAddressFromBech32 lp.(LiquidityProviderAddress) = Ok addr ∧
    moved GetCLPModuleAddress addr (pair_amount msg.(rl_ExternalAsset).(Symbol) e n) w w'.
Proof.
  unfold RemoveLiquidity_handler, withdraw_and_remove. intros H. inv_exec. inv_unlocks.
  match goal with Ha : negb (rl_Asymmetry _ =? 0) = false |- _ =>
    apply negb_false_iff, Z.eqb_eq in Ha; rewrite Ha in * end.
  simpl in *. inv_exec.
  match goal with HR : RemoveLiquidity _ _ _ _ _ _ _ _ = (Ok _, _) |- _ =>
    apply RemoveLiquidity_ok in HR as (addr & Ea & _ & _ & _ & Hm & _); [|done..] end.
  do 9 eexists. do 6 (split; [done|]). eapply moved_still_r; [|apply still_put_events].
  eapply moved_still_l; [|exact Hm]. by eapply still_trans; [apply T1|apply T2].
Qed.
(** The pools a swap goes through: one, or two with fury in between. *)
Definition single (symbol : string) (x : Z) (d : string) : Z := if String.eqb symbol d then x else 0.
Definition one_hop (msg : MsgSwap) (s s' : ClpStore) (y : Z) : Prop :=
  let toFury := IsSettlementAsset msg.(sw_ReceivedAsset) in
  ∃ p, s.(cs_Pools) !! pool_key (if toFury then msg.(sw_SentAsset) else msg.(sw_ReceivedAsset)).(Symbol)
    = Some p ∧ (toFury = false → msg.(sw_SentAsset) = GetSettlementAsset) ∧
  let p' := swapped_pool p toFury msg.(sw_SentAmount) y in
  (pool_ok p → pool_ok p') ∧ same_books s' (set_pool p' s).
Definition two_hops (msg : MsgSwap) (s s' : ClpStore) (y : Z) : Prop :=
  msg.(sw_SentAsset) ≠ GetSettlementAsset ∧ msg.(sw_ReceivedAsset) ≠ GetSettlementAsset ∧
  ∃ p1 p2 y1, s.(cs_Pools) !! pool_key msg.(sw_SentAsset).(Symbol) = Some p1 ∧
  let p1' := swapped_pool p1 true msg.(sw_SentAmount) y1 in
  (set_pool p1' s).(cs_Pools) !! pool_key msg.(sw_ReceivedAsset).(Symbol) = Some p2 ∧
  let p2' := swapped_pool p2 false y1 y in
  (pool_ok p1 → pool_ok p1') ∧ (pool_ok p2 → pool_ok p2') ∧
  same_books s' (set_pool p2' (set_pool p1' s)).

Lemma Swap_effect msg w u w' :
  Swap msg w = (Ok u, w') →
  ∃ addr w1 w2 y,
    AccAddressFromBech32 msg.(sw_Signer) = Ok addr ∧ 0 <= msg.(sw_SentAmount) ∧ 0 <= y ∧
    msg.(sw_MinReceivingAmount) <= y ∧
    moved addr GetCLPModuleAddress (single msg.(sw_SentAsset).(Symbol) msg.(sw_SentAmount)) w w1 ∧
    still w1 w2 ∧
    moved GetCLPModuleAddress addr (single msg.(sw_ReceivedAsset).(Symbol) y) w2 w' ∧
    (one_hop msg (clp_of w) (clp_of w') y ∨ two_hops msg (clp_of w) (clp_of w') y).
Proof.
  unfold Swap. intros H. inv_exec.
  match goal with Hf : (if ?y <? _ then _ else _) _ = (Ok _, _) |- _ =>
    destruct (Z.ltb_spec y msg.(sw_MinReceivingAmount)) as [Hlt|Hmin]; [by inv_exec|] end.
  eapply quiet_ok in H as [Hb Hst]; [|intros x d; solve_frame]. inv_exec.
  match goal with Hi : InitiateSwap _ _ _ = (Ok _, _) |- _ => apply InitiateSwap_ok in Hi as [S1 B1] end.
  match goal with Hf : FinalizeSwap _ _ _ _ = (Ok _, _) |- _ =>
    apply FinalizeSwap_ok in Hf as (addr & Ea & Hy & V & S2 & B2) end.
  match goal with Hs : SwapOne _ _ msg.(sw_ReceivedAsset) _ _ _ = Ok _ |- _ =>
    apply SwapOne_effect in Hs as (-> & _ & Hok) end.
  world_simpl. rewrite Asset_Equals_spec in *. unfold IsSettlementAsset in *.
  replace a11 with addr in * by congruence.
  assert (∀ w1, moved GetCLPModuleAddress addr (single msg.(sw_ReceivedAsset).(Symbol) z3) w1 w2 →
    moved GetCLPModuleAddress addr (single msg.(sw_ReceivedAsset).(Symbol) z3) w1 w') as Hend.
  { intros ? Hm. eapply moved_still_r; [done|]. by eapply still_trans; [apply still_put_events|]. }
  exists addr, w14, w1, z3. do 5 (split; [done|]).
  assert (still w14 w1 ∧ (one_hop msg (clp_of w) (clp_of w') z3 ∨ two_hops msg (clp_of w) (clp_of w') z3))
    as [? Hroute]; [|split; [done|]; split; [by apply Hend|done]].
  destruct (bool_decide_reflect (msg.(sw_SentAsset) = GetSettlementAsset)) as [Hs|Hs]; simpl in *; inv_exec.
  - split; [apply still_refl|]. left. exists a15. unfold IsSettlementAsset. rewrite <- S1.
    destruct (bool_decide_reflect (msg.(sw_ReceivedAsset) = GetSettlementAsset)); inv_exec;
      (split; [done|]); (split; [done|]); (split; [intros Hp; by apply Hok|]); by rewrite Hb, S2.
  - destruct (bool_decide_reflect (msg.(sw_ReceivedAsset) = GetSettlementAsset)) as [Hr|Hr]; simpl in *;
      inv_exec.
    + split; [apply still_refl|]. left. exists a15. unfold IsSettlementAsset. rewrite <- S1.
      rewrite bool_decide_eq_true_2 in * by done. (split; [done|]); (split; [done|]).
      split; [intros Hp; by apply Hok|]. by rewrite Hb, S2.
    + match goal with H1 : SwapOne _ _ _ _ _ _ = Ok _ |- _ =>
        apply SwapOne_effect in H1 as (-> & Hy1 & Hok1) end.
      split; [apply still_put_clp|]. right. split; [done|]. split; [done|]. world_simpl.
      rewrite S1 in *. do 3 eexists. do 2 (split; [done|]). cbv zeta.
      split; [intros ?; by apply Hok1|]. split; [intros ?; by apply Hok|]. by rewrite Hb, S2.
Qed.
(** Requests on unlocks rewrite the record of the signer's provider. *)
Lemma CancelUnlock_effect ctx msg w u w' :
  CancelUnlockLiquidity ctx msg w = (Ok u, w') →
  ∃ lp, (clp_of w).(cs_LPs) !! GetLiquidityProviderKey msg.(cu_ExternalAsset).(Symbol) msg.(cu_Signer)
    = Some lp ∧ touched lp w w'.
Proof.
  unfold CancelUnlockLiquidity. intros H. inv_exec. inv_unlocks. eexists. split; [done|].
  apply touched_events. by eapply touched_trans; [done|done|].
Qed.

Lemma UnlockLiquidity_effect ctx msg w u w' :
  UnlockLiquidity ctx msg w = (Ok u, w') →
  ∃ lp, (clp_of w).(cs_LPs) !! GetLiquidityProviderKey msg.(ul_ExternalAsset).(Symbol) msg.(ul_Signer)
    = Some lp ∧ touched lp w w'.
Proof.
  unfold UnlockLiquidity. intros H. inv_exec. inv_unlocks. inv_exec. eexists. split; [done|].
  apply touched_events. eapply touched_trans; [done| |].
  - eapply (SetLiquidityProvider_touched (_ <| Unlocks := us |>)); [reflexivity|apply still_refl|].
    match goal with Hs : SetLiquidityProvider _ _ = (Ok _, _) |- _ => exact Hs end.
  - done.
Qed.

(** Decommissioning pays every provider of the page and removes it; what is paid is covered by
    the pool's balances. *)
Definition without_lps (lps : list LiquidityProvider) (s : ClpStore) : ClpStore :=
  foldl (λ s lp, del_lp lp.(LPAsset).(Symbol) lp.(LiquidityProviderAddress) s) s lps.

Lemma without_lps_pools lps s : (without_lps lps s).(cs_Pools) = s.(cs_Pools).
Proof. unfold without_lps. revert s. induction lps as [|lp lps IH]; intros s; [done|]. simpl. by rewrite IH. Qed.

Lemma refund_loop symbol pool lps u n e w u' n' e' w' :
  foldM (refund_provider symbol pool) (u, n, e) lps w = (Ok (u', n', e'), w') →
  0 <= n → 0 <= e →
  0 <= n' <= n ∧ 0 <= e' <= e ∧ u' = u - sumZ LiquidityProviderUnits lps ∧
  clp_of w' = without_lps lps (clp_of w) ∧
  ∀ d, balance w GetCLPModuleAddress d - pair_amount symbol (e - e') (n - n') d
       <= balance w' GetCLPModuleAddress d.
Proof.
  revert u n e w. induction lps as [|lp lps IH]; intros u n e w H Hn He.
  - simpl in H. inv_ok. split; [lia|]. split; [lia|]. split; [simpl; lia|]. split; [done|].
    intros d. unfold pair_amount. repeat case_match; lia.
  - simpl in H. apply bind_ok in H as ([[u1 n1] e1] & w1 & E & H).
    unfold refund_provider in E. inv_exec.
    match goal with Hr : RemoveLiquidityProvider _ _ _ = (Ok _, _) |- _ =>
      apply RemoveLiquidityProvider_ok in Hr as (addr & _ & S & B) end.
    inv_sdk. apply IH in H as (Hn' & He' & -> & S' & B'); [|lia..].
    split; [lia|]. split; [lia|]. split; [simpl; lia|]. split; [by rewrite S', S|].
    intros d. specialize (B' d). specialize (B GetCLPModuleAddress d).
    erewrite new_coins_amount in B by done. rewrite AmountOf_pair in B.
    rewrite String.eqb_refl in B. unfold pair_amount in *.
    destruct (String.eqb symbol d), (String.eqb NativeSymbol d), (String.eqb GetCLPModuleAddress addr);
      lia.
Qed.

Lemma DecommissionPool_effect msg w u w' :
  DecommissionPool_handler msg w = (Ok u, w') →
  ∃ pool lps n e,
    (clp_of w).(cs_Pools) !! pool_key msg.(dp_Symbol) = Some pool ∧
    FilteredPaginate (kv_iter (clp_of w).(cs_LPs)) MaxUint64
      (λ lp, Asset_Equals lp.(LPAsset) pool.(ExternalAsset)) = Ok lps ∧
    (0 <= pool.(NativeAssetBalance) → 0 <= pool.(ExternalAssetBalance) →
     same_books (clp_of w') (del_pool pool.(ExternalAsset).(Symbol) (without_lps lps (clp_of w))) ∧
     0 <= n <= pool.(NativeAssetBalance) ∧ 0 <= e <= pool.(ExternalAssetBalance) ∧
     ∀ d, balance w GetCLPModuleAddress d - pair_amount msg.(dp_Symbol) e n d
          <= balance w' GetCLPModuleAddress d).
Proof.
  unfold DecommissionPool_handler, DecommissionPool, GetLiquidityProvidersForAssetPaginated.
  intros H. inv_clp.
  match goal with Hf : foldM _ (_, ?n, ?e) _ _ = (Ok ?acc, _) |- _ => destruct acc as [[u' n'] e'];
    eexists _, _, (n - n'), (e - e') end.
  match goal with Hd : DestroyPool _ _ = (Ok _, _) |- _ => apply DestroyPool_ok in Hd as [_ ->] end.
  split; [done|]. split; [done|]. intros Hn He.
  match goal with Hf : foldM _ _ _ _ = (Ok _, _) |- _ =>
    apply refund_loop in Hf as (? & ? & _ & S & B); [|done..] end.
  world_simpl. rewrite S. split; [done|]. split; [lia|]. split; [lia|]. intros d. world_simpl. apply B.
Qed.
End handlers.
