(* ===== verification/MarginExec.v ===== *)
(** * MarginExec: what the keeper of x/margin does to the stores and to the balances

    One lemma per function of Margin.v that changes something: from a successful run to the
    writes it made, the change of the pool variable and the coins it moved. *)

From S2P Require Import Prelude Sdk Rat Float Bank Keepers ClpTypes ClpMath ClpKeeper.
From S2P Require Import ClpLiquidity ClpStoreSpec ClpUnits ClpExec ClpEffects MarginTypes Margin.
Local Open Scope Z_scope.

(** The stores of the two modules, the events and the bank are independent of each other. *)
Class MarginWorld (W : Type) `{coins : CoinLib} `{bank : BankKeeper W} `{clp : HasStore ClpStore W}
    `{events : HasStore EventLog W} `{margin : HasStore MarginStore W} : Prop := {
  mw_clp :: ClpWorld W;
  mw_margin :: StoreLaws MarginStore W margin;
  mw_clp_margin :: StoreIndep ClpStore MarginStore W clp margin;
  mw_margin_clp :: StoreIndep MarginStore ClpStore W margin clp;
  mw_margin_events :: StoreIndep MarginStore EventLog W margin events;
  mw_bank_margin :: BankFrame MarginStore W margin bank
}.

(** ** Runs in [Env] *)
Section env.
Context {W : Type}.
Implicit Types e : Env W.

Lemma on_world_ok {A} (m : M W A) e a e' :
  on_world m e = (Ok a, e') ↔
  ∃ w', m e.(e_world) = (Ok a, w') ∧ e' = mkEnv w' e.(e_mtp) e.(e_pool).
Proof.
  unfold on_world. destruct (m (e_world e)) as [r w']. split.
  - intros [= -> <-]. eauto.
  - intros (? & [= -> ->] & ->). done.
Qed.
Lemma the_mtp_ok e m e' : the_mtp e = (Ok m, e') ↔ m = e.(e_mtp) ∧ e' = e.
Proof. apply gets_ok. Qed.
Lemma the_pool_ok e p e' : the_pool e = (Ok p, e') ↔ p = e.(e_pool) ∧ e' = e.
Proof. apply gets_ok. Qed.
Lemma upd_mtp_ok f e a e' :
  upd_mtp f e = (Ok a, e') ↔ e' = mkEnv e.(e_world) (f e.(e_mtp)) e.(e_pool).
Proof. unfold upd_mtp. by rewrite modify_ok. Qed.
Lemma upd_pool_ok f e a e' :
  upd_pool f e = (Ok a, e') ↔ e' = mkEnv e.(e_world) e.(e_mtp) (f e.(e_pool)).
Proof. unfold upd_pool. by rewrite modify_ok. Qed.
Lemma with_vars_ok {A} mtp pool (m : M (Env W) A) w a mtp' pool' w' :
  with_vars mtp pool m w = (Ok (a, mtp', pool'), w') ↔
  m (mkEnv w mtp pool) = (Ok a, mkEnv w' mtp' pool').
Proof.
  unfold with_vars. destruct (m _) as [[b|x|] [w1 m1 p1]]; simpl; split; intros [=]; by subst.
Qed.

Lemma ro_on_world {A} (m : M W A) : readonly m → readonly (on_world m).
Proof.
  intros Hm [w mtp pool]. unfold on_world. simpl. specialize (Hm w).
  destruct (m w) as [r w']. simpl in *. by subst.
Qed.
Lemma ro_the_mtp : readonly (the_mtp (W := W)).
Proof. done. Qed.
Lemma ro_the_pool : readonly (the_pool (W := W)).
Proof. done. Qed.
End env.
#[export] Hint Resolve ro_on_world ro_the_mtp ro_the_pool : frame.

Ltac inv_env_step :=
  match goal with
  | H : the_mtp _ = (Ok _, _) |- _ => apply the_mtp_ok in H as [? ?]; subst
  | H : the_pool _ = (Ok _, _) |- _ => apply the_pool_ok in H as [? ?]; subst
  | H : upd_mtp _ _ = (Ok _, _) |- _ => apply upd_mtp_ok in H; subst
  | H : upd_pool _ _ = (Ok _, _) |- _ => apply upd_pool_ok in H; subst
  | H : on_world _ _ = (Ok _, _) |- _ =>
      let w := fresh "w" in let E := fresh "E" in apply on_world_ok in H as (w & H & E);
      simpl in H; subst
  end.
Ltac inv_vars := repeat (inv_ok; inv_env_step); inv_ok.
Ltac inv_env := repeat (inv_ok; first [inv_env_step | inv_clp_step | ro_step]); inv_ok.

(** ** Reads *)
Section reads.
Context {W : Type} {sdk : Sdk} {coins : CoinLib} {bank : BankKeeper W} {paginator : Paginator}
  {registry : TokenRegistryKeeper W} {clp : HasStore ClpStore W} {events : HasStore EventLog W}
  {margin : HasStore MarginStore W} {float : MarginFloat}.

Lemma ro_get_margin : readonly (get_margin (W := W)).
Proof. done. Qed.
#[local] Hint Resolve ro_get_margin : frame.
Lemma ro_GetParams : readonly (GetParams (W := W)).
Proof. unfold GetParams. solve_frame. Qed.
#[local] Hint Resolve ro_GetParams : frame.
Lemma ro_GetMaxLeverageParam : readonly (GetMaxLeverageParam (W := W)).
Proof. unfold GetMaxLeverageParam. solve_frame. Qed.
Lemma ro_GetInterestRateMax : readonly (GetInterestRateMax (W := W)).
Proof. unfold GetInterestRateMax. solve_frame. Qed.
Lemma ro_GetInterestRateMin : readonly (GetInterestRateMin (W := W)).
Proof. unfold GetInterestRateMin. solve_frame. Qed.
Lemma ro_GetInterestRateIncrease : readonly (GetInterestRateIncrease (W := W)).
Proof. unfold GetInterestRateIncrease. solve_frame. Qed.
Lemma ro_GetInterestRateDecrease : readonly (GetInterestRateDecrease (W := W)).
Proof. unfold GetInterestRateDecrease. solve_frame. Qed.
Lemma ro_GetHealthGainFactor : readonly (GetHealthGainFactor (W := W)).
Proof. unfold GetHealthGainFactor. solve_frame. Qed.
Lemma ro_GetEpochLength : readonly (GetEpochLength (W := W)).
Proof. unfold GetEpochLength. solve_frame. Qed.
Lemma ro_GetPoolOpenThreshold : readonly (GetPoolOpenThreshold (W := W)).
Proof. unfold GetPoolOpenThreshold. solve_frame. Qed.
Lemma ro_GetRemovalQueueThreshold : readonly (Margin.GetRemovalQueueThreshold (W := W)).
Proof. unfold Margin.GetRemovalQueueThreshold. solve_frame. Qed.
Lemma ro_GetForceCloseFundPercentage : readonly (GetForceCloseFundPercentage (W := W)).
Proof. unfold GetForceCloseFundPercentage. solve_frame. Qed.
Lemma ro_GetForceCloseFundAddress : readonly (GetForceCloseFundAddress (W := W)).
Proof. unfold GetForceCloseFundAddress. solve_frame. Qed.
Lemma ro_GetIncrementalInterestPaymentFundPercentage :
  readonly (GetIncrementalInterestPaymentFundPercentage (W := W)).
Proof. unfold GetIncrementalInterestPaymentFundPercentage. solve_frame. Qed.
Lemma ro_GetIncrementalInterestPaymentFundAddress :
  readonly (GetIncrementalInterestPaymentFundAddress (W := W)).
Proof. unfold GetIncrementalInterestPaymentFundAddress. solve_frame. Qed.
Lemma ro_GetMaxOpenPositions : readonly (GetMaxOpenPositions (W := W)).
Proof. unfold GetMaxOpenPositions. solve_frame. Qed.
Lemma ro_GetIncrementalInterestPaymentEnabled :
  readonly (GetIncrementalInterestPaymentEnabled (W := W)).
Proof. unfold GetIncrementalInterestPaymentEnabled. solve_frame. Qed.
Lemma ro_GetSafetyFactor : readonly (GetSafetyFactor (W := W)).
Proof. unfold GetSafetyFactor. solve_frame. Qed.
Lemma ro_GetEnabledPools : readonly (GetEnabledPools (W := W)).
Proof. unfold GetEnabledPools. solve_frame. Qed.
#[local] Hint Resolve ro_GetEnabledPools ro_GetInterestRateMax ro_GetInterestRateMin
  ro_GetInterestRateIncrease ro_GetInterestRateDecrease ro_GetHealthGainFactor : frame.
Lemma ro_IsPoolEnabled s : readonly (Margin.IsPoolEnabled (W := W) s).
Proof. unfold Margin.IsPoolEnabled. solve_frame. Qed.
Lemma ro_IsPoolClosed s : readonly (IsPoolClosed (W := W) s).
Proof. unfold IsPoolClosed. solve_frame. Qed.
Lemma ro_IsWhitelistingEnabled : readonly (IsWhitelistingEnabled (W := W)).
Proof. unfold IsWhitelistingEnabled. solve_frame. Qed.
Lemma ro_IsFuryCollateralEnabled : readonly (IsFuryCollateralEnabled (W := W)).
Proof. unfold IsFuryCollateralEnabled. solve_frame. Qed.
Lemma ro_IsWhitelisted a : readonly (IsWhitelisted (W := W) a).
Proof. unfold IsWhitelisted. solve_frame. Qed.
Lemma ro_GetMTPCount : readonly (GetMTPCount (W := W)).
Proof. unfold GetMTPCount. solve_frame. Qed.
Lemma ro_GetOpenMTPCount : readonly (GetOpenMTPCount (W := W)).
Proof. unfold GetOpenMTPCount. solve_frame. Qed.
Lemma ro_GetMTP a i : readonly (GetMTP (W := W) a i).
Proof. unfold GetMTP. solve_frame. Qed.
Lemma ro_GetMTPsForPool a : readonly (GetMTPsForPool (W := W) a).
Proof. unfold GetMTPsForPool. solve_frame. Qed.
Lemma ro_GetSQBeginBlock p : readonly (GetSQBeginBlock (W := W) p).
Proof. unfold GetSQBeginBlock. solve_frame. Qed.
#[local] Hint Resolve ro_IsPoolEnabled ro_GetSQBeginBlock : frame.
Lemma ro_CLPCalcSwap x a p b : readonly (CLPCalcSwap (W := W) x a p b).
Proof. unfold CLPCalcSwap. walk_frame. Qed.
#[local] Hint Resolve ro_CLPCalcSwap : frame.
Lemma ro_CLPSwap x s p : readonly (CLPSwap (W := W) x s p).
Proof. unfold CLPSwap. solve_frame. Qed.
#[local] Hint Resolve ro_CLPSwap : frame.
Lemma ro_UpdateMTPHealth m p : readonly (UpdateMTPHealth (W := W) m p).
Proof. unfold UpdateMTPHealth. solve_frame. Qed.
Lemma ro_GetSQFromBlocks ctx p r : readonly (GetSQFromBlocks (W := W) ctx p r).
Proof. unfold GetSQFromBlocks. solve_frame. Qed.
#[local] Hint Resolve ro_GetSQFromBlocks : frame.
Lemma ro_InterestRateComputation ctx p : readonly (InterestRateComputation (W := W) ctx p).
Proof. unfold InterestRateComputation. walk_frame. Qed.
Lemma ro_CheckMinLiabilities a b p s : readonly (CheckMinLiabilities (W := W) a b p s).
Proof. unfold CheckMinLiabilities. walk_frame. Qed.
End reads.

#[export] Hint Resolve ro_get_margin ro_GetParams ro_GetMaxLeverageParam ro_GetInterestRateMax
  ro_GetInterestRateMin ro_GetInterestRateIncrease ro_GetInterestRateDecrease
  ro_GetHealthGainFactor ro_GetEpochLength ro_GetPoolOpenThreshold ro_GetRemovalQueueThreshold
  ro_GetForceCloseFundPercentage ro_GetForceCloseFundAddress
  ro_GetIncrementalInterestPaymentFundPercentage ro_GetIncrementalInterestPaymentFundAddress
  ro_GetMaxOpenPositions ro_GetIncrementalInterestPaymentEnabled ro_GetSafetyFactor
  ro_GetEnabledPools ro_IsPoolEnabled ro_IsPoolClosed ro_IsWhitelistingEnabled
  ro_IsFuryCollateralEnabled ro_IsWhitelisted ro_GetMTPCount ro_GetOpenMTPCount ro_GetMTP
  ro_GetMTPsForPool ro_GetSQBeginBlock ro_CLPCalcSwap ro_CLPSwap ro_UpdateMTPHealth
  ro_GetSQFromBlocks ro_InterestRateComputation ro_CheckMinLiabilities : frame.

(** ** How a pool changes

    [pool_moved n b c l u p p']: on the native side ([n]) or the external one, the balance changed
    by [b], the custody by [c], the liabilities by [l] and the unsettled liabilities by [u]; the other side and the units did not. *)
Record pool_moved (n : bool) (b c l u : Z) (p p' : Pool) : Prop := {
  pm_asset : p'.(ExternalAsset) = p.(ExternalAsset);
  pm_units : p'.(PoolUnits) = p.(PoolUnits);
  pm_native : p'.(NativeAssetBalance) = p.(NativeAssetBalance) + (if n then b else 0);
  pm_native_custody : p'.(NativeCustody) = p.(NativeCustody) + (if n then c else 0);
  pm_native_debt : p'.(NativeLiabilities) = p.(NativeLiabilities) + (if n then l else 0);
  pm_external : p'.(ExternalAssetBalance) = p.(ExternalAssetBalance) + (if n then 0 else b);
  pm_external_custody : p'.(ExternalCustody) = p.(ExternalCustody) + (if n then 0 else c);
  pm_external_debt : p'.(ExternalLiabilities) = p.(ExternalLiabilities) + (if n then 0 else l);
  pm_native_unsettled : p'.(UnsettledNativeLiabilities)
    = p.(UnsettledNativeLiabilities) + (if n then u else 0);
  pm_external_unsettled : p'.(UnsettledExternalLiabilities)
    = p.(UnsettledExternalLiabilities) + (if n then 0 else u)
}.
Lemma pool_moved_refl n p : pool_moved n 0 0 0 0 p p.
Proof. split; destruct n; lia || done. Qed.
Lemma pool_moved_trans n b c l u b' c' l' u' p1 p2 p3 :
  pool_moved n b c l u p1 p2 → pool_moved n b' c' l' u' p2 p3 →
  pool_moved n (b + b') (c + c') (l + l') (u + u') p1 p3.
Proof. intros [] []. split; destruct n; lia || congruence. Qed.

(** [UintAdd]/[UintSub] of a field and an assignment of the result. *)
Ltac solve_moved := split; simpl; lia || done.

(** The side of the pool an asset is on. *)
Notation is_native s := (StringCompare s MarginTypes.GetSettlementAsset).
Definition collateral_native (m : MTP) : bool := is_native m.(CollateralAsset).
Definition custody_native (m : MTP) : bool := is_native m.(CustodyAsset).

(** The terms of a position do not change while it is open. *)
Definition same_terms (m m' : MTP) : Prop :=
  m'.(Address) = m.(Address) ∧ m'.(Id) = m.(Id) ∧ m'.(CollateralAsset) = m.(CollateralAsset) ∧
  m'.(CustodyAsset) = m.(CustodyAsset) ∧ m'.(MtpPosition) = m.(MtpPosition) ∧
  m'.(Liabilities) = m.(Liabilities).
Lemma same_terms_refl m : same_terms m m.
Proof. done. Qed.
Lemma same_terms_trans m1 m2 m3 : same_terms m1 m2 → same_terms m2 m3 → same_terms m1 m3.
Proof. intros (?&?&?&?&?&?) (?&?&?&?&?&?). repeat split; congruence. Qed.
Lemma MTP_Validate_terms m m' : same_terms m m' → MTP_Validate m' = MTP_Validate m.
Proof. intros (E1&E2&E3&E4&E5&E6). unfold MTP_Validate. by rewrite E1, E2, E3, E5. Qed.

Definition mtp_key (m : MTP) : string := GetMTPKey m.(Address) m.(Id).
Definition set_mtp (m : MTP) (s : MarginStore) : MarginStore :=
  s <| ms_MTPs ::= <[mtp_key m := m]> |>.
Definition del_mtp (key : string) (openCount : Z) (s : MarginStore) : MarginStore :=
  s <| ms_MTPs ::= delete key |> <| ms_OpenMTPCount := Some (GetUint64Bytes openCount) |>.
#[global] Arguments set_mtp : simpl never.
#[global] Arguments del_mtp : simpl never.

Section effects.
Context {W : Type} {sdk : Sdk} {HL : SdkLaws sdk} {coins : CoinLib} {bank : BankKeeper W}
  {paginator : Paginator} {registry : TokenRegistryKeeper W} {clp : HasStore ClpStore W}
  {events : HasStore EventLog W} {margin : HasStore MarginStore W} {MW : MarginWorld W}
  {float : MarginFloat}.
Implicit Types (w : W) (m : MTP) (p : Pool).
Notation clp_of w := (store (S := ClpStore) w).
Notation margin_of w := (store (S := MarginStore) w).

Lemma clp_put_margin (s : MarginStore) w : clp_of (put_store s w) = clp_of w.
Proof. apply store_put_other. Qed.
Lemma margin_put_margin (s : MarginStore) w : margin_of (put_store s w) = s.
Proof. apply store_put. Qed.
Lemma margin_put_clp (s : ClpStore) w : margin_of (put_store s w) = margin_of w.
Proof. apply store_put_other. Qed.
Lemma margin_put_events (s : EventLog) w : margin_of (put_store s w) = margin_of w.
Proof. apply store_put_other. Qed.
Lemma still_put_margin (s : MarginStore) w : still w (put_store s w).
Proof. intros a d. unfold balance. by rewrite frame_balance. Qed.

(** Only events were added. *)
Definition quietly w w' : Prop := clp_of w' = clp_of w ∧ margin_of w' = margin_of w ∧ still w w'.
Lemma quietly_refl w : quietly w w.
Proof. done. Qed.
Lemma quietly_trans w1 w2 w3 : quietly w1 w2 → quietly w2 w3 → quietly w1 w3.
Proof.
  intros (E1 & E2 & S1) (E3 & E4 & S2). split; [congruence|]. split; [congruence|].
  by eapply still_trans.
Qed.
Lemma EmitEvent_quietly e w u w' : EmitEvent e w = (Ok u, w') → quietly w w'.
Proof.
  intros ->%EmitEvent_ok. split; [apply clp_put_events|]. split; [apply margin_put_events|].
  apply still_put_events.
Qed.
Lemma when_event_quietly (c : bool) e w u w' :
  (if c then EmitEvent e else mret tt) w = (Ok u, w') → quietly w w'.
Proof. destruct c; [apply EmitEvent_quietly|]. intros [_ <-]%ret_ok. apply quietly_refl. Qed.

Lemma send_ma_margin md a cs w u w' :
  SendCoinsFromModuleToAccount md a cs w = (Ok u, w') → margin_of w' = margin_of w.
Proof. intros E. by eapply (preserves_ok (store (S := MarginStore))); [apply frame_send_ma|]. Qed.
Lemma send_am_margin md a cs w u w' :
  SendCoinsFromAccountToModule a md cs w = (Ok u, w') → margin_of w' = margin_of w.
Proof. intros E. by eapply (preserves_ok (store (S := MarginStore))); [apply frame_send_am|]. Qed.

End effects.

(** A run with payments: the views of the stores and the coins moved, step by step. *)
Ltac inv_pay_step :=
  match goal with
  | H : NewCoin _ _ = Ok _ |- _ => apply NewCoin_ok in H as [? ?]; subst
  | H : NewIntFromBigInt _ = Ok _ |- _ => apply int_new_inv in H; subst
  | H : (if _ then EmitEvent _ else mret tt) _ = (Ok _, _) |- _ =>
      let C := fresh "C" in let G := fresh "G" in let S := fresh "S" in
      apply when_event_quietly in H as (C & G & S)
  | H : SendCoinsFromAccountToModule _ _ _ _ = (Ok _, _) |- _ =>
      let G := fresh "G" in pose proof (send_am_margin _ _ _ _ _ _ H) as G;
      let S := fresh "C" in let B := fresh "B" in apply send_am_ok in H as [S B]
  | H : SendCoinsFromModuleToAccount _ _ _ _ = (Ok _, _) |- _ =>
      let G := fresh "G" in pose proof (send_ma_margin _ _ _ _ _ _ H) as G;
      let S := fresh "C" in let B := fresh "B" in apply send_ma_ok in H as [S B]
  end.
Ltac inv_pay := repeat (inv_env; inv_pay_step); inv_env.

(** Reads of the views of an updated world. *)
Ltac margin_simpl :=
  repeat first
    [ rewrite clp_put_clp in * | rewrite clp_put_events in * | rewrite clp_put_margin in *
    | rewrite margin_put_margin in * | rewrite margin_put_clp in * | rewrite margin_put_events in * ].

Section payments.
Context {W : Type} {sdk : Sdk} {HL : SdkLaws sdk} {coins : CoinLib} {bank : BankKeeper W}
  {paginator : Paginator} {registry : TokenRegistryKeeper W} {clp : HasStore ClpStore W}
  {events : HasStore EventLog W} {margin : HasStore MarginStore W} {MW : MarginWorld W}
  {float : MarginFloat}.
Implicit Types (w : W) (m : MTP) (p : Pool).
Notation clp_of w := (store (S := ClpStore) w).
Notation margin_of w := (store (S := MarginStore) w).

Lemma TakeFundPayment_ok x asset pct addr w t w' :
  TakeFundPayment x asset pct addr w = (Ok t, w') →
  0 <= t ∧ clp_of w' = clp_of w ∧ margin_of w' = margin_of w ∧
  moved GetCLPModuleAddress addr (single asset t) w w'.
Proof.
  unfold TakeFundPayment. intros H. inv_ok.
  match goal with U : NewUintFromBigInt _ = Ok _ |- _ => apply uint_new_ok in U as [-> R] end.
  split; [lia|].
  match goal with I : (if negb (?t =? 0) then _ else _) _ = _ |- _ =>
    destruct (Z.eqb_spec t 0); simpl in I end; inv_pay.
  - split; [done|]. split; [done|]. intros x0 d. unfold single. repeat case_match; lia.
  - split; [done|]. split; [done|]. eapply moved_ext; [|done].
    intros d. erewrite new_coins_amount by done. apply AmountOf_single.
Qed.

(** The fund takes its percentage, rounded towards zero. *)
Lemma take_rounded pct x take t :
  DecMul pct (NewDecFromBigInt x) = Ok take → DecTruncateInt take = Ok t → t = Z.quot (pct * x) dec_one.
Proof.
  intros E1%dec_mul_inv ->%dec_trunc_inv. f_equal. unfold NewDecFromBigInt, NewDec in E1.
  unfold dec_one in *. lia.
Qed.
Lemma TakeFundPayment_share x asset pct addr w t w' :
  TakeFundPayment x asset pct addr w = (Ok t, w') → t = Z.quot (pct * x) dec_one.
Proof.
  unfold TakeFundPayment. intros H. inv_ok.
  match goal with U : NewUintFromBigInt _ = Ok _ |- _ => apply uint_new_ok in U as [-> R] end.
  by eapply take_rounded.
Qed.

(** The surplus of a position goes to the fund and to its owner. *)
Definition shared_out (c : string) (owner fund : AccAddress) (x t : Z) w w' : Prop :=
  ∀ a d, balance w' a d = balance w a d
    - (if String.eqb a GetCLPModuleAddress then single c x d else 0)
    + (if String.eqb a owner then single c (x - t) d else 0)
    + (if String.eqb a fund then single c t d else 0).

Lemma pay_out_ok m x (take : bool) w u w' :
  pay_out m x take w = (Ok u, w') → 0 <= x →
  clp_of w' = clp_of w ∧ margin_of w' = margin_of w ∧
  ∃ owner fund t, 0 <= t <= x ∧ (take = false → t = 0) ∧
    (0 < x - t → AccAddressFromBech32 m.(Address) = Ok owner) ∧
    shared_out m.(CollateralAsset) owner fund x t w w'.
Proof.
  unfold pay_out. intros H Hx. destruct (Z.eqb_spec x 0) as [->|Hne]; simpl in H.
  { inv_ok. do 2 (split; [done|]). exists "", "", 0. split; [lia|]. split; [done|]. split; [lia|].
    intros a d. unfold single. repeat case_match; lia. }
  apply bind_ok in H as (r & w1 & E & H).
  assert (clp_of w1 = clp_of w ∧ margin_of w1 = margin_of w ∧ ∃ fund t, 0 <= t ∧ 0 <= r ∧ r = x - t ∧
    (take = false → t = 0) ∧ moved GetCLPModuleAddress fund (single m.(CollateralAsset) t) w w1)
    as (C1 & M1 & fund & t & Ht & Hr & -> & Hf & B1).
  { destruct take.
    - inv_pay. inv_sdk.
      match goal with T : TakeFundPayment _ _ _ _ _ = _ |- _ =>
        apply TakeFundPayment_ok in T as (Ht & C' & Mg' & B) end.
      split; [congruence|]. split; [congruence|]. eexists _, _. split; [exact Ht|].
      split; [done|]. split; [done|]. split; [done|]. by eapply moved_still_r.
    - inv_ok. do 2 (split; [done|]). exists "", 0. do 2 (split; [lia|]). split; [lia|].
      split; [done|]. intros a d. unfold single. repeat case_match; lia. }
  destruct (Z.eqb_spec (x - t) 0) as [Ez|Hz]; simpl in H.
  - inv_ok. do 2 (split; [done|]). exists "", fund, t. split; [lia|]. split; [done|]. split; [lia|].
    intros a d. rewrite (B1 a d). unfold single. repeat case_match; lia.
  - inv_pay. split; [congruence|]. split; [congruence|].
    eexists _, fund, t. split; [lia|]. split; [done|]. split; [done|].
    intros a0 d. match goal with B : moved _ _ _ w1 w' |- _ => rewrite (B a0 d) end.
    rewrite (B1 a0 d). erewrite coins_add_amount by done. rewrite AmountOf_single.
    change (AmountOf [] d) with 0. change (NewModuleAddress ClpTypes.ModuleName) with GetCLPModuleAddress.
    unfold single. repeat case_match; lia.
Qed.
End payments.

(** The counters of the store as numbers. *)
Definition mtp_count (s : MarginStore) : res Z := stored_uint64 s.(ms_MTPCount).
Definition open_count (s : MarginStore) : res Z := stored_uint64 s.(ms_OpenMTPCount).
(** A new position with the next id. *)
Definition add_mtp (m : MTP) (count openCount : Z) (s : MarginStore) : MarginStore :=
  set_mtp m (s <| ms_MTPCount := Some (GetUint64Bytes count) |>
               <| ms_OpenMTPCount := Some (GetUint64Bytes openCount) |>).

Section steps.
Context {W : Type} {sdk : Sdk} {HL : SdkLaws sdk} {coins : CoinLib} {bank : BankKeeper W}
  {paginator : Paginator} {registry : TokenRegistryKeeper W} {clp : HasStore ClpStore W}
  {events : HasStore EventLog W} {margin : HasStore MarginStore W} {MW : MarginWorld W}
  {float : MarginFloat}.
Implicit Types (w : W) (m : MTP) (p : Pool).
Notation clp_of w := (store (S := ClpStore) w).
Notation margin_of w := (store (S := MarginStore) w).

Lemma upd_margin_ok f w u w' : upd_margin f w = (Ok u, w') ↔ w' = put_store (f (margin_of w)) w.
Proof. apply upd_store_ok. Qed.
Lemma get_margin_ok w s w' : get_margin w = (Ok s, w') ↔ s = margin_of w ∧ w' = w.
Proof. apply gets_ok. Qed.
Lemma GetMTPCount_ok w n w' : GetMTPCount w = (Ok n, w') ↔ mtp_count (margin_of w) = Ok n ∧ w' = w.
Proof.
  unfold GetMTPCount. split.
  - intros H. apply bind_ok in H as (s & w1 & [-> ->]%get_margin_ok & [H ->]%lift_ok). done.
  - intros [E ->]. unfold mbind, M_bind, get_margin, get_store, gets, lift.
    unfold mtp_count in E. by rewrite E.
Qed.
Lemma GetOpenMTPCount_ok w n w' :
  GetOpenMTPCount w = (Ok n, w') ↔ open_count (margin_of w) = Ok n ∧ w' = w.
Proof.
  unfold GetOpenMTPCount. split.
  - intros H. apply bind_ok in H as (s & w1 & [-> ->]%get_margin_ok & [H ->]%lift_ok). done.
  - intros [E ->]. unfold mbind, M_bind, get_margin, get_store, gets, lift.
    unfold open_count in E. by rewrite E.
Qed.

Lemma GetMTP_ok a i w m w' :
  GetMTP a i w = (Ok m, w') ↔ w' = w ∧ (margin_of w).(ms_MTPs) !! GetMTPKey a i = Some m.
Proof.
  unfold GetMTP, mbind, M_bind, get_margin, get_store, gets. split.
  - intros H. destruct (_ !! _) eqn:E; inv_ok. done.
  - intros [-> E]. by rewrite E.
Qed.

Lemma SetMTP_stored w m p u e' :
  SetMTP (mkEnv w m p) = (Ok u, e') → m.(Id) ≠ 0 →
  MTP_Validate m = Ok tt ∧ e' = mkEnv (put_store (set_mtp m (margin_of w)) w) m p.
Proof.
  unfold SetMTP. intros H Hid. inv_env. destruct (Z.eqb_spec m.(Id) 0); [done|]. inv_env.
  match goal with U : upd_margin _ _ = _ |- _ => apply upd_margin_ok in U as -> end.
  split; [|done]. match goal with V : MTP_Validate _ = Ok ?x |- _ => by destruct x end.
Qed.

Lemma SetMTP_new w m p u e' :
  SetMTP (mkEnv w m p) = (Ok u, e') → m.(Id) = 0 →
  ∃ n o w', mtp_count (margin_of w) = Ok n ∧ open_count (margin_of w) = Ok o ∧
    let m' := m <| Id := uint64 (n + 1) |> in
    MTP_Validate m' = Ok tt ∧ e' = mkEnv w' m' p ∧ clp_of w' = clp_of w ∧
    margin_of w' = add_mtp m' (uint64 (n + 1)) (uint64 (o + 1)) (margin_of w) ∧ still w w'.
Proof.
  unfold SetMTP. intros H Hid. inv_env. rewrite Hid in *. simpl in *. inv_env.
  repeat match goal with U : upd_margin _ _ = _ |- _ => apply upd_margin_ok in U as -> end.
  match goal with V : GetMTPCount _ = _ |- _ => apply GetMTPCount_ok in V as [En _] end.
  match goal with V : GetOpenMTPCount _ = _ |- _ => apply GetOpenMTPCount_ok in V as [Eo _] end.
  eexists _, _, _. split; [done|]. split; [done|]. cbv zeta.
  split; [match goal with V : MTP_Validate _ = Ok ?x |- _ => by destruct x end|].
  split; [done|]. margin_simpl. do 2 (split; [done|]).
  repeat (eapply still_trans; [|apply still_put_margin]). apply still_refl.
Qed.

Lemma DestroyMTP_ok a i w u w' :
  DestroyMTP a i w = (Ok u, w') →
  ∃ m o, (margin_of w).(ms_MTPs) !! GetMTPKey a i = Some m ∧ open_count (margin_of w) = Ok o ∧
    clp_of w' = clp_of w ∧ still w w' ∧
    margin_of w' = del_mtp (GetMTPKey a i) (uint64 (o - 1)) (margin_of w).
Proof.
  unfold DestroyMTP. intros H. inv_ok.
  match goal with U : get_margin _ = _ |- _ => apply get_margin_ok in U as [-> ->] end.
  destruct (_ !! _) as [m|] eqn:El; inv_env.
  repeat match goal with U : upd_margin _ _ = _ |- _ => apply upd_margin_ok in U as -> end.
  match goal with V : GetOpenMTPCount _ = _ |- _ => apply GetOpenMTPCount_ok in V as [Eo _] end.
  margin_simpl. eexists _, _. split; [done|]. split; [done|]. split; [done|]. split; [|done].
  repeat (eapply still_trans; [|apply still_put_margin]). apply still_refl.
Qed.

Lemma assign_health_ok w m p u e' :
  assign_health (mkEnv w m p) = (Ok u, e') → ∃ h, e' = mkEnv w (m <| MtpHealth := h |>) p.
Proof.
  unfold assign_health. intros H. inv_env.
  match goal with H : (match ?r with _ => _ end) _ = _ |- _ => destruct r end; inv_env. eauto.
Qed.

Lemma UpdatePoolHealth_ok w m p u e' :
  UpdatePoolHealth (mkEnv w m p) = (Ok u, e') →
  ∃ h, let p' := p <| Health := h |> in e' = mkEnv (put_store (set_pool p' (clp_of w)) w) m p'.
Proof. unfold UpdatePoolHealth. intros H. inv_env. eauto. Qed.

Definition side_balance (n : bool) p : Z := if n then p.(NativeAssetBalance) else p.(ExternalAssetBalance).
Definition side_custody (n : bool) p : Z := if n then p.(NativeCustody) else p.(ExternalCustody).
Definition side_unsettled (n : bool) p : Z :=
  if n then p.(UnsettledNativeLiabilities) else p.(UnsettledExternalLiabilities).
Definition side_debt (n : bool) p : Z := if n then p.(NativeLiabilities) else p.(ExternalLiabilities).

(** ** What a swap through a pool gives, as a function of the stores *)
Definition fee_rate (s : ClpStore) (asset : Asset) (on_margin : bool) : Dec :=
  let params := match s.(cs_SwapFeeParams) with
                | None => mkSwapFeeParams (NewDecWithPrec 3 3) [] | Some f => f end in
  match (if on_margin then None
         else list_find (λ f, StringCompare asset.(Symbol) f.(SwapFeeAsset) = true) params.(TokenParams)) with
  | Some (_, f) => f.(SwapFeeRate)
  | None => params.(DefaultSwapFeeRate)
  end.
Definition on_margin (g : MarginStore) p : bool :=
  existsb (λ q, StringCompare q p.(ExternalAsset).(Symbol)) (params_of g).(Pools).
(** The balances and the liabilities of both sides are swapped against; the result is neither
    zero nor the whole balance. *)
Definition quote (s : ClpStore) (g : MarginStore) p (to : string) (x : Z) : res Z :=
  let n := is_native to in
  let from := if n then p.(ExternalAsset) else ClpTypes.GetSettlementAsset in
  '(y, _) ← CalcSwapResult n (side_balance (negb n) p + side_debt (negb n) p) x
              (side_balance n p + side_debt n p) s.(cs_PmtpRateParams).(PmtpCurrentRunningRate)
              (fee_rate s from (on_margin g p));
  if side_balance n p <=? y then Err ErrNotEnoughAssetTokens
  else if y =? 0 then Err ErrAmountTooLow else Ok y.
Lemma quote_ext s s' g g' p p' to x :
  s'.(cs_PmtpRateParams) = s.(cs_PmtpRateParams) → s'.(cs_SwapFeeParams) = s.(cs_SwapFeeParams) →
  g'.(ms_Params) = g.(ms_Params) → p'.(ExternalAsset) = p.(ExternalAsset) →
  (∀ n, side_balance n p' = side_balance n p) → (∀ n, side_debt n p' = side_debt n p) →
  quote s' g' p' to x = quote s g p to x.
Proof.
  intros E1 E2 E3 E4 Hb Hd. unfold quote, fee_rate, on_margin, params_of. by rewrite E1, E2, E3, E4, !Hb, !Hd.
Qed.

(** ** Interest *)
(** Interest of [k] of [len] blocks on the liabilities and on the interest left unpaid, and that
    interest; at least 1 unless the rate is zero. *)
Definition interest_due m (rate : Dec) (k len : Z) : Z :=
  let x := rat_trunc (dec_f64 rate * inject_Z (m.(Liabilities) + m.(InterestUnpaidCollateral))
                      * (inject_Z k / inject_Z len)) + m.(InterestUnpaidCollateral) in
  if (x =? 0) && negb (rate =? 0) then 1 else x.
(** What [full], interest in the collateral asset, takes from the custody, and what it leaves
    unpaid; nothing if a swap is refused. *)
Definition custody_charge (s : ClpStore) (g : MarginStore) m p (full : Z) : option (Z * Z) :=
  match quote s g p m.(CustodyAsset) full with
  | Ok y =>
      if m.(CustodyAmount) <? y then
        match quote s g p m.(CollateralAsset) m.(CustodyAmount) with
        | Ok cover => Some (m.(CustodyAmount), full - cover)
        | _ => None
        end
      else Some (y, 0)
  | _ => None
  end.
(** The part of the interest fund. *)
Definition fund_share (g : MarginStore) (c : Z) : Z :=
  Z.quot ((params_of g).(IncrementalInterestPaymentFundPercentage) * c) dec_one.
(** How a charge of [due] ends: [c] leaves the custody of position and pool, [t] of it for the
    fund, and [unpaid] is left; when the fund cannot be paid the position alone loses
    [withheld]. *)
Definition fund_unpayable w (asset : string) (share : Z) : Prop :=
  0 < share ∧ ∃ fund cs err w',
    AccAddressFromBech32 (params_of (margin_of w)).(IncrementalInterestPaymentFundAddress) = Ok fund ∧
    (∀ d, AmountOf cs d = single asset share d) ∧
    SendCoinsFromModuleToAccount ClpTypes.ModuleName fund cs w = (Err err, w').
Inductive interest_charged w m p (due : Z) : Z → Z → Z → Z → Prop :=
| charge_noted : (params_of (margin_of w)).(IncrementalInterestPaymentEnabled) = false →
    interest_charged w m p due 0 0 due 0
| charge_made c unpaid : (params_of (margin_of w)).(IncrementalInterestPaymentEnabled) = true →
    custody_charge (clp_of w) (margin_of w) m p (due + m.(InterestUnpaidCollateral)) = Some (c, unpaid) →
    interest_charged w m p due c (fund_share (margin_of w) c) unpaid 0
| charge_withheld c unpaid : (params_of (margin_of w)).(IncrementalInterestPaymentEnabled) = true →
    custody_charge (clp_of w) (margin_of w) m p (due + m.(InterestUnpaidCollateral)) = Some (c, unpaid) →
    fund_unpayable w m.(CustodyAsset) (fund_share (margin_of w) c) →
    interest_charged w m p due 0 0 unpaid c
| charge_refused : (params_of (margin_of w)).(IncrementalInterestPaymentEnabled) = true →
    custody_charge (clp_of w) (margin_of w) m p (due + m.(InterestUnpaidCollateral)) = None →
    interest_charged w m p due 0 0
      (if is_ok (quote (clp_of w) (margin_of w) p m.(CustodyAsset) (due + m.(InterestUnpaidCollateral)))
       then 0 else m.(InterestUnpaidCollateral)) 0.
(** The interest of the blocks since the last epoch. *)
Definition interest_paid (ctx : Ctx) w m p (c t unpaid withheld : Z) : Prop :=
  let len := (params_of (margin_of w)).(MarginTypes.EpochLength) in
  ∃ k, GetEpochPosition ctx len = Ok k ∧
    if 0 <? k then interest_charged w m p (interest_due m p.(InterestRate) k len) c t unpaid withheld
    else c = 0 ∧ t = 0 ∧ unpaid = m.(InterestUnpaidCollateral) ∧ withheld = 0.

Lemma TakeInCustody_ok w m p u e' :
  TakeInCustody (mkEnv w m p) = (Ok u, e') →
  ∃ p', e' = mkEnv (put_store (set_pool p' (clp_of w)) w) m p' ∧
    m.(CustodyAmount) <= side_balance (custody_native m) p ∧
    0 <= side_custody (custody_native m) p + m.(CustodyAmount) ∧
    pool_moved (custody_native m) (- m.(CustodyAmount)) m.(CustodyAmount) 0 0 p p'.
Proof.
  unfold TakeInCustody. intros H. inv_vars. unfold custody_native.
  destruct (is_native _); inv_env; inv_sdk; eexists;
    (split; [done|]); simpl; (split; [lia|]); (split; [lia|]); solve_moved.
Qed.
Lemma TakeOutCustody_ok w m p u e' :
  TakeOutCustody (mkEnv w m p) = (Ok u, e') →
  ∃ p', e' = mkEnv (put_store (set_pool p' (clp_of w)) w) m p' ∧
    Asset_Validate p.(ExternalAsset) = Ok true ∧
    m.(CustodyAmount) <= side_custody (custody_native m) p ∧
    0 <= side_balance (custody_native m) p + m.(CustodyAmount) ∧
    pool_moved (custody_native m) m.(CustodyAmount) (- m.(CustodyAmount)) 0 0 p p'.
Proof.
  unfold TakeOutCustody. intros H. inv_vars. unfold custody_native.
  destruct (is_native _); inv_env; inv_sdk; eexists;
    (split; [done|]); (split; [done|]); simpl; (split; [lia|]); (split; [lia|]); solve_moved.
Qed.

(** A new position: the collateral goes to the module, the pool lends the rest. *)
Lemma Borrow_ok w m p asset amt c eta u e' :
  Borrow asset amt c eta (mkEnv w m p) = (Ok u, e') → m.(Id) = 0 →
  ∃ owner n o w' m' p', e' = mkEnv w' m' p' ∧
    AccAddressFromBech32 m.(Address) = Ok owner ∧
    mtp_count (margin_of w) = Ok n ∧ open_count (margin_of w) = Ok o ∧
    (m'.(Address) = m.(Address) ∧ m'.(CollateralAsset) = m.(CollateralAsset) ∧
     m'.(CustodyAsset) = m.(CustodyAsset) ∧ m'.(MtpPosition) = m.(MtpPosition) ∧
     m'.(Id) = uint64 (n + 1) ∧ MTP_Validate m' = Ok tt ∧
     m'.(InterestUnpaidCollateral) = m.(InterestUnpaidCollateral)) ∧
    0 <= m'.(CustodyAmount) ∧ m'.(CustodyAmount) = m.(CustodyAmount) + c ∧
    0 <= m'.(Liabilities) ∧ 0 <= amt ∧ m.(Liabilities) <= m'.(Liabilities) ∧
    0 <= side_debt (collateral_native m) p + m'.(Liabilities) ∧
    0 <= side_balance (collateral_native m) p + amt ∧
    pool_moved (collateral_native m) amt 0 m'.(Liabilities) 0 p p' ∧
    clp_of w' = set_pool p' (clp_of w) ∧
    margin_of w' = add_mtp m' (uint64 (n + 1)) (uint64 (o + 1)) (margin_of w) ∧
    moved owner GetCLPModuleAddress (single asset amt) w w'.
Proof.
  unfold Borrow. intros H Hid. inv_vars. unfold collateral_native in *.
  match goal with L : (if is_native _ then _ else _) ?e = (Ok _, ?e1), U : DecTruncateInt _ = Ok _ |- _ =>
    assert (∃ p', e1 = mkEnv (e_world e) (e_mtp e) p' ∧
      0 <= side_debt (is_native m.(CollateralAsset)) p + (e_mtp e).(Liabilities) ∧
      0 <= side_balance (is_native m.(CollateralAsset)) p + amt ∧
      pool_moved (is_native m.(CollateralAsset)) amt 0 (e_mtp e).(Liabilities) 0 p p')
      as (p' & -> & Hd & Hb & Hm) end.
  { destruct (is_native _); inv_env; inv_sdk; eexists; (split; [done|]); simpl;
      (split; [lia|]); (split; [lia|]); solve_moved. }
  simpl in *. inv_pay. inv_sdk.
  apply SetMTP_new in H; [|done].
  destruct H as (n & o & w' & En & Eo & VM & -> & C' & G' & S').
  margin_simpl. simpl in *.
  repeat match goal with X : clp_of ?w = clp_of _ |- _ => rewrite X in * end.
  repeat match goal with X : margin_of ?w = margin_of _ |- _ => rewrite X in * end.
  eexists _, n, o, w', _, p'. split; [done|]. do 3 (split; [done|]). simpl.
  split; [done|]. do 4 (split; [lia|]). split; [lia|]. do 5 (split; [done|]).
  eapply moved_still_r; [|eapply still_trans; [apply still_put_clp|done]].
  eapply moved_ext; [|done]. intros d. erewrite new_coins_amount by done. apply AmountOf_single.
Qed.

(** What of [have] is returned when [liabilities] and [interest] are owed. *)
Lemma split_repayment_ok have liabilities interest r dp di :
  split_repayment have liabilities interest = Ok (r, dp, di) →
  0 <= have → 0 <= liabilities → 0 <= interest →
  r = Z.max 0 (have - liabilities - interest) ∧
  dp = Z.max 0 (liabilities - have) ∧
  di = Z.min interest (Z.max 0 (liabilities + interest - have)).
Proof.
  unfold split_repayment. intros H ???. inv_ok.
  match goal with X : UintAdd _ _ = Ok _ |- _ => apply uint_add_ok in X as [-> _] end.
  destruct (Z.ltb_spec have liabilities); [inv_ok; inv_sdk; lia|].
  destruct (Z.ltb_spec have (liabilities + interest)); inv_ok; inv_sdk; lia.
Qed.

(** The position is removed, the liabilities are written off, the surplus is paid out. *)
Lemma Repay_ok w m p repay take u e' :
  Repay repay take (mkEnv w m p) = (Ok u, e') →
  0 <= repay → 0 <= m.(Liabilities) → 0 <= m.(InterestUnpaidCollateral) →
  let returned := Z.max 0 (repay - m.(Liabilities) - m.(InterestUnpaidCollateral)) in
  ∃ w' m' p' o m0 owner fund t, e' = mkEnv w' m' p' ∧ same_terms m m' ∧
    (margin_of w).(ms_MTPs) !! mtp_key m = Some m0 ∧ open_count (margin_of w) = Ok o ∧
    Asset_Validate p.(ExternalAsset) = Ok true ∧
    returned <= side_balance (collateral_native m) p ∧
    m.(Liabilities) <= side_debt (collateral_native m) p ∧
    pool_moved (collateral_native m) (- returned) 0 (- m.(Liabilities))
      (Z.max 0 (m.(Liabilities) + m.(InterestUnpaidCollateral) - repay)) p p' ∧
    clp_of w' = set_pool p' (clp_of w) ∧
    margin_of w' = del_mtp (mtp_key m) (uint64 (o - 1)) (margin_of w) ∧
    0 <= t <= returned ∧ (take = false → t = 0) ∧
    (0 < returned - t → AccAddressFromBech32 m.(Address) = Ok owner) ∧
    shared_out m.(CollateralAsset) owner fund returned t w w'.
Proof.
  unfold Repay. intros H Hr Hl Hi. cbv zeta. inv_vars.
  match goal with A : assign_health _ = _ |- _ => apply assign_health_ok in A as [h ->] end.
  match goal with S : split_repayment _ _ _ = _ |- _ => apply split_repayment_ok in S as (-> & -> & ->); [|done..] end.
  simpl in *. set (r := Z.max 0 (repay - _ - _)) in *.
  match goal with A : pay_out _ _ _ _ = _ |- _ =>
    apply pay_out_ok in A as (C1 & G1 & owner & fund & t & Ht & Hf & Ho & Hs); [|lia] end.
  match goal with L : (if is_native _ then _ else _) ?e = (Ok _, ?e1) |- _ =>
    assert (∃ p', e1 = mkEnv (e_world e) (e_mtp e) p' ∧
      r <= side_balance (is_native m.(CollateralAsset)) p ∧
      m.(Liabilities) <= side_debt (is_native m.(CollateralAsset)) p ∧
      pool_moved (is_native m.(CollateralAsset)) (- r) 0 (- m.(Liabilities))
        (Z.max 0 (m.(Liabilities) + m.(InterestUnpaidCollateral) - repay)) p p')
      as (p' & -> & Hb & Hd & Hm) end.
  { destruct (is_native _); inv_vars; inv_sdk; eexists; (split; [done|]); simpl;
      (split; [lia|]); (split; [lia|]); solve_moved. }
  simpl in *.
  match goal with D : DestroyMTP _ _ _ = _ |- _ =>
    apply DestroyMTP_ok in D as (m0 & o & Em & Eo & C2 & S2 & G2) end.
  apply SetPool_ok in H as [V ->].
  rewrite C2, C1. rewrite G1 in *.
  eexists _, _, p', o, m0, owner, fund, t. split; [done|]. split; [done|]. split; [done|].
  split; [done|]. rewrite (pm_asset _ _ _ _ _ _ _ Hm) in V. split; [done|].
  do 3 (split; [done|]). margin_simpl. split; [done|]. split; [done|]. split; [lia|].
  split; [done|]. split; [done|].
  intros a d. rewrite balance_put_clp, (S2 a d). apply Hs.
Qed.

Lemma when_event_env (c : bool) ev (e : Env W) u e' :
  (if c then on_world (EmitEvent ev) else mret tt) e = (Ok u, e') →
  ∃ w', e' = mkEnv w' e.(e_mtp) e.(e_pool) ∧ quietly e.(e_world) w'.
Proof.
  destruct e as [w m p]. destruct c.
  - intros (w' & E & ->)%on_world_ok. exists w'. split; [done|]. by eapply EmitEvent_quietly.
  - intros [_ <-]%ret_ok. exists w. split; [done|]. apply quietly_refl.
Qed.

(** The swaps read the chain state only. *)
Lemma settlement_native s : IsSettlementAsset (mkAsset s) = is_native s.
Proof.
  unfold IsSettlementAsset, ClpTypes.GetSettlementAsset, StringCompare.
  destruct (String.eqb_spec s MarginTypes.GetSettlementAsset) as [->|Hne]; [done|].
  apply bool_decide_eq_false_2. intros [=]. done.
Qed.
Lemma CLPSwap_ok w x to p y w' :
  CLPSwap x to p w = (Ok y, w') →
  w' = w ∧ 0 < y ∧ y < side_balance (is_native to) p.
Proof.
  intros H. assert (w' = w) as -> by (by eapply readonly_ok; [|done]; eauto with frame).
  split; [done|]. unfold CLPSwap, CLPCalcSwap, ExtractValues, ToAsset in H. inv_ok.
  rewrite settlement_native in *.
  match goal with C : CalcSwapResult _ _ _ _ _ _ = _ |- _ => apply CalcSwapResult_nonneg in C end.
  destruct (is_native to); simplify_eq; simpl; lia.
Qed.

Lemma CLPSwap_quote w x to p r w' :
  CLPSwap x to p w = (r, w') → r ≠ Panic → quote (clp_of w) (margin_of w) p to x = r.
Proof.
  intros H Hr. unfold CLPSwap in H.
  assert (Margin.IsPoolEnabled p.(ExternalAsset).(Symbol) w = (Ok (on_margin (margin_of w) p), w)) as E1 by done.
  rewrite (bind_run _ _ _ _ _ E1) in H. clear E1.
  unfold CLPCalcSwap, ExtractValues, ToAsset, ExtractDebt in H. rewrite settlement_native in H.
  unfold quote. set (n := is_native to) in *. clearbody n.
  destruct n; unfold side_balance, side_debt; simpl in H |- *.
  all: rewrite !uint_add in H; unfold mbind, M_bind, lift, throw_if, mret, M_ret in H;
    unfold checked_uint in H;
    repeat match type of H with context [if ?b && ?c then Ok _ else Panic] =>
      destruct (b && c); simpl in H; [|congruence] end;
    (match type of H with context [CalcSwapResult ?n ?a ?b ?c ?d ?e] =>
       let from := constr:(if n then p.(ExternalAsset) else ClpTypes.GetSettlementAsset) in
       let from := eval simpl in from in
       change e with (fee_rate (clp_of w) from (on_margin (margin_of w) p)) in H end);
    destruct (CalcSwapResult _ _ _ _ _ _) as [[y fee]| |]; simpl in H |- *; [|congruence..];
    rewrite Z.geb_leb in H; destruct (_ <=? y); simpl in H; [congruence|].
  all: destruct (y =? 0); simpl in H; congruence.
Qed.

Lemma UpdateMTPHealth_ok w m p h w' : UpdateMTPHealth m p w = (Ok h, w') → w' = w.
Proof. intros H. by eapply readonly_ok; [|done]; eauto with frame. Qed.

(** The payment and what of it stays unpaid. *)
Lemma cap_payment_ok w m m1 p x y a b e' :
  cap_payment m p x y (mkEnv w m1 p) = (Ok (a, b), e') →
  0 < y → 0 <= m.(CustodyAmount) → 0 <= m1.(InterestUnpaidCollateral) →
  ∃ m2, e' = mkEnv w m2 p ∧ same_terms m1 m2 ∧ m2.(CustodyAmount) = m1.(CustodyAmount) ∧
    0 <= m2.(InterestUnpaidCollateral) ∧ 0 <= b.
Proof.
  unfold cap_payment. intros H Hy Hc Hu. destruct (_ <? _).
  - inv_vars. match goal with A : CLPSwap _ _ _ w = _ |- _ => apply CLPSwap_ok in A as (-> & _) end.
    inv_sdk. eexists. split; [done|]. split; [done|]. split; [done|]. simpl. lia.
  - inv_vars. exists m1. repeat split; lia || done.
Qed.
Lemma fund_address_ok w fund :
  GetIncrementalInterestPaymentFundAddress w = (Ok fund, w) →
  AccAddressFromBech32 (params_of (margin_of w)).(IncrementalInterestPaymentFundAddress) = Ok fund.
Proof.
  unfold GetIncrementalInterestPaymentFundAddress, GetParams, get_margin, get_store, gets, mbind, M_bind, lift,
    mret, M_ret, must. by destruct (AccAddressFromBech32 _); intros [= ->].
Qed.
(** ... is the charge of the whole interest. *)
Lemma cap_payment_charge w m m1 p x y r e' :
  cap_payment m p x y (mkEnv w m1 p) = (r, e') → r ≠ Panic → m1.(InterestUnpaidCollateral) = 0 →
  quote (clp_of w) (margin_of w) p m.(CustodyAsset) x = Ok y →
  custody_charge (clp_of w) (margin_of w) m p x
  = match r with Ok (_, b) => Some (b, e'.(e_mtp).(InterestUnpaidCollateral)) | _ => None end.
Proof.
  unfold cap_payment, custody_charge. intros H Hr H1 ->. destruct (_ <? _).
  - unfold mbind, M_bind, on_world in H. simpl in H.
    destruct (CLPSwap _ _ _ w) as [[cover|err|] w1] eqn:E; simpl in H; simplify_eq;
      (apply CLPSwap_quote in E; [|done]); rewrite E; [|done].
    unfold lift in H. rewrite uint_sub in H. unfold checked_uint in H.
    destruct (_ && _); simpl in H; [|congruence]. injection H as <- <-. done.
  - injection H as <- <-. simpl. by rewrite H1.
Qed.
Lemma return_custody_ok w m p s c x u e' :
  return_custody s p c x (mkEnv w m p) = (Ok u, e') →
  ∃ p', e' = mkEnv w m p' ∧ c <= side_custody (is_native s) p ∧
    0 <= side_balance (is_native s) p + x ∧ pool_moved (is_native s) x (- c) 0 0 p p'.
Proof.
  unfold return_custody. intros H. destruct (is_native s); inv_vars; inv_sdk; eexists;
    (split; [done|]); simpl; (split; [lia|]); (split; [lia|]); solve_moved.
Qed.

(** Interest paid out of the custody: the fund takes its part, the pool gets the rest. *)
Lemma IncrementalInterestPayment_ok w m p x paid e' :
  IncrementalInterestPayment x (mkEnv w m p) = (Ok paid, e') →
  m.(Id) ≠ 0 → 0 <= m.(CustodyAmount) → 0 <= m.(InterestUnpaidCollateral) →
  ∃ w' m' p' c t fund, e' = mkEnv w' m' p' ∧ same_terms m m' ∧
    (custody_charge (clp_of w) (margin_of w) m p (x + m.(InterestUnpaidCollateral))
       = Some (c, m'.(InterestUnpaidCollateral)) ∧ t = fund_share (margin_of w) c ∧
     AccAddressFromBech32 (params_of (margin_of w)).(IncrementalInterestPaymentFundAddress) = Ok fund) ∧
    0 <= t ∧ t <= c ∧ c <= m.(CustodyAmount) ∧ paid = c - t ∧
    m'.(CustodyAmount) = m.(CustodyAmount) - c ∧ 0 <= m'.(InterestUnpaidCollateral) ∧
    c <= side_custody (custody_native m) p ∧ 0 <= side_balance (custody_native m) p + (c - t) ∧
    pool_moved (custody_native m) (c - t) (- c) 0 0 p p' ∧
    clp_of w' = set_pool p' (clp_of w) ∧ margin_of w' = set_mtp m' (margin_of w) ∧
    moved GetCLPModuleAddress fund (single m.(CustodyAsset) t) w w'.
Proof.
  unfold IncrementalInterestPayment. intros H Hid Hc Hun. inv_vars.
  match goal with A : (if 0 <? _ then _ else _) _ = (Ok ?f, ?e) |- _ =>
    assert (e = mkEnv w m p ∧ f = x + m.(InterestUnpaidCollateral)) as [-> ->]
      by (destruct (Z.ltb_spec 0 m.(InterestUnpaidCollateral)); inv_vars; inv_sdk; (split; [done|lia])) end.
  simpl in *. match goal with A : CLPSwap _ _ _ w = _ |- _ =>
    pose proof (CLPSwap_quote _ _ _ _ _ _ A ltac:(done)) as Hq; apply CLPSwap_ok in A as (-> & Hy & _) end.
  match goal with A : cap_payment _ _ _ _ _ = _ |- _ =>
    pose proof (cap_payment_charge _ _ _ _ _ _ _ _ A ltac:(done) eq_refl Hq) as Hch; simpl in Hch;
    apply cap_payment_ok in A as (m1 & -> & T1 & Hc1 & Hu1 & Hb); [|simpl; lia..] end.
  simpl in *. inv_pay.
  match goal with A : TakeFundPayment ?x1 _ _ ?x2 _ = (Ok ?x3, _) |- _ =>
    pose proof A as Hshare;
    apply TakeFundPayment_ok in A as (Ht & C1 & G1 & B1); rename x1 into b, x2 into fund, x3 into t end.
  inv_sdk.
  match goal with A : (if negb _ then on_world _ else _) _ = (Ok _, _) |- _ =>
    apply when_event_env in A as (w2 & -> & C2 & G2 & S2) end.
  simpl in *. match goal with A : return_custody _ _ _ _ _ = _ |- _ =>
    apply return_custody_ok in A as (p' & -> & Hsc & Hsb & Hm) end.
  match goal with A : SetMTP _ = _ |- _ => apply SetMTP_stored in A as [V' ->] end.
  2: { simpl. by destruct T1 as (_ & -> & _). }
  simpl. margin_simpl. rewrite C2, C1, G2, G1.
  eexists _, _, p', b, t, fund. split; [done|].
  split; [eapply same_terms_trans; [exact T1|done]|]. 
  split. { split; [exact Hch|]. split; [|by apply fund_address_ok]. apply TakeFundPayment_share in Hshare.
    rewrite Hshare. by injection E11 as <-. }
  do 4 (split; [lia|]). split; [simpl; lia|].
  do 4 (split; [done|]). margin_simpl.
  do 2 (split; [done|]).
  eapply moved_still_r; [exact B1|]. eapply still_trans; [exact S2|].
  eapply still_trans; [apply still_put_margin|apply still_put_clp].
Qed.

(** *** When the interest payment fails

    Up to the payment of the fund nothing but the position variable has changed, and nothing
    after it returns an error. *)
Lemma bind_err {X A B} (k : Prelude.M X A) (f : A → Prelude.M X B) x err x' :
  (k ≫= f) x = (Err err, x') →
  k x = (Err err, x') ∨ ∃ a x1, k x = (Ok a, x1) ∧ f a x1 = (Err err, x').
Proof. unfold mbind, M_bind. destruct (k x) as [[a|e|] x1]; intros H; simplify_eq; eauto. Qed.
Lemma lift_err {X A} (r : res A) (x : X) err x' : lift r x = (Err err, x') → r = Err err ∧ x' = x.
Proof. unfold lift. by intros [= -> <-]. Qed.
Lemma on_world_err {A} (k : M W A) (e : Env W) err e' :
  on_world k e = (Err err, e') →
  ∃ w', k e.(e_world) = (Err err, w') ∧ e' = mkEnv w' e.(e_mtp) e.(e_pool).
Proof. unfold on_world. destruct (k _) as [r w']. intros [= -> <-]. eauto. Qed.
Lemma uint_add_no_err a b err : UintAdd a b ≠ Err err.
Proof. rewrite uint_add. apply checked_uint_not_err. Qed.
Lemma uint_sub_no_err a b err : UintSub a b ≠ Err err.
Proof. rewrite uint_sub. apply checked_uint_not_err. Qed.
Lemma stored_uint64_no_err o err : stored_uint64 o ≠ Err err.
Proof. unfold stored_uint64, GetUint64FromBytes. by repeat case_match. Qed.

Lemma TakeFundPayment_err x asset pct addr w err w' :
  TakeFundPayment x asset pct addr w = (Err err, w') → quietly w w'.
Proof.
  unfold TakeFundPayment. intros H.
  do 3 (apply bind_err in H as [[_ ->]%lift_err|(? & ? & [_ ->]%lift_ok & H)]; [apply quietly_refl|]).
  apply bind_err in H as [H|(? & ? & _ & [=])].
  destruct (negb _); [|discriminate H].
  do 3 (apply bind_err in H as [[_ ->]%lift_err|(? & ? & [_ ->]%lift_ok & H)]; [apply quietly_refl|]).
  split; [by eapply (preserves_ok (store (S := ClpStore))); [apply frame_send_ma|]|].
  split; [by eapply (preserves_ok (store (S := MarginStore))); [apply frame_send_ma|]|].
  intros a d. by eapply send_module_account_err.
Qed.

Lemma TakeFundPayment_unpaid x asset pct addr w err w' :
  TakeFundPayment x asset pct addr w = (Err err, w') →
  let t := Z.quot (pct * x) dec_one in
  0 < t ∧ ∃ cs, (∀ d, AmountOf cs d = single asset t d) ∧
    SendCoinsFromModuleToAccount ClpTypes.ModuleName addr cs w = (Err err, w').
Proof.
  unfold TakeFundPayment. cbv zeta. intros H.
  apply bind_err in H as [[H _]%lift_err|(take & w1 & [Et ->]%lift_ok & H)]; [by apply dec_mul_not_err in H|].
  apply bind_err in H as [[H _]%lift_err|(i & w1 & [Ei ->]%lift_ok & H)]; [by apply dec_trunc_not_err in H|].
  apply bind_err in H as [[H _]%lift_err|(t & w1 & [[-> R]%uint_new_ok ->]%lift_ok & H)].
  { rewrite uint_new in H. by apply checked_uint_not_err in H. }
  rewrite <- (take_rounded _ _ _ _ Et Ei).
  apply bind_err in H as [H|(? & ? & _ & [=])].
  destruct (Z.eqb_spec i 0) as [->|Hi]; simpl in H; [discriminate H|]. split; [lia|].
  apply bind_err in H as [[H _]%lift_err|(amount & w1 & [->%int_new_inv ->]%lift_ok & H)]; [by apply int_new_not_err in H|].
  apply bind_err in H as [[H _]%lift_err|(coin & w1 & [[-> _]%NewCoin_ok ->]%lift_ok & H)]; [by apply new_coin_not_err in H|].
  apply bind_err in H as [[H _]%lift_err|(cs & w1 & [Ecs ->]%lift_ok & H)]; [by apply new_coins_not_err in H|].
  exists cs. split; [|done]. intros d. erewrite new_coins_amount by done. apply AmountOf_single.
Qed.

Lemma fund_address_no_err w err w' : GetIncrementalInterestPaymentFundAddress w ≠ (Err err, w').
Proof.
  unfold GetIncrementalInterestPaymentFundAddress, GetParams, get_margin, get_store, gets, mbind, M_bind, lift,
    mret, M_ret, must. by destruct (AccAddressFromBech32 _).
Qed.
(** What a failed charge leaves of the position. *)
Definition charge_failed w m p (full : Z) m' : Prop :=
  (custody_charge (clp_of w) (margin_of w) m p full = None ∧ m'.(CustodyAmount) = m.(CustodyAmount) ∧
   m'.(InterestUnpaidCollateral)
     = if is_ok (quote (clp_of w) (margin_of w) p m.(CustodyAsset) full) then 0 else m.(InterestUnpaidCollateral)) ∨
  ∃ c, custody_charge (clp_of w) (margin_of w) m p full = Some (c, m'.(InterestUnpaidCollateral)) ∧
    m'.(CustodyAmount) = m.(CustodyAmount) - c ∧
    fund_unpayable w m.(CustodyAsset) (fund_share (margin_of w) c).

Lemma SetMTP_no_err w m p err e' :
  m.(Id) ≠ 0 → MTP_Validate m = Ok tt → SetMTP (mkEnv w m p) ≠ (Err err, e').
Proof.
  intros Hid V H. unfold SetMTP in H.
  apply bind_err in H as [(? & H & _)%on_world_err|(? & ? & (? & [_ ->]%GetMTPCount_ok & ->)%on_world_ok & H)].
  { apply bind_err in H as [H|(? & ? & _ & [H _]%lift_err)]; [discriminate H|].
    by apply stored_uint64_no_err in H. }
  apply bind_err in H as [(? & H & _)%on_world_err|(? & ? & (? & [_ ->]%GetOpenMTPCount_ok & ->)%on_world_ok & H)].
  { apply bind_err in H as [H|(? & ? & _ & [H _]%lift_err)]; [discriminate H|].
    by apply stored_uint64_no_err in H. }
  unfold the_mtp, gets, mbind, M_bind in H. simpl in H.
  destruct (Z.eqb_spec m.(Id) 0); [done|]. unfold lift, mret, M_ret in H. simpl in H. rewrite V in H.
  discriminate H.
Qed.
Lemma SetPool_no_err p w err w' : Asset_Validate p.(ExternalAsset) = Ok true → SetPool p w ≠ (Err err, w').
Proof. intros V. unfold SetPool, Pool_Validate, mbind, M_bind, lift. by rewrite V. Qed.

(** The next step of a failing run: it failed, or it succeeded and a later one failed. *)
Ltac next_err H :=
  apply bind_err in H as [H|(? & ? & ? & H)];
  [try discriminate H;
   try (apply lift_err in H as [H _];
        first [by apply uint_add_no_err in H | by apply uint_sub_no_err in H])
  |try (match goal with
        | A : the_mtp _ = _ |- _ => apply the_mtp_ok in A as [-> ->]
        | A : the_pool _ = _ |- _ => apply the_pool_ok in A as [-> ->]
        | A : upd_mtp _ _ = _ |- _ => apply upd_mtp_ok in A as ->
        | A : upd_pool _ _ = _ |- _ => apply upd_pool_ok in A as ->
        | A : lift _ _ = (Ok _, _) |- _ => apply lift_ok in A as [A ->]
        end); simpl in H].

Lemma cap_payment_err w m m1 p x y err e' :
  cap_payment m p x y (mkEnv w m1 p) = (Err err, e') → e' = mkEnv w m1 p.
Proof.
  unfold cap_payment. intros H. destruct (_ <? _); [|discriminate H]. next_err H.
  { apply on_world_err in H as (w1 & E%readonly_ok & ->); [|eauto with frame]. by rewrite E. }
  do 2 next_err H. discriminate H.
Qed.

Lemma IncrementalInterestPayment_err w m p x err e' :
  IncrementalInterestPayment x (mkEnv w m p) = (Err err, e') →
  m.(Id) ≠ 0 → MTP_Validate m = Ok tt → Asset_Validate p.(ExternalAsset) = Ok true →
  0 <= m.(CustodyAmount) → 0 <= m.(InterestUnpaidCollateral) →
  ∃ w' m', e' = mkEnv w' m' p ∧ same_terms m m' ∧ quietly w w' ∧
    0 <= m'.(CustodyAmount) ∧ m'.(CustodyAmount) <= m.(CustodyAmount) ∧
    0 <= m'.(InterestUnpaidCollateral) ∧ charge_failed w m p (x + m.(InterestUnpaidCollateral)) m'.
Proof.
  unfold IncrementalInterestPayment. intros H Hid V Va Hc Hu.
  assert (∀ m', same_terms m m' → 0 <= m'.(CustodyAmount) →
    m'.(CustodyAmount) <= m.(CustodyAmount) → 0 <= m'.(InterestUnpaidCollateral) →
    charge_failed w m p (x + m.(InterestUnpaidCollateral)) m' →
    ∃ w' m'', mkEnv w m' p = mkEnv w' m'' p ∧ same_terms m m'' ∧ quietly w w' ∧
      0 <= m''.(CustodyAmount) ∧ m''.(CustodyAmount) <= m.(CustodyAmount) ∧
      0 <= m''.(InterestUnpaidCollateral) ∧
      charge_failed w m p (x + m.(InterestUnpaidCollateral)) m'') as Stop
    by (intros m' ?????; exists w, m'; split; [done|]; split; [done|]; split; [apply quietly_refl|done]).
  do 3 next_err H.
  { destruct (0 <? _); [|discriminate H]. apply lift_err in H as [H _]. by apply uint_add_no_err in H. }
  match goal with A : (if 0 <? _ then _ else _) _ = (Ok ?f, ?e) |- _ =>
    assert (e = mkEnv w m p ∧ f = x + m.(InterestUnpaidCollateral)) as [-> ->]
      by (destruct (Z.ltb_spec 0 m.(InterestUnpaidCollateral)); inv_vars; inv_sdk; (split; [done|lia])); clear A end.
  next_err H.
  { apply on_world_err in H as (w1 & E & ->). simpl in E. pose proof (CLPSwap_quote _ _ _ _ _ _ E ltac:(done)) as Hq.
    apply readonly_ok in E; [|eauto with frame]. subst w1. apply Stop; try done. left.
    unfold custody_charge. rewrite Hq. done. }
  match goal with A : on_world _ _ = _ |- _ => apply on_world_ok in A as (w1 & E & ->) end.
  simpl in E. pose proof (CLPSwap_quote _ _ _ _ _ _ E ltac:(done)) as Hq. apply CLPSwap_ok in E as (-> & Hy & _).
  next_err H.
  next_err H.
  { pose proof (cap_payment_charge _ _ _ _ _ _ _ _ H ltac:(done) eq_refl Hq) as Hch.
    apply cap_payment_err in H as ->. apply Stop; simpl; try (lia || done). left. split; [done|].
    split; [done|]. by rewrite Hq. }
  match goal with A : cap_payment _ _ _ _ _ = (Ok ?ab, _) |- _ => destruct ab as [a b];
    pose proof (cap_payment_charge _ _ _ _ _ _ _ _ A ltac:(done) eq_refl Hq) as Hch; simpl in Hch;
    apply cap_payment_ok in A as (m1 & -> & T1 & Hc1 & Hu1 & Hb); [|simpl; lia..] end.
  do 6 next_err H. simpl in Hc1.
  match goal with A : UintSub _ _ = Ok _ |- _ => apply uint_sub_ok in A as [-> R] end.
  match type of H with (_ _ (mkEnv _ ?x _)) = _ => set (m2 := x) in * end.
  assert (same_terms m m2) as T2 by exact T1. specialize (Stop m2 T2).
  next_err H.
  match goal with A : on_world _ _ = _ |- _ => apply on_world_ok in A as (w1 & E & ->) end.
  simpl in E. injection E as <- <-.
  next_err H.
  { apply on_world_err in H as (w1 & E & _). by apply fund_address_no_err in E. }
  match goal with A : on_world _ _ = _ |- _ => apply on_world_ok in A as (w1 & E & ->) end. simpl in E.
  pose proof E as Ew. apply readonly_ok in Ew; [|eauto with frame]. subst w1. apply fund_address_ok in E.
  next_err H.
  { apply on_world_err in H as (w1 & Q & ->). simpl in *. pose proof Q as (Hpos & cs & Hcs & Hsend)%TakeFundPayment_unpaid.
    apply TakeFundPayment_err in Q. exists w1, m2. repeat (split; [done|]). split; [simpl; lia|]. split; [simpl; lia|].
    split; [simpl; lia|]. right. exists b. split; [done|]. split; [done|]. split; [exact Hpos|]. eauto 10. }
  (* nothing fails from here on *)
  exfalso.
  match goal with A : on_world (TakeFundPayment _ _ _ _) _ = _ |- _ =>
    apply on_world_ok in A as (w1 & _ & ->); simpl in H end.
  next_err H.
  next_err H.
  { by destruct (negb _). }
  match goal with A : (if negb _ then on_world _ else _) _ = (Ok _, _) |- _ =>
    apply when_event_env in A as (w2 & -> & _) end. simpl in H.
  next_err H.
  { unfold return_custody in H. destruct (is_native _); do 3 next_err H; discriminate H. }
  match goal with A : return_custody _ _ _ _ _ = _ |- _ =>
    apply return_custody_ok in A as (p' & -> & _ & _ & Hm) end.
  next_err H.
  { revert H. apply SetMTP_no_err.
    - by destruct T2 as (_ & -> & _).
    - by rewrite (MTP_Validate_terms _ _ T2). }
  match goal with A : SetMTP _ = _ |- _ => apply SetMTP_stored in A as [_ ->] end.
  2: { by destruct T2 as (_ & -> & _). }
  do 2 next_err H.
  - apply on_world_err in H as (w3 & H & _). revert H. apply SetPool_no_err.
    simpl. by rewrite (pm_asset _ _ _ _ _ _ _ Hm).
  - discriminate H.
Qed.
End steps.
