(* ===== verification/MarginEffects.v ===== *)
(** * MarginEffects: what opening, closing and charging a position does

    The handlers of MarginServer.v as one step: the pool and the position they write and the
    coins they move. *)

From S2P Require Import Prelude Sdk Rat Float Bank Keepers ClpTypes ClpMath ClpKeeper.
From S2P Require Import ClpLiquidity ClpMsgs ClpMathSpec ClpStoreSpec ClpUnits ClpExec ClpEffects.
From S2P Require Import MarginTypes Margin MarginServer MarginExec.
Local Open Scope Z_scope.

(** ** Amounts of a position: unsigned integers *)
Definition amounts_ok (m : MTP) : Prop :=
  0 <= m.(CustodyAmount) ∧ 0 <= m.(Liabilities) ∧ 0 <= m.(InterestUnpaidCollateral).

(** ** The stores up to one pool and up to one position *)
Definition same_but_pool (p : Pool) (s s' : ClpStore) : Prop :=
  ∀ q, q.(ExternalAsset) = p.(ExternalAsset) → set_pool q s' = set_pool q s.
Definition same_but_mtp (k : string) (s s' : MarginStore) : Prop :=
  open_count s' = open_count s ∧ ∀ o, del_mtp k o s' = del_mtp k o s.

Lemma same_but_pool_refl p s : same_but_pool p s s.
Proof. done. Qed.
Lemma same_but_pool_set p q s :
  q.(ExternalAsset) = p.(ExternalAsset) → same_but_pool p s (set_pool q s).
Proof. intros E r Er. unfold set_pool. simpl. by rewrite Er, E, insert_insert_eq. Qed.
Lemma same_but_mtp_refl k s : same_but_mtp k s s.
Proof. done. Qed.
Lemma same_but_mtp_set m s : same_but_mtp (mtp_key m) s (set_mtp m s).
Proof.
  split; [done|]. intros o. unfold del_mtp, set_mtp. destruct s. simpl. by rewrite delete_insert_eq.
Qed.
Lemma mtp_key_terms m m' : same_terms m m' → mtp_key m' = mtp_key m.
Proof. intros (E1 & E2 & _). unfold mtp_key. by rewrite E1, E2. Qed.

Section effects.
Context {W : Type} {sdk : Sdk} {HL : SdkLaws sdk} {coins : CoinLib} {bank : BankKeeper W}
  {paginator : Paginator} {registry : TokenRegistryKeeper W} {admin : AdminKeeper W}
  {errs : SdkErrors} {clp : HasStore ClpStore W}
  {events : HasStore EventLog W} {margin : HasStore MarginStore W} {MW : MarginWorld W}
  {float : MarginFloat}.
Implicit Types (w : W) (m : MTP) (p : Pool).
Notation clp_of w := (store (S := ClpStore) w).
Notation margin_of w := (store (S := MarginStore) w).

(** An interest payment: of the custody, [c] leaves the pool's custody, [t] of it goes to the
    fund and the rest to the pool's balance. *)
Record charged m p w m' p' w' (c t : Z) (fund : AccAddress) : Prop := {
  ch_terms : same_terms m m';
  ch_amounts : amounts_ok m';
  ch_take : 0 <= t <= c;
  ch_custody : m'.(CustodyAmount) + c <= m.(CustodyAmount);
  ch_pool : pool_moved (custody_native m) (c - t) (- c) 0 0 p p';
  ch_pool_custody : c <= side_custody (custody_native m) p ∨ c = 0;
  ch_clp : same_but_pool p (clp_of w) (clp_of w');
  ch_margin : same_but_mtp (mtp_key m) (margin_of w) (margin_of w');
  ch_moved : moved GetCLPModuleAddress fund (single m.(CustodyAsset) t) w w';
  ch_fund : 0 < t →
    AccAddressFromBech32 (params_of (margin_of w)).(IncrementalInterestPaymentFundAddress) = Ok fund
}.

Lemma moved_none a b s w w' : still w w' → moved a b (single s 0) w w'.
Proof. intros S x d. rewrite (S x d). unfold single. repeat case_match; lia. Qed.

Lemma charged_quietly m p w m' p' w' :
  same_terms m m' → amounts_ok m' → m'.(CustodyAmount) <= m.(CustodyAmount) →
  pool_moved (custody_native m) 0 0 0 0 p p' → quietly w w' → charged m p w m' p' w' 0 0 "".
Proof.
  intros T A Hc Hm (C & G & S).
  split; simpl; try done; try lia; [by rewrite C|by rewrite G|by apply moved_none].
Qed.

Lemma enabled_read w on w' :
  GetIncrementalInterestPaymentEnabled w = (Ok on, w') →
  (params_of (margin_of w)).(IncrementalInterestPaymentEnabled) = on.
Proof. by intros [= ->]. Qed.

Lemma HandleInterestPayment_ok x m p w r e' :
  HandleInterestPayment x (mkEnv w m p) = (Ok r, e') →
  0 <= x → m.(Id) ≠ 0 → MTP_Validate m = Ok tt → Asset_Validate p.(ExternalAsset) = Ok true →
  amounts_ok m →
  ∃ w' m' p' c t fund, e' = mkEnv w' m' p' ∧ charged m p w m' p' w' c t fund ∧ 0 <= r ∧
    ∃ withheld, interest_charged w m p x c t m'.(InterestUnpaidCollateral) withheld ∧
      m'.(CustodyAmount) = m.(CustodyAmount) - c - withheld.
Proof.
  unfold HandleInterestPayment. intros H Hx Hid V Va (Hc & Hl & Hu). apply bind_ok in H as (on & e0 & E & H).
  pose proof E as Ee. apply readonly_ok in Ee; [|eauto with frame]. subst e0.
  apply on_world_ok in E as (w0 & E & _). apply enabled_read in E. destruct on.
  - apply bind_ok in H as (a & e1 & X & H). apply try_ok in X as [(b & -> & X)|(err & -> & X)].
    + apply ret_ok in H as [-> <-].
      apply IncrementalInterestPayment_ok in X as
        (w' & m' & p' & c & t & fund & -> & T & (Hch & Hsh & Hf) & Ht & Htc & Hcc & -> & Hc' & Hu' & Hsc & Hsb & Hm & C & G & B);
        [|done..].
      exists w', m', p', c, t, fund. split; [done|]. split; [|split; [lia|]].
      2: { exists 0. split; [|lia]. rewrite Hsh. by apply charge_made. }
      split; try done; try lia.
      * split; [lia|]. split; [|done]. by destruct T as (_&_&_&_&_& ->).
      * rewrite C. by apply same_but_pool_set, Hm.
      * rewrite G, <- (mtp_key_terms _ _ T). apply same_but_mtp_set.
    + apply ret_ok in H as [<- <-].
      apply IncrementalInterestPayment_err in X as (w' & m' & -> & T & Q & Hc' & Hle & Hu' & Hfail); [|done..].
      exists w', m', p, 0, 0, "". split; [done|]. split; [|split; [done|]].
      * apply charged_quietly; try done; [|apply pool_moved_refl].
        split; [lia|]. split; [|done]. by destruct T as (_&_&_&_&_& ->).
      * destruct Hfail as [(Hn & Hcu & ->)|(c & Hch & Hcu & Hf)].
        -- exists 0. split; [|lia]. by apply charge_refused.
        -- exists c. split; [|lia]. by apply charge_withheld.
  - inv_vars. exists w, (m <| InterestUnpaidCollateral := x |>), p, 0, 0, "".
    split; [done|]. split; [|split; [done|]].
    + apply charged_quietly; [done|done|simpl; lia|apply pool_moved_refl|apply quietly_refl].
    + exists 0. split; [by apply charge_noted|simpl; lia].
Qed.

Lemma CalcMTPInterestLiabilities_nonneg m rate k n x :
  CalcMTPInterestLiabilities m rate k n = Ok x → 0 <= x.
Proof.
  unfold CalcMTPInterestLiabilities. intros H. inv_ok.
  match goal with U : NewUintFromBigInt _ = Ok _ |- _ => apply uint_new_ok in U as [-> R] end.
  destruct (_ && _); inv_ok; lia.
Qed.

Lemma CalcMTPInterestLiabilities_due m rate k len x :
  CalcMTPInterestLiabilities m rate k len = Ok x → 0 < k → x = interest_due m rate k len.
Proof.
  unfold CalcMTPInterestLiabilities, interest_due. intros H Hk. rewrite (proj2 (Z.ltb_lt _ _) Hk) in H.
  apply rbind_ok in H as (q & Eq & H). apply rbind_ok in Eq as (r & Er & [= <-]).
  unfold rat_Quo, rat_SetInt in Er. destruct (Qeq_bool _ _); [done|]. injection Er as <-.
  apply rbind_ok in H as (n & En & H). apply uint_new_ok in En as [-> _].
  unfold rat_SetInt in H. by destruct (_ && _); injection H.
Qed.

(** Changes of a charged position and pool that do not touch the amounts. *)
Lemma charged_cosmetic m p w m1 p1 w1 c t fund m2 p2 :
  charged m p w m1 p1 w1 c t fund → same_terms m1 m2 → amounts_ok m2 →
  m2.(CustodyAmount) = m1.(CustodyAmount) → pool_moved (custody_native m) 0 0 0 0 p1 p2 →
  charged m p w m2 p2 w1 c t fund.
Proof.
  intros [] T A Hc Hm. split; try done.
  - by eapply same_terms_trans.
  - lia.
  - replace (c - t) with (c - t + 0) by lia. replace (- c) with (- c + 0) by lia.
    by eapply (pool_moved_trans _ _ _ 0 0 _ _ 0 0).
Qed.

Lemma pay_accrued_interest_ok ctx m p w u e' :
  pay_accrued_interest ctx (mkEnv w m p) = (Ok u, e') →
  m.(Id) ≠ 0 → MTP_Validate m = Ok tt → Asset_Validate p.(ExternalAsset) = Ok true →
  amounts_ok m →
  ∃ w' m' p' c t fund, e' = mkEnv w' m' p' ∧ charged m p w m' p' w' c t fund ∧
    ∃ withheld, interest_paid ctx w m p c t m'.(InterestUnpaidCollateral) withheld ∧
      m'.(CustodyAmount) = m.(CustodyAmount) - c - withheld.
Proof.
  unfold pay_accrued_interest. intros H Hid V Va A.
  apply bind_ok in H as (len & e0 & E & H).
  pose proof E as Ee. apply readonly_ok in Ee; [|eauto with frame]. subst e0.
  assert (len = (params_of (margin_of w)).(MarginTypes.EpochLength)) as -> by (by injection E).
  apply bind_ok in H as (pos & e0 & [Epos ->]%lift_ok & H). unfold interest_paid.
  destruct (Z.ltb_spec 0 pos) as [Hpos|Hpos].
  2: { apply ret_ok in H as [_ <-]. exists w, m, p, 0, 0, "". split; [done|]. split.
       - apply charged_quietly; [done|done|lia|apply pool_moved_refl|apply quietly_refl].
       - exists 0. split; [|lia]. exists pos. split; [done|]. rewrite (proj2 (Z.ltb_ge _ _) Hpos). done. }
  inv_vars.
  match goal with X : CalcMTPInterestLiabilities _ _ _ _ = Ok _ |- _ =>
    pose proof (CalcMTPInterestLiabilities_due _ _ _ _ _ X Hpos) as Hdue;
    apply CalcMTPInterestLiabilities_nonneg in X end.
  match goal with X : HandleInterestPayment _ _ = _ |- _ =>
    apply HandleInterestPayment_ok in X as (w1 & m1 & p1 & c & t & fund & -> & Ch & _ & withheld & Hi & Hc); [|done..] end.
  simpl in *.
  match goal with X : (if is_native _ then _ else _) _ = (Ok _, ?e1) |- _ =>
    assert (∃ p2, e1 = mkEnv w1 m1 p2 ∧ pool_moved (custody_native m) 0 0 0 0 p1 p2) as (p2 & -> & Hm) end.
  { destruct (is_native _); inv_vars; eexists; (split; [done|]);
      split; simpl; destruct (custody_native m); lia || done. }
  apply assign_health_ok in H as [h ->].
  eexists w1, _, p2, c, t, fund. split; [done|]. split.
  - eapply charged_cosmetic; [exact Ch|done|apply (ch_amounts _ _ _ _ _ _ _ _ _ Ch)|done|done].
  - exists withheld. simpl. split; [|done]. exists pos. split; [done|].
    rewrite (proj2 (Z.ltb_lt _ _) Hpos), <- Hdue. done.
Qed.

Lemma quote_stores s s' g g' k p q to x :
  same_but_pool p s s' → same_but_mtp k g g' → quote s' g' q to x = quote s g q to x.
Proof.
  intros Hs [_ Hg]. specialize (Hs p eq_refl). specialize (Hg 0).
  apply quote_ext; [exact (f_equal cs_PmtpRateParams Hs)|exact (f_equal cs_SwapFeeParams Hs)
    |exact (f_equal ms_Params Hg)|done..].
Qed.

(** *** Closing

    All that the position holds in custody ([a], less what an unpaid charge withheld) leaves the
    custody of the pool; [t] of it went to the interest fund.  The liabilities are written off;
    what remains of the swapped custody is paid to the owner, less the part of the second
    fund. *)
Record closing (ctx : Ctx) (take : bool) m p w w' (p' : Pool) (a t repay returned t2 : Z)
    (fund owner fund2 : AccAddress) (unpaid : Z) : Prop := {
  cl_fund : 0 < t →
    AccAddressFromBech32 (params_of (margin_of w)).(IncrementalInterestPaymentFundAddress) = Ok fund;
  cl_stored : ∃ m0, (margin_of w).(ms_MTPs) !! mtp_key m = Some m0;
  cl_take : 0 <= t <= a;
  cl_custody : a <= m.(CustodyAmount);
  cl_pool_custody : a <= side_custody (custody_native m) p;
  cl_debt : m.(Liabilities) <= side_debt (collateral_native m) p;
  cl_repay : 0 < repay;
  cl_unpaid : 0 <= unpaid;
  cl_returned : returned = Z.max 0 (repay - m.(Liabilities) - unpaid);
  cl_pool : ∃ p1, pool_moved (custody_native m) (a - t) (- a) 0 0 p p1 ∧
    repay < side_balance (collateral_native m) p1 ∧
    (∃ c withheld, interest_paid ctx w m p c t unpaid withheld ∧ a = m.(CustodyAmount) - withheld ∧
       t <= c ∧ 0 <= withheld ∧ c + withheld <= m.(CustodyAmount) ∧
       quote (clp_of w) (margin_of w) p1 m.(CollateralAsset) (m.(CustodyAmount) - c - withheld) = Ok repay) ∧
    pool_moved (collateral_native m) (- returned) 0 (- m.(Liabilities))
      (Z.max 0 (m.(Liabilities) + unpaid - repay)) p1 p';
  cl_clp : clp_of w' = set_pool p' (clp_of w);
  cl_margin : ∃ o, open_count (margin_of w) = Ok o ∧
    margin_of w' = del_mtp (mtp_key m) (uint64 (o - 1)) (margin_of w);
  cl_owner_part : 0 <= t2 <= returned ∧ (take = false → t2 = 0) ∧
    (0 < returned - t2 → AccAddressFromBech32 m.(Address) = Ok owner);
  cl_moved : ∃ w1, moved GetCLPModuleAddress fund (single m.(CustodyAsset) t) w w1 ∧
    shared_out m.(CollateralAsset) owner fund2 returned t2 w1 w'
}.

Lemma Repay_terms m1 m2 : same_terms m1 m2 → collateral_native m2 = collateral_native m1 ∧
  custody_native m2 = custody_native m1 ∧ m2.(Liabilities) = m1.(Liabilities) ∧
  m2.(CollateralAsset) = m1.(CollateralAsset) ∧ m2.(CustodyAsset) = m1.(CustodyAsset) ∧
  m2.(Address) = m1.(Address).
Proof.
  unfold collateral_native, custody_native. intros (E1 & E2 & E3 & E4 & E5 & E6).
  by rewrite E1, E3, E4, E6.
Qed.

Lemma settle_ok take ctx m p w e0 repay e' :
  pay_accrued_interest ctx (mkEnv w m p) = (Ok tt, e0) → settle take e0 = (Ok repay, e') →
  m.(Id) ≠ 0 → MTP_Validate m = Ok tt → Asset_Validate p.(ExternalAsset) = Ok true →
  amounts_ok m → is_Some ((margin_of w).(ms_MTPs) !! mtp_key m) →
  ∃ w' m' p' a t returned t2 fund owner fund2 unpaid, e' = mkEnv w' m' p' ∧
    closing ctx take m p w w' p' a t repay returned t2 fund owner fund2 unpaid.
Proof.
  intros Hp H Hid V Va A Hst.
  apply pay_accrued_interest_ok in Hp as
    (w1 & m1 & p1 & c & t & fund & -> & Ch & withheld & Hi & Hcu); [|done..].
  destruct (Repay_terms _ _ (ch_terms _ _ _ _ _ _ _ _ _ Ch)) as (Ec & Ek & El & Eca & Eka & Ea).
  pose proof (ch_amounts _ _ _ _ _ _ _ _ _ Ch) as (Ac & Al & Au).
  unfold settle in H. apply bind_ok in H as ([] & e1 & H1 & H).
  apply TakeOutCustody_ok in H1 as (p2 & -> & Va2 & Hk & _ & Hm2).
  inv_vars.
  match goal with X : CLPSwap _ _ _ _ = _ |- _ =>
    pose proof (CLPSwap_quote _ _ _ _ _ _ X ltac:(done)) as Hq; apply CLPSwap_ok in X as (-> & Hr & Hlt) end.
  match goal with X : Repay _ _ _ = _ |- _ => apply Repay_ok in X as
    (w' & m' & p' & o & m0 & owner & fund2 & t2 & -> & T' & Em0 & Eo & _ & Hret & Hdebt & Hm3 & C3 & G3 & Ht2 & Hf2 & Hown & Sh);
    [|lia|done..] end.
  simpl in *. margin_simpl.
  rewrite (mtp_key_terms _ _ (ch_terms _ _ _ _ _ _ _ _ _ Ch)) in *.
  fold (collateral_native m1) in *. rewrite Ec, Ek, El, Eca, Ea in *.
  destruct Ch as [T A1 Ht Hc Hm Hpc Hclp Hmtp B Hfund]. pose proof Hmtp as [Ho Hdel].
  pose proof (pool_moved_trans _ _ _ _ _ _ _ _ _ _ _ _ Hm Hm2) as Hm12.
  eexists w', m', p', (c + m1.(CustodyAmount)), t, _, t2, fund, owner, fund2,
    m1.(InterestUnpaidCollateral). split; [done|].
  assert (side_custody (custody_native m) p1 = side_custody (custody_native m) p - c) as Hsc.
  { destruct Hm. unfold side_custody. destruct (custody_native m); lia. }
  assert (side_debt (collateral_native m) p2 = side_debt (collateral_native m) p) as Hsd.
  { destruct Hm12. unfold side_debt. destruct (collateral_native m), (custody_native m); lia. }
  split; try done; try lia.
  - exists p2. split; [|split; [done|split; [|done]]].
    2: { exists c, withheld. split; [done|]. do 4 (split; [lia|]). rewrite <- Hcu, <- Hq.
         symmetry. eapply quote_stores; [|exact Hmtp]. intros q Eq. rewrite <- (Hclp q Eq).
         apply same_but_pool_set with (p := p); [by rewrite (pm_asset _ _ _ _ _ _ _ Hm12)|done]. }
    replace (c + CustodyAmount m1 - t) with (c - t + CustodyAmount m1) by lia.
    by replace (- (c + CustodyAmount m1)) with (- c + - CustodyAmount m1) by lia.
  - pose proof (pm_asset _ _ _ _ _ _ _ Hm12) as E12.
    pose proof (pm_asset _ _ _ _ _ _ _ Hm3) as E3.
    rewrite C3, (same_but_pool_set p' p2) by done. apply Hclp. congruence.
  - exists o. rewrite <- Ho, <- Hdel. done.
  - exists w1. split; [done|]. intros a d. rewrite (Sh a d), balance_put_clp. done.
Qed.

(** *** Opening: the collateral [x] comes in, the pool owes itself the liabilities and sets the
    custody aside. *)
Record opening (msg : MsgOpen) w w' (m : MTP) p (p' : Pool) (owner : AccAddress) : Prop := {
  op_owner : AccAddressFromBech32 msg.(mo_Signer) = Ok owner;
  op_pool : (clp_of w).(cs_Pools)
    !! pool_key (pool_asset msg.(mo_CollateralAsset) msg.(mo_BorrowAsset)) = Some p;
  op_terms : m.(Address) = msg.(mo_Signer) ∧ m.(CollateralAsset) = msg.(mo_CollateralAsset) ∧
    m.(CustodyAsset) = msg.(mo_BorrowAsset) ∧ m.(MtpPosition) = Position_LONG;
  op_valid : MTP_Validate m = Ok tt;
  op_amounts : amounts_ok m ∧ 0 <= msg.(mo_CollateralAmount);
  op_custody : 0 < m.(CustodyAmount) < side_balance (custody_native m) p;
  op_margin : ∃ n o, mtp_count (margin_of w) = Ok n ∧ open_count (margin_of w) = Ok o ∧
    m.(Id) = uint64 (n + 1) ∧
    margin_of w' = add_mtp m (uint64 (n + 1)) (uint64 (o + 1)) (margin_of w);
  op_pool_change : ∃ p1,
    pool_moved (collateral_native m) msg.(mo_CollateralAmount) 0 m.(Liabilities) 0 p p1 ∧
    m.(CustodyAmount) <= side_balance (custody_native m) p1 ∧
    pool_moved (custody_native m) (- m.(CustodyAmount)) m.(CustodyAmount) 0 0 p1 p';
  op_clp : clp_of w' = set_pool p' (clp_of w);
  op_moved : moved owner GetCLPModuleAddress
    (single msg.(mo_CollateralAsset) msg.(mo_CollateralAmount)) w w'
}.

Lemma GetPoolOf_ok a b w p w' :
  GetPoolOf a b w = (Ok p, w') → w' = w ∧ (clp_of w).(cs_Pools) !! pool_key (pool_asset a b) = Some p.
Proof. unfold GetPoolOf. intros H. inv_clp. done. Qed.
Lemma ro_GetPoolOf a b : readonly (GetPoolOf (W := W) a b).
Proof. unfold GetPoolOf. solve_frame. Qed.

Lemma cosmetic_moved n p h : pool_moved n 0 0 0 0 p (p <| Health := h |>).
Proof. split; destruct n; simpl; lia || done. Qed.


Lemma open_position_ok msg x eta w m p u w' m' p' :
  open_position msg x eta (mkEnv w m p) = (Ok u, mkEnv w' m' p') →
  m = NewMTP msg.(mo_Signer) msg.(mo_CollateralAsset) msg.(mo_BorrowAsset) Position_LONG m.(Leverage) →
  (clp_of w).(cs_Pools) !! pool_key (pool_asset msg.(mo_CollateralAsset) msg.(mo_BorrowAsset)) = Some p →
  0 < x < side_balance (is_native msg.(mo_BorrowAsset)) p →
  ∃ owner, opening msg w w' m' p p' owner.
Proof.
  unfold open_position. intros H Em Ep Hx.
  apply bind_ok in H as ([] & e1 & E & H). apply Borrow_ok in E as
    (owner & n & o & w1 & m1 & p1 & -> & Ea & En & Eo & (T1 & T2 & T3 & T4 & T5 & T6 & T7) &
     Hc & Hcx & Hl & Hamt & _ & _ & _ & Hm1 & C1 & G1 & B1); [|by rewrite Em].
  apply bind_ok in H as ([] & e2 & E & H). apply UpdatePoolHealth_ok in E as [h ->].
  apply bind_ok in H as ([] & e3 & E & H). apply TakeInCustody_ok in E as (p3 & -> & Hb & _ & Hm3).
  inv_env. rewrite Em in *. simpl in *.
  exists owner. split; try done.
  - split; [split; [done|split; [done|]]|done]. by rewrite T7.
  - unfold custody_native. rewrite T3, Hcx. simpl. lia.
  - exists n, o. split; [done|]. split; [done|]. split; [done|]. by margin_simpl.
  - exists p1. unfold collateral_native in *. rewrite T2 in *. simpl in *.
    split; [done|]. split; [done|]. destruct Hm3. by split.
  - margin_simpl. rewrite C1. unfold set_pool. simpl.
    rewrite (pm_asset _ _ _ _ _ _ _ Hm3). simpl. by rewrite !insert_insert_eq.
  - eapply moved_still_r; [exact B1|]. eapply still_trans; apply still_put_clp.
Qed.

Lemma opening_event msg w w1 w' m p p' owner :
  opening msg w w1 m p p' owner → quietly w1 w' → opening msg w w' m p p' owner.
Proof.
  intros [] (C & G & S). split; try done.
  - by rewrite G.
  - by rewrite C.
  - by eapply moved_still_r.
Qed.

Lemma Open_ok msg w u w' :
  Open msg w = (Ok u, w') → ∃ m p p' owner, opening msg w w' m p p' owner.
Proof.
  unfold Open. intros H. apply bind_ok in H as (wl & w0 & E%readonly_ok & H); [|eauto with frame]. subst w0.
  inv_env. destruct msg.(mo_Position) eqn:Epos; try (by inv_env).
  repeat match goal with X : GetPoolOf _ _ _ = _ |- _ => apply GetPoolOf_ok in X as (-> & _) end.
  match goal with X : OpenLong _ _ = _ |- _ => rename X into H; unfold OpenLong in H end.
  inv_env. rewrite Epos in *.
  match goal with X : GetPoolOf _ _ _ = _ |- _ => apply GetPoolOf_ok in X as (-> & Ep) end.
  match goal with X : CLPSwap _ _ _ _ = _ |- _ => apply CLPSwap_ok in X as (_ & Hx) end.
  match goal with X : with_vars _ _ _ _ = _ |- _ => apply with_vars_ok in X end.
  match goal with X : open_position _ _ _ _ = _ |- _ =>
    apply open_position_ok in X as (owner & X); [|done..]; eexists _, _, _, owner; eapply opening_event; [exact X|] end.
  eapply EmitEvent_quietly. by apply EmitEvent_ok.
  Unshelve. exact tt.
Qed.

(** *** The handlers that close *)
Definition stored_ok (s : MarginStore) (k : string) m : Prop :=
  s.(ms_MTPs) !! k = Some m → k = mtp_key m ∧ MTP_Validate m = Ok tt ∧ amounts_ok m.
Definition mtps_ok (s : MarginStore) : Prop := ∀ k m, stored_ok s k m.
Definition assets_valid (s : ClpStore) : Prop :=
  ∀ k p, s.(cs_Pools) !! k = Some p → Asset_Validate p.(ExternalAsset) = Ok true.

Lemma MTP_Validate_id m : MTP_Validate m = Ok tt → m.(Id) ≠ 0.
Proof. unfold MTP_Validate, require. repeat case_match; try done. intros _. by apply Z.eqb_neq, negb_true_iff. Qed.

(** A closed position, whoever closed it. *)
Definition closed (ctx : Ctx) (take : bool) (address : string) (id : Z) m p p' (repay a t returned t2 unpaid : Z)
    (owner : AccAddress) w w' : Prop :=
  (margin_of w).(ms_MTPs) !! GetMTPKey address id = Some m ∧
  (clp_of w).(cs_Pools) !! pool_key (pool_asset m.(CollateralAsset) m.(CustodyAsset)) = Some p ∧
  ∃ fund fund2, closing ctx take m p w w' p' a t repay returned t2 fund owner fund2 unpaid.

Lemma closing_event ctx take m p w w1 w' p' a t repay returned t2 fund owner fund2 unpaid :
  closing ctx take m p w w1 p' a t repay returned t2 fund owner fund2 unpaid → quietly w1 w' →
  closing ctx take m p w w' p' a t repay returned t2 fund owner fund2 unpaid.
Proof.
  intros [] (C & G & S). split; try done.
  - by rewrite C.
  - by rewrite G.
  - destruct cl_moved0 as (w2 & B & Sh). exists w2. split; [done|]. intros x d. rewrite (S x d). apply Sh.
Qed.

(** The run that closes the position [id] of [address]. *)
Definition closes (ctx : Ctx) (take : bool) (address : string) (id : Z) w w' : Prop :=
  ∃ m p x w1 ev,
    (margin_of w).(ms_MTPs) !! GetMTPKey address id = Some m ∧
    (clp_of w).(cs_Pools) !! pool_key (pool_asset m.(CollateralAsset) m.(CustodyAsset)) = Some p ∧
    with_vars m p (_ ← pay_accrued_interest ctx; settle take) w = (Ok x, w1) ∧
    EmitEvent ev w1 = (Ok tt, w').

Lemma closes_closed ctx take address id w w' :
  closes ctx take address id w w' → mtps_ok (margin_of w) → assets_valid (clp_of w) →
  ∃ m p p' repay a t returned t2 unpaid owner,
    closed ctx take address id m p p' repay a t returned t2 unpaid owner w w'.
Proof.
  intros (m & p & [[repay m'] p'] & w1 & ev & Em & Ep & H & Ev) Hm Ha.
  destruct (Hm _ _ Em) as (Ek & V & A). rewrite with_vars_ok in H.
  apply bind_ok in H as ([] & e1 & H1 & H).
  eapply settle_ok in H as (w2 & m2 & p2 & a & t & r & t2 & fund & owner & fund2 & un & E & Cl);
    [|exact H1|by apply MTP_Validate_id|done|by eapply Ha|done|rewrite <- Ek; by rewrite Em].
  simplify_eq. exists m, p, p2, repay, a, t, r, t2, un, owner. split; [done|]. split; [done|].
  exists fund, fund2. eapply closing_event; [exact Cl|]. by eapply EmitEvent_quietly.
Qed.

Lemma Close_ok ctx msg w u w' :
  Close ctx msg w = (Ok u, w') → closes ctx false msg.(mc_Signer) msg.(mc_Id) w w'.
Proof.
  unfold Close. intros H. apply bind_ok in H as (m & w0 & [-> Em]%GetMTP_ok & H).
  apply bind_ok in H as (x & w1 & E & H). destruct u.
  destruct m.(MtpPosition); try (by inv_ok). unfold CloseLong in E.
  apply bind_ok in E as (m' & w2 & [-> Em']%GetMTP_ok & E). simplify_eq.
  apply bind_ok in E as (p & w2 & [-> Ep]%GetPoolOf_ok & E).
  apply bind_ok in E as ([[r m2] p2] & w2 & E & R). apply ret_ok in R as [_ ->].
  by exists m, p, (r, m2, p2), w1, EventClose.
Qed.

Lemma ForceCloseLong_ok ctx adm take e x e' :
  ForceCloseLong ctx adm take e = (Ok x, e') →
  (_ ← pay_accrued_interest ctx; settle take) e = (Ok x, e').
Proof.
  unfold ForceCloseLong. intros H.
  apply bind_ok in H as (sf & e0 & E%readonly_ok & H); [|eauto with frame]. subst e0.
  apply bind_ok in H as ([] & e1 & E & H).
  apply bind_ok in H as (m & e2 & [_ ->]%the_mtp_ok & H).
  apply bind_ok in H as (? & e2 & [_ ->]%throw_if_ok & H).
  by rewrite (bind_run _ _ _ _ _ E).
Qed.

Lemma admin_close_ok ctx address id take w u w' :
  admin_close ctx address id take w = (Ok u, w') → closes ctx take address id w w'.
Proof.
  unfold admin_close. intros H. apply bind_ok in H as (m & w0 & [-> Em]%GetMTP_ok & H).
  apply bind_ok in H as (x & w1 & E & H). destruct u.
  destruct m.(MtpPosition); try (by inv_ok).
  apply bind_ok in E as (p & w2 & [-> Ep]%GetPoolOf_ok & E).
  destruct x as [[r m2] p2]. rewrite with_vars_ok in E. apply ForceCloseLong_ok in E.
  rewrite <- with_vars_ok in E. by exists m, p, (r, m2, p2), w1, EventAdminClose.
Qed.
End effects.
