(* ===== verification/MarginInv.v ===== *)
(** * MarginInv: the well-formed store of x/margin

    Positions are stored under their owner and id, ids are never reused, and the counter of open
    positions is their number.  The bytes of the counters, the definition of the invariant, and
    how each write of the store changes it. *)

From S2P Require Import Prelude Sdk Rat Float Bank Keepers ClpTypes ClpMath ClpKeeper.
From S2P Require Import ClpLiquidity ClpMsgs ClpStoreSpec ClpUnits ClpExec ClpEffects.
From S2P Require Import MarginTypes Margin MarginServer MarginExec MarginEffects.
Local Open Scope Z_scope.

(** ** Counters and ids as bytes *)
Lemma ascii_of_byte z : 0 <= z < 256 → Z.of_nat (Ascii.nat_of_ascii (ascii_of (Z.to_nat z))) = z.
Proof. intros. unfold ascii_of. rewrite Ascii.nat_ascii_embedding; lia. Qed.

Lemma list_ascii_bytes n :
  String.list_ascii_of_string (GetUint64Bytes n) = (λ i, byte_at i n) <$> [7; 6; 5; 4; 3; 2; 1; 0].
Proof. apply String.list_ascii_of_string_of_list_ascii. Qed.

Lemma GetUint64_bytes n : 0 <= n < 2 ^ 64 → GetUint64FromBytes (GetUint64Bytes n) = Ok n.
Proof.
  intros Hn. unfold GetUint64FromBytes. rewrite list_ascii_bytes. simpl. f_equal.
  unfold byte_at. rewrite !ascii_of_byte by (apply Z.mod_pos_bound; lia).
  change (2 ^ (8 * 7)) with 72057594037927936. change (2 ^ (8 * 6)) with 281474976710656.
  change (2 ^ (8 * 5)) with 1099511627776. change (2 ^ (8 * 4)) with 4294967296.
  change (2 ^ (8 * 3)) with 16777216. change (2 ^ (8 * 2)) with 65536.
  change (2 ^ (8 * 1)) with 256. change (2 ^ (8 * 0)) with 1. change (2 ^ 64) with 18446744073709551616 in Hn.
  Z.to_euclidean_division_equations. lia.
Qed.
Lemma stored_bytes n : 0 <= n < 2 ^ 64 → stored_uint64 (Some (GetUint64Bytes n)) = Ok n.
Proof. apply GetUint64_bytes. Qed.

Lemma string_app_inv a b c d :
  String.length c = String.length d → a +:+ c = b +:+ d → a = b ∧ c = d.
Proof.
  intros Hl E. assert (String.length a = String.length b) as Hab.
  { apply (f_equal String.length) in E. rewrite !string_length_app in E. lia. }
  revert b Hab E. induction a as [|x a IH]; intros [|y b] Hab E; simpl in Hab; try lia;
    rewrite ?string_app_nil, ?string_app_cons in E; [done|].
  injection E as -> E. by destruct (IH b ltac:(lia) E) as [-> ->].
Qed.
Lemma bytes_inj i j : 0 <= i < 2 ^ 64 → 0 <= j < 2 ^ 64 → GetUint64Bytes i = GetUint64Bytes j → i = j.
Proof. intros Hi Hj E. apply GetUint64_bytes in Hi, Hj. rewrite E in Hi. congruence. Qed.
Lemma GetMTPKey_inj a b i j :
  0 <= i < 2 ^ 64 → 0 <= j < 2 ^ 64 → GetMTPKey a i = GetMTPKey b j → a = b ∧ i = j.
Proof.
  intros Hi Hj E. injection E as E. apply string_app_inv in E as [-> E]; [|done].
  split; [done|]. by apply bytes_inj.
Qed.

(** ** The invariant *)
Record positions_ok (s : MarginStore) : Prop := {
  po_counts : ∃ n, mtp_count s = Ok n ∧ 0 <= n < 2 ^ 64 ∧
    open_count s = Ok (Z.of_nat (size s.(ms_MTPs))) ∧ Z.of_nat (size s.(ms_MTPs)) <= n ∧
    ∀ k m, s.(ms_MTPs) !! k = Some m → 0 < m.(Id) <= n;
  po_stored : mtps_ok s;
  po_unique k1 k2 m1 m2 : s.(ms_MTPs) !! k1 = Some m1 → s.(ms_MTPs) !! k2 = Some m2 →
    m1.(Id) = m2.(Id) → k1 = k2
}.

Lemma positions_same s s' :
  s'.(ms_MTPs) = s.(ms_MTPs) → s'.(ms_MTPCount) = s.(ms_MTPCount) →
  s'.(ms_OpenMTPCount) = s.(ms_OpenMTPCount) → positions_ok s → positions_ok s'.
Proof.
  intros E1 E2 E3 []. split; unfold mtps_ok, stored_ok, mtp_count, open_count in *; rewrite E1; try done.
  by rewrite E2, E3.
Qed.

(** Before the first position. *)
Lemma positions_empty s :
  s.(ms_MTPs) = ∅ → s.(ms_MTPCount) = None → s.(ms_OpenMTPCount) = None → positions_ok s.
Proof.
  intros E1 E2 E3. split; unfold mtps_ok, stored_ok, mtp_count, open_count; rewrite E1, ?E2, ?E3.
  - exists 0. split; [done|]. split; [lia|]. split; [done|]. split; [done|]. by intros k m E%lookup_empty_Some.
  - by intros k m E%lookup_empty_Some.
  - by intros k1 k2 m1 m2 E%lookup_empty_Some.
Qed.

Section writes.
Implicit Types (s : MarginStore) (m : MTP).

(** A stored position is written again. *)
Lemma positions_set s m m0 :
  positions_ok s → s.(ms_MTPs) !! mtp_key m = Some m0 → m.(Id) = m0.(Id) →
  MTP_Validate m = Ok tt → amounts_ok m → positions_ok (set_mtp m s).
Proof.
  intros [(n & En & Hn & Eo & Hs & Hid) Hst Hu] E Ei V A.
  assert (size (ms_MTPs (set_mtp m s)) = size (ms_MTPs s)) as Esz
    by (by apply map_size_insert_Some).
  split.
  - exists n. split; [done|]. split; [done|]. rewrite Esz. split; [done|]. split; [done|].
    intros k q. unfold set_mtp. simpl. rewrite lookup_insert_Some. intros [[<- <-]|[_ Eq]]; [|by eapply Hid].
    rewrite Ei. by eapply Hid.
  - intros k q. unfold stored_ok, set_mtp. simpl. rewrite lookup_insert_Some.
    intros [[<- <-]|[_ Eq]]; [done|by apply Hst].
  - intros k1 k2 m1 m2. unfold set_mtp. simpl. rewrite !lookup_insert_Some.
    intros [[<- <-]|[N1 E1]] [[<- <-]|[N2 E2]] Em; try done.
    + eapply (Hu _ _ m0 m2); congruence.
    + eapply (Hu _ _ m1 m0); congruence.
    + by eapply Hu.
Qed.

Lemma mtp_count_add m c o s : mtp_count (add_mtp m c o s) = stored_uint64 (Some (GetUint64Bytes c)).
Proof. done. Qed.
Lemma open_count_add m c o s : open_count (add_mtp m c o s) = stored_uint64 (Some (GetUint64Bytes o)).
Proof. done. Qed.
Lemma open_count_del k o s : open_count (del_mtp k o s) = stored_uint64 (Some (GetUint64Bytes o)).
Proof. done. Qed.

(** A new position gets the next id; when the ids have run out, it is not valid. *)
Lemma positions_add s m n o :
  positions_ok s → mtp_count s = Ok n → open_count s = Ok o → m.(Id) = uint64 (n + 1) →
  MTP_Validate m = Ok tt → amounts_ok m →
  positions_ok (add_mtp m (uint64 (n + 1)) (uint64 (o + 1)) s) ∧ s.(ms_MTPs) !! mtp_key m = None.
Proof.
  intros [(n' & En' & Hn & Eo' & Hs & Hid) Hst Hu] En Eo Ei V A.
  assert (n' = n) as -> by congruence. assert (o = Z.of_nat (size (ms_MTPs s))) as -> by congruence.
  assert (uint64 (n + 1) = n + 1 ∧ n + 1 < 2 ^ 64) as [Ew Hlt].
  { apply MTP_Validate_id in V. rewrite Ei in V.
    destruct (Z.eq_dec (n + 1) (2 ^ 64)) as [E|E]; [by rewrite E in V|].
    split; [apply uint64_id|]; lia. }
  assert (s.(ms_MTPs) !! mtp_key m = None) as Hfresh.
  { destruct (_ !! _) as [q|] eqn:Eq; [|done]. destruct (Hst _ _ Eq) as (Ek & _).
    pose proof (Hid _ _ Eq). apply GetMTPKey_inj in Ek as [_ Ek]; lia. }
  split; [|done].
  assert (size (ms_MTPs (add_mtp m (uint64 (n + 1)) (uint64 (Z.of_nat (size s.(ms_MTPs)) + 1)) s))
    = S (size (ms_MTPs s))) as Esz by (by apply map_size_insert_None).
  split.
  - exists (n + 1). rewrite Esz, mtp_count_add, open_count_add.
    rewrite Ew, stored_bytes by lia. split; [done|]. split; [lia|].
    rewrite uint64_id, stored_bytes by lia. split; [f_equal; lia|]. split; [lia|].
    intros k q. change (ms_MTPs (add_mtp m ?c ?o s)) with (<[mtp_key m := m]> (ms_MTPs s)). rewrite lookup_insert_Some. intros [[_ <-]|[_ Eq]]; [lia|].
    apply Hid in Eq. lia.
  - intros k q. unfold stored_ok, add_mtp, set_mtp. simpl. rewrite lookup_insert_Some.
    intros [[<- <-]|[_ Eq]]; [done|by apply Hst].
  - intros k1 k2 m1 m2. unfold add_mtp, set_mtp. simpl. rewrite !lookup_insert_Some.
    intros [[<- <-]|[N1 E1]] [[<- <-]|[N2 E2]] Em; try done.
    + apply Hid in E2. lia.
    + apply Hid in E1. lia.
    + by eapply Hu.
Qed.

Lemma positions_del s k m o :
  positions_ok s → s.(ms_MTPs) !! k = Some m → open_count s = Ok o →
  positions_ok (del_mtp k (uint64 (o - 1)) s).
Proof.
  intros [(n & En & Hn & Eo' & Hs & Hid) Hst Hu] E Eo.
  assert (o = Z.of_nat (size (ms_MTPs s))) as -> by congruence.
  assert (size (delete k (ms_MTPs s)) = Nat.pred (size (ms_MTPs s))) as Esz
    by (by apply map_size_delete_Some).
  assert (size (ms_MTPs s) ≠ 0%nat) as Hne.
  { intros Z0%map_size_empty_inv. rewrite Z0 in E. done. }
  split.
  - exists n. rewrite open_count_del.
    change (ms_MTPs (del_mtp k ?o s)) with (delete k (ms_MTPs s)). rewrite Esz.
    split; [done|]. split; [done|]. rewrite uint64_id, stored_bytes by lia.
    split; [f_equal; lia|]. split; [lia|].
    intros k' q. unfold del_mtp. simpl. intros [_ Eq]%lookup_delete_Some. by eapply Hid.
  - intros k' q. unfold stored_ok, del_mtp. simpl. intros [_ Eq]%lookup_delete_Some. by apply Hst.
  - intros k1 k2 m1 m2. unfold del_mtp. simpl. intros [_ E1]%lookup_delete_Some [_ E2]%lookup_delete_Some. by eapply Hu.
Qed.
End writes.

(** ** What a message does *)
Section messages.
Context {W : Type} {sdk : Sdk} {HL : SdkLaws sdk} {coins : CoinLib} {bank : BankKeeper W}
  {paginator : Paginator} {registry : TokenRegistryKeeper W} {admin : AdminKeeper W}
  {errs : SdkErrors} {clp : HasStore ClpStore W}
  {events : HasStore EventLog W} {margin : HasStore MarginStore W} {MW : MarginWorld W}
  {float : MarginFloat}.
Implicit Types (w : W) (m : MTP) (p : Pool).
Notation clp_of w := (store (S := ClpStore) w).
Notation margin_of w := (store (S := MarginStore) w).

(** Only parameters and the whitelist changed. *)
Definition administered w w' : Prop :=
  clp_of w' = clp_of w ∧ (margin_of w').(ms_MTPs) = (margin_of w).(ms_MTPs) ∧
  (margin_of w').(ms_MTPCount) = (margin_of w).(ms_MTPCount) ∧
  (margin_of w').(ms_OpenMTPCount) = (margin_of w).(ms_OpenMTPCount) ∧ still w w'.

Lemma administered_refl w : administered w w.
Proof. done. Qed.
Lemma administered_trans w1 w2 w3 : administered w1 w2 → administered w2 w3 → administered w1 w3.
Proof.
  intros (C1&A1&B1&D1&S1) (C2&A2&B2&D2&S2). repeat (split; [congruence|]). by eapply still_trans.
Qed.
Lemma quietly_administered w w' : quietly w w' → administered w w'.
Proof. intros (C & G & S). unfold administered. by rewrite C, G. Qed.
Lemma upd_administered f w u w' :
  upd_margin f w = (Ok u, w') → (∀ s, (f s).(ms_MTPs) = s.(ms_MTPs) ∧
    (f s).(ms_MTPCount) = s.(ms_MTPCount) ∧ (f s).(ms_OpenMTPCount) = s.(ms_OpenMTPCount)) →
  administered w w'.
Proof.
  intros ->%upd_margin_ok Hf. destruct (Hf (margin_of w)) as (E1 & E2 & E3).
  unfold administered. margin_simpl. repeat (split; [done|]). apply still_put_margin.
Qed.
Lemma SetParams_administered params w u w' : SetParams params w = (Ok u, w') → administered w w'.
Proof. unfold SetParams. intros H. inv_ok. by eapply upd_administered. Qed.

Lemma ro_require_MARGIN s : readonly (require_MARGIN (W := W) s).
Proof. unfold require_MARGIN. solve_frame. Qed.
#[local] Hint Resolve ro_require_MARGIN : frame.

Ltac inv_admin :=
  inv_env; repeat match goal with
  | X : require_MARGIN _ _ = _ |- _ => apply (readonly_ok _ _ _ _ (ro_require_MARGIN _)) in X as ->
  end.

Inductive message_case (msg : MarginMsg) w w' : Prop :=
| case_open mo m p p' owner (E : msg = AMsgOpen mo) (O : opening mo w w' m p p' owner)
| case_close ctx take address id (C : closes ctx take address id w w')
| case_administered (A : administered w w').

Lemma message_cases ctx msg w u w' :
  NewLegacyHandler ctx msg w = (Ok u, w') → message_case msg w w'.
Proof.
  intros H. destruct msg; simpl in H.
  - apply Open_ok in H as (m1 & p & p' & owner & O). by eapply case_open.
  - apply Close_ok in H. by eapply case_close.
  - unfold ForceClose in H. inv_admin. apply admin_close_ok in H. by eapply case_close.
  - unfold UpdateParams in H. inv_admin. apply case_administered.
    eapply administered_trans; [by eapply SetParams_administered|].
    eapply quietly_administered, (EmitEvent_quietly _ _ tt). by apply EmitEvent_ok.
  - unfold UpdatePools in H. inv_admin. apply case_administered. by eapply SetParams_administered.
  - unfold UpdateFuryCollateral in H. inv_admin. apply case_administered.
    by eapply SetParams_administered.
  - unfold Whitelist in H. inv_admin. apply case_administered. by eapply upd_administered.
  - unfold Dewhitelist in H. inv_admin. apply case_administered. by eapply upd_administered.
  - unfold AdminClose in H. inv_admin. apply admin_close_ok in H. by eapply case_close.
  - unfold AdminCloseAll in H. inv_admin. apply case_administered.
    eapply administered_trans; [by eapply SetParams_administered|].
    eapply quietly_administered, (EmitEvent_quietly _ _ tt). by apply EmitEvent_ok.
Qed.

(** The same with the closing as its effect. *)
Inductive message_effect (msg : MarginMsg) w w' : Prop :=
| opened mo m p p' owner (E : msg = AMsgOpen mo) (O : opening mo w w' m p p' owner)
| was_closed ctx take address id m p p' repay a t returned t2 unpaid owner
    (C : closed ctx take address id m p p' repay a t returned t2 unpaid owner w w')
| was_administered (A : administered w w').

Lemma message_ok ctx msg w u w' :
  NewLegacyHandler ctx msg w = (Ok u, w') → mtps_ok (margin_of w) → assets_valid (clp_of w) →
  message_effect msg w w'.
Proof.
  intros H%message_cases Hm Ha. destruct H.
  - by eapply opened.
  - apply closes_closed in C as (?&?&?&?&?&?&?&?&?&?&C); [|done..]. by eapply was_closed.
  - by apply was_administered.
Qed.

(** ** The invariant after a message *)
Lemma message_positions msg w w' :
  message_effect msg w w' → positions_ok (margin_of w) → positions_ok (margin_of w').
Proof.
  intros [mo m p p' owner E []|ctx take address id m p p' repay a t returned t2 unpaid owner C|A] Hok.
  - destruct op_margin as (n & o & En & Eo & Ei & ->). by apply positions_add; try apply op_amounts.
  - destruct C as (Em & Ep & fund & fund2 & []). destruct cl_margin as (o & Eo & ->).
    destruct cl_stored as (m0 & E0). by eapply positions_del.
  - destruct A as (_ & E1 & E2 & E3 & _). by eapply positions_same.
Qed.
Lemma message_assets msg w w' :
  message_effect msg w w' → assets_valid (clp_of w) → assets_valid (clp_of w').
Proof.
  assert (∀ p p' k, (clp_of w).(cs_Pools) !! k = Some p → p'.(ExternalAsset) = p.(ExternalAsset) →
    assets_valid (clp_of w) → assets_valid (set_pool p' (clp_of w))) as Hset.
  { intros p p' k Ep Ea Hv k' q. unfold set_pool. simpl. rewrite lookup_insert_Some.
    intros [[_ <-]|[_ E]]; [rewrite Ea|]; by eapply Hv. }
  intros [mo m p p' owner E []|ctx take address id m p p' repay a t returned t2 unpaid owner C|A] Hv.
  - rewrite op_clp. destruct op_pool_change as (p1 & H1 & _ & H2).
    eapply Hset; [exact op_pool| |done].
    by rewrite (pm_asset _ _ _ _ _ _ _ H2), (pm_asset _ _ _ _ _ _ _ H1).
  - destruct C as (Em & Ep & fund & fund2 & []). rewrite cl_clp.
    destruct cl_pool as (p1 & H1 & _ & _ & H2).
    eapply Hset; [exact Ep| |done].
    by rewrite (pm_asset _ _ _ _ _ _ _ H2), (pm_asset _ _ _ _ _ _ _ H1).
  - destruct A as (-> & _). done.
Qed.
End messages.
