(* ===== verification/MarginBlock.v ===== *)
(** * MarginBlock: the begin blocker of x/margin keeps the positions well formed

    BeginBlockerProcessMTP recovers from panics, so what a position's processing wrote before it
    stopped stays.  The invariant is therefore carried through every outcome, step by step:
    [leads P Q m] says that from [P], [m] ends in [Q] however it ends. *)

From S2P Require Import Prelude Sdk Rat Float Bank Keepers ClpTypes ClpMath ClpKeeper.
From S2P Require Import ClpLiquidity ClpMsgs ClpMathSpec ClpStoreSpec ClpUnits ClpExec ClpEffects.
From S2P Require Import MarginTypes Margin MarginServer MarginExec MarginEffects MarginInv.
Local Open Scope Z_scope.

(** ** Every outcome *)
Definition leads {S A} (P Q : S → Prop) (m : Prelude.M S A) : Prop := ∀ s, P s → Q (m s).2.

Section leads.
Context {S : Type} (P Q : S → Prop).
Lemma leads_bind {A B} (m : Prelude.M S A) (k : A → Prelude.M S B) :
  (∀ s, P s → Q s) → leads P P m → (∀ a, leads P Q (k a)) → leads P Q (m ≫= k).
Proof.
  intros HPQ Hm Hk s Hs. specialize (Hm s Hs). unfold mbind, M_bind.
  destruct (m s) as [[a|e|] s1]; simpl in *; auto. by apply Hk.
Qed.
Lemma leads_bind_last {A B} (m : Prelude.M S A) (k : A → Prelude.M S B) :
  leads P Q m → (∀ a, leads Q Q (k a)) → leads P Q (m ≫= k).
Proof.
  intros Hm Hk s Hs. specialize (Hm s Hs). unfold mbind, M_bind.
  destruct (m s) as [[a|e|] s1]; simpl in *; auto. by apply Hk.
Qed.
(** A checked computation: the rest may use that it succeeded. *)
Lemma leads_lift {A B} (r : res A) (k : A → Prelude.M S B) :
  (∀ s, P s → Q s) → (∀ a, r = Ok a → leads P Q (k a)) → leads P Q (lift r ≫= k).
Proof.
  intros HPQ Hk s Hs. unfold mbind, M_bind, lift. destruct r as [a|e|]; simpl; auto. by apply Hk.
Qed.
Lemma leads_ret {A} (a : A) : (∀ s, P s → Q s) → leads P Q (mret a).
Proof. intros H s. apply H. Qed.
Lemma leads_const {A} (m : Prelude.M S A) : (∀ s, P s → Q s) → (∀ s, (m s).2 = s) → leads P Q m.
Proof. intros H Hm s Hs. rewrite Hm. by apply H. Qed.
Lemma leads_weaken {A} (P' Q' : S → Prop) (m : Prelude.M S A) :
  (∀ s, P s → P' s) → (∀ s, Q' s → Q s) → leads P' Q' m → leads P Q m.
Proof. intros H1 H2 Hm s Hs. by apply H2, Hm, H1. Qed.
Lemma leads_try {A} (m : Prelude.M S A) : leads P Q m → leads P Q (try m).
Proof. intros Hm s Hs. specialize (Hm s Hs). unfold try. by destruct (m s) as [[]]. Qed.
Lemma leads_ignore (m : Prelude.M S unit) : leads P Q m → leads P Q (ignore_err m).
Proof. intros Hm s Hs. specialize (Hm s Hs). unfold ignore_err, on_err. by destruct (m s) as [[]]. Qed.
Lemma leads_recovering (m : Prelude.M S unit) : leads P Q m → leads P Q (recovering m).
Proof. intros Hm s Hs. specialize (Hm s Hs). unfold recovering. by destruct (m s) as [[]]. Qed.
End leads.

Section block.
Context {W : Type} {sdk : Sdk} {HL : SdkLaws sdk} {coins : CoinLib} {bank : BankKeeper W}
  {paginator : Paginator} {HP : PaginatorLaws paginator}
  {registry : TokenRegistryKeeper W} {clp : HasStore ClpStore W}
  {events : HasStore EventLog W} {margin : HasStore MarginStore W} {MW : MarginWorld W}
  {float : MarginFloat}.
Implicit Types (w : W) (m : MTP) (p : Pool).
Notation margin_of w := (store (S := MarginStore) w).
Notation keys_in D w := (∀ k : string, k ∈ D → is_Some ((margin_of w).(ms_MTPs) !! k)).

(** The position variable is a version of a stored position. *)
Definition var_ok (k : string) m : Prop :=
  mtp_key m = k ∧ 0 < m.(Id) < 2 ^ 64 ∧ MTP_Validate m = Ok tt ∧ amounts_ok m.
(** While the position [k] is processed; [D] are the keys of the positions still to process. *)
Definition during (D : list string) (k : string) (e : Env W) : Prop :=
  positions_ok (margin_of e.(e_world)) ∧ keys_in D e.(e_world) ∧
  is_Some ((margin_of e.(e_world)).(ms_MTPs) !! k) ∧ var_ok k e.(e_mtp).
(** Afterwards it may be gone. *)
Definition after (D : list string) (e : Env W) : Prop :=
  positions_ok (margin_of e.(e_world)) ∧ keys_in D e.(e_world).

Lemma during_after D k e : during D k e → after D e.
Proof. intros (H1 & H2 & _). done. Qed.

(** *** Code that does not touch the positions *)
Notation deaf m := (preserves (store (S := MarginStore)) m).

Lemma leads_on_world {A} D k (m : M W A) : deaf m → leads (during D k) (during D k) (on_world m).
Proof.
  intros Hm [w v p] H. unfold on_world. simpl in *. specialize (Hm w).
  destruct (m w) as [r w']. simpl in *. unfold during in *. simpl in *. by rewrite Hm.
Qed.
Lemma leads_on_world_after {A} D (m : M W A) : deaf m → leads (after D) (after D) (on_world m).
Proof.
  intros Hm [w v p] H. unfold on_world. simpl in *. specialize (Hm w).
  destruct (m w) as [r w']. simpl in *. unfold after in *. simpl in *. by rewrite Hm.
Qed.

Lemma deaf_readonly {A} (m : M W A) : readonly m → deaf m.
Proof. intros Hm w. by rewrite (Hm w). Qed.
Lemma deaf_SetPool p : deaf (SetPool p).
Proof.
  unfold SetPool. apply preserves_bind; [apply preserves_lift|intros ok].
  apply preserves_bind; [apply preserves_throw_if|intros _].
  intros w. unfold upd_clp, upd_store, modify. simpl. apply margin_put_clp.
Qed.
Lemma deaf_EmitEvent ev : deaf (EmitEvent ev).
Proof. intros w. unfold EmitEvent, upd_store, modify. simpl. apply margin_put_events. Qed.
End block.
#[export] Hint Resolve deaf_SetPool deaf_EmitEvent : frame.
#[export] Hint Extern 1 (preserves (store (S := MarginStore)) (SendCoinsFromModuleToAccount _ _ _)) =>
  (apply frame_send_ma) : frame.
#[export] Hint Extern 4 (preserves (store (S := MarginStore)) _) =>
  (apply deaf_readonly; solve [eauto 8 with frame nocore]) : frame.

Section steps.
Context {W : Type} {sdk : Sdk} {HL : SdkLaws sdk} {coins : CoinLib} {bank : BankKeeper W}
  {paginator : Paginator} {HP : PaginatorLaws paginator}
  {registry : TokenRegistryKeeper W} {clp : HasStore ClpStore W}
  {events : HasStore EventLog W} {margin : HasStore MarginStore W} {MW : MarginWorld W}
  {float : MarginFloat}.
Implicit Types (w : W) (m : MTP) (p : Pool) (D : list string).
Notation margin_of w := (store (S := MarginStore) w).
Notation keys_in D w := (∀ k : string, k ∈ D → is_Some ((margin_of w).(ms_MTPs) !! k)).
Notation keeps D k m := (leads (during (W := W) D k) (during D k) m).

Lemma keeps_upd_mtp D k f : (∀ m, var_ok k m → var_ok k (f m)) → keeps D k (upd_mtp f).
Proof. intros Hf [w m p] (H1 & H2 & H3 & H4). repeat (split; [done|]). by apply Hf. Qed.
Lemma keeps_upd_pool D k f : keeps D k (upd_pool f).
Proof. by intros [w m p] H. Qed.
Lemma leads_the_mtp {B} D k (Q : Env W → Prop) (f : MTP → Prelude.M (Env W) B) :
  (∀ m, var_ok k m → leads (during D k) Q (f m)) → leads (during D k) Q (the_mtp ≫= f).
Proof. intros Hf [w m p] H. apply (Hf m); [apply H|done]. Qed.

(** Storing the variable. *)
Lemma SetMTP_run w m p n o :
  mtp_count (margin_of w) = Ok n → open_count (margin_of w) = Ok o → m.(Id) ≠ 0 →
  MTP_Validate m = Ok tt →
  SetMTP (mkEnv w m p) = (Ok tt, mkEnv (put_store (set_mtp m (margin_of w)) w) m p).
Proof.
  intros En Eo Hid V. unfold SetMTP.
  erewrite bind_run. 2: { apply on_world_ok. exists w. split; [|done]. by apply GetMTPCount_ok. }
  erewrite bind_run. 2: { apply on_world_ok. exists w. split; [|done]. by apply GetOpenMTPCount_ok. }
  unfold the_mtp, gets, mbind, M_bind. simpl.
  destruct (Z.eqb_spec m.(Id) 0); [done|]. unfold lift, mret, M_ret. simpl. by rewrite V.
Qed.

Lemma stored_set D k w m :
  positions_ok (margin_of w) → keys_in D w → is_Some ((margin_of w).(ms_MTPs) !! k) → var_ok k m →
  positions_ok (set_mtp m (margin_of w)) ∧ keys_in D (put_store (set_mtp m (margin_of w)) w) ∧
  is_Some ((set_mtp m (margin_of w)).(ms_MTPs) !! k).
Proof.
  intros Hok HD [m0 E0] (Ek & Hid & V & A).
  assert (∀ k', is_Some ((margin_of w).(ms_MTPs) !! k') →
    is_Some ((set_mtp m (margin_of w)).(ms_MTPs) !! k')) as Hmono.
  { intros k' Hk'. unfold set_mtp. simpl. rewrite lookup_insert_is_Some. 
    destruct (decide (mtp_key m = k')); [by left|by right]. }
  split; [|split; [|by apply Hmono; rewrite E0]].
  - rewrite <- Ek in E0. eapply positions_set; [done|exact E0| |done|done].
    destruct (po_stored _ Hok _ _ E0) as [E _].
    destruct (po_counts _ Hok) as (n & _ & Hn & _ & _ & Hi). apply Hi in E0.
    unfold mtp_key in E. apply GetMTPKey_inj in E as [_ E]; [done|lia|lia].
  - intros k' Hk'. margin_simpl. by apply Hmono, HD.
Qed.

Lemma keeps_SetMTP D k : keeps D k SetMTP.
Proof.
  intros [w m p] (Hok & HD & Hk & V). simpl in *.
  destruct (po_counts _ Hok) as (n & En & _ & Eo & _). pose proof V as (_ & Hid & Vm & _).
  rewrite (SetMTP_run w m p n _ En Eo) by (lia || done).
  destruct (stored_set D k w m Hok HD Hk V) as (H1 & H2 & H3).
  unfold during. simpl. by margin_simpl.
Qed.

(** Removing it: the positions still to process are others. *)
Lemma DestroyMTP_after D k m : k ∉ D → var_ok k m →
  leads (during D k) (after D) (on_world (DestroyMTP (W := W) m.(Address) m.(Id))).
Proof.
  intros HD (Ek & _) [w v p] (Hok & Hin & [m0 E0] & _). unfold on_world. simpl in *.
  destruct (DestroyMTP (Address m) (Id m) w) as [r w'] eqn:E.
  unfold after. simpl.
  destruct (po_counts _ Hok) as (n & En & _ & Eo & _).
  assert (margin_of w' = del_mtp k (uint64 (Z.of_nat (size (margin_of w).(ms_MTPs)) - 1)) (margin_of w)) as ->.
  { unfold DestroyMTP in E. fold (mtp_key m) in E. rewrite Ek in E.
    unfold mbind, M_bind, get_margin, get_store, gets in E. rewrite E0 in E.
    revert E. unfold upd_margin, upd_store, modify, GetOpenMTPCount, get_margin, get_store, gets, lift, mbind, M_bind.
    margin_simpl. unfold open_count in Eo. simpl. rewrite Eo. intros [= <- <-]. by margin_simpl. }
  split; [by eapply positions_del|].
  intros k' Hk'. unfold del_mtp. simpl. rewrite lookup_delete_ne by congruence. by apply Hin.
Qed.
End steps.

(** *** The functions of keeper.go, along their steps *)
Ltac uint_facts :=
  repeat match goal with
  | H : UintAdd _ _ = Ok _ |- _ => apply uint_add_ok in H as [-> ?]
  | H : UintSub _ _ = Ok _ |- _ => apply uint_sub_ok in H as [-> ?]
  | H : NewUintFromBigInt _ = Ok _ |- _ => apply uint_new_ok in H as [-> ?]
  end.
Ltac solve_var :=
  let m := fresh "m" in
  intros m (? & ? & ? & ? & ? & ?); uint_facts;
  split; [done|split; [done|split; [done|split; [simpl in *; lia|split; simpl in *; lia]]]].
Ltac lead_step :=
  match goal with
  | |- leads _ _ (the_mtp ≫= _) => apply leads_the_mtp; intros ? ?
  | |- leads _ _ (the_pool ≫= _) => apply leads_bind; [by eauto using during_after|by apply leads_const|intros ?]
  | |- leads _ _ (lift _ ≫= _) => apply leads_lift; [by eauto using during_after|intros ? ?]
  | |- leads _ _ (mret _) => apply leads_ret; by eauto using during_after
  | |- leads _ _ (lift _) => apply leads_const; [by eauto using during_after|done]
  | |- leads _ _ (throw _) => apply leads_const; [by eauto using during_after|done]
  | |- leads _ _ (throw_if ?c _) => destruct c; (apply leads_const; [by eauto using during_after|done])
  | |- leads _ _ (upd_pool _) => apply keeps_upd_pool
  | |- leads _ _ (upd_mtp _) => apply keeps_upd_mtp; solve_var
  | |- leads (during _ _) (during _ _) (on_world _) => apply leads_on_world; solve [solve_frame]
  | |- leads (after _) (after _) (on_world _) => apply leads_on_world_after; solve [solve_frame]
  | |- leads _ _ (try _) => apply leads_try
  | |- leads _ _ (ignore_err _) => apply leads_ignore
  | |- leads _ _ (match ?c with _ => _ end) => destruct c eqn:?
  | |- leads _ (after _) (on_world (DestroyMTP _ _) ≫= _) =>
      apply leads_bind_last; [by apply DestroyMTP_after|intros ?]
  | |- leads (after _) (after _) (the_pool ≫= _) => apply leads_bind; [done|by apply leads_const|intros ?]
  | |- leads (during _ _) _ (_ ≫= _) => apply leads_bind; [by eauto using during_after| |intros ?]
  end.
Ltac walk := repeat lead_step.

Section functions.
Context {W : Type} {sdk : Sdk} {HL : SdkLaws sdk} {coins : CoinLib} {bank : BankKeeper W}
  {paginator : Paginator} {HP : PaginatorLaws paginator}
  {registry : TokenRegistryKeeper W} {clp : HasStore ClpStore W}
  {events : HasStore EventLog W} {margin : HasStore MarginStore W} {MW : MarginWorld W}
  {float : MarginFloat}.
Implicit Types (w : W) (m : MTP) (p : Pool) (D : list string).
Notation margin_of w := (store (S := MarginStore) w).
Notation deaf m := (preserves (store (S := MarginStore) (W := W)) m).
Notation keeps D k m := (leads (during (W := W) D k) (during D k) m).

Lemma deaf_TakeFundPayment x a t f : deaf (TakeFundPayment x a t f).
Proof. unfold TakeFundPayment. solve_frame. Qed.
#[local] Hint Resolve deaf_TakeFundPayment : frame.
Lemma deaf_pay_out m x take : deaf (pay_out m x take).
Proof. unfold pay_out. solve_frame. Qed.
#[local] Hint Resolve deaf_pay_out : frame.

Lemma keeps_assign_health D k : keeps D k assign_health.
Proof. unfold assign_health. walk. Qed.
Lemma keeps_TakeOutCustody D k : keeps D k TakeOutCustody.
Proof. unfold TakeOutCustody. walk. Qed.
Lemma keeps_return_custody D k s p c x : keeps D k (return_custody s p c x).
Proof. unfold return_custody. walk. Qed.
Lemma keeps_cap_payment D k m p x y : keeps D k (cap_payment m p x y).
Proof. unfold cap_payment. walk. Qed.

Lemma keeps_IncrementalInterestPayment D k x : keeps D k (IncrementalInterestPayment x).
Proof.
  unfold IncrementalInterestPayment. walk.
  all: first [apply keeps_cap_payment | apply keeps_return_custody | apply keeps_SetMTP | idtac].
Qed.
Lemma keeps_HandleInterestPayment D k x : 0 <= x → keeps D k (HandleInterestPayment x).
Proof.
  intros Hx. unfold HandleInterestPayment. walk. apply keeps_IncrementalInterestPayment.
Qed.
Lemma keeps_pay_accrued_interest ctx D k : keeps D k (pay_accrued_interest ctx).
Proof.
  unfold pay_accrued_interest. walk.
  - apply keeps_HandleInterestPayment. by eapply CalcMTPInterestLiabilities_nonneg.
  - apply keeps_assign_health.
Qed.

Lemma Repay_after D k x take : k ∉ D → leads (during (W := W) D k) (after D) (Repay x take).
Proof.
  intros HD. unfold Repay. walk. apply keeps_assign_health.
Qed.
Lemma settle_after D k take : k ∉ D → leads (during (W := W) D k) (after D) (settle take).
Proof.
  intros HD. unfold settle. lead_step; [apply keeps_TakeOutCustody|].
  do 3 lead_step; [lead_step|].
  apply leads_bind_last; [by apply Repay_after|]. intros _. by apply leads_ret.
Qed.

Lemma ForceCloseLong_after ctx D k adm take :
  k ∉ D → leads (during (W := W) D k) (after D) (ForceCloseLong ctx adm take).
Proof.
  intros HD. unfold ForceCloseLong. walk; [apply keeps_pay_accrued_interest|by apply settle_after..].
Qed.

Lemma process_mtp_after ctx D k : k ∉ D → leads (during (W := W) D k) (after D) (process_mtp ctx).
Proof.
  intros HD. unfold process_mtp.
  repeat lazymatch goal with |- leads _ _ (try (ForceCloseLong _ _ _) ≫= _) => fail | _ => lead_step end.
  all: try (apply keeps_HandleInterestPayment; by eapply CalcMTPInterestLiabilities_nonneg).
  all: try apply keeps_SetMTP.
  all: apply leads_bind_last; [by apply leads_try, ForceCloseLong_after|intros r].
  all: destruct r; [by apply leads_ret|by apply leads_on_world_after; solve_frame].
Qed.

(** *** One position after the other *)
Lemma process_one ctx D m :
  mtp_key m ∉ D → var_ok (mtp_key m) m →
  leads (after (W := W) (mtp_key m :: D)) (after D) (BeginBlockerProcessMTP ctx m).
Proof.
  intros Hk Hv [w v p] [Hok Hin]. unfold BeginBlockerProcessMTP, mbind, M_bind. simpl.
  apply (leads_recovering (during D (mtp_key m)) (after D)); [by apply process_mtp_after|].
  split; [done|]. split; [by intros k Hk'; apply Hin; right|]. split; [apply Hin; left|done].
Qed.

Lemma process_all ctx l D :
  NoDup (mtp_key <$> l) → (∀ m, m ∈ l → var_ok (mtp_key m) m) →
  (∀ m, m ∈ l → mtp_key m ∉ D) →
  leads (after (W := W) ((mtp_key <$> l) ++ D)) (after D) (forM (BeginBlockerProcessMTP ctx) l).
Proof.
  unfold forM. induction l as [|m l IH]; intros Hn Hv HD; [by apply leads_ret|].
  simpl in Hn. apply NoDup_cons in Hn as [Hm Hn]. simpl.
  assert (∀ m', m' ∈ l → mtp_key m' ∉ D) as HD' by (intros; apply HD; by right).
  intros e He. assert (mtp_key m ∉ (mtp_key <$> l) ++ D) as Hm'.
  { rewrite elem_of_app. intros [?|?]; [done|]. eapply HD; [left|done]. }
  pose proof (process_one ctx _ m Hm' (Hv _ ltac:(left)) e He) as H1.
  unfold mbind, M_bind. destruct (BeginBlockerProcessMTP ctx m e) as [[[]|x|] e1]; simpl in *.
  - apply IH; try done. intros; apply Hv; by right.
  - destruct H1 as [H1 H2]. split; [done|]. intros k Hk. apply H2, elem_of_app. by right.
  - destruct H1 as [H1 H2]. split; [done|]. intros k Hk. apply H2, elem_of_app. by right.
Qed.

(** The page of positions: stored ones, none twice. *)
Lemma page_positions s limit f page :
  positions_ok s → FilteredPaginate (kv_iter s.(ms_MTPs)) limit f = Ok page →
  NoDup (mtp_key <$> page) ∧ ∀ m, m ∈ page →
    s.(ms_MTPs) !! mtp_key m = Some m ∧ var_ok (mtp_key m) m.
Proof.
  intros Hok Hp%filtered_paginate_sub.
  assert (∀ m, m ∈ kv_values s.(ms_MTPs) → s.(ms_MTPs) !! mtp_key m = Some m ∧ var_ok (mtp_key m) m) as Hv.
  { intros m [k E]%elem_of_kv_values. destruct (po_stored _ Hok _ _ E) as (-> & V & A).
    split; [done|]. split; [done|]. destruct (po_counts _ Hok) as (n & _ & Hn & _ & _ & Hi).
    apply Hi in E. split; [lia|done]. }
  split.
  - apply (fmap_sublist mtp_key) in Hp. eapply sublist_NoDup; [|exact Hp].
    replace (mtp_key <$> (kv_iter (ms_MTPs s)).*2) with (kv_iter (ms_MTPs s)).*1; [apply kv_keys_nodup|].
    rewrite <- list_fmap_compose. apply list_fmap_ext. intros i [k m] E%list_elem_of_lookup_2.
    apply elem_of_kv_iter in E. simpl. by destruct (po_stored _ Hok _ _ E) as [-> _].
  - intros m Hm. apply Hv. by eapply elem_of_sublist.
Qed.
End functions.

Section pools.
Context {W : Type} {sdk : Sdk} {HL : SdkLaws sdk} {coins : CoinLib} {bank : BankKeeper W}
  {paginator : Paginator} {HP : PaginatorLaws paginator}
  {registry : TokenRegistryKeeper W} {clp : HasStore ClpStore W}
  {events : HasStore EventLog W} {margin : HasStore MarginStore W} {MW : MarginWorld W}
  {float : MarginFloat}.
Implicit Types (w : W) (m : MTP) (p : Pool) (D : list string).
Notation margin_of w := (store (S := MarginStore) w).
Notation deaf m := (preserves (store (S := MarginStore) (W := W)) m).

(** *** The loop over the pools *)
Notation calm := (after (W := W) []).

Lemma calm_intro (e : Env W) : positions_ok (margin_of e.(e_world)) → calm e.
Proof. intros H. split; [done|]. intros k Hk. by apply elem_of_nil in Hk. Qed.
Lemma calm_on_world {A} (m : M W A) :
  maintains (λ w, positions_ok (margin_of w)) m → leads calm calm (on_world m).
Proof.
  intros Hm [w v p] [H _]. apply calm_intro. unfold on_world. simpl. specialize (Hm w H).
  by destruct (m w).
Qed.
Lemma calm_deaf {A} (m : M W A) : deaf m → leads calm calm (on_world m).
Proof. intros Hm. by apply leads_on_world_after. Qed.
Lemma calm_upd_pool f : leads calm calm (upd_pool f).
Proof. by intros [w v p] H. Qed.

Lemma TrackSQ_positions ctx p :
  maintains (λ w, positions_ok (margin_of w)) (TrackSQBeginBlock ctx p).
Proof.
  assert (∀ f, (∀ s, (f s).(ms_MTPs) = s.(ms_MTPs) ∧ (f s).(ms_MTPCount) = s.(ms_MTPCount) ∧
    (f s).(ms_OpenMTPCount) = s.(ms_OpenMTPCount)) →
    maintains (λ w, positions_ok (margin_of w)) (upd_margin f)) as Hupd.
  { intros f Hf w Hw. unfold upd_margin, upd_store, modify. simpl. margin_simpl.
    destruct (Hf (margin_of w)) as (E1 & E2 & E3). by eapply positions_same. }
  assert (∀ A (m : M W A), deaf m → maintains (λ w, positions_ok (margin_of w)) m) as Hdeaf.
  { intros A m Hm. eapply maintains_preserves; [|exact Hm]. by intros w w' ->. }
  unfold TrackSQBeginBlock.
  apply maintains_bind; [apply Hdeaf; solve_frame|intros threshold].
  apply maintains_bind; [apply Hdeaf; solve_frame|intros h].
  repeat case_match; try (by apply Hdeaf; solve_frame).
  all: apply maintains_bind; [by apply Hupd|intros _; apply Hdeaf; solve_frame].
Qed.

Lemma UpdatePoolHealth_calm : leads calm calm UpdatePoolHealth.
Proof.
  unfold UpdatePoolHealth. apply leads_bind; [done|by apply leads_const|intros p].
  apply leads_lift; [done|intros h _]. apply leads_bind; [done|apply calm_upd_pool|intros _].
  apply leads_bind; [done|by apply leads_const|intros p']. apply calm_deaf. solve_frame.
Qed.

Lemma page_found asset (e : Env W) mtps e1 :
  try (on_world (GetMTPsForPool asset)) e = (Ok mtps, e1) → positions_ok (margin_of e.(e_world)) →
  let l := match mtps with inr l => l | inl _ => [] end in
  NoDup (mtp_key <$> l) ∧ ∀ m, m ∈ l →
    (margin_of e.(e_world)).(ms_MTPs) !! mtp_key m = Some m ∧ var_ok (mtp_key m) m.
Proof.
  intros [(l & -> & E)|(x & -> & _)]%try_ok Hok; simpl.
  - apply on_world_ok in E as (w' & E & _). unfold GetMTPsForPool in E. inv_ok.
    match goal with G : get_margin _ = _ |- _ => apply get_margin_ok in G as [-> ->] end.
    by eapply page_positions.
  - split; [constructor|]. intros m Hm. by apply elem_of_nil in Hm.
Qed.

Lemma refresh_pool_calm ctx : leads calm calm (refresh_pool ctx).
Proof.
  unfold refresh_pool. apply leads_bind; [done|apply calm_upd_pool|intros _].
  apply leads_bind; [done|by apply leads_const|intros p].
  apply leads_bind; [done|apply calm_deaf; solve_frame|intros on].
  apply leads_bind; [done| |intros rate].
  { destruct on; [|by apply leads_ret]. apply leads_bind; [done| |intros r; by apply leads_ret].
    apply leads_try, calm_deaf. solve_frame. }
  assert (leads calm calm (pool ← the_pool; ignore_err (on_world (SetPool pool)))) as Hend.
  { apply leads_bind; [done|by apply leads_const|intros p']. apply leads_ignore, calm_deaf. solve_frame. }
  destruct rate as [[e|rate]|]; [by apply leads_ret| |exact Hend].
  apply leads_bind; [done|apply calm_upd_pool|intros _].
  apply leads_bind; [done|apply leads_ignore, UpdatePoolHealth_calm|intros _].
  apply leads_bind; [done|by apply leads_const|intros p2].
  apply leads_bind; [done|apply calm_on_world, TrackSQ_positions|intros _].
  intros e [He _]. unfold mbind at 1, M_bind at 1.
  destruct (try (on_world (GetMTPsForPool p2.(ExternalAsset).(Symbol))) e) as [r e1] eqn:E.
  assert (e1 = e) as ->.
  { eapply readonly_ok; [|exact E]. apply preserves_try. solve_frame. }
  destruct r as [mtps|x|]; [|simpl; exact (calm_intro _ He)..].
  apply page_found in E as [Hn Hp]; [|done]. set (l := match mtps with inr l => l | inl _ => [] end) in *.
  apply (leads_bind_last (after ((mtp_key <$> l) ++ [])) calm); [|intros _; exact Hend|].
  - apply process_all; [done|by intros m Hm; apply Hp|intros m _ Hm; by apply elem_of_nil in Hm].
  - split; [done|]. intros k Hk. rewrite app_nil_r in Hk.
    apply list_elem_of_fmap in Hk as (m & -> & Hm). destruct (Hp m Hm) as [Em _]. by rewrite Em.
Qed.

Lemma BeginBlocker_positions ctx :
  maintains (λ w, positions_ok (margin_of w)) (MarginServer.BeginBlocker (W := W) ctx).
Proof.
  assert (∀ A (m : M W A), readonly m → maintains (λ w, positions_ok (margin_of w)) m) as Hro.
  { intros A m Hm w Hw. by rewrite (Hm w). }
  unfold MarginServer.BeginBlocker. apply maintains_bind; [apply Hro; solve_frame|intros len].
  apply maintains_bind; [by apply Hro|intros pos].
  destruct (pos =? 0); [|by apply Hro]. apply maintains_bind; [apply Hro; solve_frame|intros pools].
  apply maintains_foldM. intros _ pool w Hw.
  pose proof (refresh_pool_calm ctx (mkEnv w no_mtp pool) (calm_intro (mkEnv w no_mtp pool) Hw)) as [H _].
  unfold mbind, M_bind, with_vars. by destruct (refresh_pool ctx _) as [[|?|] e].
Qed.
End pools.

(** ** A message, however its closing went *)
Section messages.
Context {W : Type} {sdk : Sdk} {HL : SdkLaws sdk} {coins : CoinLib} {bank : BankKeeper W}
  {paginator : Paginator} {registry : TokenRegistryKeeper W} {admin : AdminKeeper W}
  {errs : SdkErrors} {clp : HasStore ClpStore W}
  {events : HasStore EventLog W} {margin : HasStore MarginStore W} {MW : MarginWorld W}
  {float : MarginFloat}.
Implicit Types (w : W) (m : MTP).
Notation margin_of w := (store (S := MarginStore) w).

Lemma closes_positions ctx take address id w w' :
  closes ctx take address id w w' → positions_ok (margin_of w) → positions_ok (margin_of w').
Proof.
  intros (m & p & [[r m'] p'] & w1 & ev & Em & _ & H & (_ & -> & _)%EmitEvent_quietly) Hok.
  rewrite with_vars_ok in H. destruct (po_stored _ Hok _ _ Em) as (Ek & V & A).
  destruct (po_counts _ Hok) as (n & _ & Hn & _ & _ & Hi). pose proof (Hi _ _ Em) as Hid.
  assert (leads (during [] (mtp_key m)) (after [])
    (_ ← pay_accrued_interest (W := W) ctx; settle take)) as Hl.
  { apply leads_bind; [by eauto using during_after|apply keeps_pay_accrued_interest|intros _].
    apply settle_after. apply not_elem_of_nil. }
  destruct (Hl (mkEnv w m p)) as [H' _]; [|by rewrite H in H'].
  split; [done|]. split; [intros k Hk; by apply elem_of_nil in Hk|].
  split; [simpl; by rewrite <- Ek, Em|]. split; [done|]. split; [simpl; lia|done].
Qed.

Lemma message_keeps_positions ctx msg w u w' :
  NewLegacyHandler ctx msg w = (Ok u, w') → positions_ok (margin_of w) → positions_ok (margin_of w').
Proof.
  intros H%message_cases Hok. destruct H.
  - eapply (message_positions msg); [by eapply opened|done].
  - by eapply closes_positions.
  - eapply (message_positions msg); [by apply was_administered|done].
Qed.
End messages.
