(* ===== verification/Scenario.v ===== *)
(** * Scenario: a concrete chain on which the theorems about messages are evaluated

    [World] obeys the laws the proofs assume ([ClpWorld], [MintQuiet]); [genesis] is a state
    with two registered assets, two funded accounts and one administrator of every type. *)

From S2P Require Import Disp Oracle EthBridge MarginTypes Margin.
From S2P Require Import Prelude Sdk SdkRef Rat Bank Keepers Admin Registry ClpTypes ClpMath.
From S2P Require Import ClpKeeper ClpPolicy ClpRewards ClpLiquidity ClpMsgs ClpServer ClpModule.
From S2P Require Import World ClpMathSpec ClpStoreSpec ClpUnits ClpExec ClpEffects MarginExec.
Local Open Scope Z_scope.

#[export] Instance world_events_frame : BankFrame EventLog World _ _.
Proof. split; intros; simpl; try done; intros w; simpl; unfold ref_send; by case_match. Qed.
#[export] Instance world_is_clp_world : ClpWorld World.
Proof. split; apply _. Qed.
#[export] Instance world_is_margin_world : MarginWorld World.
Proof. split; apply _. Qed.
#[export] Instance world_mint_quiet : MintQuiet World.
Proof. split; done. Qed.

(** One unit of an asset with 18 decimals. *)
Definition ether : Z := 10 ^ 18.
Definition listed (denom : string) (permissions : list Permission) : RegistryEntry :=
  mkRegistryEntry 18 denom denom "" "" "" "" "" "" "" "" "" permissions "" "" "".

Definition clp_genesis : ClpStore :=
  mkClpStore ∅ ∅ (Some ["@admin"]) (mkPmtpRateParams 0 0 0) (mkPmtpEpoch 0 0) (mkPmtpParams 0 1 0 0)
    (mkRewardParams 0 518400 [] "") None (mkLiquidityProtectionParams 1000000000000 "cusdc" 14400 false)
    (mkLiquidityProtectionRateParams 1000000000000) (mkProviderDistributionParams []) None None ∅ ∅
    (mkParams 100 false).

Definition roles : list AdminType :=
  [AdminType_CLPDEX; AdminType_PMTPREWARDS; AdminType_TOKENREGISTRY; AdminType_ETHBRIDGE;
   AdminType_ADMIN; AdminType_MARGIN].
Definition admin_genesis : AdminStore :=
  mkAdminStore
    (list_to_map ((λ t, let a := mkAdminAccount t "@admin" in (GetAdminAccountKey a, a)) <$> roles))
    None.

Definition genesis : World :=
  mkWorld
    (list_to_map [(("alice", "fury"), 1000 * ether); (("alice", "cusdc"), 1000 * ether);
                  (("alice", "ceth"), 1000 * ether);
                  (("bob", "fury"), 1000 * ether); (("bob", "cusdc"), 1000 * ether);
                  (("bob", "ceth"), 1000 * ether)])
    clp_genesis
    (mkRegistry [listed "fury" [Permission_CLP]; listed "cusdc" [Permission_CLP];
                 listed "ceth" [Permission_CLP]])
    admin_genesis [] (mkMarginStore ∅ None None None ∅ ∅) (mkMinter 0 0)
    (mkOracleStore None "" ∅) (mkEthBridgeStore [] "" ∅ false) ∅
    (mkDispStore ∅ ∅ ∅ ∅ ∅ None).

(** Runs messages one after the other in the same block; a failed one changes nothing. *)
Definition deliver (ctx : Ctx) (w : World) (m : ClpMsg) : World :=
  match (_ ← lift (ValidateBasic m); NewHandler ctx m) w with (Ok _, w') => w' | _ => w end.
Definition deliver_all (ctx : Ctx) (ms : list ClpMsg) (w : World) : World :=
  foldl (deliver ctx) w ms.
Definition block (height : Z) : Ctx := mkCtx height "".

Definition cusdc : Asset := mkAsset "cusdc".
Definition ceth : Asset := mkAsset "ceth".
Definition alice_creates : ClpMsg :=
  AMsgCreatePool (mkMsgCreatePool "@alice" cusdc (100 * ether) (200 * ether)).
Definition bob_adds : ClpMsg :=
  AMsgAddLiquidity (mkMsgAddLiquidity "@bob" cusdc (10 * ether) (20 * ether)).
Definition bob_swaps : ClpMsg :=
  AMsgSwap (mkMsgSwap "@bob" cusdc GetSettlementAsset (5 * ether) 0).
Definition alice_removes : ClpMsg :=
  AMsgRemoveLiquidityUnits (mkMsgRemoveLiquidityUnits "@alice" cusdc (40 * ether)).

(** All four succeed. *)
Example scenario_runs :
  let w := deliver_all (block 10) [alice_creates; bob_adds; bob_swaps; alice_removes] genesis in
  w.(w_events) = [EventTypeCreatePool; EventTypeCreateLiquidityProvider; EventTypeMessage;
                  EventTypeCreateLiquidityProvider; EventTypeAddLiquidity; EventTypeMessage;
                  EventTypeSwap; EventTypeMessage; EventTypeRemoveLiquidity; EventTypeMessage].
Proof. vm_compute. reflexivity. Qed.
