(* ===== verification/BridgeWorld.v ===== *)
(** * BridgeWorld: the oracle and the bridge in the concrete chain

    Instances, for [World], of the library code that x/oracle and x/ethbridge use, and proofs of
    the laws: validator addresses, the validators of x/staking, JSON texts, go-ethereum's
    addresses, accounts. *)

From S2P Require Import Oracle EthBridge MarginTypes Margin.
From S2P Require Import Prelude Sdk SdkRef Rat Float Bank Keepers Admin Registry ClpTypes.
From S2P Require Import ClpKeeper World Scenario.
Local Open Scope Z_scope.

(** ** Texts *)
Lemma ascii_utf8 s : ascii_only s = true → utf8_valid s = true.
Proof.
  unfold ascii_only, utf8_valid. induction (String.list_ascii_of_string s) as [|c l IH]; [done|].
  simpl. intros [Hc%Nat.ltb_lt Hl]%andb_prop. destruct (Z.ltb_spec (Z.of_nat (nat_of_ascii c)) 128);
    [by apply IH|lia].
Qed.

Fixpoint pos_text (p : positive) : string :=
  match p with
  | xH => ""
  | xO p => String "0" (pos_text p)
  | xI p => String "1" (pos_text p)
  end.
Fixpoint text_pos (s : string) : option positive :=
  match s with
  | EmptyString => Some xH
  | String c s => p ← text_pos s; if Ascii.eqb c "0" then Some (xO p) else
                                  if Ascii.eqb c "1" then Some (xI p) else None
  end.
Lemma text_pos_text p : text_pos (pos_text p) = Some p.
Proof. induction p as [p IH|p IH|]; simpl; [by rewrite IH|by rewrite IH|done]. Qed.
Lemma pos_text_ascii p : ascii_only (pos_text p) = true.
Proof. by induction p. Qed.

(** Any data as a text. *)
Definition to_text {A} `{Countable A} (a : A) : string := pos_text (encode a).
Definition from_text {A} `{Countable A} (s : string) : res A :=
  match text_pos s ≫= decode with Some a => Ok a | None => Err ErrAnonymous end.
Lemma from_to_text {A} `{Countable A} (a : A) : from_text (to_text a) = Ok a.
Proof. unfold from_text, to_text. rewrite text_pos_text. simpl. by rewrite decode_encode. Qed.
Lemma to_text_utf8 {A} `{Countable A} (a : A) : utf8_valid (to_text a) = true.
Proof. apply ascii_utf8, pos_text_ascii. Qed.

(** ** Validator addresses *)
Definition address_length_ok (a : string) : bool :=
  (0 <? String.length a)%nat && (String.length a <=? 255)%nat.
Definition checked (a : string) : res ValAddress :=
  if address_length_ok a then Ok a else Err ErrAnonymous.
#[export] Instance ref_vals : ValAddressLib := {
  ValAddressFromBech32 s :=
    match s with
    | String "%" a => if ascii_only a then checked a else Err ErrAnonymous
    | String "#" t => a ← from_text t; checked a
    | _ => Err ErrAnonymous
    end;
  ValString a := if ascii_only a then String "%" a else String "#" (to_text a)
}.
Lemma checked_ok a b : checked a = Ok b → a = b ∧ val_address_ok b.
Proof.
  unfold checked. destruct (address_length_ok a) eqn:E; [|done]. intros [= <-]. split; [done|].
  apply andb_prop in E as [?%Nat.ltb_lt ?%Nat.leb_le]. unfold val_address_ok. lia.
Qed.
Lemma checked_valid a : val_address_ok a → checked a = Ok a.
Proof.
  unfold checked, address_length_ok, val_address_ok. intros [->%Nat.ltb_lt ->%Nat.leb_le]. done.
Qed.
#[export] Instance ref_vals_laws : ValAddressLaws ref_vals.
Proof.
  split; simpl.
  - intros a Ha. destruct (ascii_only a) eqn:E; [rewrite E|rewrite from_to_text; simpl];
      by apply checked_valid.
  - intros [|[[] [] [] [] [] [] [] []] s] a; try done.
    + intros E. apply rbind_ok in E as (b & _ & [_ ?]%checked_ok). done.
    + destruct (ascii_only s); [|done]. by intros [_ ?]%checked_ok.
  - intros [|[[] [] [] [] [] [] [] []] s]; try done; unfold checked, from_text.
    + destruct (text_pos s ≫= decode) as [a|]; [|done]. simpl. by destruct (address_length_ok a).
    + by destruct (ascii_only s), (address_length_ok s).
  - intros a. apply ascii_utf8. destruct (ascii_only a) eqn:E; [done|]. apply pos_text_ascii.
Qed.

(** ** The validators of x/staking, all bonded: address and power *)
Definition valid_operator (v : string * N) : bool := address_length_ok v.1.
#[export] Instance world_staking : StakingKeeper World := {
  Validator := string * N;
  OperatorAddress v := ValString v.1;
  GetOperator v := Ok v.1;
  GetConsensusPower v := Z.of_N v.2;
  IsBonded v := true;
  GetValidator w a := if address_length_ok a then (a,.) <$> w.(w_validators) !! a else None;
  GetBondedValidatorsByPower w :=
    filter (λ v, valid_operator v = true) (map_to_list w.(w_validators))
}.
Lemma ref_ValString_inj a b : ValString a = ValString b → a = b.
Proof.
  simpl. destruct (ascii_only a), (ascii_only b); try done; [congruence|].
  intros [= E]. apply Ok_inj. by rewrite <- (from_to_text a), <- (from_to_text b), E.
Qed.
#[export] Instance world_staking_laws : StakingLaws World ref_vals world_staking.
Proof.
  split.
  - intros v. simpl. lia.
  - intros w. simpl. generalize (sublist_filter (λ v, valid_operator v = true)
      (map_to_list (w_validators w))). generalize (filter (λ v, valid_operator v = true)
      (map_to_list (w_validators w))). intros l Hl.
    assert (NoDup l.*1) as Hd.
    { eapply sublist_NoDup; [apply (NoDup_fst_map_to_list (w_validators w))|].
      by apply fmap_sublist. }
    clear Hl. induction l as [|v l IH]; [constructor|].
    apply NoDup_cons in Hd as [Hv Hd]. apply NoDup_cons. split; [|by apply IH].
    intros (x & E & Hx)%list_elem_of_fmap. apply ref_ValString_inj in E. apply Hv. rewrite E.
    by apply list_elem_of_fmap_2.
  - intros w v [Hv _]%list_elem_of_filter. exists v.1. split; [|done].
    apply (checked_ok v.1). unfold checked. unfold valid_operator in Hv. by rewrite Hv.
Qed.

(** ** Texts of prophecies and claims *)
#[export] Instance ref_prophecy_json : ProphecyJson := {
  Marshal_ClaimValidators m := Ok (to_text m);
  Marshal_ValidatorClaims m := Ok (to_text m);
  Unmarshal_ClaimValidators := from_text;
  Unmarshal_ValidatorClaims := from_text
}.
#[export] Instance ref_prophecy_json_laws : ProphecyJsonLaws ref_vals ref_prophecy_json.
Proof. split; intros m _; exists (to_text (Some m)); (split; [done|apply from_to_text]). Qed.
#[export] Instance ref_oracle_config : OracleConfig := { consensusNeeded := DefaultConsensusNeeded }.

#[export] Instance ClaimType_countable : Countable ClaimType.
Proof.
  refine (inj_countable' (λ t, match t with CLAIM_TYPE_UNSPECIFIED => 0%N | CLAIM_TYPE_BURN => 1%N
                                          | CLAIM_TYPE_LOCK => 2%N end)
    (λ n, match n with 0%N => CLAIM_TYPE_UNSPECIFIED | 1%N => CLAIM_TYPE_BURN
                     | _ => CLAIM_TYPE_LOCK end) _).
  by intros [].
Defined.
#[export] Instance OracleClaimContent_eq_dec : EqDecision OracleClaimContent.
Proof. solve_decision. Defined.
#[export] Instance OracleClaimContent_countable : Countable OracleClaimContent.
Proof.
  refine (inj_countable' (λ c, (oc_CosmosReceiver c, oc_Amount c, oc_Symbol c,
                                oc_TokenContractAddress c, oc_ClaimType c))
    (λ x, let '(r, a, s, c, t) := x in mkOracleClaimContent r a s c t) _).
  by intros [].
Defined.
#[export] Instance ref_claim_json : ClaimJson := {
  Marshal_OracleClaimContent c := Ok (to_text c);
  Unmarshal_OracleClaimContent := from_text
}.
#[export] Instance ref_claim_json_laws : ClaimJsonLaws ref_claim_json.
Proof.
  split.
  - intros c _ _ _ _. exists (to_text c). split; [done|apply from_to_text].
  - intros c t [= <-]. apply to_text_utf8.
Qed.

(** ** Addresses of Ethereum: 40 hexadecimal digits, after an optional 0x *)
Definition hex_digit (c : ascii) : option nat :=
  let n := nat_of_ascii c in
  if (48 <=? n)%nat && (n <=? 57)%nat then Some (n - 48)%nat
  else if (65 <=? n)%nat && (n <=? 70)%nat then Some (n - 55)%nat
  else if (97 <=? n)%nat && (n <=? 102)%nat then Some (n - 87)%nat
  else None.
Definition strip_0x (s : string) : list ascii :=
  match String.list_ascii_of_string s with
  | "0"%char :: "x"%char :: l | "0"%char :: "X"%char :: l => l
  | l => l
  end.
Fixpoint hex_bytes (k : nat) (l : list ascii) : string :=
  match k with
  | O => ""
  | S k => String (ascii_of_nat (16 * default O (head l ≫= hex_digit)
                                 + default O (head (drop 1 l) ≫= hex_digit)))
             (hex_bytes k (drop 2 l))
  end.
Definition hex_letter (n : nat) : ascii := ascii_of_nat (if (n <? 10)%nat then 48 + n else 87 + n).
Fixpoint hex_text (s : string) : string :=
  match s with
  | EmptyString => EmptyString
  | String c s => String (hex_letter (nat_of_ascii c / 16)) (String (hex_letter (nat_of_ascii c mod 16))
                    (hex_text s))
  end.
#[export] Instance ref_eth : EthLib := {
  IsHexAddress s :=
    (length (strip_0x s) =? 40)%nat && forallb (λ c, bool_decide (is_Some (hex_digit c))) (strip_0x s);
  HexToAddress s := hex_bytes 20 (strip_0x s);
  EthString a := String.append "0x" (hex_text a)
}.

(** ** Accounts: any address has one *)
#[export] Instance world_accounts : AccountKeeper World := {
  GetAccount w a := if String.eqb a "" then None else Some 0
}.
#[export] Instance world_bank_oracle : BankFrame OracleStore World _ _.
Proof. split; intros; simpl; try done; intros w; simpl; unfold ref_send; by case_match. Qed.
#[export] Instance world_bank_bridge : BankFrame EthBridgeStore World _ _.
Proof. split; intros; simpl; try done; intros w; simpl; unfold ref_send; by case_match. Qed.
#[export] Instance world_oracle_laws : StoreLaws OracleStore World _.
Proof. split; done. Qed.
#[export] Instance world_bridge_laws : StoreLaws EthBridgeStore World _.
Proof. split; done. Qed.

(** Three validators on the whitelist, a token pegged on the bridge, and a claim they make. *)
Definition three_validators : gmap string N := list_to_map [("v1", 40%N); ("v2", 35%N); ("v3", 25%N)].
Definition bridge_genesis : World :=
  genesis <| w_validators := three_validators |>
          <| w_oracle := mkOracleStore (Some ["%v1"; "%v2"; "%v3"]) "admin" ∅ |>
          <| w_bridge := mkEthBridgeStore ["cusdc"; "ceth"] "" ∅ false |>.
Definition zero_address : string := "0x0000000000000000000000000000000000000000".
Definition some_address : string := "0xAb5801a7D398351b8bE11C439e05C5B3259aeC9B".
Definition dai_claim (validator : string) : EthBridgeClaim :=
  mkEthBridgeClaim 1 some_address 7 "dai" some_address some_address "@bob" validator
    (3 * ether) CLAIM_TYPE_LOCK.

#[export] Instance world_is_bridge_world : EthBridgeWorld World.
Proof. split; try apply _; split; done. Qed.
