(* ===== verification/DispWorld.v ===== *)
(** * DispWorld: x/dispensation in the concrete chain

    Instances, for [World], of the library code that x/dispensation uses, and proofs of the laws;
    a distribution of three records and a chain whose mint controller is set. *)

From Stdlib Require Import DecimalString.
From S2P Require Import World Scenario.
From S2P Require Import Prelude Sdk SdkRef Bank Keepers ClpTypes Disp.
Local Open Scope Z_scope.

(** ** Coins: denominations in strictly ascending order, positive amounts *)
Definition denom_le (a b : Coin) : Prop := String.leb a.(Denom) b.(Denom) = true.
#[export] Instance denom_le_dec : RelDecision denom_le.
Proof. intros a b. unfold denom_le. apply _. Defined.

Definition ref_coins_valid (cs : Coins) : bool :=
  duplicate_free cs && bool_decide (Sorted denom_le cs)
  && forallb (λ c, ref_valid_denom c.(Denom) && (0 <? c.(Amount))) cs.
(** Both sides must be sorted; the sum has an entry for each denomination of either. *)
Definition ref_coins_plus (a b : Coins) : res Coins :=
  let sum := merge_sort denom_le (drop_zero (foldl coins_insert a b)) in
  if ref_coins_valid a && ref_coins_valid b && ref_coins_valid sum then Ok sum else Panic.

#[export] Instance ref_coinslib : CoinsLib := {
  Coins_Plus := ref_coins_plus;
  Coins_IsValid := ref_coins_valid;
  Coins_IsAllPositive cs := negb (length cs =? 0)%nat && forallb (λ c, 0 <? c.(Amount)) cs;
  Coins_Sort := merge_sort denom_le;
  Coin_IsLT a b := if String.eqb a.(Denom) b.(Denom) then Ok (a.(Amount) <? b.(Amount)) else Panic;
  TimestampProto t := Ok t;
  ErrNoOutputs := mkErr "bank" 3
}.

Lemma AmountOf_perm (a b : Coins) d : a ≡ₚ b → AmountOf a d = AmountOf b d.
Proof. intros. by apply sumZ_perm. Qed.
Lemma AmountOf_inserts a b d : AmountOf (foldl coins_insert a b) d = AmountOf a d + AmountOf b d.
Proof.
  revert a. induction b as [|c b IH]; intros a; simpl; [unfold AmountOf; simpl; lia|].
  rewrite IH, AmountOf_insert. unfold AmountOf. simpl. lia.
Qed.

Lemma duplicate_free_one c : duplicate_free [c] = true.
Proof. apply bool_decide_eq_true_2, NoDup_singleton. Qed.
Lemma ref_new_coins_one c : ref_valid_denom c.(Denom) = true → 0 < c.(Amount) →
  NewCoins [c] = Ok [c].
Proof.
  intros _ Hp. change ((if duplicate_free [c] then Ok (drop_zero [c]) else Panic) = Ok [c]).
  rewrite duplicate_free_one. unfold drop_zero. by rewrite filter_cons_True by lia.
Qed.

#[export] Instance ref_coinslib_laws : CoinsLaws ref_sdk ref_coins ref_coinslib.
Proof.
  split; simpl.
  - intros a b c d. unfold ref_coins_plus. case_match; [|done]. intros [= <-].
    rewrite (AmountOf_perm _ _ _ (merge_sort_Permutation denom_le _)).
    by rewrite AmountOf_drop_zero, AmountOf_inserts.
  - intros a b c _ _. unfold ref_coins_plus. case_match eqn:E; [|done]. intros [= <-].
    by apply andb_prop in E as [_ E].
  - intros a b e. unfold ref_coins_plus. by case_match.
  - intros cs [[Hd _]%andb_prop Ha]%andb_prop. split; [by apply bool_decide_eq_true in Hd|].
    apply Forall_forall. intros c Hc. rewrite forallb_forall in Ha.
    apply list_elem_of_In in Hc. by apply Ha in Hc as [? ?%Z.ltb_lt]%andb_prop.
  - intros c Hd Hp. unfold ref_coins_valid. rewrite duplicate_free_one.
    rewrite (bool_decide_eq_true_2 (Sorted _ _)) by repeat constructor. simpl.
    by rewrite Hd, (proj2 (Z.ltb_lt _ _) Hp).
  - intros cs. rewrite andb_true_iff, negb_true_iff, Nat.eqb_neq, forallb_forall, Forall_forall.
    split; intros [Hn Ha]; (split; [by destruct cs|]); intros c Hc.
    + by apply Z.ltb_lt, Ha, list_elem_of_In.
    + by apply Z.ltb_lt, Ha, list_elem_of_In.
  - intros cs. apply merge_sort_Permutation.
  - apply ref_new_coins_one.
  - intros a b -> _. by rewrite String.eqb_refl.
  - intros z Hz. change (NilZero.string_of_int (Z.to_int z)) with (print_Z z).
    rewrite parse_print_Z. simpl. rewrite (proj2 (Z.ltb_lt _ _)); [done|lia].
  - done.
Qed.

#[export] Instance world_disp_laws : StoreLaws DispStore World _.
Proof. split; done. Qed.
#[export] Instance world_disp_events : StoreIndep DispStore EventLog World _ _.
Proof. split; done. Qed.
#[export] Instance world_bank_disp : BankFrame DispStore World _ _.
Proof. split; intros; simpl; try done; intros w; simpl; unfold ref_send; by case_match. Qed.
#[export] Instance world_is_disp_world : DispWorld World.
Proof.
  split; try apply _; simpl.
  - intros m a cs w. unfold ref_send. by case_match.
  - intros m cs w _. by case_match.
Qed.
