(* ===== verification/IbcWorld.v ===== *)
(** * IbcWorld: token transfers in the concrete chain

    Instances, for [World], of the library code that x/ibctransfer uses, and proofs of the laws;
    a chain that lists a token with six decimals whose unit, with eighteen, is held in escrow. *)

From S2P Require Import World Scenario BridgeWorld.
From S2P Require Import Prelude Sdk SdkRef Rat Bank Keepers Registry Ibc.
Local Open Scope Z_scope.

(** ** Truncating decimals *)
#[export] Instance ref_truncate : SdkTruncate := {
  DecMulTruncate a b := checked_bits 315 (Z.quot (a * b) dec_one);
  DecQuoTruncate a b := if b =? 0 then Panic else checked_bits 315 (Z.quot (a * dec_one) b)
}.

Lemma quot_bound a b c : 0 < b → 0 <= c → Z.abs a < c * b → Z.abs (Z.quot a b) < c.
Proof.
  intros Hb Hc H. rewrite <- Z.quot_abs by lia. rewrite (Z.abs_eq b) by lia.
  rewrite Z.quot_div_nonneg by lia. apply Z.div_lt_upper_bound; lia.
Qed.
Lemma ref_mul_whole x y c : dec_mul (NewDec x) (NewDec y) = Ok c → c = NewDec (x * y).
Proof.
  intros H. pose proof (dec_mul_inv (NewDec x) (NewDec y) c H). unfold NewDec, dec_one in *. lia.
Qed.
(** Squaring keeps the value [y * x^i]. *)
Lemma dec_power_loop_whole fuel : ∀ i x y p, 1 <= i < 2 ^ Z.of_nat (S fuel) →
  dec_power_loop fuel i (NewDec x) (NewDec y) = Ok p → p = NewDec (y * x ^ i).
Proof.
  induction fuel as [|fuel IH]; intros i x y p Hi; simpl.
  - assert (i = 1) as -> by (simpl in Hi; lia). intros ->%ref_mul_whole. f_equal. lia.
  - destruct (Z.leb_spec i 1).
    { assert (i = 1) as -> by lia. intros ->%ref_mul_whole. f_equal. lia. }
    intros (t & Ht & H1)%rbind_ok. apply rbind_ok in H1 as (d & ->%ref_mul_whole & H1).
    pose proof (Z.div_mod i 2 ltac:(lia)) as Ei. pose proof (Z.mod_pos_bound i 2 ltac:(lia)).
    assert (1 <= i / 2 < 2 ^ Z.of_nat (S fuel)) as Hi2.
    { rewrite Nat2Z.inj_succ, Z.pow_succ_r in Hi by lia. lia. }
    assert (x ^ i = (x * x) ^ (i / 2) * x ^ (i mod 2)) as ->.
    { rewrite Ei at 1. rewrite Z.pow_add_r, Z.pow_mul_r by lia. by rewrite Z.pow_2_r. }
    destruct (Z.eqb_spec (i mod 2) 0) as [E|E].
    + apply Ok_inj in Ht. subst t. apply IH in H1; [|done]. rewrite H1, E. f_equal. lia.
    + apply ref_mul_whole in Ht. subst t. apply IH in H1; [|done].
      assert (i mod 2 = 1) as -> by lia. rewrite H1. f_equal. lia.
Qed.
Lemma dec_powers_ten :
  forallb (λ k, bool_decide (dec_power (NewDec 10) k = Ok (NewDec (10 ^ k)))) (seqZ 0 77) = true.
Proof. vm_compute. reflexivity. Qed.

#[export] Instance ref_truncate_laws : SdkTruncateLaws ref_sdk ref_truncate.
Proof.
  split; simpl.
  - intros a b H. apply checked_bits_total, quot_bound; [unfold dec_one; lia|lia|done].
  - intros a b c. apply checked_bits_inv.
  - intros a b Hb H. rewrite (proj2 (Z.eqb_neq _ _)) by done. apply checked_bits_total.
    rewrite <- Z.quot_abs, Z.quot_div_nonneg by lia. apply Z.div_lt_upper_bound; [lia|].
    rewrite Z.abs_mul, (Z.abs_eq dec_one) by done. lia.
  - intros a b c. destruct (Z.eqb_spec b 0); [done|]. by intros ->%checked_bits_inv.
  - intros k Hk. pose proof dec_powers_ten as H. rewrite forallb_forall in H.
    specialize (H k). rewrite bool_decide_eq_true in H. apply H, list_elem_of_In, elem_of_seqZ. lia.
  - intros k p Hk. unfold dec_power. destruct (Z.eqb_spec k 0) as [->|]; [by intros [= <-]|].
    intros H. apply (dec_power_loop_whole 64 k 10 1) in H; [rewrite H; f_equal; lia|].
    change (Z.of_nat 65) with 65. lia.
Qed.

(** ** ibc-go *)
(** The parts of a denomination before and after its last slash. *)
Fixpoint last_slash (s acc path : string) : string * string :=
  match s with
  | EmptyString => (path, acc)
  | String c s =>
      if Ascii.eqb c "/" then last_slash s "" (if String.eqb path "" then acc else path +:+ "/" +:+ acc)
      else last_slash s (acc +:+ String c "") path
  end.
#[export] Instance ref_ibc : IbcLib := {
  ReceiverChainIsSource port channel denom := String.prefix (port +:+ "/" +:+ channel +:+ "/") denom;
  GetDenomPrefix port channel := port +:+ "/" +:+ channel +:+ "/";
  ParseDenomTrace d := let (path, base) := last_slash d "" "" in mkDenomTrace path base;
  IBCDenom t := if String.eqb t.(dt_Path) "" then t.(dt_BaseDenom)
                else "ibc/" +:+ t.(dt_Path) +:+ "/" +:+ t.(dt_BaseDenom);
  Unmarshal_PacketData t :=
    '(d, a, s, r) ← from_text t; Ok (mkFungibleTokenPacketData d a s r);
  Sha256 s := String.string_of_list_ascii (rev (String.list_ascii_of_string s));
  ErrInvalidCoins := mkErr "sdk" 10
}.
Lemma prefix_split p s : String.prefix p s = true → ∃ rest, s = p +:+ rest.
Proof.
  revert s. induction p as [|c p IH]; intros s; [by exists s|]. destruct s as [|x s]; [done|].
  simpl. destruct (ascii_dec c x) as [->|]; [|done]. intros [rest ->]%IH. by exists rest.
Qed.
#[export] Instance ref_ibc_laws : IbcLaws ref_ibc.
Proof. split. intros port channel denom. apply prefix_split. Qed.

(** What is sent goes into escrow, what comes in is minted or leaves it. *)
#[export] Instance world_transfer : SdkTransferKeeper World := {
  SdkTransfer msg :=
    sender ← lift (AccAddressFromBech32 msg.(mt_Sender));
    SendCoins sender "escrow" [msg.(mt_Token)];
  SdkOnRecvPacket packet data :=
    receiver ← lift (AccAddressFromBech32 data.(fd_Receiver));
    amount ← lift (ok_or ErrAnonymous (NewIntFromString data.(fd_Amount)));
    denom ← lift (GetMintedDenomFromPacket packet data);
    coin ← lift (NewCoin denom amount);
    if ReceiverChainIsSource packet.(SourcePort) packet.(SourceChannel) data.(fd_Denom)
    then SendCoins "escrow" receiver [coin]
    else _ ← MintCoins "transfer" [coin]; SendCoinsFromModuleToAccount "transfer" receiver [coin]
}.

#[export] Instance world_bank_registry : BankFrame Registry World _ _.
Proof. split; intros; simpl; try done; intros w; simpl; unfold ref_send; by case_match. Qed.
#[export] Instance world_registry_events : StoreIndep Registry EventLog World _ _.
Proof. split; done. Qed.
#[export] Instance world_is_ibc_world : IbcWorld World.
Proof.
  split; try apply _. intros packet data. cbn [SdkOnRecvPacket world_transfer].
  repeat (apply preserves_bind; [apply preserves_lift|intros ?]).
  case_match; [apply frame_send|].
  apply preserves_bind; [apply frame_mint|intros _; apply frame_send_ma].
Qed.

(** ** A listed token and its unit *)
Definition entry_with (denom unit_ counterparty : string) (decimals : Z) : RegistryEntry :=
  mkRegistryEntry decimals denom denom "" "" "" "" "" "" "" "" ""
    [Permission_IBCEXPORT; Permission_IBCIMPORT] unit_ counterparty "".
Definition usdt_denom : string := "ibc/transfer/channel-0/uusdt".
Definition ibc_registry : Registry :=
  mkRegistry [entry_with usdt_denom "cusdt" "" 6; entry_with "cusdt" "" "uusdt" 18;
              entry_with "fury" "fury" "" 18].
Definition ibc_chain : World :=
  genesis <| w_registry := ibc_registry |>
          <| w_bank ::= credit (GetEscrowAddress "transfer" "channel-0") [mkCoin "cusdt" (1000 * ether)] |>.
Definition usdt_packet : Packet :=
  mkPacket "transfer" "channel-7" "transfer" "channel-0"
    (to_text ("uusdt", "5000000", "@carol", "@bob")).
