(* ===== verification/AnteWorld.v ===== *)
(** * AnteWorld: the checks of transactions in the concrete chain

    Instances, for [World], of the library code of the checks: decorators of cosmos-sdk that let
    everything pass, chained; the pools of x/staking; and proofs of the laws. *)

From S2P Require Import Oracle BridgeWorld.
From S2P Require Import Prelude Sdk SdkRef Rat Bank Keepers Admin ClpTypes World Scenario Ante.
Local Open Scope Z_scope.

#[export] Instance world_pools : StakingPools World := {
  GetTokens v := Z.of_N v.2;
  BondDenom _ := "fury";
  GetBondedPool _ := NewModuleAddress "bonded_tokens_pool";
  GetNotBondedPool _ := NewModuleAddress "not_bonded_tokens_pool"
}.
#[export] Instance world_pools_laws : StakingPoolsLaws World world_pools.
Proof. split. intros v. simpl. lia. Qed.

Definition pass_on : AnteDecorator World := λ next, next.
#[export] Instance ref_ante : AnteLib World := {
  ChainAnteDecorators := foldr (λ d h ctx tx simulate, d h ctx tx simulate) (λ ctx _ _, mret ctx);
  DecCoin_IsValid c := ref_valid_denom c.(dc_Denom) && (0 <=? c.(dc_Amount));
  NewDecCoins cs := Ok (filter (λ c, (c.(dc_Amount) =? 0) = false) cs);
  AnteAccountKeeper := unit;
  SignModeHandler := unit;
  SigGasConsumer := unit;
  DefaultSigVerificationGasConsumer := tt;
  SetUpContextDecorator := pass_on;
  RejectExtensionOptionsDecorator := pass_on;
  MempoolFeeDecorator := pass_on;
  ValidateBasicDecorator := pass_on;
  TxTimeoutHeightDecorator := pass_on;
  ValidateMemoDecorator _ := pass_on;
  ConsumeGasForTxSizeDecorator _ := pass_on;
  DeductFeeDecorator _ := pass_on;
  SetPubKeyDecorator _ := pass_on;
  ValidateSigCountDecorator _ := pass_on;
  SigGasConsumeDecorator _ _ := pass_on;
  SigVerificationDecorator _ _ := pass_on;
  IncrementSequenceDecorator _ := pass_on;
  ErrLogic := mkErr "sdk" 35;
  ErrTxDecode := mkErr "sdk" 2;
  ErrNoValidatorExists := mkErr "distribution" 12
}.
Lemma pass_on_lets_through :
  lets_through (λ w w', store (S := AdminStore) w' = store (S := AdminStore) w) pass_on.
Proof. intros next ctx tx simulate w c w' H. by exists ctx, w, c, w'. Qed.
#[export] Instance ref_ante_laws : AnteLaws World ref_sdk _ ref_ante.
Proof.
  split.
  - done.
  - simpl. split_and!; try intros []; apply pass_on_lets_through.
  - vm_compute. reflexivity.
  - vm_compute. reflexivity.
  - intros p Hp. simpl. rewrite (proj2 (Z.leb_le _ _)) by lia. split; [done|].
    rewrite filter_cons_True; [done|simpl; lia].
Qed.

(** Three validators with 40, 35 and 25 of thousand fury; the rest is with others. *)
Definition staked : World :=
  bridge_genesis <| w_bank ::= credit "module/bonded_tokens_pool" [mkCoin "fury" 1000] |>.
Definition url_send : Msg := mkMsg "/cosmos.bank.v1beta1.MsgSend" None.
Definition url_swap : Msg := mkMsg "/blackfury.clp.v1.MsgSwap" None.
Definition url_transfer : Msg := mkMsg "/ibc.applications.transfer.v1.MsgTransfer" None.
Definition url_proposal : Msg := mkMsg "/cosmos.gov.v1beta1.MsgSubmitProposal" None.
Definition url_vote : Msg := mkMsg "/cosmos.gov.v1beta1.MsgVote" None.
Definition url_distribution : Msg := mkMsg "/blackfury.dispensation.v1.MsgCreateDistribution" None.
Definition delegate_msg (validator : string) (amount : Int) : Msg :=
  mkMsg "/cosmos.staking.v1beta1.MsgDelegate" (Some (MsgDelegate validator amount)).
Definition create_validator (rate : Dec) : Msg :=
  mkMsg "/cosmos.staking.v1beta1.MsgCreateValidator" (Some (MsgCreateValidator rate)).
Definition fee_of (n : Z) : option Coins := Some [mkCoin "fury" n].
