(* ===== verification/RelayerWorld.v ===== *)
(** * RelayerWorld: a concrete relayer

    Instances of the library code and of the outside that cmd/ebrelayer uses, and the proofs of
    their laws. *)

From Stdlib Require Import DecimalString DecimalZ.
From S2P Require Import Oracle EthBridge.
From S2P Require Import Prelude Sdk SdkRef Rat Bank Keepers ClpKeeper World Scenario BridgeWorld.
From S2P Require Import Relayer RelayerText RelayerSub.
Local Open Scope Z_scope.

(** ** Addresses and numbers *)
Lemma hex_digit_letter n : (n < 16)%nat → hex_digit (hex_letter n) = Some n.
Proof. intros H. do 16 (destruct n as [|n]; [done|]). lia. Qed.
Lemma hex_halves c : (nat_of_ascii c / 16 < 16)%nat ∧ (nat_of_ascii c mod 16 < 16)%nat.
Proof.
  pose proof (nat_ascii_bounded c). split; [apply Nat.Div0.div_lt_upper_bound; lia|by apply Nat.mod_upper_bound].
Qed.
Lemma hex_bytes_text a : hex_bytes (String.length a) (String.list_ascii_of_string (hex_text a)) = a.
Proof.
  induction a as [|c a IH]; [done|]. destruct (hex_halves c) as [H1 H2].
  pose proof (Nat.div_mod_eq (nat_of_ascii c) 16) as Hc.
  cbn [hex_text String.length String.list_ascii_of_string hex_bytes head drop mbind option_bind].
  rewrite !hex_digit_letter by done. cbn [from_option]. unfold id. rewrite <- Hc.
  by rewrite ascii_nat_embedding, drop_0, IH.
Qed.
Lemma hex_text_digits a : forallb (λ c, bool_decide (is_Some (hex_digit c)))
  (String.list_ascii_of_string (hex_text a)) = true.
Proof.
  induction a as [|c a IH]; [done|]. destruct (hex_halves c) as [H1 H2].
  cbn [hex_text String.list_ascii_of_string forallb]. by rewrite !hex_digit_letter.
Qed.
Lemma hex_text_length a : length (String.list_ascii_of_string (hex_text a)) = (2 * String.length a)%nat.
Proof. induction a as [|c a IH]; [done|]. simpl. rewrite IH. lia. Qed.
Lemma hex_bytes_length k : ∀ l, String.length (hex_bytes k l) = k.
Proof. induction k as [|k IH]; intros l; [done|]. cbn [hex_bytes String.length]. by rewrite IH. Qed.
(** The value of digits after a number. *)
Definition uint_after (acc : Z) (u : Decimal.uint) : Z :=
  match acc with Zpos p => Zpos (Pos.of_uint_acc u p) | _ => Z.of_uint u end.
Lemma uint_of_digit c : is_digit c → ∃ D : Decimal.uint → Decimal.uint,
  (∀ o, uint_of_char c o = D <$> o) ∧
  ∀ acc u, 0 <= acc → uint_after acc (D u) = uint_after (10 * acc + (Z.of_nat (nat_of_ascii c) - 48)) u.
Proof.
  intros [H1 H2]. pose proof (ascii_nat_embedding c) as Hc.
  assert (∃ k, (k < 10)%nat ∧ nat_of_ascii c = (48 + k)%nat) as (k & Hk & E) by (exists (nat_of_ascii c - 48)%nat; lia).
  rewrite E in *. clear H1 H2 E. subst c.
  do 10 (destruct k as [|k]; [eexists; split; [intros [o|]; reflexivity|]; intros acc u Ha; destruct acc as [|p|p]; [reflexivity|rewrite Z.add_comm; reflexivity|lia]|]).
  lia.
Qed.
Lemma digits_uint s : ∀ acc z, 0 <= acc → digits_value acc s = Some z →
  ∃ u, NilEmpty.uint_of_string s = Some u ∧ uint_after acc u = z.
Proof.
  induction s as [|c s IH]; intros acc z Ha H.
  - injection H as <-. exists Decimal.Nil. split; [done|]. by destruct acc; [| |lia].
  - cbn [digits_value] in H. destruct ((48 <=? _) && _) eqn:E; [|done].
    apply andb_prop in E as [E1%Z.leb_le E2%Z.leb_le].
    destruct (uint_of_digit c ltac:(done)) as (D & HD & Hv).
    apply IH in H as (u & Eu & Hz); [|lia]. exists (D u). cbn [NilEmpty.uint_of_string].
    rewrite HD, Eu, Hv by done. done.
Qed.
Lemma digits_parse c s z : is_digit c → digits_value 0 (String c s) = Some z → parse_Z (String c s) = Some z.
Proof.
  intros Hc H. destruct (digits_uint _ 0 z ltac:(lia) H) as (u & Eu & Hz). unfold parse_Z.
  unfold NilZero.int_of_string, NilZero.uint_of_string. destruct (Ascii.eqb_spec c "-") as [->|].
  - by destruct Hc.
  - rewrite Eu. simpl. by f_equal.
Qed.
Lemma pretty_parse (z : Z) : 0 <= z → parse_Z (pretty z) = Some z.
Proof.
  intros Hz. destruct z as [|p|p]; [done| |lia]. change (pretty (Zpos p)) with (pretty (N.pos p)).
  pose proof (SetString_pretty (N.pos p)) as H. unfold pretty, pretty_N in *.
  destruct (decide _); [done|]. destruct (pretty_go_first (N.pos p) "" ltac:(lia)) as (c & r & E & Hc).
  rewrite E in *. rewrite unsigned in H by done. by apply digits_parse.
Qed.

#[export] Instance ref_relayer_laws : RelayerLaws ref_sdk ref_eth.
Proof.
  split.
  - intros a Ha. change (hex_bytes 20 (String.list_ascii_of_string (hex_text a)) = a).
    rewrite <- Ha. apply hex_bytes_text.
  - intros a Ha. change ((length (String.list_ascii_of_string (hex_text a)) =? 40)%nat &&
      forallb (λ c, bool_decide (is_Some (hex_digit c))) (String.list_ascii_of_string (hex_text a)) = true).
    by rewrite hex_text_length, Ha, hex_text_digits.
  - intros s. apply hex_bytes_length.
  - intros z Hz. simpl. rewrite parse_print_Z. simpl. by rewrite (proj2 (Z.ltb_lt _ _)).
  - intros z Hz. simpl. rewrite pretty_parse by lia. simpl. by rewrite (proj2 (Z.ltb_lt _ _)) by lia.
Qed.

(** ** Maps with an inverse *)
Definition put {A} `{EqDecision A} {B} (f : A → option B) (k : A) (v : B) : A → option B := λ x,
  if decide (x = k) then Some v else f x.
#[export] Instance ref_bimap : BiMapLib := {
  BiMap := (Any → option Any) * (Any → option Any);
  NewBiMap := (λ _, None, λ _, None);
  BiMap_Insert b k v :=
    if decide (k = AUnhashable ∨ v = AUnhashable) then Panic else Ok (put b.1 k v, put b.2 v k);
  BiMap_MakeImmutable b := b;
  BiMap_Get b := b.1;
  BiMap_GetInverse b := b.2;
  Unmarshal_symbolMap t :=
    l ← from_text (A := list (string * string)) t;
    if decide (NoDup l.*1) then Ok (prod_map id AString <$> l) else Err ErrAnonymous;
  go_ToLower := ToLower
}.
#[export] Instance ref_bimap_laws : BiMapLaws ref_bimap.
Proof.
  split; simpl.
  - done.
  - intros b k v _ _. by eexists.
  - done.
  - intros t l H. apply rbind_ok in H as (l0 & _ & H). case_decide as Hn; [|done]. injection H as <-.
    by rewrite <- list_fmap_compose.
  - done.
Qed.

(** ** The outside: a node that gives a block on every second try, keys, a node of Ethereum *)
Definition eth_bob : EthereumAddress := HexToAddress "0x1111111111111111111111111111111111111111".
Definition eth_dai : EthereumAddress := HexToAddress "0x2222222222222222222222222222222222222222".
Definition bridge_bank : EthereumAddress := HexToAddress "0x3333333333333333333333333333333333333333".
Definition lock_fury : MsgLock :=
  mkMsgLock "@alice" 700 "fury" 1 "0x1111111111111111111111111111111111111111" ether.
Definition burn_dai : MsgBurn :=
  mkMsgBurn "@bob" 300 "cdai" 1 "0x1111111111111111111111111111111111111111" ether.
Definition chain_blocks (b : Z) : list (list AbciEvent) :=
  if b =? 12 then [[lock_event lock_fury 3]; [burn_event burn_dai 9; mkAbciEvent "transfer" []]]
  else if b =? 14 then [[burn_event burn_dai 10]] else [].
Definition log_event : EthereumEvent :=
  mkEthereumEvent "@bob" "DAI" 0 250 7 CLAIM_TYPE_UNSPECIFIED "" "" eth_bob eth_dai.
Definition log_dai : Log := mkLog ["LOCK"] "dai" "0xabc".
(** The call of a relayer for a message of an account whose text has 42 bytes. *)
Definition long_account : string := "fury12345678901234567890123456789012345678".
Definition zeros (n : nat) : string := String.string_of_list_ascii (repeat (ascii_of_nat 0) n).
Definition claim_call : EthTx :=
  mkEthTx (Some eth_bob) (String.append "NPCL" (String.append (zeros 95) (String.append
    (String (ascii_of_nat 9) "") (String.append (zeros 128) long_account)))).
#[export] Instance ref_outside : Outside := {
  BlockResults n b := if Nat.even n then None else Some (chain_blocks b);
  BlockByNumber _ b := Some (if b =? 5 then [claim_call] else []);
  FilterLogs _ from to := Some (if (from <=? 60) && (60 <=? to) then [log_dai] else []);
  InitRelayConfig _ := true;
  NewCosmosBridge _ := true;
  NewProphecyClaim_tx _ _ := true;
  TransactionReceipt _ := true;
  GetValAddressFromKeyring _ := Some "v1";
  BroadcastTx _ _ := true;
  LogBurn_ID := "BURN";
  LogLock_ID := "LOCK";
  NewProphecyClaim_ID := "NPCL";
  UnpackIntoInterface _ data := if String.eqb data "dai" then Ok log_event else Err ErrAnonymous
}.
Definition ref_translator : SymbolTranslator := NewSymbolTranslator.
Definition relayer_at (cosmos ethereum : option Z) : RelayerState := mkRelayerState 0 cosmos ethereum ∅ [].
