(* ===== verification/ClpParams.v ===== *)
(** * ClpParams: which messages change which settings

    The messages a user sends change no setting, however they end; the module's [Params] (the
    minimal threshold of pool creation and the switch of the removal queue) are written at
    genesis only. *)

From S2P Require Import Prelude Sdk SdkRef Rat Bank Keepers Admin Registry ClpTypes ClpMath.
From S2P Require Import ClpKeeper.
From S2P Require Import ClpPolicy ClpRewards ClpLiquidity ClpMsgs ClpServer ClpModule World.
From S2P Require Import ClpStoreSpec ClpUnits ClpExec ClpSettings ClpEffects Scenario.
Local Open Scope Z_scope.

(** The settings, all but the protection threshold, which swaps and adds move. *)
Definition user_settings (s : ClpStore) :=
  (s.(cs_WhiteList), s.(cs_PmtpRateParams), s.(cs_PmtpEpoch), s.(cs_PmtpParams), s.(cs_RewardParams),
   s.(cs_SymmetryThreshold), s.(cs_LiquidityProtectionParams), s.(cs_ProviderDistributionParams),
   s.(cs_BlockDistributionAccu), s.(cs_SwapFeeParams), s.(cs_Params)).
#[export] Instance user_settings_setting : Setting user_settings.
Proof. done. Qed.
#[export] Instance user_settings_queue_free : QueueFree user_settings.
Proof. done. Qed.

(** Messages of users, who need no role. *)
Definition user_msg `{MintKeeper W} (m : ClpMsg) : bool :=
  match m with
  | AMsgCreatePool _ | AMsgAddLiquidity _ | AMsgRemoveLiquidity _ | AMsgRemoveLiquidityUnits _
  | AMsgSwap _ | AMsgCancelUnlock _ | AMsgUnlockLiquidityRequest _ | AMsgDecommissionPool _ => true
  | _ => false
  end.

Section params.
Context {W : Type} {sdk : Sdk} {HL : SdkLaws sdk} {coins : CoinLib} {bank : BankKeeper W}
  {paginator : Paginator} {registry : TokenRegistryKeeper W} {admin : AdminKeeper W}
  {margin : MarginKeeper W} {mint : MintKeeper W} {errs : SdkErrors}
  {clp : HasStore ClpStore W} {events : HasStore EventLog W} {CW : ClpWorld W}.

Lemma user_message_view {X} (f : ClpStore → X) {Hf : Setting f} {Hqf : QueueFree f} ctx m :
  (∀ s p, f (s <| cs_LiquidityProtectionRateParams := p |>) = f s) →
  user_msg m = true → preserves (view f) (NewHandler ctx m).
Proof.
  intros Hrate Hm. destruct m; simpl in *; try done.
  - by apply view_CreatePool_handler.
  - by apply view_DecommissionPool_handler.
  - by apply view_AddLiquidity_handler.
  - by apply view_RemoveLiquidity_handler.
  - by apply view_RemoveLiquidityUnits.
  - by apply view_Swap.
  - by apply view_CancelUnlock.
  - by apply view_UnlockLiquidity.
Qed.

Context {MQ : MintQuiet W}.
(** The other messages are quiet. *)
Lemma admin_message_quiet ctx m : user_msg m = false → quiet (NewHandler ctx m).
Proof.
  destruct m; simpl; try done; intros _.
  - apply quiet_ModifyPmtpRates.
  - apply quiet_UpdatePmtpParams.
  - apply quiet_UpdateRewardsParams.
  - apply quiet_AddRewardPeriod.
  - apply quiet_UpdateStakingRewardParams.
  - apply quiet_UpdateLiquidityProtectionParams.
  - apply quiet_ModifyLiquidityProtectionRates.
  - apply quiet_AddProviderDistributionPeriod.
  - apply quiet_UpdateSwapFeeParams.
Qed.

Lemma params_message ctx m : preserves (view cs_Params) (NewHandler ctx m).
Proof.
  destruct (user_msg m) eqn:E; [by apply user_message_view|].
  intros w. pose proof (admin_message_quiet ctx m E "" "" w) as Hq. unfold seen, books in Hq.
  by injection Hq.
Qed.
End params.

(** A message that needs no role changes no setting of the module, whether it succeeds,
    fails or panics; and no message at all changes the module's [Params], so the removal queue
    stays as genesis switched it. *)
Theorem messages_keep_settings {W : Type} `{HL : SdkLaws} `{CW : ClpWorld W} `{Paginator}
    `{TokenRegistryKeeper W} `{AdminKeeper W} `{MarginKeeper W} `{MintKeeper W} `{SdkErrors}
    `{!MintQuiet W} (ctx : Ctx) (m : ClpMsg) (w : W) :
  let s := store (S := ClpStore) w in
  let s' := store (S := ClpStore) (NewHandler ctx m w).2 in
  s'.(cs_Params) = s.(cs_Params) ∧ (user_msg m = true → user_settings s' = user_settings s).
Proof.
  split; [apply (params_message ctx m w)|]. intros Hu.
  by apply (user_message_view user_settings ctx m).
Qed.

Lemma messages_keep_settings_witness :
  let s' := store (S := ClpStore) (NewHandler (block 10) alice_creates genesis).2 in
  user_settings s' = user_settings clp_genesis.
Proof. exact (proj2 (messages_keep_settings (block 10) alice_creates genesis) eq_refl). Defined.
