(* ===== verification/ClpUnitsSpec.v ===== *)
(** * ClpUnitsSpec: the units of a pool are those of its providers, whatever messages run

    The invariant of ClpUnits.v is kept by every message of x/clp: one lemma per handler that
    changes the books, the rest are quiet, and a theorem about all sequences of messages. *)

From S2P Require Import Prelude Sdk SdkRef Rat Bank Keepers ClpTypes ClpMath ClpKeeper ClpPolicy.
From S2P Require Import ClpRewards ClpLiquidity ClpMsgs ClpServer ClpModule World ClpMathSpec.
From S2P Require Import ClpStoreSpec ClpUnits ClpExec ClpSettings ClpEffects ClpParams Admin.
From S2P Require Import Registry Scenario.
Local Open Scope Z_scope.

(** A signer written as [AccAddress.String()] writes its address. *)
Definition canonical `{CoinLib} (signer : string) : Prop :=
  ∃ addr, AccAddressFromBech32 signer = Ok addr ∧ AccString addr = signer ∧ no_underscore signer.

(** The module account signs nothing. *)
Definition outsider `{CoinLib} (signer : string) : Prop :=
  ∀ addr, AccAddressFromBech32 signer = Ok addr → addr ≠ GetCLPModuleAddress.

(** Who signs: signers are bech32 texts, those that may create a provider write them in their
    canonical form. *)
Definition sound_msg {W} `{CoinLib} `{MintKeeper W} (s : ClpStore) (m : ClpMsg) : Prop :=
  match m with
  | AMsgCreatePool m => canonical m.(cp_Signer) ∧ outsider m.(cp_Signer)
  | AMsgAddLiquidity m => canonical m.(al_Signer) ∧ outsider m.(al_Signer)
  | AMsgSwap m => outsider m.(sw_Signer)
  | AMsgRemoveLiquidity m => no_underscore m.(rl_Signer)
  | AMsgRemoveLiquidityUnits m => no_underscore m.(rlu_Signer)
  | _ => True
  end.

(** The listing that decommissioning reads has a limit that wraps: it finds the providers of an
    asset if they are the first ones stored, and finds nobody otherwise. *)
Definition provider_of (symbol : string) (lp : LiquidityProvider) : bool :=
  String.eqb lp.(LPAsset).(Symbol) symbol.
Definition finds_providers (s : ClpStore) (symbol : string) : bool :=
  (Z.of_nat (length (kv_iter s.(cs_LPs))) <? MaxUint64) &&
  (match kv_values s.(cs_LPs) with lp :: _ => provider_of symbol lp | [] => true end
   || forallb (λ lp, negb (provider_of symbol lp)) (kv_values s.(cs_LPs))).
Definition units_msg {W} `{CoinLib} `{MintKeeper W} (s : ClpStore) (m : ClpMsg) : Prop :=
  sound_msg s m ∧
  match m with AMsgDecommissionPool m => finds_providers s m.(dp_Symbol) = true | _ => True end.

(** Pool and provider written together. *)
Inductive written (s : ClpStore) : ClpStore → Prop :=
| written_set p lp : pool_ok p → no_underscore lp.(LiquidityProviderAddress) →
    0 <= lp.(LiquidityProviderUnits) → p.(ExternalAsset).(Symbol) = lp.(LPAsset).(Symbol) →
    p.(PoolUnits) = pool_units s lp.(LPAsset).(Symbol)
      - held_units s lp.(LPAsset).(Symbol) lp.(LiquidityProviderAddress) + lp.(LiquidityProviderUnits) →
    written s (set_lp lp (set_pool p s))
| written_del p addr : pool_ok p → no_underscore addr →
    p.(PoolUnits) = pool_units s p.(ExternalAsset).(Symbol) - held_units s p.(ExternalAsset).(Symbol) addr →
    written s (del_lp p.(ExternalAsset).(Symbol) addr (set_pool p s)).
Lemma written_wf s s' : written s s' → store_wf s → store_wf s'.
Proof. intros [] Hwf; [apply set_lp_wf; [by apply set_pool_wf|done..]|by apply del_lp_wf, set_pool_wf]. Qed.
Lemma written_units s s' : written s s' → units_ok s → units_ok s'.
Proof. intros [] Hok; [by apply units_ok_set_both|by apply units_ok_remove_both]. Qed.

Lemma filter_none {A} (P : A → Prop) `{∀ x, Decision (P x)} (l : list A) :
  (∀ x, x ∈ l → ¬ P x) → filter P l = [].
Proof.
  induction l as [|x l IH]; intros Hl; [done|]. rewrite filter_cons, decide_False by (apply Hl; left).
  apply IH. intros y Hy. apply Hl. by right.
Qed.

Section units.
Context {W : Type} {sdk : Sdk} {HL : SdkLaws sdk} {coins : CoinLib} {bank : BankKeeper W}
  {paginator : Paginator} {registry : TokenRegistryKeeper W} {admin : AdminKeeper W}
  {margin : MarginKeeper W} {mint : MintKeeper W} {errs : SdkErrors}
  {clp : HasStore ClpStore W} {events : HasStore EventLog W} {CW : ClpWorld W}
  {MQ : MintQuiet W}.
Implicit Types w : W.
Notation clp_of w := (store (S := ClpStore) w).

Lemma pool_symbol s symbol p :
  store_wf s → s.(cs_Pools) !! pool_key symbol = Some p → p.(ExternalAsset) = mkAsset symbol.
Proof.
  intros Hwf E. apply (pools_keyed _ Hwf) in E. apply pool_key_inj in E.
  destruct p.(ExternalAsset). simpl in *. congruence.
Qed.
Lemma lp_symbol s symbol addr lp :
  store_wf s → no_underscore addr →
  s.(cs_LPs) !! GetLiquidityProviderKey symbol addr = Some lp →
  lp.(LPAsset) = mkAsset symbol ∧ lp.(LiquidityProviderAddress) = addr.
Proof.
  intros Hwf Ha E. apply (lps_keyed _ Hwf) in E as [E ?]. apply lp_key_inj in E as [-> ->]; [|done..].
  by destruct lp.(LPAsset).
Qed.

(** A handler that writes a pool and a provider, after bookkeeping that changes no units. *)
Definition writes_both w w' : Prop :=
  ∃ s s', written s s' ∧ same_books (clp_of w') s' ∧ store_wf s ∧ (units_ok (clp_of w) → units_ok s).
Lemma writes_wf w w' : writes_both w w' → store_wf (clp_of w').
Proof. intros (s & s' & Hw & Hb & Hwf & _). rewrite Hb. by eapply written_wf. Qed.
Lemma writes_units w w' : writes_both w w' → units_ok (clp_of w) → units_ok (clp_of w').
Proof. intros (s & s' & Hw & Hb & _ & Hu) Hok. rewrite Hb. by eapply written_units, Hu. Qed.

Lemma AddLiquidity_writes msg w u w' :
  AddLiquidity_handler msg w = (Ok u, w') → canonical msg.(al_Signer) → queue_idle (clp_of w) →
  store_wf (clp_of w) → writes_both w w'.
Proof.
  intros H (a & Ea' & Es & Hu) Hq Hwf0.
  apply AddLiquidity_effect in H as (addr & pool & nu & lu & s & Ea & Ep & Hnu & V & Hn & He & Hs & Hlu & _ & Hb);
    [|done].
  replace a with addr in Es by congruence.
  assert (store_wf s) as Hwf by (by rewrite Hs). pose proof Hs as Hs0.
  apply same_books_split in Hs as (Eps & Els & _).
  rewrite <- Eps in Ep. pose proof (pool_symbol _ _ _ Hwf Ep) as Epa.
  pose proof (pools_ok _ Hwf _ _ Ep) as Hp. specialize (Hnu Hp).
  set (symbol := msg.(al_ExternalAsset).(Symbol)) in *.
  assert (∃ lp, provider_after_add s msg addr lu = lp ∧ lp.(LPAsset) = mkAsset symbol ∧
    lp.(LiquidityProviderAddress) = msg.(al_Signer) ∧
    lp.(LiquidityProviderUnits) = held_units s symbol msg.(al_Signer) + lu)
    as (lp & Elp & Hasset & Haddr & Hunits).
  { eexists. split; [done|]. unfold provider_after_add, held_units. fold symbol.
    destruct (s.(cs_LPs) !! _) as [lp0|] eqn:El; simpl.
    - apply lp_symbol in El as [-> ->]; done.
    - split; [by destruct msg.(al_ExternalAsset)|]. done. }
  rewrite Elp in *. rewrite Epa, <- Hasset in V. exists s. eexists. split; [|split; [exact (Hb V)|]].
  - apply written_set; try done.
    + destruct Hp. split; simpl; lia.
    + by rewrite Haddr.
    + unfold added_pool. simpl. by rewrite Epa, Hasset.
    + rewrite Haddr, Hunits, Hasset. unfold added_pool, pool_units. simpl. rewrite Ep. simpl. lia.
  - split; [done|]. by rewrite Hs0.
Qed.

Lemma removal_writes asset signer w w' :
  removal asset signer w w' → no_underscore signer → store_wf (clp_of w) → writes_both w w'.
Proof.
  intros (lp & pool & us & w1 & addr & left & n & e & El & Ep & T & _ & V & Hl & Hn & He & Ln & Le & _ & Hb)
    Hu Hwf.
  pose proof (pool_symbol _ _ _ Hwf Ep) as Epa.
  destruct (lp_symbol _ _ _ _ Hwf Hu El) as [Hasset Haddr].
  assert (lp_key lp = GetLiquidityProviderKey asset.(Symbol) signer) as Ek
    by (unfold lp_key; by rewrite Hasset, Haddr).
  rewrite Epa, <- Hasset in V. rewrite <- Ek in El.
  pose proof (touched_wf _ _ _ T El Hwf) as Hwf1.
  destruct (touched_lookup _ _ _ T El) as [Ep1 [us1 El1]]. rewrite <- Ep1 in Ep.
  pose proof (pools_ok _ Hwf1 _ _ Ep) as Hp.
  assert (held_units (clp_of w1) asset.(Symbol) signer = lp.(LiquidityProviderUnits)) as Hheld.
  { unfold held_units. rewrite <- Ek, El1. done. }
  assert (pool_units (clp_of w1) asset.(Symbol) = pool.(PoolUnits)) as Hpu.
  { unfold pool_units. by rewrite Ep. }
  eexists (clp_of w1), _. split; [|split; [exact (Hb V)|split; [done|by eapply touched_units_ok]]].
  unfold removed. destruct (Z.eqb_spec left 0) as [->|]; simpl.
  - rewrite Hasset, Haddr.
    replace (mkAsset asset.(Symbol)).(Symbol) with
      (withdrawn_pool pool (pool.(PoolUnits) - lp.(LiquidityProviderUnits) + 0) n e).(ExternalAsset).(Symbol)
      by (unfold withdrawn_pool; simpl; by rewrite Epa).
    apply written_del; try done.
    + destruct Hp. split; simpl; lia.
    + unfold withdrawn_pool. simpl. rewrite Epa. simpl. lia.
  - apply written_set; simpl; try done.
    + destruct Hp. split; simpl; lia.
    + by rewrite Haddr.
    + by rewrite Epa, Hasset.
    + rewrite Hasset, Haddr. simpl. lia.
Qed.

Lemma CreatePool_wf msg w u w' :
  CreatePool_handler msg w = (Ok u, w') → canonical msg.(cp_Signer) →
  store_wf (clp_of w) → store_wf (clp_of w').
Proof.
  intros (addr & Ea & _ & Hn & He & _ & Hb)%CreatePool_effect (a & Ea' & Es & Hu) Hwf.
  rewrite Hb. replace a with addr in Es by congruence. apply set_lp_wf; simpl; [|by rewrite Es|lia].
  apply set_pool_wf; [done|]. split; simpl; lia.
Qed.
Lemma CreatePool_units msg w u w' :
  CreatePool_handler msg w = (Ok u, w') → canonical msg.(cp_Signer) →
  units_ok (clp_of w) → units_ok (clp_of w').
Proof.
  intros (addr & Ea & Hnew & Hn & He & _ & Hb)%CreatePool_effect (a & Ea' & Es & Hu) Hok.
  rewrite Hb. replace a with addr in Es by congruence.
  apply units_ok_set_both; simpl; try done; [split; simpl; lia|by rewrite Es|lia|].
  pose proof (held_units_le (clp_of w) msg.(cp_ExternalAsset).(Symbol) (AccString addr) (proj1 Hok)
    ltac:(by rewrite Es)) as Hle.
  pose proof (held_units_nonneg (clp_of w) msg.(cp_ExternalAsset).(Symbol) (AccString addr) (proj1 Hok)).
  pose proof (proj2 Hok msg.(cp_ExternalAsset).(Symbol)) as H0. unfold units_off in H0.
  unfold pool_units in *. rewrite Hnew in *. simpl in *. lia.
Qed.

Lemma units_ok_swapped s k p (b : bool) x y :
  units_ok s → s.(cs_Pools) !! k = Some p →
  (pool_ok p → pool_ok (swapped_pool p b x y)) → units_ok (set_pool (swapped_pool p b x y) s).
Proof.
  intros Hok E Hp. pose proof (proj1 Hok) as Hwf.
  pose proof (pools_keyed _ Hwf _ _ E) as ->.
  assert (ExternalAsset (swapped_pool p b x y) = ExternalAsset p) as Ea by (by destruct b).
  eapply units_ok_set_pool; [done|by rewrite Ea|by eapply Hp, pools_ok|by destruct b].
Qed.

Lemma Swap_units msg w u w' :
  Swap msg w = (Ok u, w') → units_ok (clp_of w) → units_ok (clp_of w').
Proof.
  intros (addr & w1 & w2 & y & _ & Hx & Hy & _ & _ & _ & _ & Hroute)%Swap_effect Hok.
  destruct Hroute as [(p & Ep & _ & Hp & Hb)|(_ & _ & p1 & p2 & y1 & Ep1 & Ep2 & Hp1 & Hp2 & Hb)]; rewrite Hb.
  - by eapply units_ok_swapped.
  - eapply units_ok_swapped; [|done|done]. by eapply units_ok_swapped.
Qed.

Lemma Swap_wf msg w u w' : Swap msg w = (Ok u, w') → store_wf (clp_of w) → store_wf (clp_of w').
Proof.
  intros (addr & w1 & w2 & y & _ & Hx & Hy & _ & _ & _ & _ & Hroute)%Swap_effect Hwf.
  destruct Hroute as [(p & Ep & _ & Hp & Hb)|(_ & _ & p1 & p2 & y1 & Ep1 & Ep2 & Hp1 & Hp2 & Hb)]; rewrite Hb.
  - by apply set_pool_wf, Hp, (pools_ok _ Hwf _ _ Ep).
  - assert (store_wf (set_pool (swapped_pool p1 true (sw_SentAmount msg) y1) (clp_of w))) as Hwf1
      by (by apply set_pool_wf, Hp1, (pools_ok _ Hwf _ _ Ep1)).
    by apply set_pool_wf, Hp2, (pools_ok _ Hwf1 _ _ Ep2).
Qed.

(** ** Decommissioning *)

(** The page is everything that is stored of the asset. *)
Definition provider_page (s : ClpStore) (asset : Asset) : list LiquidityProvider :=
  filter (λ lp, Asset_Equals lp.(LPAsset) asset = true) (kv_values s.(cs_LPs)).

Definition cleared (lps : list LiquidityProvider) (k : string) : Prop := k ∈ (lp_key <$> lps).

Lemma without_lps_lookup lps s k lp :
  (without_lps lps s).(cs_LPs) !! k = Some lp ↔ s.(cs_LPs) !! k = Some lp ∧ ¬ cleared lps k.
Proof.
  unfold without_lps, cleared. revert s. induction lps as [|x lps IH]; intros s.
  { simpl. split; [|tauto]. split; [done|]. apply not_elem_of_nil. }
  simpl. rewrite IH, elem_of_cons. unfold del_lp. simpl. rewrite lookup_delete_Some.
  fold (lp_key x). assert (lp_key x ≠ k ↔ ¬ k = lp_key x) by (split; congruence).
  tauto.
Qed.

Lemma page_cleared s asset k lp :
  store_wf s → s.(cs_LPs) !! k = Some lp → lp.(LPAsset) = asset → cleared (provider_page s asset) k.
Proof.
  intros Hwf E Ha. destruct (lps_keyed _ Hwf _ _ E) as [-> _]. apply list_elem_of_fmap.
  exists lp. split; [done|]. unfold provider_page. apply list_elem_of_filter. split.
  - rewrite Asset_Equals_spec. by apply bool_decide_eq_true_2.
  - apply elem_of_kv_values. eauto.
Qed.
Lemma page_only s asset k :
  store_wf s → cleared (provider_page s asset) k →
  ∃ lp, s.(cs_LPs) !! k = Some lp ∧ lp.(LPAsset) = asset.
Proof.
  intros Hwf (lp & -> & Hlp)%list_elem_of_fmap. unfold provider_page in Hlp.
  apply list_elem_of_filter in Hlp as [Ha Hin]. apply elem_of_kv_values in Hin as [k E].
  destruct (lps_keyed _ Hwf _ _ E) as [-> _]. exists lp. split; [done|].
  rewrite Asset_Equals_spec in Ha. by apply bool_decide_eq_true in Ha.
Qed.

Lemma without_page_wf s lps : store_wf s → store_wf (without_lps lps s).
Proof.
  intros Hwf. split; try (rewrite without_lps_pools; apply Hwf).
  - intros k lp [E _]%without_lps_lookup. by apply Hwf.
  - intros k lp [E _]%without_lps_lookup. by eapply lps_units.
Qed.

Lemma without_other_units x lps s :
  store_wf s → (∀ lp, lp ∈ lps → lp.(LPAsset).(Symbol) ≠ x ∧ no_underscore lp.(LiquidityProviderAddress)) →
  provider_units (without_lps lps s) x = provider_units s x.
Proof.
  unfold without_lps. revert s. induction lps as [|lp lps IH]; intros s Hwf Hlps; [done|]. simpl.
  destruct (Hlps lp ltac:(left)) as [Hx Ha].
  rewrite IH; [|by apply del_lp_wf|by intros; apply Hlps; right].
  rewrite provider_units_del_lp by done. apply String.eqb_neq in Hx. rewrite Hx. lia.
Qed.

Lemma without_page_units s asset x :
  store_wf s →
  provider_units (without_lps (provider_page s asset) s) x =
  if String.eqb asset.(Symbol) x then 0 else provider_units s x.
Proof.
  intros Hwf. destruct (String.eqb_spec asset.(Symbol) x) as [<-|Hx].
  - apply map_sumZ_zero. intros k lp [E Hc]%without_lps_lookup. unfold units_for.
    destruct (String.eqb_spec lp.(LPAsset).(Symbol) asset.(Symbol)) as [Ha|]; [|done].
    destruct Hc. eapply page_cleared; [done..|].
    destruct lp.(LPAsset), asset. simpl in *. by f_equal.
  - apply without_other_units; [done|]. intros lp [Ha [k E]%elem_of_kv_values]%list_elem_of_filter.
    rewrite Asset_Equals_spec in Ha. apply bool_decide_eq_true in Ha as ->.
    split; [done|]. by eapply lps_keyed.
Qed.

Lemma Decommission_wf msg w u w' :
  DecommissionPool_handler msg w = (Ok u, w') → store_wf (clp_of w) → store_wf (clp_of w').
Proof.
  intros (pool & lps & n & e & Ep & _ & Hb)%DecommissionPool_effect Hwf.
  destruct (pools_ok _ Hwf _ _ Ep). destruct Hb as (Hb & _); [done..|]. rewrite Hb.
  by apply del_pool_wf, without_page_wf.
Qed.

Lemma provider_of_asset symbol lp : Asset_Equals lp.(LPAsset) (mkAsset symbol) = provider_of symbol lp.
Proof.
  rewrite Asset_Equals_spec. unfold provider_of. destruct lp.(LPAsset) as [x]. simpl.
  destruct (String.eqb_spec x symbol); [by apply bool_decide_eq_true_2; f_equal|].
  apply bool_decide_eq_false_2. congruence.
Qed.
(** The page of a listing that wraps. *)
Lemma wrapped_page {HP : PaginatorLaws paginator} s symbol :
  Z.of_nat (length (kv_iter s.(cs_LPs))) < MaxUint64 →
  FilteredPaginate (kv_iter s.(cs_LPs)) MaxUint64 (λ lp, Asset_Equals lp.(LPAsset) (mkAsset symbol))
  = Ok (match kv_values s.(cs_LPs) with
        | lp :: _ => if provider_of symbol lp then provider_page s (mkAsset symbol) else []
        | [] => [] end).
Proof.
  intros Hl. rewrite filtered_paginate_wrap by done. unfold hit_first, provider_page, kv_values. f_equal.
  destruct (kv_iter s.(cs_LPs)) as [|[k lp] l]; [done|]. csimpl. by rewrite provider_of_asset.
Qed.
Lemma found_page {HP : PaginatorLaws paginator} s symbol : finds_providers s symbol = true →
  FilteredPaginate (kv_iter s.(cs_LPs)) MaxUint64 (λ lp, Asset_Equals lp.(LPAsset) (mkAsset symbol))
  = Ok (provider_page s (mkAsset symbol)).
Proof.
  unfold finds_providers. intros [Hl%Z.ltb_lt Hf]%andb_true_iff. rewrite wrapped_page by done. f_equal.
  unfold provider_page. destruct (kv_values s.(cs_LPs)) as [|lp l] eqn:El; [done|].
  destruct (provider_of symbol lp) eqn:Ep; [done|]. simpl in Hf. symmetry. rewrite Ep in Hf. simpl in Hf.
  apply filter_none. intros x Hx. rewrite provider_of_asset.
  apply elem_of_cons in Hx as [->|Hx]; [by rewrite Ep|].
  rewrite forallb_forall in Hf. apply list_elem_of_In, Hf in Hx. by destruct (provider_of symbol x).
Qed.

Lemma Decommission_units {HP : PaginatorLaws paginator} msg w u w' :
  DecommissionPool_handler msg w = (Ok u, w') → finds_providers (clp_of w) msg.(dp_Symbol) = true →
  units_ok (clp_of w) → units_ok (clp_of w').
Proof.
  intros (pool & lps & n & e & Ep & El & Hb)%DecommissionPool_effect Hpage Hok.
  pose proof (proj1 Hok) as Hwf. pose proof (pool_symbol _ _ _ Hwf Ep) as Epa.
  rewrite Epa, found_page in El by done. inv_ok. rewrite <- Epa in *.
  destruct (pools_ok _ Hwf _ _ Ep). destruct Hb as (Hb & _); [done..|]. rewrite Hb.
  split; [by apply del_pool_wf, without_page_wf|]. intros x. pose proof (proj2 Hok x) as Hx.
  unfold units_off in *. rewrite pool_units_del_pool.
  change (provider_units (del_pool ?a ?b) x) with (provider_units b x).
  rewrite without_page_units, String.eqb_sym by done.
  unfold pool_units in *. rewrite without_lps_pools. case_match; lia.
Qed.

(** ** Messages *)
Lemma quiet_wf {A} (m : M W A) w r w' :
  quiet m → m w = (r, w') → store_wf (clp_of w) → store_wf (clp_of w').
Proof. intros Hq E Hok. destruct (quiet_ok _ _ _ _ Hq E) as [Hb _]. by rewrite Hb. Qed.
Lemma quiet_units {A} (m : M W A) w r w' :
  quiet m → m w = (r, w') → units_ok (clp_of w) → units_ok (clp_of w').
Proof. intros Hq E Hok. destruct (quiet_ok _ _ _ _ Hq E) as [Hb _]. by rewrite Hb. Qed.
Definition unlocking symbol addr w w' : Prop :=
  ∃ lp, (clp_of w).(cs_LPs) !! GetLiquidityProviderKey symbol addr = Some lp ∧ touched lp w w'.
Lemma unlocks_wf symbol addr w w' :
  unlocking symbol addr w w' → store_wf (clp_of w) → store_wf (clp_of w').
Proof.
  intros (lp & El & T) Hok. destruct (lps_keyed _ Hok _ _ El) as [Ek _].
  rewrite Ek in El. by eapply touched_wf.
Qed.
Lemma unlocks_units symbol addr w w' :
  unlocking symbol addr w w' → units_ok (clp_of w) → units_ok (clp_of w').
Proof.
  intros (lp & El & T) Hok. destruct (lps_keyed _ (proj1 Hok) _ _ El) as [Ek _].
  rewrite Ek in El. by eapply touched_units_ok.
Qed.

Ltac split_sound := repeat match goal with Hs : _ ∧ _ |- _ => destruct Hs end.
Lemma message_wf ctx m w u w' :
  NewHandler ctx m w = (Ok u, w') → sound_msg (clp_of w) m → queue_idle (clp_of w) →
  store_wf (clp_of w) → store_wf (clp_of w').
Proof.
  intros H Hm Hq. destruct (user_msg m) eqn:Eu;
    [|by eapply quiet_wf; [by apply (admin_message_quiet ctx m)|exact H]].
  destruct m; simpl in *; try done; split_sound; intros Hwf;
    first [ by eapply CreatePool_wf | by eapply Swap_wf | by eapply Decommission_wf
          | by eapply writes_wf, AddLiquidity_writes
          | by eapply writes_wf, removal_writes; [by eapply RemoveLiquidity_effect| |]
          | by eapply writes_wf, removal_writes; [by eapply RemoveLiquidityUnits_effect| |]
          | by eapply unlocks_wf; [by eapply CancelUnlock_effect|]
          | by eapply unlocks_wf; [by eapply UnlockLiquidity_effect|] ].
Qed.

Lemma message_units {HP : PaginatorLaws paginator} ctx m w u w' :
  NewHandler ctx m w = (Ok u, w') → units_msg (clp_of w) m → queue_idle (clp_of w) →
  units_ok (clp_of w) → units_ok (clp_of w').
Proof.
  intros H [Hm Hd] Hq. destruct (user_msg m) eqn:Eu;
    [|by eapply quiet_units; [by apply (admin_message_quiet ctx m)|exact H]].
  destruct m; simpl in *; try done; split_sound; intros Hok;
    first [ by eapply CreatePool_units | by eapply Swap_units | by eapply Decommission_units
          | by eapply writes_units; [eapply AddLiquidity_writes; try done; apply Hok|]
          | by eapply writes_units; [eapply removal_writes; [by eapply RemoveLiquidity_effect|done|apply Hok]|]
          | by eapply writes_units; [eapply removal_writes; [by eapply RemoveLiquidityUnits_effect|done|apply Hok]|]
          | by eapply unlocks_units; [by eapply CancelUnlock_effect|]
          | by eapply unlocks_units; [by eapply UnlockLiquidity_effect|] ].
Qed.

(** No successful message queues a removal or switches the queue. *)
Lemma message_requests ctx m w u w' :
  NewHandler ctx m w = (Ok u, w') → queue_idle (clp_of w) →
  (clp_of w').(cs_RemovalRequests) = (clp_of w).(cs_RemovalRequests).
Proof.
  intros H Hq. destruct (user_msg m) eqn:Eu.
  2: { eapply quiet_ok in H as [Hb _]; [|by apply (admin_message_quiet ctx m)].
       by apply same_books_split in Hb as (_ & _ & _ & Hb). }
  pose proof (λ Hp, preserves_ok (view cs_RemovalRequests) _ _ _ _ Hp H) as Hv.
  destruct m; simpl in Eu; try discriminate Eu.
  - apply Hv, view_CreatePool_handler, _.
  - apply Hv, view_DecommissionPool_handler, _.
  - by apply AddLiquidity_requests in H.
  - by apply RemoveLiquidity_requests in H.
  - by apply RemoveLiquidityUnits_requests in H.
  - apply Hv, view_Swap; [apply _|done].
  - apply Hv, view_CancelUnlock, _.
  - apply Hv, view_UnlockLiquidity, _.
Qed.
Lemma message_idle ctx m w u w' :
  NewHandler ctx m w = (Ok u, w') → queue_idle (clp_of w) → queue_idle (clp_of w').
Proof.
  intros E Hq. pose proof (message_requests _ _ _ _ _ E Hq) as Hr.
  pose proof (preserves_ok _ _ _ _ _ (params_message ctx m) E) as Hp. unfold view in Hp.
  unfold queue_idle, queue_off in *. by rewrite Hp, Hr.
Qed.

(** ** Sequences of messages

    A message that fails is rolled back, so only the successful ones make steps. *)
Inductive reachable (allowed : ClpStore → ClpMsg → Prop) (w0 : W) : W → Prop :=
| reachable_start : reachable allowed w0 w0
| reachable_message ctx m u w w' :
    reachable allowed w0 w → allowed (clp_of w) m → NewHandler ctx m w = (Ok u, w') →
    reachable allowed w0 w'.

Lemma reachable_weaken (allowed allowed' : ClpStore → ClpMsg → Prop) w0 w :
  (∀ s m, allowed s m → allowed' s m) → reachable allowed w0 w → reachable allowed' w0 w.
Proof.
  intros Hw H. induction H as [|ctx m u w w' _ IH Hm E]; [constructor|].
  eapply reachable_message; [exact IH|by apply Hw|exact E].
Qed.
Lemma reachable_units {HP : PaginatorLaws paginator} w0 w :
  reachable units_msg w0 w → queue_idle (clp_of w0) → units_ok (clp_of w0) →
  queue_idle (clp_of w) ∧ units_ok (clp_of w).
Proof.
  intros H Hq0 Hu0. induction H as [|ctx m u w w' _ [Hq Hu] Hm E]; [done|].
  split; [by eapply message_idle|by eapply message_units].
Qed.
Lemma reachable_wf w0 w :
  reachable sound_msg w0 w → queue_idle (clp_of w0) → store_wf (clp_of w0) →
  queue_idle (clp_of w) ∧ store_wf (clp_of w).
Proof.
  intros H Hq0 Hu0. induction H as [|ctx m u w w' _ [Hq Hu] Hm E]; [done|].
  split; [by eapply message_idle|by eapply message_wf].
Qed.

(** ** The registered check *)
Lemma page_total s asset :
  sumZ LiquidityProviderUnits (provider_page s asset) = provider_units s asset.(Symbol).
Proof.
  unfold provider_units, provider_page. rewrite map_sumZ_values.
  induction (kv_values s.(cs_LPs)) as [|lp lps IH]; [done|]. rewrite filter_cons. simpl.
  unfold units_for at 1. unfold Asset_Equals at 1. case_decide as E; simpl; rewrite IH.
  - by rewrite E.
  - apply not_true_is_false in E. by rewrite E.
Qed.

Lemma sum_units_ok lps acc t :
  0 <= acc → (∀ lp, lp ∈ lps → 0 <= lp.(LiquidityProviderUnits)) →
  t = acc + sumZ LiquidityProviderUnits lps → t < 2 ^ 256 →
  foldR (λ t lp, UintAdd t lp.(LiquidityProviderUnits)) acc lps = Ok t.
Proof.
  revert acc. induction lps as [|lp lps IH]; simpl; intros acc Ha Hl Ht Hb; [f_equal; lia|].
  pose proof (Hl lp ltac:(left)).
  assert (0 <= sumZ LiquidityProviderUnits lps)
    by (apply sumZ_nonneg; intros; apply Hl; by right).
  rewrite uint_add, checked_uint_total, rbind_Ok by lia.
  apply IH; [lia|by intros; apply Hl; right|lia|done].
Qed.
End units.

Section check.
Context {W : Type} {sdk : Sdk} {HL : SdkLaws sdk} {coins : CoinLib} {bank : BankKeeper W}
  {paginator : Paginator} {HP : PaginatorLaws paginator}
  {clp : HasStore ClpStore W} {events : HasStore EventLog W}.
Implicit Types w : W.
Notation clp_of w := (store (S := ClpStore) w).

(** Everything fits one page and one [Uint]. *)
Definition small_store (s : ClpStore) : Prop :=
  Z.of_nat (length (kv_values s.(cs_LPs))) < MaxUint64 ∧
  map_sumZ LiquidityProviderUnits s.(cs_LPs) < 2 ^ 256.

Lemma small_units s x : store_wf s → small_store s → provider_units s x < 2 ^ 256.
Proof.
  intros Hwf [_ Hs]. eapply Z.le_lt_trans; [|exact Hs]. apply sumZ_le.
  intros [k lp] E%elem_of_map_to_list. apply (lps_units _ Hwf) in E. unfold units_for. simpl.
  case_match; lia.
Qed.

Lemma all_providers s asset :
  small_store s →
  FilteredPaginate (kv_iter s.(cs_LPs)) (MaxUint64 - 1) (λ lp, Asset_Equals lp.(LPAsset) asset)
  = Ok (provider_page s asset).
Proof.
  intros [Hs _]. apply filtered_paginate_all; [by unfold MaxUint64|]. fold (kv_values s.(cs_LPs)).
  pose proof (length_filter (λ lp, Asset_Equals lp.(LPAsset) asset = true) (kv_values s.(cs_LPs))). lia.
Qed.

Lemma units_check_one s pool w :
  store_wf s → small_store s → clp_of w = s →
  (found ← try (GetAllLiquidityProvidersForAsset (W := W) pool.(ExternalAsset));
   match found with
   | inl _ => mret false
   | inr lps =>
       total ← lift (foldR (λ t lp, UintAdd t lp.(LiquidityProviderUnits)) 0 lps);
       mret (negb (pool.(PoolUnits) =? total))
   end) w = (Ok (negb (pool.(PoolUnits) =? provider_units s pool.(ExternalAsset).(Symbol))), w).
Proof.
  intros Hwf Hs Hw. unfold GetAllLiquidityProvidersForAsset, GetLiquidityProvidersForAssetPaginated, try,
    wrap_err, on_err, lift, mbind, M_bind, get_clp, get_store, gets, mret, M_ret.
  rewrite Hw, all_providers by done. simpl.
  rewrite (sum_units_ok _ 0 (provider_units s pool.(ExternalAsset).(Symbol))); [done|lia| |
    by rewrite page_total|by apply small_units].
  intros lp [_ [k E]%elem_of_kv_values]%list_elem_of_filter. by eapply lps_units.
Qed.

Lemma units_check_loop s broken pools w :
  store_wf s → small_store s → clp_of w = s →
  foldM (λ broken pool,
    if (broken : bool) then mret true
    else
      found ← try (GetAllLiquidityProvidersForAsset (W := W) pool.(ExternalAsset));
      match found with
      | inl _ => mret false
      | inr lps =>
          total ← lift (foldR (λ t lp, UintAdd t lp.(LiquidityProviderUnits)) 0 lps);
          mret (negb (pool.(PoolUnits) =? total))
      end) broken pools w
  = (Ok (broken || existsb (λ pool,
       negb (pool.(PoolUnits) =? provider_units s pool.(ExternalAsset).(Symbol))) pools), w).
Proof.
  intros Hwf Hs Hw. revert broken. induction pools as [|p pools IH]; intros broken.
  - simpl. by rewrite orb_false_r.
  - cbn [foldM existsb]. unfold mbind at 1, M_bind at 1. destruct broken.
    + simpl. by rewrite IH.
    + rewrite (units_check_one s) by done. by rewrite IH.
Qed.
End check.

(** C1: from any state in which pools and providers are well formed, the units of each pool
    remain the sum of the units of its providers, no asset without a pool has providers with
    units, and no pool has an empty side, whatever sequence of messages succeeds, under these
    conditions: signers write their addresses in the canonical form and are not the module;
    the removal queue is off (its default, which no message changes) or empty at the start;
    and a pool is decommissioned only while the providers of its asset are the first of the
    store, or there are none.  Otherwise decommissioning finds no provider and leaves them
    ([DecommissionPool_strands]). *)
Theorem units_always {W : Type} `{HL : SdkLaws} `{CW : ClpWorld W} `{HP : PaginatorLaws}
    `{TokenRegistryKeeper W} `{AdminKeeper W} `{MarginKeeper W} `{MintKeeper W} `{SdkErrors}
    `{!MintQuiet W} (w0 w : W) :
  reachable units_msg w0 w → queue_idle (store w0) → units_ok (store w0) → units_ok (store w).
Proof. intros Hr Hq Hu. by eapply reachable_units. Qed.

(** The registered invariant [UnitsCheck] is exact: on a well-formed store whose totals fit
    it terminates without an error and reports a broken invariant if and only if some pool's
    units differ from the sum of its providers' units. *)
Theorem UnitsCheck_exact {W : Type} `{HL : SdkLaws} `{HP : PaginatorLaws} `{HasStore ClpStore W}
    (w : W) :
  store_wf (store w) → small_store (store w) →
  ∃ broken, UnitsCheck w = (Ok broken, w) ∧
    (broken = true ↔ ∃ pool, pool ∈ kv_values (store (S := ClpStore) w).(cs_Pools) ∧
       units_off (store w) pool.(ExternalAsset).(Symbol) ≠ 0).
Proof.
  intros Hwf Hs. unfold UnitsCheck, GetPools, mbind, M_bind, get_clp, get_store, gets, mret, M_ret.
  cbv beta iota. eexists. split; [by apply units_check_loop|]. simpl. rewrite existsb_exists.
  assert (∀ pool, pool ∈ kv_values (cs_Pools (store (S := ClpStore) w)) →
    units_off (store w) pool.(ExternalAsset).(Symbol)
    = pool.(PoolUnits) - provider_units (store w) pool.(ExternalAsset).(Symbol)) as Hoff.
  { intros pool [k E]%elem_of_kv_values. unfold units_off, pool_units.
    by rewrite <- (pools_keyed _ Hwf _ _ E), E. }
  split; intros (pool & Hp & Hx); exists pool.
  - apply list_elem_of_In in Hp. apply negb_true_iff, Z.eqb_neq in Hx. rewrite Hoff by done.
    split; [done|lia].
  - rewrite Hoff in Hx by done. rewrite <- list_elem_of_In. split; [done|].
    apply negb_true_iff, Z.eqb_neq. lia.
Qed.

(** Decommissioning a pool of another asset than that of the first provider stored removes the
    pool and nothing else: nobody is refunded, and the providers stay. *)
Theorem DecommissionPool_strands {W : Type} `{HL : SdkLaws} `{CW : ClpWorld W} `{HP : PaginatorLaws}
    (msg : MsgDecommissionPool) (w w' : W) (lp : LiquidityProvider) (lps : list LiquidityProvider) :
  DecommissionPool_handler msg w = (Ok tt, w') → store_wf (store w) →
  Z.of_nat (length (kv_iter (store (S := ClpStore) w).(cs_LPs))) < MaxUint64 →
  kv_values (store (S := ClpStore) w).(cs_LPs) = lp :: lps → provider_of msg.(dp_Symbol) lp = false →
  store w' = del_pool msg.(dp_Symbol) (store w) ∧ still w w'.
Proof.
  intros E Hwf Hl Hv Hp.
  unfold DecommissionPool_handler, DecommissionPool, GetLiquidityProvidersForAssetPaginated in E.
  inv_clp. match goal with Ep : _ !! pool_key _ = Some ?pool |- _ =>
    pose proof (pool_symbol _ _ _ Hwf Ep) as Epa end.
  rewrite Epa, wrapped_page, Hv, Hp in * by done. inv_ok. inv_clp.
  match goal with Hd : DestroyPool _ _ = (Ok _, _) |- _ => apply DestroyPool_ok in Hd as [_ ->] end.
  world_simpl. split; [done|].
  eapply still_trans; [apply still_put_clp|apply still_put_events].
Qed.

Lemma genesis_units : units_ok clp_genesis.
Proof. split; [split|]; done. Qed.
Lemma canonical_text s : bool_decide (no_underscore s) = true → s ≠ "" → canonical (String "@" s).
Proof.
  intros Hu%bool_decide_eq_true Hs. exists s. simpl. destruct (String.eqb_spec s ""); [done|].
  split; [done|]. split; [done|]. unfold no_underscore in *. simpl. rewrite not_elem_of_cons. by split.
Qed.
Lemma alice_may_create s : units_msg s alice_creates.
Proof. split; [|done]. split; [by apply canonical_text|by intros a [= <-]]. Qed.
Definition alice_creates_ceth : ClpMsg :=
  AMsgCreatePool (mkMsgCreatePool "@alice" ceth (100 * ether) (200 * ether)).
Definition bob_creates : ClpMsg := AMsgCreatePool (mkMsgCreatePool "@bob" cusdc (2 * ether) (2 * ether)).
Definition bob_removes : ClpMsg :=
  AMsgRemoveLiquidityUnits (mkMsgRemoveLiquidityUnits "@bob" cusdc (15 * 10 ^ 17)).
Definition stranding : World :=
  deliver_all (block 10) [alice_creates_ceth; bob_creates; bob_removes] genesis.
Lemma delivered ctx w m : is_ok (lift (ValidateBasic m) w).1 = true → is_ok (NewHandler ctx m w).1 = true →
  NewHandler ctx m w = (Ok tt, deliver ctx w m).
Proof.
  unfold deliver, mbind, M_bind, lift. simpl. destruct (ValidateBasic m) as [[]| |]; try done.
  by destruct (NewHandler ctx m w) as [[[]| |] w'].
Qed.
Lemma stranding_reachable : reachable units_msg genesis stranding.
Proof.
  apply (reachable_message _ _ (block 10) bob_removes tt
           (deliver_all (block 10) [alice_creates_ceth; bob_creates] genesis)).
  2: { split; [|done]. by apply (bool_decide_eq_true_1 (no_underscore _)); vm_compute. }
  2: by apply delivered; vm_compute.
  apply (reachable_message _ _ (block 10) bob_creates tt (deliver (block 10) genesis alice_creates_ceth)).
  2: { split; [|done]. split; [by apply canonical_text|by intros a [= <-]]. }
  2: by apply delivered; vm_compute.
  apply (reachable_message _ _ (block 10) alice_creates_ceth tt genesis);
    [constructor| |by apply delivered; vm_compute].
  split; [|done]. split; [by apply canonical_text|by intros a [= <-]].
Qed.
Definition stranded : World :=
  deliver (block 11) stranding (AMsgDecommissionPool (mkMsgDecommissionPool "@admin" "cusdc")).
Lemma DecommissionPool_strands_witness :
  store stranded = del_pool "cusdc" (store stranding) ∧ still stranding stranded.
Proof.
  eapply (DecommissionPool_strands (mkMsgDecommissionPool "@admin" "cusdc")).
  - vm_compute. reflexivity.
  - apply (reachable_units genesis); [apply stranding_reachable|by left|apply genesis_units].
  - by vm_compute.
  - vm_compute. reflexivity.
  - vm_compute. reflexivity.
Defined.

Lemma scenario_reachable :
  reachable units_msg genesis (deliver (block 10) (deliver (block 10) genesis alice_creates) alice_removes).
Proof.
  eapply (reachable_message _ _ (block 10) alice_removes);
    [eapply (reachable_message _ _ (block 10) alice_creates); [constructor| |]| |].
  - apply alice_may_create.
  - vm_compute. reflexivity.
  - split; [|done]. by apply (bool_decide_eq_true_1 (no_underscore _)); vm_compute.
  - vm_compute. reflexivity.
Qed.

Lemma units_always_witness :
  units_ok (store (deliver (block 10) (deliver (block 10) genesis alice_creates) alice_removes)).
Proof. apply (units_always genesis); [apply scenario_reachable|by left|apply genesis_units]. Defined.

Lemma UnitsCheck_exact_witness :
  let w := deliver (block 10) (deliver (block 10) genesis alice_creates) alice_removes in
  ∃ broken, UnitsCheck w = (Ok broken, w) ∧
    (broken = true ↔ ∃ pool, pool ∈ kv_values (store (S := ClpStore) w).(cs_Pools) ∧
       units_off (store w) pool.(ExternalAsset).(Symbol) ≠ 0).
Proof.
  apply UnitsCheck_exact.
  - apply (reachable_units genesis); [apply scenario_reachable|by left|apply genesis_units].
  - split; by vm_compute.
Defined.
