(* ===== verification/ClpBalanceSpec.v ===== *)
(** * ClpBalanceSpec: the coins of the module cover what the pools book

    What the module account holds beyond the balances and custodies of its pools never
    decreases; what a swap pays; and the registered check that compares the two. *)

From S2P Require Import Prelude Sdk SdkRef Rat Bank Keepers Admin Registry ClpTypes ClpMath.
From S2P Require Import ClpKeeper ClpPolicy ClpRewards ClpLiquidity ClpMsgs ClpServer ClpModule.
From S2P Require Import World ClpMathSpec ClpStoreSpec ClpUnits ClpExec ClpSettings ClpEffects.
From S2P Require Import ClpParams.
From S2P Require Import Scenario ClpUnitsSpec.
Local Open Scope Z_scope.

Lemma pair_amount_add symbol e n e' n' d :
  pair_amount symbol (e + e') (n + n') d = pair_amount symbol e n d + pair_amount symbol e' n' d.
Proof. unfold pair_amount. destruct (String.eqb symbol d), (String.eqb NativeSymbol d); lia. Qed.
Lemma pair_amount_nonneg symbol e n d : 0 <= e → 0 <= n → 0 <= pair_amount symbol e n d.
Proof. unfold pair_amount. destruct (String.eqb symbol d), (String.eqb NativeSymbol d); lia. Qed.
Lemma pair_amount_le symbol e n e' n' d :
  e <= e' → n <= n' → pair_amount symbol e n d <= pair_amount symbol e' n' d.
Proof. unfold pair_amount. destruct (String.eqb symbol d), (String.eqb NativeSymbol d); lia. Qed.

(** What a pool books of a denomination. *)
Definition pool_owns (d : string) (p : Pool) : Z :=
  pair_amount p.(ExternalAsset).(Symbol) (p.(ExternalAssetBalance) + p.(ExternalCustody))
    (p.(NativeAssetBalance) + p.(NativeCustody)) d.
Definition booked (s : ClpStore) (d : string) : Z := map_sumZ (pool_owns d) s.(cs_Pools).

Lemma pool_owns_added pool units n e d :
  pool_owns d (added_pool pool units n e)
  = pool_owns d pool + pair_amount pool.(ExternalAsset).(Symbol) e n d.
Proof. unfold pool_owns. rewrite <- pair_amount_add. simpl. f_equal; lia. Qed.
Lemma pool_owns_withdrawn pool units n e d :
  pool_owns d (withdrawn_pool pool units n e) + pair_amount pool.(ExternalAsset).(Symbol) e n d
  = pool_owns d pool.
Proof. unfold pool_owns. rewrite <- pair_amount_add. simpl. f_equal; lia. Qed.

Section surplus.
Context {W : Type} {sdk : Sdk} {HL : SdkLaws sdk} {coins : CoinLib} {bank : BankKeeper W}
  {paginator : Paginator} {registry : TokenRegistryKeeper W} {admin : AdminKeeper W}
  {margin : MarginKeeper W} {mint : MintKeeper W} {errs : SdkErrors}
  {clp : HasStore ClpStore W} {events : HasStore EventLog W} {CW : ClpWorld W}
  {MQ : MintQuiet W}.
Implicit Types w : W.
Notation clp_of w := (store (S := ClpStore) w).

Definition surplus (w : W) (d : string) : Z := balance w GetCLPModuleAddress d - booked (clp_of w) d.

#[local] Instance booked_proper : Proper (same_books ==> eq ==> eq) booked.
Proof. intros s s' (E & _)%same_books_split d _ <-. unfold booked. by rewrite E. Qed.

(** A pool written over the one its key holds. *)
Lemma booked_set_pool s p d :
  booked (set_pool p s) d = booked s d
    - from_option (pool_owns d) 0 (s.(cs_Pools) !! pool_key p.(ExternalAsset).(Symbol)) + pool_owns d p.
Proof. unfold booked, set_pool. simpl. apply map_sumZ_insert. Qed.
Lemma booked_set_lp s lp d : booked (set_lp lp s) d = booked s d.
Proof. done. Qed.
Lemma booked_removed s lp l p d : booked (removed lp l p s) d = booked (set_pool p s) d.
Proof. unfold removed. by case_match. Qed.

(** The surplus after a transfer into or out of the module. *)
Lemma paid_in addr f w w' d :
  moved addr GetCLPModuleAddress f w w' → addr ≠ GetCLPModuleAddress →
  balance w' GetCLPModuleAddress d = balance w GetCLPModuleAddress d + f d.
Proof.
  intros Hm Hne. specialize (Hm GetCLPModuleAddress d). rewrite String.eqb_refl in Hm.
  destruct (String.eqb_spec GetCLPModuleAddress addr); [congruence|lia].
Qed.
Lemma paid_out addr f w w' d :
  moved GetCLPModuleAddress addr f w w' → 0 <= f d →
  balance w GetCLPModuleAddress d - f d <= balance w' GetCLPModuleAddress d ∧
  (addr ≠ GetCLPModuleAddress →
   balance w' GetCLPModuleAddress d = balance w GetCLPModuleAddress d - f d).
Proof.
  intros Hm Hf. specialize (Hm GetCLPModuleAddress d). rewrite String.eqb_refl in Hm.
  destruct (String.eqb_spec GetCLPModuleAddress addr); (split; [lia|]); [congruence|lia].
Qed.

Lemma CreatePool_surplus msg w u w' d :
  CreatePool_handler msg w = (Ok u, w') → outsider msg.(cp_Signer) → surplus w' d = surplus w d.
Proof.
  intros (addr & Ea & Hnew & Hn & He & Hm & Hb)%CreatePool_effect Hout.
  unfold surplus. rewrite Hb, booked_set_lp, booked_set_pool. simpl.
  unfold pool_units in Hnew. rewrite Hnew. simpl.
  rewrite (paid_in _ _ _ _ d Hm (Hout _ Ea)). unfold pool_owns. simpl. rewrite !Z.add_0_r. lia.
Qed.

Lemma AddLiquidity_surplus msg w u w' d :
  AddLiquidity_handler msg w = (Ok u, w') → outsider msg.(al_Signer) → canonical msg.(al_Signer) →
  queue_idle (clp_of w) → store_wf (clp_of w) → surplus w' d = surplus w d.
Proof.
  intros H Hout (a & Ea' & Es & Hu) Hq Hok.
  apply AddLiquidity_effect in H as (addr & pool & nu & lu & s & Ea & Ep & Hnu & V & Hn & He & Hs & Hlu & Hm & Hb);
    [|done].
  pose proof (pool_symbol _ _ _ Hok Ep) as Epa.
  assert (LPAsset (provider_after_add s msg addr lu) = pool.(ExternalAsset)) as Hasset.
  { rewrite Epa. unfold provider_after_add.
    destruct (s.(cs_LPs) !! _) as [lp0|] eqn:El; simpl; [|by destruct msg.(al_ExternalAsset)].
    assert (store_wf s) as Hwf by (by rewrite Hs).
    by apply lp_symbol in El as [-> _]. }
  rewrite Hasset in Hb. unfold surplus. rewrite (Hb V), booked_set_lp, booked_set_pool.
  replace (cs_Pools s) with (cs_Pools (clp_of w)) by (symmetry; by apply same_books_split in Hs as []).
  rewrite (paid_in _ _ _ _ d Hm (Hout _ Ea)), (booked_proper _ _ Hs d d eq_refl).
  change (ExternalAsset (added_pool ?p ?u ?n ?e)) with (ExternalAsset p).
  rewrite Epa. simpl. rewrite Ep. simpl.
  rewrite pool_owns_added, Epa. simpl. lia.
Qed.

Lemma removal_surplus asset signer w w' d :
  removal asset signer w w' → no_underscore signer → store_wf (clp_of w) →
  surplus w d <= surplus w' d.
Proof.
  intros (lp & pool & us & w1 & addr & left & n & e & El & Ep & T & _ & V & Hl & Hn & He & Ln & Le & Hm & Hb)
    Hu Hok.
  pose proof Hok as Hwf. pose proof (pool_symbol _ _ _ Hwf Ep) as Epa.
  destruct (lp_symbol _ _ _ _ Hwf Hu El) as [Hasset Haddr].
  assert (lp_key lp = GetLiquidityProviderKey asset.(Symbol) signer) as Ek
    by (unfold lp_key; by rewrite Hasset, Haddr).
  rewrite <- Ek in El. destruct (touched_lookup _ _ _ T El) as [Ep1 _].
  rewrite Epa, <- Hasset in V. unfold surplus. rewrite (Hb V), booked_removed, booked_set_pool.
  destruct (paid_out _ _ _ _ d Hm) as [Hpay _]; [apply pair_amount_nonneg; lia|].
  rewrite Ep1. change (ExternalAsset (withdrawn_pool ?p ?u ?n ?e)) with (ExternalAsset p).
  rewrite Epa. simpl. rewrite Ep. simpl.
  destruct T as [Hst _]. rewrite <- (Hst GetCLPModuleAddress d).
  assert (booked (clp_of w1) d = booked (clp_of w) d) as -> by (unfold booked; by rewrite Ep1).
  pose proof (pool_owns_withdrawn pool (pool.(PoolUnits) - lp.(LiquidityProviderUnits) + left) n e d) as Ho.
  rewrite Epa in Ho. simpl in *. lia.
Qed.

(** A swapped pool books what it was sent and no longer what it paid. *)
Lemma pool_owns_swapped p (toFury : bool) x y d :
  pool_owns d (swapped_pool p toFury x y) = pool_owns d p
    + single (if toFury then p.(ExternalAsset).(Symbol) else NativeSymbol) x d
    - single (if toFury then NativeSymbol else p.(ExternalAsset).(Symbol)) y d.
Proof.
  unfold pool_owns, pair_amount, single, swapped_pool.
  destruct toFury; cbn -[Z.add Z.sub String.eqb NativeSymbol];
    destruct (String.eqb (Symbol (ExternalAsset p)) d), (String.eqb NativeSymbol d); lia.
Qed.
Lemma booked_swapped s symbol p (toFury : bool) x y d :
  store_wf s → s.(cs_Pools) !! pool_key symbol = Some p →
  booked (set_pool (swapped_pool p toFury x y) s) d = booked s d
    + single (if toFury then symbol else NativeSymbol) x d
    - single (if toFury then NativeSymbol else symbol) y d.
Proof.
  intros Hwf Ep. pose proof (pool_symbol _ _ _ Hwf Ep) as Epa.
  rewrite booked_set_pool, pool_owns_swapped.
  assert (ExternalAsset (swapped_pool p toFury x y) = ExternalAsset p) as -> by (by destruct toFury).
  rewrite Epa. simpl. rewrite Ep. simpl. lia.
Qed.

Lemma Swap_surplus msg w u w' d :
  Swap msg w = (Ok u, w') → outsider msg.(sw_Signer) → store_wf (clp_of w) → surplus w' d = surplus w d.
Proof.
  intros (addr & w1 & w2 & y & Ea & Hx & Hy & _ & Hin & Hst & Hpay & Hroute)%Swap_effect Hout Hok.
  pose proof Hok as Hwf.
  assert (balance w' GetCLPModuleAddress d = balance w GetCLPModuleAddress d
    + single msg.(sw_SentAsset).(Symbol) msg.(sw_SentAmount) d
    - single msg.(sw_ReceivedAsset).(Symbol) y d) as Hbal.
  { destruct (paid_out _ _ _ _ d Hpay) as [_ Hp]; [unfold single; case_match; lia|].
    rewrite Hp by (by apply Hout).
    rewrite Hst, (paid_in _ _ _ _ d Hin (Hout _ Ea)). done. }
  unfold surplus. rewrite Hbal.
  destruct Hroute as [(p & Ep & Hsent & Hp & Hb)|(Hs & Hr & p1 & p2 & y1 & Ep1 & Ep2 & Hp1 & Hp2 & Hb)];
    rewrite Hb.
  - rewrite (booked_swapped _ _ _ _ _ _ _ Hwf Ep). unfold IsSettlementAsset in *.
    destruct (bool_decide_reflect (msg.(sw_ReceivedAsset) = GetSettlementAsset)) as [Hr|Hr].
    + rewrite Hr. simpl. lia.
    + rewrite (Hsent eq_refl). simpl. lia.
  - rewrite (booked_swapped _ _ _ _ _ _ _ (set_pool_wf _ _ Hwf (Hp1 (pools_ok _ Hwf _ _ Ep1))) Ep2).
    rewrite (booked_swapped _ _ _ _ _ _ _ Hwf Ep1). lia.
Qed.

Lemma Decommission_surplus msg w u w' d :
  DecommissionPool_handler msg w = (Ok u, w') → store_wf (clp_of w) → surplus w d <= surplus w' d.
Proof.
  intros (pool & lps & n & e & Ep & _ & Hb)%DecommissionPool_effect Hok.
  pose proof Hok as Hwf. destruct (pools_ok _ Hwf _ _ Ep).
  destruct Hb as (Hb & Hn & He & Hbal); [done..|]. specialize (Hbal d).
  pose proof (pool_symbol _ _ _ Hwf Ep) as Epa.
  unfold surplus. rewrite Hb.
  assert (booked (del_pool pool.(ExternalAsset).(Symbol) (without_lps lps (clp_of w))) d
    = booked (clp_of w) d - pool_owns d pool) as ->.
  { unfold booked, del_pool. simpl. rewrite without_lps_pools, map_sumZ_delete with (v := pool); [done|].
    by rewrite Epa. }
  assert (pair_amount msg.(dp_Symbol) e n d <= pool_owns d pool); [|lia].
  unfold pool_owns. rewrite Epa. apply pair_amount_le; lia.
Qed.

Lemma quiet_surplus {A} (m : M W A) w r w' d :
  quiet m → m w = (r, w') → surplus w d <= surplus w' d.
Proof.
  intros Hq E. destruct (quiet_ok _ _ _ _ Hq E) as [Hb Hst]. unfold surplus.
  rewrite Hst, (booked_proper _ _ Hb d d eq_refl). lia.
Qed.
Lemma unlocks_surplus symbol addr w w' d :
  (∃ lp, (clp_of w).(cs_LPs) !! GetLiquidityProviderKey symbol addr = Some lp ∧ touched lp w w') →
  store_wf (clp_of w) → surplus w d <= surplus w' d.
Proof.
  intros (lp & El & T) Hok. destruct (lps_keyed _ Hok _ _ El) as [Ek _].
  rewrite Ek in El. destruct (touched_lookup _ _ _ T El) as [Ep _]. destruct T as [Hst _].
  unfold surplus, booked. rewrite Hst, Ep. lia.
Qed.

Lemma message_surplus ctx m w u w' d :
  NewHandler ctx m w = (Ok u, w') → sound_msg (clp_of w) m → queue_idle (clp_of w) →
  store_wf (clp_of w) → surplus w d <= surplus w' d.
Proof.
  intros H Hm Hq. destruct (user_msg m) eqn:Eu;
    [|intros _; eapply quiet_surplus; [by apply (admin_message_quiet ctx m)|exact H]].
  destruct m; simpl in *; try done;
    repeat match goal with Hs : _ ∧ _ |- _ => destruct Hs end; intros Hok;
    first [ by (erewrite <- CreatePool_surplus; [|done..])
          | by (erewrite <- AddLiquidity_surplus; [|done..])
          | by (erewrite <- Swap_surplus; [|done..])
          | by eapply Decommission_surplus
          | by eapply removal_surplus; [by eapply RemoveLiquidity_effect| |]
          | by eapply removal_surplus; [by eapply RemoveLiquidityUnits_effect| |]
          | by eapply unlocks_surplus; [by eapply CancelUnlock_effect|]
          | by eapply unlocks_surplus; [by eapply UnlockLiquidity_effect|] ].
Qed.

Lemma reachable_surplus w0 w d :
  reachable sound_msg w0 w → queue_idle (clp_of w0) → store_wf (clp_of w0) → surplus w0 d <= surplus w d.
Proof.
  intros H Hq Hu. induction H as [|ctx m u w w' Hr IH Hm E]; [done|].
  destruct (reachable_wf _ _ Hr Hq Hu). etrans; [exact IH|]. by eapply message_surplus.
Qed.
End surplus.

(** ** The registered check *)
Section check.
Context {W : Type} {sdk : Sdk} {HL : SdkLaws sdk} {coins : CoinLib} {bank : BankKeeper W}
  {clp : HasStore ClpStore W}.
Implicit Types w : W.
Notation clp_of w := (store (S := ClpStore) w).

Definition native_total (pools : list Pool) : Z := sumZ NativeAssetBalance pools.
Definition custody_total (pools : list Pool) : Z := sumZ NativeCustody pools.
Definition external_ok (w : W) (p : Pool) : bool :=
  p.(ExternalAssetBalance) + p.(ExternalCustody) =? balance w GetCLPModuleAddress p.(ExternalAsset).(Symbol).

(** Every amount and total fits its type. *)
Record small_books (w : W) (pools : list Pool) : Prop := {
  small_held : 0 <= balance w GetCLPModuleAddress NativeSymbol < 2 ^ 255;
  small_external p : p ∈ pools → p.(ExternalAssetBalance) + p.(ExternalCustody) < 2 ^ 256 ∧
    0 <= balance w GetCLPModuleAddress p.(ExternalAsset).(Symbol) < 2 ^ 255;
  small_native : native_total pools + custody_total pools < 2 ^ 256;
  pools_are_ok p : p ∈ pools → pool_ok p
}.

Lemma uint_balance_ok d w :
  0 <= balance w GetCLPModuleAddress d < 2 ^ 255 →
  uint_balance d w = (Ok (balance w GetCLPModuleAddress d), w).
Proof.
  intros Hd. unfold uint_balance, balance, mbind, M_bind, gets, lift in *.
  by rewrite int_uint_parse.
Qed.
Lemma GetPools_run w : GetPools w = (Ok (kv_values (clp_of w).(cs_Pools)), w).
Proof. done. Qed.
Lemma pool_external_matches_ok p w pools :
  small_books w pools → p ∈ pools → pool_external_matches p w = (Ok (external_ok w p), w).
Proof.
  intros Hs Hp. destruct (pools_are_ok _ _ Hs _ Hp). destruct (small_external _ _ Hs _ Hp) as [? Hbal].
  unfold pool_external_matches. rewrite (bind_run _ _ _ _ _ (uint_balance_ok _ _ Hbal)).
  unfold lift, mbind, M_bind. rewrite uint_add, checked_uint_total by lia. done.
Qed.

Notation check_step := (λ acc pool,
  match acc with
  | None => mret None
  | Some (balance, custody) =>
      balance ← lift (UintAdd balance pool.(NativeAssetBalance));
      custody ← lift (UintAdd custody pool.(NativeCustody));
      ok ← pool_external_matches (W := W) pool;
      mret (if (ok : bool) then Some (balance, custody) else None)
  end).

Lemma check_loop_none pools w : foldM check_step None pools w = (Ok None, w).
Proof. induction pools; done. Qed.
Lemma check_loop all w b c pools :
  small_books w all → pools ⊆ all → 0 <= b → 0 <= c →
  b + native_total pools < 2 ^ 256 → c + custody_total pools < 2 ^ 256 →
  foldM check_step (Some (b, c)) pools w
  = (Ok (if forallb (external_ok w) pools
         then Some (b + native_total pools, c + custody_total pools) else None), w).
Proof.
  intros Hs. unfold native_total, custody_total. revert b c.
  induction pools as [|p pools IH]; intros b c Hin Hb Hc Hbt Hct.
  { simpl. by rewrite !Z.add_0_r. }
  assert (∀ q, q ∈ p :: pools → pool_ok q) as Hok by (intros q Hq; by apply (pools_are_ok _ _ Hs), Hin).
  destruct (Hok p ltac:(left)). simpl in Hbt, Hct.
  assert (0 <= sumZ NativeAssetBalance pools ∧ 0 <= sumZ NativeCustody pools) as [? ?].
  { split; apply sumZ_nonneg; intros q Hq; by destruct (Hok q ltac:(by right)). }
  cbn [foldM]. unfold mbind at 1, M_bind at 1. unfold mbind at 1, M_bind at 1. unfold lift at 1.
  rewrite uint_add, checked_uint_total by lia.
  unfold mbind at 1, M_bind at 1. unfold lift at 1. rewrite uint_add, checked_uint_total by lia.
  unfold mbind at 1, M_bind at 1. rewrite (pool_external_matches_ok p w all) by (done || apply Hin; left).
  simpl. destruct (external_ok w p); simpl; [|apply check_loop_none].
  rewrite IH by (lia || by intros q Hq; apply Hin; right). by rewrite !Z.add_assoc.
Qed.
End check.

(** C2: from any state in which pools and providers are well formed, whatever sequence of messages
    succeeds, the coins the module account holds beyond what the pools book (balances and
    custody, of every denomination) never decrease: no swap, add, removal or decommissioning
    pays out coins that the pools do not give up.  The conditions: signers write their addresses
    in the canonical form and are not the module; the removal queue is off (its default, which no
    message changes) or empty at the start. *)
Theorem solvency_always {W : Type} `{HL : SdkLaws} `{CW : ClpWorld W} `{Paginator}
    `{TokenRegistryKeeper W} `{AdminKeeper W} `{MarginKeeper W} `{MintKeeper W} `{SdkErrors}
    `{!MintQuiet W} (w0 w : W) (d : string) :
  reachable sound_msg w0 w → queue_idle (store w0) → store_wf (store w0) → surplus w0 d <= surplus w d.
Proof. apply reachable_surplus. Qed.

(** The pool of the second asset is decommissioned without a refund: its coins stay. *)
Lemma solvency_always_witness : surplus genesis "cusdc" <= surplus stranded "cusdc".
Proof.
  apply solvency_always; [|by left|apply genesis_units].
  apply (reachable_message _ _ (block 11) (AMsgDecommissionPool (mkMsgDecommissionPool "@admin" "cusdc")) tt stranding);
    [|done|by apply delivered; vm_compute].
  eapply reachable_weaken; [|apply stranding_reachable]. by intros s m [? _].
Defined.

(** C3: a successful swap takes exactly the sent amount from the signer and gives it at least
    the minimum it asked for; the module account has the opposite flows, no other account's
    balance changes, and nothing is created or lost for the module beyond its pools. *)
Theorem Swap_pays {W : Type} `{HL : SdkLaws} `{CW : ClpWorld W} `{Paginator}
    `{TokenRegistryKeeper W} `{AdminKeeper W} `{MarginKeeper W} `{MintKeeper W} `{SdkErrors}
    (msg : MsgSwap) (w w' : W) :
  Swap msg w = (Ok tt, w') → outsider msg.(sw_Signer) → units_ok (store w) →
  ∃ addr received, AccAddressFromBech32 msg.(sw_Signer) = Ok addr ∧
    msg.(sw_MinReceivingAmount) <= received ∧
    (∀ d, balance w' addr d = balance w addr d
       - single msg.(sw_SentAsset).(Symbol) msg.(sw_SentAmount) d
       + single msg.(sw_ReceivedAsset).(Symbol) received d) ∧
    (∀ a d, a ≠ addr → a ≠ GetCLPModuleAddress → balance w' a d = balance w a d) ∧
    (∀ d, surplus w' d = surplus w d).
Proof.
  intros Hs Hout Hok. assert (∀ d, surplus w' d = surplus w d) as Hsur
    by (intros; eapply Swap_surplus; [done..|apply Hok]).
  apply Swap_effect in Hs as (addr & w1 & w2 & y & Ea & Hx & Hy & Hmin & Hin & Hst & Hpay & _).
  pose proof (Hout _ Ea) as Hne. apply String.eqb_neq in Hne as Hne'.
  exists addr, y. do 2 (split; [done|]). split; [|split; [|done]].
  - intros d. rewrite (Hpay addr d), (Hst addr d), (Hin addr d), Hne', String.eqb_refl. lia.
  - intros a d Ha%String.eqb_neq Hm%String.eqb_neq.
    rewrite (Hpay a d), (Hst a d), (Hin a d), Ha, Hm. lia.
Qed.

Lemma Swap_pays_witness :
  let w := deliver (block 10) genesis alice_creates in
  let msg := mkMsgSwap "@bob" cusdc GetSettlementAsset (5 * ether) 0 in
  let w' := deliver (block 10) w (AMsgSwap msg) in
  ∃ addr received, AccAddressFromBech32 "@bob" = Ok addr ∧ 0 <= received ∧
    (∀ d, balance w' addr d = balance w addr d - single "cusdc" (5 * ether) d + single "fury" received d) ∧
    (∀ a d, a ≠ addr → a ≠ GetCLPModuleAddress → balance w' a d = balance w a d) ∧
    (∀ d, surplus w' d = surplus w d).
Proof.
  intros w msg w'. apply (Swap_pays msg w w').
  - vm_compute. reflexivity.
  - by intros a [= <-].
  - eapply (message_units (block 10) alice_creates genesis); [vm_compute; reflexivity|apply alice_may_create|by left|apply genesis_units].
Defined.

(** The registered invariant [BalanceModuleAccountCheck] is exact: when every amount fits
    its type it ends without an error and reports a broken invariant if and only if the module
    holds another amount of some pool's asset than the pool books, or another amount of fury
    than all pools book together. *)
Theorem BalanceModuleAccountCheck_exact {W : Type} `{HL : SdkLaws} `{CoinLib} `{BankKeeper W}
    `{HasStore ClpStore W} (w : W) :
  let pools := kv_values (store (S := ClpStore) w).(cs_Pools) in
  small_books w pools →
  ∃ broken, BalanceModuleAccountCheck w = (Ok broken, w) ∧
    (broken = true ↔
      (∃ p, p ∈ pools ∧ p.(ExternalAssetBalance) + p.(ExternalCustody)
                        ≠ balance w GetCLPModuleAddress p.(ExternalAsset).(Symbol)) ∨
      native_total pools + custody_total pools ≠ balance w GetCLPModuleAddress NativeSymbol).
Proof.
  intros pools Hs.
  assert (0 <= native_total pools ∧ 0 <= custody_total pools) as [Hn Hc].
  { split; apply sumZ_nonneg; intros p Hp; by destruct (pools_are_ok _ _ Hs _ Hp). }
  pose proof (small_native _ _ Hs) as Hsum.
  unfold BalanceModuleAccountCheck.
  rewrite (bind_run _ _ _ _ _ (uint_balance_ok _ _ (small_held _ _ Hs))).
  rewrite (bind_run _ _ _ _ _ (GetPools_run w)).
  rewrite (bind_run _ _ _ _ _ (check_loop pools w 0 0 pools Hs ltac:(done) ltac:(lia) ltac:(lia)
    ltac:(lia) ltac:(lia))).
  assert ((∃ p, p ∈ pools ∧ p.(ExternalAssetBalance) + p.(ExternalCustody)
           ≠ balance w GetCLPModuleAddress p.(ExternalAsset).(Symbol))
    ↔ forallb (external_ok w) pools = false) as Hext.
  { rewrite forallb_false_iff. unfold external_ok. setoid_rewrite Z.eqb_neq. done. }
  destruct (forallb (external_ok w) pools).
  - rewrite !Z.add_0_l. unfold mbind, M_bind, lift. rewrite uint_add, checked_uint_total by lia.
    eexists. split; [done|]. change (Symbol GetSettlementAsset) with NativeSymbol.
    rewrite negb_true_iff, Z.eqb_neq. split; [by right|]. intros [?%Hext|?]; done.
  - eexists. split; [done|]. split; [|done]. intros _. left. by apply Hext.
Qed.

Lemma BalanceModuleAccountCheck_exact_witness :
  let w := deliver (block 10) genesis alice_creates in
  let pools := kv_values (store (S := ClpStore) w).(cs_Pools) in
  ∃ broken, BalanceModuleAccountCheck w = (Ok broken, w) ∧
    (broken = true ↔
      (∃ p, p ∈ pools ∧ p.(ExternalAssetBalance) + p.(ExternalCustody)
                        ≠ balance w GetCLPModuleAddress p.(ExternalAsset).(Symbol)) ∨
      native_total pools + custody_total pools ≠ balance w GetCLPModuleAddress NativeSymbol).
Proof.
  intros w pools. apply (BalanceModuleAccountCheck_exact w). split.
  - split; vm_compute; congruence.
  - intros p Hp. vm_compute in Hp. apply list_elem_of_singleton in Hp as ->.
    repeat split; vm_compute; congruence.
  - vm_compute. reflexivity.
  - intros p Hp. vm_compute in Hp. apply list_elem_of_singleton in Hp as ->.
    repeat split; vm_compute; congruence.
Defined.
