(* ===== verification/MarginBacked.v ===== *)
(** * MarginBacked: what the pools book for the positions

    The custody of a pool covers what its positions hold in custody, its liabilities are the sum
    of theirs, and the coins of the module cover its balances and custodies: definitions, and one
    lemma per kind of message. *)

From S2P Require Import Prelude Sdk Rat Float Bank Keepers Admin Registry ClpTypes ClpMath.
From S2P Require Import ClpKeeper ClpPolicy ClpRewards ClpLiquidity ClpMsgs ClpServer ClpModule.
From S2P Require Import ClpMathSpec ClpStoreSpec ClpUnits ClpExec ClpSettings ClpEffects.
From S2P Require Import World ClpParams Scenario ClpUnitsSpec ClpBalanceSpec.
From S2P Require Import MarginTypes Margin MarginServer.
From S2P Require Import MarginExec MarginEffects MarginInv.
Local Open Scope Z_scope.

(** ** Pools *)
Lemma moved_fields n b c l u p p' : pool_moved n b c l u p p' → ∀ s,
  side_balance s p' = side_balance s p + (if Bool.eqb s n then b else 0) ∧
  side_custody s p' = side_custody s p + (if Bool.eqb s n then c else 0) ∧
  side_debt s p' = side_debt s p + (if Bool.eqb s n then l else 0) ∧
  side_unsettled s p' = side_unsettled s p + (if Bool.eqb s n then u else 0).
Proof.
  intros [] s. unfold side_balance, side_custody, side_debt, side_unsettled.
  destruct s, n; simpl in *; lia.
Qed.
Definition side_ok (p : Pool) (s : bool) : Prop :=
  0 <= side_balance s p ∧ 0 <= side_custody s p ∧ 0 <= side_debt s p ∧
  0 < side_balance s p + side_debt s p.
Lemma pool_ok_sides p : pool_ok p ↔ ∀ s, side_ok p s.
Proof.
  split.
  - intros [] []; unfold side_ok, side_balance, side_custody, side_debt; simpl; lia.
  - intros H. pose proof (H true). pose proof (H false).
    unfold side_ok, side_balance, side_custody, side_debt in *. split; simpl in *; lia.
Qed.

Definition side_symbol (n : bool) (p : Pool) : string :=
  if n then NativeSymbol else p.(ExternalAsset).(Symbol).
Lemma pool_owns_moved n b c l u p p' d :
  pool_moved n b c l u p p' → pool_owns d p' = pool_owns d p + single (side_symbol n p) (b + c) d.
Proof.
  intros []. unfold pool_owns, pair_amount, single, side_symbol. rewrite pm_asset.
  destruct n; cbn -[Z.add Z.sub String.eqb NativeSymbol] in *;
    destruct (String.eqb (Symbol (ExternalAsset p)) d), (String.eqb NativeSymbol d); lia.
Qed.

(** ** Positions *)

(** Exactly one side of the trade is the native asset. *)
Definition two_sided (collateral custody : string) : Prop :=
  is_native custody = negb (is_native collateral).
Definition mtp_two_sided (m : MTP) : Prop := two_sided m.(CollateralAsset) m.(CustodyAsset).
Definition mtp_pool (m : MTP) : string := pool_asset m.(CollateralAsset) m.(CustodyAsset).

Lemma two_sided_symbols m p :
  mtp_two_sided m → p.(ExternalAsset).(Symbol) = mtp_pool m →
  side_symbol (custody_native m) p = m.(CustodyAsset) ∧
  side_symbol (collateral_native m) p = m.(CollateralAsset) ∧
  custody_native m = negb (collateral_native m).
Proof.
  unfold mtp_two_sided, two_sided, mtp_pool, pool_asset, side_symbol, custody_native, collateral_native, StringCompare.
  intros H ->. rewrite H.
  destruct (String.eqb_spec m.(CollateralAsset) MarginTypes.GetSettlementAsset) as [E|E]; simpl in *; [done|].
  destruct (String.eqb_spec m.(CustodyAsset) MarginTypes.GetSettlementAsset) as [E'|E']; simpl in *; done.
Qed.

(** What a position holds in custody, and owes, on a side of a pool. *)
Definition custody_for (symbol : string) (s : bool) (m : MTP) : Z :=
  if String.eqb (mtp_pool m) symbol && Bool.eqb s (custody_native m) then m.(CustodyAmount) else 0.
Definition debt_for (symbol : string) (s : bool) (m : MTP) : Z :=
  if String.eqb (mtp_pool m) symbol && Bool.eqb s (collateral_native m) then m.(Liabilities) else 0.

Definition backed (pools : ClpStore) (positions : MarginStore) : Prop :=
  ∀ k p, pools.(cs_Pools) !! k = Some p → ∀ s,
    map_sumZ (custody_for p.(ExternalAsset).(Symbol) s) positions.(ms_MTPs) <= side_custody s p ∧
    map_sumZ (debt_for p.(ExternalAsset).(Symbol) s) positions.(ms_MTPs) = side_debt s p.
Definition all_two_sided (positions : MarginStore) : Prop :=
  ∀ k m, positions.(ms_MTPs) !! k = Some m → mtp_two_sided m.

(** ** One pool and one position change *)
Lemma backed_step pools positions k p p' f g mtps' positions' :
  backed pools positions → store_wf pools →
  pools.(cs_Pools) !! pool_key k = Some p → p'.(ExternalAsset) = p.(ExternalAsset) →
  positions'.(ms_MTPs) = mtps' →
  (∀ x s, map_sumZ (custody_for x s) mtps' = map_sumZ (custody_for x s) positions.(ms_MTPs) + f x s) →
  (∀ x s, map_sumZ (debt_for x s) mtps' = map_sumZ (debt_for x s) positions.(ms_MTPs) + g x s) →
  (∀ x s, x ≠ k → f x s = 0 ∧ g x s = 0) →
  (∀ s, f k s <= side_custody s p' - side_custody s p ∧ g k s = side_debt s p' - side_debt s p) →
  backed (set_pool p' pools) positions'.
Proof.
  intros Hb Hwf Ep Ea Em Hf Hg Hother Hk k' q Eq s. rewrite Em.
  pose proof (pool_symbol _ _ _ Hwf Ep) as Epa. simpl in Epa.
  assert (p.(ExternalAsset).(Symbol) = k) as Esym by (by rewrite Epa).
  revert Eq. unfold set_pool. simpl. rewrite lookup_insert_Some. intros [[_ <-]|[Hne Eq]].
  - rewrite Ea, Esym, Hf, Hg. destruct (Hb _ _ Ep s) as [H1 H2]. rewrite Esym in H1, H2.
    destruct (Hk s). lia.
  - rewrite Hf, Hg. destruct (Hb _ _ Eq s) as [H1 H2].
    destruct (Hother q.(ExternalAsset).(Symbol) s) as [-> ->]; [|lia].
    intros E. apply Hne. rewrite Ea, Esym, <- E. symmetry. by eapply pools_keyed.
Qed.

Section effects.
Context {W : Type} {sdk : Sdk} {HL : SdkLaws sdk} {coins : CoinLib} {bank : BankKeeper W}
  {paginator : Paginator} {registry : TokenRegistryKeeper W} {admin : AdminKeeper W}
  {errs : SdkErrors} {clp : HasStore ClpStore W}
  {events : HasStore EventLog W} {margin : HasStore MarginStore W} {MW : MarginWorld W}
  {float : MarginFloat}.
Implicit Types (w : W) (m : MTP) (p : Pool).
Notation clp_of w := (store (S := ClpStore) w).
Notation margin_of w := (store (S := MarginStore) w).

(** *** Pools and units *)
Lemma opening_units msg w w' m p p' owner :
  opening msg w w' m p p' owner → mtp_two_sided m → units_ok (clp_of w) → units_ok (clp_of w').
Proof.
  intros [] H2 Hok. destruct op_pool_change as (p1 & H1 & Hc & H3). destruct op_amounts as ((A1 & A2 & A3) & A4).
  assert (p'.(ExternalAsset) = p.(ExternalAsset)) as Ea
    by (by rewrite (pm_asset _ _ _ _ _ _ _ H3), (pm_asset _ _ _ _ _ _ _ H1)).
  rewrite op_clp. eapply (units_ok_set_pool _ _ p).
  - done.
  - by rewrite Ea, (pool_symbol _ _ _ (proj1 Hok) op_pool).
  - assert (pool_ok p) as Hp by (by eapply (pools_ok _ (proj1 Hok))).
    rewrite pool_ok_sides in Hp |- *. intros s. specialize (Hp s). unfold side_ok in *.
    destruct (moved_fields _ _ _ _ _ _ _ H1 s) as (B1 & C1 & D1 & _).
    destruct (moved_fields _ _ _ _ _ _ _ H3 s) as (B3 & C3 & D3 & _).
    unfold mtp_two_sided, two_sided in H2. unfold collateral_native, custody_native in *.
    rewrite H2 in *. destruct (is_native (CollateralAsset m)), s; simpl in *; lia.
  - by rewrite (pm_units _ _ _ _ _ _ _ H3), (pm_units _ _ _ _ _ _ _ H1).
Qed.

Lemma closed_units ctx take address id m p p' repay a t returned t2 unpaid owner w w' :
  closed ctx take address id m p p' repay a t returned t2 unpaid owner w w' → amounts_ok m →
  mtp_two_sided m → units_ok (clp_of w) → units_ok (clp_of w').
Proof.
  intros (Em & Ep & fund & fund2 & []) (A1 & A2 & A3) H2 Hok. destruct cl_pool as (p1 & H1 & Hr & _ & H3).
  assert (p'.(ExternalAsset) = p.(ExternalAsset)) as Ea
    by (by rewrite (pm_asset _ _ _ _ _ _ _ H3), (pm_asset _ _ _ _ _ _ _ H1)).
  rewrite cl_clp. eapply (units_ok_set_pool _ _ p).
  - done.
  - by rewrite Ea, (pool_symbol _ _ _ (proj1 Hok) Ep).
  - assert (pool_ok p) as Hp by (by eapply (pools_ok _ (proj1 Hok))).
    rewrite pool_ok_sides in Hp |- *. intros s. specialize (Hp s). unfold side_ok in *.
    destruct (moved_fields _ _ _ _ _ _ _ H1 s) as (B1 & C1 & D1 & _).
    destruct (moved_fields _ _ _ _ _ _ _ H3 s) as (B3 & C3 & D3 & _).
    unfold mtp_two_sided, two_sided in H2. unfold collateral_native, custody_native in *.
    rewrite H2 in *. destruct (is_native (CollateralAsset m)), s; simpl in *; lia.
  - by rewrite (pm_units _ _ _ _ _ _ _ H3), (pm_units _ _ _ _ _ _ _ H1).
Qed.

(** *** Custody and liabilities *)
Lemma opening_backed msg w w' m p p' owner :
  opening msg w w' m p p' owner → mtp_two_sided m → positions_ok (margin_of w) →
  store_wf (clp_of w) → backed (clp_of w) (margin_of w) → backed (clp_of w') (margin_of w').
Proof.
  intros [] H2 Hok Hwf Hb. destruct op_pool_change as (p1 & H1 & Hc & H3).
  destruct op_amounts as (A & _). destruct op_margin as (n & o & En & Eo & Ei & Em).
  destruct (positions_add _ _ _ _ Hok En Eo Ei op_valid A) as [_ Hnew].
  destruct op_terms as (T1 & T2 & T3 & _). rewrite op_clp.
  assert (mtp_pool m = pool_asset (mo_CollateralAsset msg) (mo_BorrowAsset msg)) as Epool
    by (unfold mtp_pool; by rewrite T2, T3).
  rewrite <- Epool in op_pool.
  eapply (backed_step (clp_of w) (margin_of w) (mtp_pool m) p p'
    (λ x s, custody_for x s m) (λ x s, debt_for x s m)); try done.
  - by rewrite (pm_asset _ _ _ _ _ _ _ H3), (pm_asset _ _ _ _ _ _ _ H1).
  - rewrite Em. intros x s.
    change (ms_MTPs (add_mtp m ?c ?q ?st)) with (<[mtp_key m := m]> (ms_MTPs st)).
    rewrite map_sumZ_insert_None by done. lia.
  - rewrite Em. intros x s.
    change (ms_MTPs (add_mtp m ?c ?q ?st)) with (<[mtp_key m := m]> (ms_MTPs st)).
    rewrite map_sumZ_insert_None by done. lia.
  - intros x s Hx. unfold custody_for, debt_for.
    destruct (String.eqb_spec (mtp_pool m) x); [congruence|done].
  - intros s. unfold custody_for, debt_for. rewrite String.eqb_refl.
    destruct (moved_fields _ _ _ _ _ _ _ H1 s) as (B1 & C1 & D1 & _).
    destruct (moved_fields _ _ _ _ _ _ _ H3 s) as (B3 & C3 & D3 & _). simpl.
    destruct (Bool.eqb s (collateral_native m)), (Bool.eqb s (custody_native m)); lia.
Qed.

Lemma closed_backed ctx take address id m p p' repay a t returned t2 unpaid owner w w' :
  closed ctx take address id m p p' repay a t returned t2 unpaid owner w w' →
  mtps_ok (margin_of w) →
  store_wf (clp_of w) → backed (clp_of w) (margin_of w) → backed (clp_of w') (margin_of w').
Proof.
  intros (Em & Ep & fund & fund2 & []) Hst Hwf Hb. destruct cl_pool as (p1 & H1 & Hr & _ & H3).
  destruct (Hst _ _ Em) as (Ek & _). destruct cl_margin as (o & Eo & Emg). rewrite cl_clp.
  eapply (backed_step (clp_of w) (margin_of w) (mtp_pool m) p p'
    (λ x s, - custody_for x s m) (λ x s, - debt_for x s m)); try done.
  - by rewrite (pm_asset _ _ _ _ _ _ _ H3), (pm_asset _ _ _ _ _ _ _ H1).
  - rewrite Emg. intros x s. change (ms_MTPs (del_mtp ?k ?q ?st)) with (delete k (ms_MTPs st)).
    rewrite (map_sumZ_delete _ _ _ m); [lia|]. by rewrite <- Ek.
  - rewrite Emg. intros x s. change (ms_MTPs (del_mtp ?k ?q ?st)) with (delete k (ms_MTPs st)).
    rewrite (map_sumZ_delete _ _ _ m); [lia|]. by rewrite <- Ek.
  - intros x s Hx. unfold custody_for, debt_for.
    destruct (String.eqb_spec (mtp_pool m) x); [congruence|done].
  - intros s. unfold custody_for, debt_for. rewrite String.eqb_refl.
    destruct (moved_fields _ _ _ _ _ _ _ H1 s) as (B1 & C1 & D1 & _).
    destruct (moved_fields _ _ _ _ _ _ _ H3 s) as (B3 & C3 & D3 & _). simpl.
    destruct (Bool.eqb s (collateral_native m)), (Bool.eqb s (custody_native m)); lia.
Qed.

(** *** Coins *)
Lemma set_pool_booked w w' p p' k d :
  clp_of w' = set_pool p' (clp_of w) → store_wf (clp_of w) →
  (clp_of w).(cs_Pools) !! pool_key k = Some p → p'.(ExternalAsset) = p.(ExternalAsset) →
  booked (clp_of w') d = booked (clp_of w) d - pool_owns d p + pool_owns d p'.
Proof.
  intros -> Hwf Ep Ea. rewrite booked_set_pool, Ea, (pool_symbol _ _ _ Hwf Ep). simpl.
  by rewrite Ep.
Qed.

Lemma opening_surplus msg w w' m p p' owner d :
  opening msg w w' m p p' owner → mtp_two_sided m → owner ≠ GetCLPModuleAddress →
  store_wf (clp_of w) → surplus w' d = surplus w d.
Proof.
  intros [] H2 Ho Hwf. destruct op_pool_change as (p1 & H1 & Hc & H3).
  destruct op_terms as (T1 & T2 & T3 & _).
  assert (p1.(ExternalAsset) = p.(ExternalAsset)) as Ea1 by apply H1.
  unfold surplus. rewrite (set_pool_booked w w' p p' _ d op_clp Hwf op_pool) by (rewrite (pm_asset _ _ _ _ _ _ _ H3); done).
  rewrite (paid_in _ _ _ _ d op_moved Ho).
  rewrite (pool_owns_moved _ _ _ _ _ _ _ d H3), (pool_owns_moved _ _ _ _ _ _ _ d H1).
  destruct (two_sided_symbols m p H2) as (S1 & S2 & _).
  { rewrite (pool_symbol _ _ _ Hwf op_pool). unfold mtp_pool. by rewrite T2, T3. }
  rewrite S2, T2. unfold single.
  destruct (String.eqb _ d), (String.eqb _ d); lia.
Qed.

Lemma closed_surplus ctx take address id m p p' repay a t returned t2 unpaid owner w w' d :
  closed ctx take address id m p p' repay a t returned t2 unpaid owner w w' → mtp_two_sided m →
  store_wf (clp_of w) → surplus w d <= surplus w' d.
Proof.
  intros (Em & Ep & fund & fund2 & []) H2 Hwf. destruct cl_pool as (p1 & H1 & Hr & _ & H3).
  assert (p1.(ExternalAsset) = p.(ExternalAsset)) as Ea1 by apply H1.
  unfold surplus. rewrite (set_pool_booked w w' p p' _ d cl_clp Hwf Ep) by (rewrite (pm_asset _ _ _ _ _ _ _ H3); done).
  rewrite (pool_owns_moved _ _ _ _ _ _ _ d H3), (pool_owns_moved _ _ _ _ _ _ _ d H1).
  destruct (two_sided_symbols m p H2) as (S1 & S2 & _).
  { by rewrite (pool_symbol _ _ _ Hwf Ep). }
  assert (side_symbol (collateral_native m) p1 = m.(CollateralAsset)) as ->
    by (unfold side_symbol in *; by rewrite Ea1).
  rewrite S1. destruct cl_moved as (w1 & B & Sh). specialize (Sh GetCLPModuleAddress d).
  assert (0 <= single m.(CustodyAsset) t d) as Ht
    by (destruct cl_take; unfold single; destruct (String.eqb m.(CustodyAsset) d); lia).
  destruct (paid_out _ _ _ _ d B Ht) as [Hb _]. clear Ht.
  rewrite String.eqb_refl in Sh. destruct cl_owner_part as (Ht2 & _). revert Sh Hb. unfold single.
  destruct (String.eqb GetCLPModuleAddress owner), (String.eqb GetCLPModuleAddress fund2),
    (String.eqb (CollateralAsset m) d), (String.eqb (CustodyAsset m) d); lia.
Qed.
End effects.
