(* ===== verification/MarginSpec.v ===== *)
(** * MarginSpec: what holds of x/margin

    The positions of the store, whatever messages and blocks come; the custody and the
    liabilities the pools book for them; the coins that back the pools; what closing pays; the
    interest that positions are charged and the rate that pools ask. *)

From S2P Require Import MarginTypes Margin MarginServer.
From S2P Require Import Prelude Sdk SdkRef Rat Float Bank Keepers Admin Registry ClpTypes ClpMath.
From S2P Require Import ClpKeeper ClpPolicy ClpRewards ClpLiquidity ClpMsgs ClpServer ClpModule.
From S2P Require Import World ClpMathSpec ClpStoreSpec ClpUnits ClpExec ClpSettings ClpEffects.
From S2P Require Import MarginExec MarginEffects MarginInv MarginBlock Scenario.
From S2P Require Import ClpParams ClpUnitsSpec ClpBalanceSpec MarginBacked.
Local Open Scope Z_scope.

(** ** Runs of the module *)
Inductive margin_run {W : Type} `{Sdk} `{CoinLib} `{BankKeeper W} `{Paginator}
    `{TokenRegistryKeeper W} `{AdminKeeper W} `{SdkErrors} `{HasStore ClpStore W}
    `{HasStore EventLog W} `{HasStore MarginStore W} `{MarginFloat} (w0 : W) : W → Prop :=
| run_start : margin_run w0 w0
| run_message ctx msg w w' :
    margin_run w0 w → NewLegacyHandler ctx msg w = (Ok tt, w') → margin_run w0 w'
| run_block ctx w w' :
    margin_run w0 w → MarginServer.BeginBlocker ctx w = (Ok tt, w') → margin_run w0 w'.


(** ** A concrete chain with a margin pool *)
Definition margin_params : MarginTypes.Params :=
  MarginTypes.DefaultParams <| Pools := ["cusdc"] |> <| IncrementalInterestPaymentEnabled := true |>
    <| ForceCloseFundAddress := "@fund" |> <| IncrementalInterestPaymentFundAddress := "@fund" |>.
(** The pool alice creates, healthy and with a rate, as a begin blocker leaves it. *)
Definition margin_pool : Pool :=
  mkPool cusdc (100 * ether) (200 * ether) (100 * ether) None None 0 0 0 0 0 OneDec
    (NewDecWithPrec 1 1) 1 0 0 0 0.
Definition margin_genesis : World :=
  deliver (block 1) genesis alice_creates
    <| w_clp ::= set_pool margin_pool |>
    <| w_margin := mkMarginStore ∅ None (Some margin_params) None ∅ ∅ |>.
Definition margin_deliver (ctx : Ctx) (w : World) (m : MarginMsg) : World :=
  match NewLegacyHandler ctx m w with (Ok _, w') => w' | _ => w end.
Definition margin_block (ctx : Ctx) (w : World) : World :=
  match MarginServer.BeginBlocker ctx w with (Ok _, w') => w' | _ => w end.
Lemma margin_delivered ctx w m :
  is_ok (NewLegacyHandler ctx m w).1 = true → NewLegacyHandler ctx m w = (Ok tt, margin_deliver ctx w m).
Proof. unfold margin_deliver. by destruct (NewLegacyHandler _ _ _) as [[[]| |] w']. Qed.
Lemma close_delivered ctx w m :
  is_ok (Close ctx m w).1 = true → Close ctx m w = (Ok tt, margin_deliver ctx w (AMsgClose m)).
Proof. exact (margin_delivered ctx w (AMsgClose m)). Qed.
Lemma margin_began ctx w :
  is_ok (MarginServer.BeginBlocker ctx w).1 = true →
  MarginServer.BeginBlocker ctx w = (Ok tt, margin_block ctx w).
Proof. unfold margin_block. by destruct (MarginServer.BeginBlocker _ _) as [[[]| |] w']. Qed.
Definition bob_opens : MarginMsg :=
  AMsgOpen (mkMsgOpen "@bob" "cusdc" (1 * ether) "fury" Position_LONG (Some (NewDec 2))).
Definition bob_closes : MarginMsg := AMsgClose (mkMsgClose "@bob" 1).

Section runs.
Context {W : Type} {sdk : Sdk} {HL : SdkLaws sdk} {coins : CoinLib} {bank : BankKeeper W}
  {paginator : Paginator} {registry : TokenRegistryKeeper W} {admin : AdminKeeper W}
  {errs : SdkErrors} {clp : HasStore ClpStore W}
  {events : HasStore EventLog W} {margin : HasStore MarginStore W} {MW : MarginWorld W}
  {float : MarginFloat}.
Implicit Types (w : W) (m : MTP).
Notation clp_of w := (store (S := ClpStore) w).
Notation margin_of w := (store (S := MarginStore) w).

Lemma run_positions {HP : PaginatorLaws paginator} w0 w :
  margin_run w0 w → positions_ok (margin_of w0) → positions_ok (margin_of w).
Proof.
  intros Hr H0. induction Hr as [|ctx msg w w' Hr IH E|ctx w w' Hr IH E]; [done| |].
  - by eapply message_keeps_positions.
  - pose proof (BeginBlocker_positions ctx w IH) as H. by rewrite E in H.
Qed.

(** An open trades the native asset against another one, and is not signed by the module. *)
Definition sound_margin_msg (msg : MarginMsg) : Prop :=
  match msg with
  | AMsgOpen m => two_sided m.(mo_CollateralAsset) m.(mo_BorrowAsset) ∧ outsider m.(mo_Signer)
  | _ => True
  end.
(** Runs of such messages; a failed one is rolled back. *)
Inductive margin_traded (w0 : W) : W → Prop :=
| traded_start : margin_traded w0 w0
| traded_message ctx msg w w' :
    margin_traded w0 w → sound_margin_msg msg → NewLegacyHandler ctx msg w = (Ok tt, w') →
    margin_traded w0 w'.

Record margin_inv (w : W) : Prop := {
  mi_units : units_ok (clp_of w);
  mi_assets : assets_valid (clp_of w);
  mi_positions : positions_ok (margin_of w);
  mi_sides : all_two_sided (margin_of w);
  mi_backed : backed (clp_of w) (margin_of w)
}.

Lemma effect_sides msg w w' :
  message_effect msg w w' → sound_margin_msg msg → all_two_sided (margin_of w) →
  all_two_sided (margin_of w').
Proof.
  intros [mo m p p' owner -> []|ctx take address id m p p' repay a t returned t2 unpaid owner C|A] Hs Hall k q.
  - destruct op_margin as (n & o & _ & _ & _ & ->). destruct op_terms as (_ & T2 & T3 & _).
    unfold add_mtp, set_mtp. simpl. rewrite lookup_insert_Some. intros [[_ <-]|[_ E]]; [|by eapply Hall].
    unfold mtp_two_sided. rewrite T2, T3. apply Hs.
  - destruct C as (_ & _ & fund & fund2 & []). destruct cl_margin as (o & _ & ->).
    unfold del_mtp. simpl. intros [_ E]%lookup_delete_Some. by eapply Hall.
  - destruct A as (_ & -> & _). apply Hall.
Qed.

Lemma effect_inv msg w w' :
  message_effect msg w w' → sound_margin_msg msg → margin_inv w →
  margin_inv w' ∧ ∀ d, surplus w d <= surplus w' d.
Proof.
  intros He Hs Hi. pose proof Hi as [Hu Ha Hp H2 Hb].
  pose proof (effect_sides _ _ _ He Hs H2) as H2'. pose proof (message_positions _ _ _ He Hp) as Hp'.
  pose proof (message_assets _ _ _ He Ha) as Ha'. pose proof (proj1 Hu) as Hwf.
  destruct He as [mo m p p' owner -> O|ctx take address id m p p' repay a t returned t2 unpaid owner C|A].
  - assert (mtp_two_sided m) as Hm.
    { pose proof O as []. destruct op_terms as (_ & T2 & T3 & _). unfold mtp_two_sided. rewrite T2, T3.
      apply Hs. }
    split.
    + split; try done; [by eapply opening_units|by eapply opening_backed].
    + intros d. rewrite (opening_surplus _ _ _ _ _ _ _ d O Hm); [lia| |done].
      destruct Hs as [_ Ho]. apply Ho. apply O.
  - pose proof C as (Em & _). destruct (po_stored _ Hp _ _ Em) as (_ & _ & Ham).
    pose proof (H2 _ _ Em) as Hm. split.
    + split; try done; [by eapply closed_units|eapply closed_backed; [exact C|by apply po_stored|done|done]].
    + intros d. by eapply closed_surplus.
  - destruct A as (Ec & Em & _ & _ & S). split.
    + split; try done; [by rewrite Ec|]. unfold backed. by rewrite Ec, Em.
    + intros d. unfold surplus. rewrite Ec, (S _ d). done.
Qed.

Lemma traded_inv w0 w :
  margin_traded w0 w → margin_inv w0 → margin_inv w ∧ ∀ d, surplus w0 d <= surplus w d.
Proof.
  intros Hr H0. induction Hr as [|ctx msg w w' Hr [IH Hsur] Hs E]; [done|].
  apply message_ok in E; [|apply IH..].
  destruct (effect_inv _ _ _ E Hs IH) as [Hi Hd]. split; [done|]. intros d. eapply Z.le_trans; [apply Hsur|apply Hd].
Qed.
End runs.

(** C6: whatever messages and begin blockers of x/margin the chain executes (a begin blocker
    recovers from the panics of the positions it processes, and keeps what they wrote), every
    position stays stored under its owner and id, valid and with nonnegative amounts, no two
    positions have the same id, ids never exceed the counter of issued ids, and the counter of
    open positions is their number. *)
Theorem positions_always {W : Type} `{HL : SdkLaws} `{MW : MarginWorld W} `{HP : PaginatorLaws}
    `{TokenRegistryKeeper W} `{AdminKeeper W} `{SdkErrors} `{MarginFloat} (w0 w : W) :
  margin_run w0 w → positions_ok (store w0) → positions_ok (store w).
Proof. intros Hr Hi. by eapply run_positions. Qed.

(** C7: the messages of x/margin keep, for each pool and each of its two assets, the custody of
    the pool at least the sum of what its positions hold in custody, and its liabilities equal
    to the sum of theirs, provided that every position opened trades the native asset against
    another one and that no module account signs an open (the code does not require the former:
    [open_same_asset_gains]).  Runs are of messages only, without begin blockers. *)
Theorem custody_backed {W : Type} `{HL : SdkLaws} `{MW : MarginWorld W} `{Paginator}
    `{TokenRegistryKeeper W} `{AdminKeeper W} `{SdkErrors} `{MarginFloat} (w0 w : W) :
  margin_traded w0 w → margin_inv w0 → backed (store w) (store w).
Proof. intros Hr Hi. by destruct (traded_inv _ _ Hr Hi) as [[] _]. Qed.

(** C8: under the proviso of [custody_backed] (opens trade the native asset against another one
    and are not signed by the module account; messages only), the messages of x/margin never
    lower, in any denomination, what the module account of
    x/clp holds beyond the balances and custodies its pools book; and they keep the invariant of
    x/clp: nonnegative amounts, no pool with an empty side, units equal to the sum of the
    providers' units. *)
Theorem margin_solvency {W : Type} `{HL : SdkLaws} `{MW : MarginWorld W} `{Paginator}
    `{TokenRegistryKeeper W} `{AdminKeeper W} `{SdkErrors} `{MarginFloat} (w0 w : W) (d : string) :
  margin_traded w0 w → margin_inv w0 → surplus w0 d <= surplus w d ∧ units_ok (store w).
Proof. intros Hr Hi. destruct (traded_inv _ _ Hr Hi) as [[] Hd]. by split. Qed.

(** *** Witnesses: bob opens, a block passes, bob closes *)
Definition margin_opened : World := margin_deliver (block 2) (margin_block (block 2) margin_genesis) bob_opens.
Definition margin_closed : World :=
  margin_deliver (block 3) (margin_block (block 3) margin_opened) bob_closes.

Lemma margin_genesis_positions : positions_ok (store margin_genesis).
Proof. by apply positions_empty. Qed.
Lemma margin_runs : margin_run margin_genesis margin_closed.
Proof.
  apply (run_message _ (block 3) bob_closes (margin_block (block 3) margin_opened));
    [|by apply margin_delivered; vm_compute].
  apply (run_block _ (block 3) margin_opened); [|by apply margin_began; vm_compute].
  apply (run_message _ (block 2) bob_opens (margin_block (block 2) margin_genesis));
    [|by apply margin_delivered; vm_compute].
  apply (run_block _ (block 2) margin_genesis); [constructor|by apply margin_began; vm_compute].
Qed.
Lemma positions_always_witness : positions_ok (store margin_closed).
Proof. apply (positions_always margin_genesis); [apply margin_runs|apply margin_genesis_positions]. Defined.


Lemma margin_genesis_pools k p :
  (store (S := ClpStore) margin_genesis).(cs_Pools) !! k = Some p → p = margin_pool.
Proof.
  intros E. assert (p ∈ kv_values (store (S := ClpStore) margin_genesis).(cs_Pools)) as H
    by (apply elem_of_kv_values; by exists k).
  assert (kv_values (store (S := ClpStore) margin_genesis).(cs_Pools) = [margin_pool]) as Es
    by (vm_compute; reflexivity).
  rewrite Es in H. by apply list_elem_of_singleton in H.
Qed.
Lemma margin_genesis_reachable : reachable units_msg genesis (deliver (block 1) genesis alice_creates).
Proof.
  eapply (reachable_message _ _ (block 1) alice_creates);
    [constructor|apply alice_may_create|vm_compute; reflexivity].
Qed.
Lemma margin_genesis_clp :
  store margin_genesis = set_pool margin_pool (store (deliver (block 1) genesis alice_creates)).
Proof. unfold margin_genesis. by generalize (deliver (block 1) genesis alice_creates). Qed.
Lemma margin_genesis_inv : margin_inv margin_genesis.
Proof.
  split.
  - rewrite margin_genesis_clp.
    pose proof (reachable_units genesis _ margin_genesis_reachable (or_introl eq_refl) genesis_units) as Hu.
    eapply units_ok_set_pool; [exact (proj2 Hu)|by vm_compute|split; by vm_compute|done].
  - intros k p ->%margin_genesis_pools. by vm_compute.
  - apply margin_genesis_positions.
  - intros k m. change (ms_MTPs (store margin_genesis)) with (∅ : gmap string MTP).
    by intros E%lookup_empty_Some.
  - intros k p ->%margin_genesis_pools s. change (ms_MTPs (store margin_genesis)) with (∅ : gmap string MTP).
    by destruct s.
Qed.
Definition margin_traded_world : World :=
  margin_deliver (block 3) (margin_deliver (block 2) margin_genesis bob_opens) bob_closes.
Lemma bob_trades : margin_traded margin_genesis margin_traded_world.
Proof.
  apply (traded_message _ (block 3) bob_closes (margin_deliver (block 2) margin_genesis bob_opens));
    [|done|by apply margin_delivered; vm_compute].
  apply (traded_message _ (block 2) bob_opens margin_genesis);
    [constructor|split; [done|by intros a [= <-]]|by apply margin_delivered; vm_compute].
Qed.
Lemma custody_backed_witness : backed (store margin_traded_world) (store margin_traded_world).
Proof. apply (custody_backed margin_genesis); [apply bob_trades|apply margin_genesis_inv]. Defined.
Lemma margin_solvency_witness :
  surplus margin_genesis "fury" <= surplus margin_traded_world "fury" ∧ units_ok (store margin_traded_world).
Proof. apply margin_solvency; [apply bob_trades|apply margin_genesis_inv]. Defined.

(** ** What closing pays *)
Section pays.
Context {W : Type} {sdk : Sdk} {HL : SdkLaws sdk} {coins : CoinLib} {bank : BankKeeper W}
  {paginator : Paginator} {registry : TokenRegistryKeeper W} {admin : AdminKeeper W}
  {errs : SdkErrors} {clp : HasStore ClpStore W}
  {events : HasStore EventLog W} {margin : HasStore MarginStore W} {MW : MarginWorld W}
  {float : MarginFloat}.
Implicit Types (w : W) (m : MTP).
Notation clp_of w := (store (S := ClpStore) w).
Notation margin_of w := (store (S := MarginStore) w).

(** The pool [p] of the position [m] after the position was closed for [repay], with [unpaid]
    interest left: [a] left its custody, [t] of it to the interest fund. *)
Definition settled_pool m p p' (repay unpaid a t : Z) : Prop :=
  let s := collateral_native m in let returned := Z.max 0 (repay - m.(Liabilities) - unpaid) in
  side_debt s p' = side_debt s p - m.(Liabilities) ∧
  side_unsettled s p' = side_unsettled s p + Z.max 0 (m.(Liabilities) + unpaid - repay) ∧
  side_balance s p' = side_balance s p - returned ∧
  side_custody (negb s) p' = side_custody (negb s) p - a ∧
  side_balance (negb s) p' = side_balance (negb s) p + (a - t).

(** Who has what afterwards. *)
Definition paid_out_to m (owner fund : AccAddress) (returned t : Z) w w' : Prop :=
  ∀ x d, balance w' x d = balance w x d
    - (if String.eqb x GetCLPModuleAddress
       then single m.(CollateralAsset) returned d + single m.(CustodyAsset) t d else 0)
    + (if String.eqb x owner then single m.(CollateralAsset) returned d else 0)
    + (if String.eqb x fund then single m.(CustodyAsset) t d else 0).

(** The pool with [a] taken out of the custody the position holds, [b] of it back in the
    balance. *)
Definition custody_returned m p (a b : Z) : Pool :=
  if custody_native m then
    p <| NativeCustody := p.(NativeCustody) - a |> <| NativeAssetBalance := p.(NativeAssetBalance) + b |>
  else
    p <| ExternalCustody := p.(ExternalCustody) - a |> <| ExternalAssetBalance := p.(ExternalAssetBalance) + b |>.

Lemma closing_pays ctx m p p' repay a t returned t2 unpaid owner fund fund2 w w' :
  closing ctx false m p w w' p' a t repay returned t2 fund owner fund2 unpaid → mtp_two_sided m →
  settled_pool m p p' repay unpaid a t ∧ paid_out_to m owner fund returned t w w'.
Proof.
  intros [] H2. destruct cl_pool as (p1 & H1 & Hr & _ & H3). split.
  - unfold settled_pool. cbv zeta. rewrite <- cl_returned.
    assert (custody_native m = negb (collateral_native m)) as Ec by exact H2.
    rewrite Ec in *.
    destruct (moved_fields _ _ _ _ _ _ _ H1 (collateral_native m)) as (B1 & C1 & D1 & U1).
    destruct (moved_fields _ _ _ _ _ _ _ H3 (collateral_native m)) as (B3 & C3 & D3 & U3).
    destruct (moved_fields _ _ _ _ _ _ _ H1 (negb (collateral_native m))) as (B1' & C1' & D1' & U1').
    destruct (moved_fields _ _ _ _ _ _ _ H3 (negb (collateral_native m))) as (B3' & C3' & D3' & U3').
    destruct (collateral_native m); simpl in *; lia.
  - destruct cl_owner_part as (Ht2 & Hz & _). specialize (Hz eq_refl). subst t2.
    destruct cl_moved as (w1 & B & Sh). intros x d. rewrite (Sh x d), (B x d).
    unfold single. repeat case_match; lia.
Qed.

(** The interest charged on the way, and the swap of what is left of the custody. *)
Lemma closing_swap ctx take m p p' repay a t returned t2 unpaid owner fund fund2 w w' :
  closing ctx take m p w w' p' a t repay returned t2 fund owner fund2 unpaid →
  ∃ c withheld, interest_paid ctx w m p c t unpaid withheld ∧ a = m.(CustodyAmount) - withheld ∧
    t <= c ∧ 0 <= withheld ∧ c + withheld <= m.(CustodyAmount) ∧
    quote (clp_of w) (margin_of w) (custody_returned m p a (a - t)) m.(CollateralAsset)
      (m.(CustodyAmount) - c - withheld) = Ok repay.
Proof.
  intros []. destruct cl_pool as (p1 & H1 & _ & (c & h & Hi & -> & Ht & Hh & Hc & Hq) & _).
  exists c, h. do 5 (split; [done|]). rewrite <- Hq.
  assert (∀ n, side_balance n (custody_returned m p (m.(CustodyAmount) - h) (m.(CustodyAmount) - h - t))
      = side_balance n p1 ∧
    side_debt n (custody_returned m p (m.(CustodyAmount) - h) (m.(CustodyAmount) - h - t))
      = side_debt n p1) as E.
  { intros n. destruct (moved_fields _ _ _ _ _ _ _ H1 n) as (-> & _ & -> & _).
    unfold custody_returned, side_balance, side_debt.
    by destruct (custody_native m), n; simpl; split; lia. }
  apply quote_ext; try done; [|intros n; apply E..].
  rewrite (pm_asset _ _ _ _ _ _ _ H1). unfold custody_returned. by destruct (custody_native m).
Qed.
End pays.

(** C9: closing a position removes it, writes its liabilities off, returns its custody to the
    pool and swaps it to the collateral asset; the owner is paid what the swap gives beyond the
    liabilities and the interest left unpaid, out of the pool's balance; what the swap lacks is
    recorded as the pool's unsettled liabilities; besides the owner only the interest fund is
    paid, out of the position's custody.  The interest due since the epoch began is the exact
    one ([interest_due]); what it takes from the custody ([c]), the fund's share of that ([t])
    and what stays unpaid are those of [interest_paid], and what the swap gives is the quote of
    the pool, with the custody returned to it, for the custody that is left.  If the fund's share
    cannot be sent, that charge ([withheld]) leaves the position but not the custody of the
    pool. *)
Theorem Close_pays {W : Type} `{HL : SdkLaws} `{MW : MarginWorld W} `{Paginator}
    `{TokenRegistryKeeper W} `{AdminKeeper W} `{SdkErrors} `{MarginFloat}
    (ctx : Ctx) (msg : MsgClose) (w w' : W) :
  Close ctx msg w = (Ok tt, w') → margin_inv w →
  ∃ m p p' c t unpaid withheld repay owner fund,
    let key := GetMTPKey msg.(mc_Signer) msg.(mc_Id) in
    let a := m.(CustodyAmount) - withheld in
    let returned := Z.max 0 (repay - m.(Liabilities) - unpaid) in
    (store (S := MarginStore) w).(ms_MTPs) !! key = Some m ∧
    (store w').(ms_MTPs) = delete key (store w).(ms_MTPs) ∧
    (store w).(cs_Pools) !! pool_key (mtp_pool m) = Some p ∧
    store w' = set_pool p' (store w) ∧
    interest_paid ctx w m p c t unpaid withheld ∧
    0 <= unpaid ∧ 0 <= t <= c ∧ 0 <= withheld ∧ c + withheld <= m.(CustodyAmount) ∧
    0 < repay ∧
    quote (store w) (store w) (custody_returned m p a (a - t)) m.(CollateralAsset) (a - c) = Ok repay ∧
    (0 < returned → AccAddressFromBech32 m.(MarginTypes.Address) = Ok owner) ∧
    (0 < t → AccAddressFromBech32
       (params_of (store w)).(IncrementalInterestPaymentFundAddress) = Ok fund) ∧
    settled_pool m p p' repay unpaid a t ∧ paid_out_to m owner fund returned t w w'.
Proof.
  intros Hrun Hi. apply Close_ok, closes_closed in Hrun as
    (m & p & p' & repay & a & t & ret & t2 & un & owner & Em & Ep & fund & fund2 & C); [|apply Hi..].
  pose proof (mi_sides _ Hi _ _ Em) as Htwo.
  destruct (closing_pays _ _ _ _ _ _ _ _ _ _ _ _ _ _ _ C Htwo) as (Hp & Hb).
  destruct (closing_swap _ _ _ _ _ _ _ _ _ _ _ _ _ _ _ _ C) as (c & h & Hint & -> & Ht & Hh & Hc & Hq).
  destruct (po_stored _ (mi_positions _ Hi) _ _ Em) as (Ek & _).
  destruct C. destruct cl_owner_part as (Ht2 & Hz & Ho). rewrite (Hz eq_refl), Z.sub_0_r in Ho.
  rewrite cl_returned in *. destruct cl_margin as (o & _ & Eg).
  exists m, p, p', c, t, un, h, repay, owner, fund. cbv zeta.
  replace (m.(CustodyAmount) - h - c) with (m.(CustodyAmount) - c - h) by lia.
  split; [done|]. split; [by rewrite Eg, Ek|]. do 4 (split; [done|]). split; [lia|].
  repeat (split; [done|]). done.
Qed.

Lemma Close_pays_witness :
  let w := margin_deliver (block 2) margin_genesis bob_opens in
  let w' := margin_deliver (block 3) w bob_closes in
  ∃ m p p' c t unpaid withheld repay owner fund,
    let key := GetMTPKey "@bob" 1 in
    let a := m.(CustodyAmount) - withheld in
    let returned := Z.max 0 (repay - m.(Liabilities) - unpaid) in
    (store (S := MarginStore) w).(ms_MTPs) !! key = Some m ∧
    (store w').(ms_MTPs) = delete key (store w).(ms_MTPs) ∧
    (store w).(cs_Pools) !! pool_key (mtp_pool m) = Some p ∧
    store w' = set_pool p' (store w) ∧
    interest_paid (block 3) w m p c t unpaid withheld ∧
    0 <= unpaid ∧ 0 <= t <= c ∧ 0 <= withheld ∧ c + withheld <= m.(CustodyAmount) ∧
    0 < repay ∧
    quote (store w) (store w) (custody_returned m p a (a - t)) m.(CollateralAsset) (a - c) = Ok repay ∧
    (0 < returned → AccAddressFromBech32 m.(MarginTypes.Address) = Ok owner) ∧
    (0 < t → AccAddressFromBech32
       (params_of (store w)).(IncrementalInterestPaymentFundAddress) = Ok fund) ∧
    settled_pool m p p' repay unpaid a t ∧ paid_out_to m owner fund returned t w w'.
Proof.
  cbv zeta. apply (Close_pays (block 3) (mkMsgClose "@bob" 1)).
  - apply close_delivered. by vm_compute.
  - apply (traded_inv margin_genesis); [|apply margin_genesis_inv].
    apply (traded_message _ (block 2) bob_opens margin_genesis);
      [constructor|split; [done|by intros a [= <-]]|by apply margin_delivered; vm_compute].
Defined.

(** ** Opening with one asset on both sides *)
Definition bob_opens_twice_cusdc : MarginMsg :=
  AMsgOpen (mkMsgOpen "@bob" "cusdc" (5 * ether) "cusdc" Position_LONG (Some (NewDec 2))).

(** nothing requires one side of a trade to be the native asset.  A position whose
    collateral and borrowed asset are the same external asset passes validation and opens; both
    of its swaps are priced as if native coins came in.  In the scenario, where the external
    asset is worth half of the native one, opening with 5 and closing in the same block earns
    over 22 of it at the expense of the pool's providers. *)
Theorem open_same_asset_gains :
  let w1 := margin_deliver (block 2) margin_genesis bob_opens_twice_cusdc in
  let w2 := margin_deliver (block 2) w1 bob_closes in
  MarginServer.ValidateBasic bob_opens_twice_cusdc = Ok tt ∧
  is_ok (NewLegacyHandler (block 2) bob_opens_twice_cusdc margin_genesis).1 = true ∧
  is_ok (NewLegacyHandler (block 2) bob_closes w1).1 = true ∧
  balance w2 "bob" "cusdc" = balance margin_genesis "bob" "cusdc" + 22128965676466061260 ∧
  ExternalAssetBalance <$> (store w2).(cs_Pools) !! pool_key "cusdc" = Some 177871034323533938740.
Proof. cbv zeta. repeat split; vm_compute; reflexivity. Qed.
