(* ===== verification/MarginRateSpec.v ===== *)
(** * MarginRateSpec: interest of positions, interest rate of pools, keys and genesis of x/margin *)

From Stdlib Require Import Lqa.
From S2P Require Import MarginTypes Margin MarginServer.
From S2P Require Import Prelude Sdk SdkRef Rat Float Bank Keepers Admin Registry ClpTypes ClpMath.
From S2P Require Import ClpKeeper ClpPolicy ClpRewards ClpLiquidity ClpMsgs ClpServer ClpModule.
From S2P Require Import World ClpMathSpec ClpStoreSpec ClpUnits ClpExec ClpEffects.
From S2P Require Import MarginExec MarginEffects MarginInv Scenario.
Local Open Scope Z_scope.

(** ** Interest of a position *)
Section interest.
Context {sdk : Sdk} {HL : SdkLaws sdk}.

(** The rate times the debt, for the part of the epoch that has passed; all of it at its end. *)
Definition exact_interest (m : MTP) (rate : Dec) (pos len : Z) : Q :=
  (rate # Z.to_pos dec_one) * inject_Z (m.(Liabilities) + m.(InterestUnpaidCollateral))
  * (if 0 <? pos then inject_Z pos / inject_Z len else 1).

Lemma dec_f64_near (r : Dec) : 0 <= r →
  (dec_f64 r * inject_Z (2 ^ 53) <= (r # Z.to_pos dec_one) * inject_Z (2 ^ 53 + 1))%Q ∧
  ((r # Z.to_pos dec_one) * inject_Z (2 ^ 53 - 1) <= dec_f64 r * inject_Z (2 ^ 53))%Q ∧
  (0 <= dec_f64 r)%Q.
Proof.
  intros Hr. unfold dec_f64. set (q := (r # Z.to_pos dec_one)%Q).
  assert (0 <= q)%Q as Hq by (unfold q, Qle; simpl; lia).
  pose proof (f64_nonneg q Hq) as Hn. pose proof (f64_error q) as He.
  rewrite (Qabs_pos q Hq) in He.
  revert He Hn. generalize (f64 q). intros f He Hn.
  assert ((f - q) * inject_Z (2 ^ 53) <= q)%Q as H1.
  { eapply Qle_trans; [|exact He]. apply Qmult_le_compat_r; [apply Qle_Qabs|by vm_compute]. }
  assert ((q - f) * inject_Z (2 ^ 53) <= q)%Q as H2.
  { eapply Qle_trans; [|exact He]. apply Qmult_le_compat_r; [|by vm_compute].
    rewrite Qabs_Qminus. apply Qle_Qabs. }
  change (inject_Z (2 ^ 53)) with (9007199254740992 # 1)%Q in *.
  change (inject_Z (2 ^ 53 + 1)) with (9007199254740993 # 1)%Q.
  change (inject_Z (2 ^ 53 - 1)) with (9007199254740991 # 1)%Q.
  clearbody q. clear He. split; [|split; [|done]]; lra.
Qed.

Lemma CalcMTPInterestLiabilities_spec m rate pos len x :
  CalcMTPInterestLiabilities m rate pos len = Ok x → 0 <= rate → amounts_ok m →
  (0 < pos → 0 < len) →
  ∃ f, 0 <= f ∧
    x = (if (f + m.(InterestUnpaidCollateral) =? 0) && negb (rate =? 0) then 1
         else f + m.(InterestUnpaidCollateral)) ∧
    (inject_Z f * inject_Z (2 ^ 53) <= exact_interest m rate pos len * inject_Z (2 ^ 53 + 1))%Q ∧
    (exact_interest m rate pos len * inject_Z (2 ^ 53 - 1) < inject_Z (f + 1) * inject_Z (2 ^ 53))%Q.
Proof.
  unfold CalcMTPInterestLiabilities. intros H Hr (Hc & Hl & Hu) Hlen.
  destruct (dec_f64_near rate Hr) as (N1 & N2 & N3).
  set (c := (inject_Z (m.(Liabilities) + m.(InterestUnpaidCollateral))
    * (if 0 <? pos then inject_Z pos / inject_Z len else 1))%Q).
  assert (0 <= c)%Q as H0c.
  { unfold c. apply Qmult_le_0_compat; [unfold Qle; simpl; lia|].
    destruct (Z.ltb_spec 0 pos); [|by vm_compute]. specialize (Hlen ltac:(done)).
    apply Qle_shift_div_l; [unfold Qlt; simpl; lia|]. unfold Qle. simpl. lia. }
  apply rbind_ok in H as (q & Eq & H).
  assert (q == dec_f64 rate * c)%Q as Hq.
  { unfold c. destruct (0 <? pos).
    - apply rbind_ok in Eq as (k & Ek & Eq). simplify_eq. unfold rat_Quo in Ek.
      destruct (Qeq_bool _ 0); [done|]. simplify_eq. unfold rat_SetInt. ring.
    - simplify_eq. unfold rat_SetInt. ring. }
  apply rbind_ok in H as (n & En & H). apply uint_new_ok in En as [-> _].
  exists (rat_trunc q). rewrite Hq in *.
  destruct (rat_trunc_spec (dec_f64 rate * c)) as (T1 & T2 & T3); [by apply Qmult_le_0_compat|].
  split; [done|]. split; [by destruct (_ && _); simplify_eq|].
  assert (exact_interest m rate pos len == (rate # Z.to_pos dec_one) * c)%Q as ->
    by (unfold exact_interest, c; ring).
  apply (Qmult_le_compat_r _ _ c) in N1, N2; [|done..].
  change (inject_Z (2 ^ 53)) with (9007199254740992 # 1)%Q in *.
  change (inject_Z (2 ^ 53 + 1)) with (9007199254740993 # 1)%Q in *.
  change (inject_Z (2 ^ 53 - 1)) with (9007199254740991 # 1)%Q in *.
  revert T2 T3 N1 N2. generalize (inject_Z (rat_trunc (dec_f64 rate * c))).
  generalize (inject_Z (rat_trunc (dec_f64 rate * c) + 1)). generalize (dec_f64 rate). generalize c.
  generalize (rate # Z.to_pos dec_one)%Q. clear. intros r c f b a. nra.
Qed.
End interest.

(** ** The rate of a pool *)
Section rate.
Context {sdk : Sdk} {HL : SdkLaws sdk}.

Lemma dec_add_ok a b c : DecAdd a b = Ok c → c = a + b.
Proof. apply dec_add_inv. Qed.
Lemma dec_sub_ok a b c : DecSub a b = Ok c → c = a - b.
Proof. apply dec_sub_inv. Qed.

Lemma dec_neg_ok a c : DecMul a (NewDec (-1)) = Ok c → c = - a.
Proof. intros E%dec_mul_inv. unfold NewDec, dec_one in *. lia. Qed.

Lemma step_rate_bounds prev target up down r :
  step_rate prev target up down = Ok r → 0 <= up → 0 <= down →
  prev - down <= r <= prev + up ∧
  (r = target ∨ (target < r ∧ r = prev - down) ∨ (r < target ∧ r = prev + up)).
Proof.
  unfold step_rate. intros H Hu Hd. inv_ok.
  match goal with X : DecSub _ _ = _ |- _ => apply dec_sub_ok in X as -> end.
  match goal with X : DecMul _ _ = _ |- _ => apply dec_neg_ok in X as -> end.
  revert H. destruct (_ && _) eqn:E1.
  - apply andb_prop in E1 as [?%Z.leb_le ?%Z.leb_le]. intros [= <-]. lia.
  - apply andb_false_iff in E1. intros H. destruct (Z.ltb_spec up (target - prev)).
    + apply dec_add_ok in H as ->. lia.
    + inv_ok. match goal with X : DecMul _ _ = _ |- _ => apply dec_neg_ok in X as -> end.
      destruct (Z.ltb_spec (target - prev) (- down)).
      * apply dec_sub_ok in H as ->. lia.
      * rewrite !Z.leb_gt in E1. lia.
Qed.
Lemma clamp_rate_bounds r lo hi : lo <= hi →
  lo <= clamp_rate r lo hi <= hi ∧
  (lo <= r <= hi → clamp_rate r lo hi = r) ∧
  (∀ a b, a <= r <= b → a <= hi → lo <= b → a <= clamp_rate r lo hi <= b).
Proof.
  intros H. unfold clamp_rate.
  destruct (Z.ltb_spec lo r), (Z.ltb_spec r hi), (Z.leb_spec r lo), (Z.leb_spec hi r); simpl; (split; [lia|split; [lia|intros; lia]]).
Qed.
End rate.

(** Parameters a sane administrator sets. *)
Definition rate_params_ok (p : MarginTypes.Params) : Prop :=
  p.(InterestRateMin) <= p.(InterestRateMax) ∧ 0 <= p.(InterestRateIncrease) ∧
  0 <= p.(InterestRateDecrease).

(** The interest a position is charged: the part of the epoch that has passed (all of it at
    its end) of the rate times the debt, liabilities and unpaid interest, in the float64
    arithmetic of the code: within one unit and a relative error of 2^-53 of the exact product;
    to which the interest unpaid so far is added; and at least 1 when the rate is not zero. *)
Theorem interest_bounds `{HL : SdkLaws} (m : MTP) (rate : Dec) (pos len x : Z) :
  CalcMTPInterestLiabilities m rate pos len = Ok x → 0 <= rate → amounts_ok m →
  (0 < pos → 0 < len) →
  ∃ f, 0 <= f ∧
    x = (if (f + m.(InterestUnpaidCollateral) =? 0) && negb (rate =? 0) then 1
         else f + m.(InterestUnpaidCollateral)) ∧
    (inject_Z f * inject_Z (2 ^ 53) <= exact_interest m rate pos len * inject_Z (2 ^ 53 + 1))%Q ∧
    (exact_interest m rate pos len * inject_Z (2 ^ 53 - 1) < inject_Z (f + 1) * inject_Z (2 ^ 53))%Q.
Proof. apply CalcMTPInterestLiabilities_spec. Qed.

Definition some_mtp : MTP :=
  mkMTP "@bob" "cusdc" (10 ^ 18) (10 ^ 18) 0 0 5 "fury" (10 ^ 18) (2 * 10 ^ 18) (10 ^ 18) Position_LONG 1.
Lemma interest_bounds_witness :
  CalcMTPInterestLiabilities some_mtp (NewDecWithPrec 1 1) 3 10 = Ok 30000000000000006 ∧
  ∃ f, 0 <= f ∧
    30000000000000006 = (if (f + 5 =? 0) && negb (NewDecWithPrec 1 1 =? 0) then 1 else f + 5) ∧
    (inject_Z f * inject_Z (2 ^ 53) <= exact_interest some_mtp (NewDecWithPrec 1 1) 3 10 * inject_Z (2 ^ 53 + 1))%Q ∧
    (exact_interest some_mtp (NewDecWithPrec 1 1) 3 10 * inject_Z (2 ^ 53 - 1) < inject_Z (f + 1) * inject_Z (2 ^ 53))%Q.
Proof.
  assert (CalcMTPInterestLiabilities some_mtp (NewDecWithPrec 1 1) 3 10 = Ok 30000000000000006) as E
    by (vm_compute; reflexivity).
  split; [exact E|].
  apply (interest_bounds some_mtp (NewDecWithPrec 1 1) 3 10 30000000000000006 E); [done| |done].
  unfold amounts_ok; simpl; lia.
Defined.

Section computation.
Context {W : Type} {sdk : Sdk} {HL : SdkLaws sdk} {coins : CoinLib} {bank : BankKeeper W}
  {paginator : Paginator} {registry : TokenRegistryKeeper W} {clp : HasStore ClpStore W}
  {events : HasStore EventLog W} {margin : HasStore MarginStore W} {MW : MarginWorld W}
  {float : MarginFloat}.
Implicit Types w : W.

Lemma GetParams_read w p w' : Margin.GetParams w = (Ok p, w') → p = params_of (store w) ∧ w' = w.
Proof. intros H. by apply bind_ok in H as (s & w2 & [-> ->]%get_margin_ok & [<- <-]%ret_ok). Qed.
Lemma param_read {A} (f : MarginTypes.Params → A) w v w' :
  (p ← Margin.GetParams; mret (f p) : M W A) w = (Ok v, w') → v = f (params_of (store w)) ∧ w' = w.
Proof.
  intros H. apply bind_ok in H as (p & w1 & H1 & [<- <-]%ret_ok).
  by apply bind_ok in H1 as (s & w2 & [-> ->]%get_margin_ok & [<- <-]%ret_ok).
Qed.

Lemma InterestRateComputation_ok ctx pool w rate w' :
  InterestRateComputation ctx pool w = (Ok rate, w') →
  let p := params_of (store w) in
  ∃ target r sq, w' = w ∧ target_rate p.(HealthGainFactor) pool = Ok target ∧
    step_rate pool.(InterestRate) target p.(InterestRateIncrease) p.(InterestRateDecrease) = Ok r ∧
    GetSQFromBlocks ctx pool (clamp_rate r p.(InterestRateMin) p.(InterestRateMax)) w = (Ok sq, w) ∧
    rate = clamp_rate r p.(InterestRateMin) p.(InterestRateMax) + sq.
Proof.
  unfold InterestRateComputation. intros H.
  apply bind_ok in H as (hi & w1 & [-> ->]%(param_read InterestRateMax) & H).
  apply bind_ok in H as (lo & w1 & [-> ->]%(param_read InterestRateMin) & H).
  apply bind_ok in H as (up & w1 & [-> ->]%(param_read InterestRateIncrease) & H).
  apply bind_ok in H as (down & w1 & [-> ->]%(param_read InterestRateDecrease) & H).
  apply bind_ok in H as (gain & w1 & [-> ->]%(param_read HealthGainFactor) & H).
  apply bind_ok in H as (target & w1 & [Et ->]%lift_ok & H).
  apply bind_ok in H as (r & w1 & [Er ->]%lift_ok & H).
  apply bind_ok in H as (sq & w1 & Eq & [->%dec_add_ok ->]%lift_ok).
  pose proof Eq as ->%(readonly_ok _ _ _ _ (ro_GetSQFromBlocks _ _ _)).
  by exists target, r, sq.
Qed.
End computation.

(** The interest rate of a pool: the surcharge of the removal queue on top of a base rate
    that lies between the configured bounds, and that moved from the previous rate by at most
    one configured step, towards the target the pool's debt asks for: when neither a step nor a
    bound cuts it short, the base is the target. *)
Theorem interest_rate_moves {W : Type} `{HL : SdkLaws} `{MW : MarginWorld W} `{Paginator}
    `{TokenRegistryKeeper W} `{MarginFloat} (ctx : Ctx) (pool : Pool) (w w' : W) (rate : Dec) :
  InterestRateComputation ctx pool w = (Ok rate, w') → rate_params_ok (params_of (store w)) →
  let p := params_of (store w) in
  ∃ base surcharge target, w' = w ∧ rate = base + surcharge ∧
    GetSQFromBlocks ctx pool base w = (Ok surcharge, w) ∧
    target_rate p.(HealthGainFactor) pool = Ok target ∧
    p.(InterestRateMin) <= base <= p.(InterestRateMax) ∧
    (p.(InterestRateMin) <= pool.(InterestRate) <= p.(InterestRateMax) →
     pool.(InterestRate) - p.(InterestRateDecrease) <= base
       <= pool.(InterestRate) + p.(InterestRateIncrease)) ∧
    (pool.(InterestRate) - p.(InterestRateDecrease) <= target
       <= pool.(InterestRate) + p.(InterestRateIncrease) →
     p.(InterestRateMin) <= target <= p.(InterestRateMax) → base = target).
Proof.
  intros Hrun (Hlo & Hup & Hdown). cbv zeta.
  apply InterestRateComputation_ok in Hrun as (target & r & sq & -> & Et & Er & Eq & ->).
  apply step_rate_bounds in Er as [B1 B2]; [|done..].
  destruct (clamp_rate_bounds r _ _ Hlo) as (C1 & C2 & C3).
  eexists _, sq, target. split; [done|]. split; [done|]. split; [done|]. split; [done|].
  split; [done|]. split; [intros; apply C3; lia|].
  intros Ht Hb. assert (r = target) as -> by lia. by apply C2.
Qed.

Definition rate_world : World :=
  genesis <| w_margin := mkMarginStore ∅ None None None ∅ ∅ |>.
Definition indebted_pool : Pool :=
  mkPool cusdc (100 * ether) (200 * ether) (100 * ether) None None 0 (50 * ether) 0 0 0 OneDec
    (NewDec 1) 1 0 0 0 0.
Lemma interest_rate_moves_witness :
  InterestRateComputation (block 5) indebted_pool rate_world = (Ok 1100000000000000000, rate_world) ∧
  ∃ base surcharge target, rate_world = rate_world ∧ 1100000000000000000 = base + surcharge ∧
    GetSQFromBlocks (block 5) indebted_pool base rate_world = (Ok surcharge, rate_world) ∧
    target_rate (NewDec 1) indebted_pool = Ok target ∧
    NewDecWithPrec 5 3 <= base <= NewDec 3 ∧
    (NewDecWithPrec 5 3 <= NewDec 1 <= NewDec 3 →
     NewDec 1 - NewDecWithPrec 1 1 <= base <= NewDec 1 + NewDecWithPrec 1 1) ∧
    (NewDec 1 - NewDecWithPrec 1 1 <= target <= NewDec 1 + NewDecWithPrec 1 1 →
     NewDecWithPrec 5 3 <= target <= NewDec 3 → base = target).
Proof.
  assert (InterestRateComputation (block 5) indebted_pool rate_world
    = (Ok 1100000000000000000, rate_world)) as E by (vm_compute; reflexivity).
  split; [exact E|].
  apply (interest_rate_moves _ _ _ _ _ E). split; [|split]; by vm_compute.
Defined.

(** ** Keys *)

(** The bytes of a counter or id read back as that number, and the key of a position
    determines its owner and its id, whatever the owner's address is. *)
Theorem keys_and_counters (a b : string) (i j : Z) :
  0 <= i < 2 ^ 64 → 0 <= j < 2 ^ 64 →
  GetUint64FromBytes (GetUint64Bytes i) = Ok i ∧
  (GetMTPKey a i = GetMTPKey b j ↔ a = b ∧ i = j).
Proof.
  intros Hi Hj. split; [by apply GetUint64_bytes|]. split; [by apply GetMTPKey_inj|].
  by intros [-> ->].
Qed.
Lemma keys_and_counters_witness :
  GetUint64FromBytes (GetUint64Bytes 258) = Ok 258 ∧
  (GetMTPKey "alice" 258 = GetMTPKey "bob" 1 ↔ "alice" = "bob" ∧ 258 = 1).
Proof. apply keys_and_counters; lia. Defined.

(** ** Genesis *)
Definition forgotten (p : MarginTypes.Params) : MarginTypes.Params :=
  p <| ClosedPools := [] |> <| IncrementalInterestPaymentEnabled := false |>
    <| WhitelistingEnabled := false |>.
Definition same_fund (s s' : MarginTypes.Params) `{CoinLib} : Prop :=
  ∃ a b, AccAddressFromBech32 s.(ForceCloseFundAddress) = Ok a ∧
    AccAddressFromBech32 s.(IncrementalInterestPaymentFundAddress) = Ok b ∧
    s' = s <| ForceCloseFundAddress := AccString a |>
           <| IncrementalInterestPaymentFundAddress := AccString b |>.

(** A chain restarted from its exported genesis has the parameters it had, with the two fund
    addresses in canonical form, except that no pool is closed, interest is no longer paid in
    increments and whitelisting is off; the positions and the whitelist are those of the new
    chain, not of the exported one. *)
Theorem genesis_forgets {W : Type} `{HL : SdkLaws} `{MW : MarginWorld W} `{Paginator}
    `{TokenRegistryKeeper W} (w w1 w0 w' : W) (p : MarginTypes.Params) (u : unit) :
  Margin.ExportGenesis w = (Ok p, w1) → Margin.InitGenesis p w0 = (Ok u, w') →
  w1 = w ∧ same_fund (forgotten (params_of (store w))) (params_of (store w')) ∧
  (store w').(ms_MTPs) = (store (S := MarginStore) w0).(ms_MTPs) ∧
  (store w').(ms_Whitelist) = (store (S := MarginStore) w0).(ms_Whitelist).
Proof.
  intros He Hi. unfold Margin.ExportGenesis in He.
  apply bind_ok in He as (q & w2 & Eq & He). apply GetParams_read in Eq as [-> ->].
  apply bind_ok in He as (a & w2 & Ea & He). apply bind_ok in Ea as (q & w3 & [-> ->]%GetParams_read & Ea).
  apply lift_ok in Ea as [Ea ->].
  apply bind_ok in He as (b & w2 & Eb & He). apply bind_ok in Eb as (q & w3 & [-> ->]%GetParams_read & Eb).
  apply lift_ok in Eb as [Eb ->]. apply ret_ok in He as [<- <-].
  unfold Margin.InitGenesis, Margin.SetParams in Hi. apply bind_ok in Hi as ([] & w2 & [_ ->]%lift_ok & Hi).
  apply upd_margin_ok in Hi as ->. rewrite margin_put_margin. split; [done|]. split; [|done].
  exists a, b. split; [|split; [|done]].
  - unfold must in Ea. simpl. by destruct (AccAddressFromBech32 (ForceCloseFundAddress _)); simplify_eq.
  - unfold must in Eb. simpl. by destruct (AccAddressFromBech32 (IncrementalInterestPaymentFundAddress _)); simplify_eq.
Qed.
Lemma genesis_forgets_witness :
  let p := MarginTypes.DefaultParams <| ForceCloseFundAddress := "@fund" |>
    <| IncrementalInterestPaymentFundAddress := "@fund" |> <| ClosedPools := ["cusdc"] |> in
  let w := rate_world <| w_margin ::= λ s, s <| ms_Params := Some p |> |> in
  let w' := rate_world <| w_margin ::= λ s, s <| ms_Params := Some (forgotten p) |> |> in
  w = w ∧ same_fund (forgotten (params_of (store w))) (params_of (store w')) ∧
  (store w').(ms_MTPs) = (store (S := MarginStore) rate_world).(ms_MTPs) ∧
  (store w').(ms_Whitelist) = (store (S := MarginStore) rate_world).(ms_Whitelist).
Proof. cbv zeta. eapply genesis_forgets; vm_compute; reflexivity. Defined.
