(* ===== verification/ClpPolicySpec.v ===== *)
(** * ClpPolicySpec: liquidity protection and ratio shifting

    The protection threshold is a counter between zero and its maximum for every message but
    one; the begin blocker replenishes it, and halts the chain once that message has set it too
    high.  A ratio-shifting policy runs its counters down over its window and ends. *)

From S2P Require Import Prelude Sdk SdkRef Rat Bank Keepers Admin Registry ClpTypes ClpMath.
From S2P Require Import ClpKeeper.
From S2P Require Import ClpPolicy ClpRewards ClpLiquidity ClpMsgs ClpServer ClpModule World.
From S2P Require Import ClpStoreSpec ClpUnits ClpExec ClpSettings ClpEffects Scenario ClpParams.
Local Open Scope Z_scope.

(** ** Liquidity protection *)

(** What the threshold's code assumes throughout. *)
Definition threshold (s : ClpStore) : Z := s.(cs_LiquidityProtectionRateParams).(CurrentFuryLiquidityThreshold).
Definition max_threshold (s : ClpStore) : Z := s.(cs_LiquidityProtectionParams).(MaxFuryLiquidityThreshold).
Definition threshold_ok (s : ClpStore) : Prop :=
  0 <= threshold s <= max_threshold s ∧ max_threshold s < 2 ^ 256.
Definition set_threshold (t : Z) (s : ClpStore) : ClpStore :=
  s <| cs_LiquidityProtectionRateParams := mkLiquidityProtectionRateParams t |>.

Definition protection (s : ClpStore) : LiquidityProtectionParams * LiquidityProtectionRateParams :=
  (s.(cs_LiquidityProtectionParams), s.(cs_LiquidityProtectionRateParams)).
#[export] Instance protection_setting : Setting protection.
Proof. done. Qed.
#[export] Instance protection_queue_free : QueueFree protection.
Proof. done. Qed.

(** The abstract counter: sales take from it, purchases and blocks refill it. *)
Definition take (t v : Z) : option Z := if t <? v then None else Some (t - v).
Definition refill (m t v : Z) : Z := Z.min m (t + v).

Section threshold.
Context {W : Type} {sdk : Sdk} {HL : SdkLaws sdk} {coins : CoinLib} {bank : BankKeeper W}
  {paginator : Paginator} {registry : TokenRegistryKeeper W} {admin : AdminKeeper W}
  {margin : MarginKeeper W} {mint : MintKeeper W} {errs : SdkErrors}
  {clp : HasStore ClpStore W} {events : HasStore EventLog W} {CW : ClpWorld W}
  {pf : PolicyFloat}.
Implicit Types w : W.
Notation clp_of w := (store (S := ClpStore) w).

Lemma CalcFuryValue_nonneg n p v : CalcFuryValue n p = Ok v → 0 <= v.
Proof. unfold CalcFuryValue. intros H. inv_sdk. lia. Qed.

Lemma set_threshold_run t w :
  SetLiquidityProtectionCurrentFuryLiquidityThreshold t w
  = (Ok tt, put_store (set_threshold t (clp_of w)) w).
Proof. done. Qed.

(** The room below the maximum, in the way the code avoids an overflow. *)
Lemma refill_run w (m t v : Z) :
  0 <= t <= m → m < 2 ^ 256 → 0 <= v →
  (if m - t <? v then mret m else lift (UintAdd t v)) w = (Ok (refill m t v), w).
Proof.
  intros Ht Hm Hv. unfold refill. destruct (Z.ltb_spec (m - t) v).
  - by rewrite Z.min_l by lia.
  - unfold lift. rewrite uint_add, checked_uint_total by lia. by rewrite Z.min_r by lia.
Qed.
Lemma room_run w (m t : Z) : 0 <= t <= m → m < 2 ^ 256 → lift (UintSub m t) w = (Ok (m - t), w).
Proof. intros. unfold lift. by rewrite uint_sub, checked_uint_total by lia. Qed.

Lemma MustUpdate_run sell n p w v :
  threshold_ok (clp_of w) → CalcFuryValue n p = Ok v →
  MustUpdateLiquidityProtectionThreshold sell n p w =
  if (clp_of w).(cs_LiquidityProtectionParams).(IsActive) then
    match (if sell then take (threshold (clp_of w)) v
           else Some (refill (max_threshold (clp_of w)) (threshold (clp_of w)) v)) with
    | Some t => (Ok tt, put_store (set_threshold t (clp_of w)) w)
    | None => (Panic, w)
    end
  else (Ok tt, w).
Proof.
  intros [Ht Hm] Hv. pose proof (CalcFuryValue_nonneg _ _ _ Hv).
  unfold MustUpdateLiquidityProtectionThreshold.
  change ((GetLiquidityProtectionParams ≫= ?f) w) with (f (clp_of w).(cs_LiquidityProtectionParams) w).
  cbv beta zeta. change ((GetLiquidityProtectionRateParams ≫= ?f) w)
    with (f (clp_of w).(cs_LiquidityProtectionRateParams) w).
  cbv beta zeta. destruct (IsActive _); [|done].
  change ((lift ?r ≫= ?f) w) with (match r with Ok a => f a w | Err e => (Err e, w) | Panic => (Panic, w) end).
  rewrite Hv. fold (threshold (clp_of w)) (max_threshold (clp_of w)). destruct sell.
  - unfold take. destruct (Z.ltb_spec (threshold (clp_of w)) v); [done|].
    change ((lift ?r ≫= ?f) w) with (match r with Ok a => f a w | Err e => (Err e, w) | Panic => (Panic, w) end).
    rewrite uint_sub, checked_uint_total by lia. apply set_threshold_run.
  - erewrite bind_run; [apply set_threshold_run|].
    rewrite (bind_run _ _ _ _ _ (room_run _ _ _ ltac:(eassumption) ltac:(eassumption))).
    by apply refill_run.
Qed.

(** The begin blocker's part: nothing, the refill by [max / epoch], or a panic. *)
Lemma replenish_run w :
  let p := (clp_of w).(cs_LiquidityProtectionParams) in
  let m := max_threshold (clp_of w) in
  let t := threshold (clp_of w) in
  0 <= m < 2 ^ 256 → 0 <= t → 0 < p.(EpochLength) →
  replenish_threshold w =
  if p.(IsActive) then
    if m <? t then (Panic, w)
    else (Ok tt, put_store (set_threshold (refill m t (m / p.(EpochLength))) (clp_of w)) w)
  else (Ok tt, w).
Proof.
  intros p m t Hm Ht He. unfold replenish_threshold.
  change ((GetLiquidityProtectionParams ≫= ?f) w) with (f p w).
  cbv beta zeta. destruct (IsActive p); [|done].
  change ((GetLiquidityProtectionRateParams ≫= ?f) w)
    with (f (clp_of w).(cs_LiquidityProtectionRateParams) w).
  cbv beta zeta. fold (threshold (clp_of w)). change (MaxFuryLiquidityThreshold p) with m. fold t.
  assert (0 <= m / EpochLength p <= m) as Hq.
  { split; [apply Z.div_pos; lia|]. apply Z.div_le_upper_bound; nia. }
  erewrite bind_run with (a := m / EpochLength p) (w1 := w).
  2:{ unfold lift. rewrite uint_quo, (proj2 (Z.eqb_neq _ _)) by lia.
      by rewrite Z.quot_div_nonneg, checked_uint_total by lia. }
  destruct (Z.ltb_spec m t).
  - unfold mbind, M_bind, lift. rewrite uint_sub. unfold checked_uint.
    by rewrite (proj2 (Z.leb_gt 0 _)) by lia.
  - rewrite (bind_run _ _ _ _ _ (room_run w m t ltac:(lia) ltac:(lia))).
    rewrite (bind_run _ _ _ _ _ (refill_run w m t _ ltac:(lia) ltac:(lia) (proj1 Hq))).
    apply set_threshold_run.
Qed.

Lemma threshold_set t s : 0 <= t <= max_threshold s → threshold_ok s → threshold_ok (set_threshold t s).
Proof. intros Ht [_ Hm]. split; done. Qed.
Lemma refill_bounds m t v : 0 <= t <= m → 0 <= v → 0 <= refill m t v <= m.
Proof. unfold refill. lia. Qed.

(** ** The invariant through the messages *)
Notation kept := (maintains (λ w, threshold_ok (clp_of w))).

Lemma kept_view {A} (m : M W A) : preserves (view protection) m → kept m.
Proof.
  apply maintains_preserves. intros w w' E. unfold view, protection in E.
  unfold threshold_ok, threshold, max_threshold. by injection E as -> ->.
Qed.
Lemma kept_MustUpdate sell n p : kept (MustUpdateLiquidityProtectionThreshold sell n p).
Proof.
  intros w Hok. destruct (CalcFuryValue n p) as [v|e|] eqn:Ev.
  - rewrite (MustUpdate_run sell n p w v Hok Ev). destruct (IsActive _); [|done].
    pose proof (CalcFuryValue_nonneg _ _ _ Ev). pose proof Hok as [Ht Hm].
    destruct sell.
    + unfold take. destruct (Z.ltb_spec (threshold (clp_of w)) v); [done|].
      simpl. rewrite clp_put_clp. apply threshold_set; [lia|done].
    + simpl. rewrite clp_put_clp. apply threshold_set; [by apply refill_bounds|done].
  - unfold MustUpdateLiquidityProtectionThreshold, mbind, M_bind, lift. simpl. rewrite Ev. by case_match.
  - unfold MustUpdateLiquidityProtectionThreshold, mbind, M_bind, lift. simpl. rewrite Ev. by case_match.
Qed.

Ltac walk_kept :=
  repeat match goal with
  | |- kept (mbind _ _) => apply maintains_bind; [|intros ?]
  | |- kept (match ?c with _ => _ end) => destruct c
  | |- kept (MustUpdateLiquidityProtectionThreshold _ _ _) => apply kept_MustUpdate
  end; try (apply kept_view; solve [eauto 20 with frame nocore]).

Lemma kept_add_checks n e st s nd ed p f1 f2 :
  kept (add_liquidity_swap_checks n e st s nd ed p f1 f2).
Proof. unfold add_liquidity_swap_checks, when_set. walk_kept. Qed.
Lemma kept_AddLiquidity m : kept (AddLiquidity_handler m).
Proof. unfold AddLiquidity_handler. walk_kept; apply kept_add_checks. Qed.
Lemma kept_Swap m : kept (Swap m).
Proof. unfold Swap, swap_protection, when_set. walk_kept. Qed.

(** The two messages of the protection itself. *)
Definition sound_threshold_msg (s : ClpStore) (m : ClpMsg) : Prop :=
  match m with
  | AMsgUpdateLiquidityProtectionParams m => 0 <= m.(ulp_MaxFuryLiquidityThreshold) < 2 ^ 256
  | AMsgModifyLiquidityProtectionRates m => 0 <= m.(mlr_CurrentFuryLiquidityThreshold) <= max_threshold s
  | _ => True
  end.

Lemma after_admin {A} (P : W → Prop) t signer (k : M W A) w :
  P w → P (k w).2 → P ((_ ← require_admin t signer; k) w).2.
Proof.
  intros Hw Hk. unfold mbind, M_bind. pose proof (ro_require_admin t signer w) as Hro.
  by destruct (require_admin t signer w) as [[[]|e|] w1]; simpl in Hro; subst.
Qed.

Context {MQ : MintQuiet W}.
Lemma kept_message ctx m w :
  sound_threshold_msg (clp_of w) m → threshold_ok (clp_of w) →
  threshold_ok (clp_of (NewHandler ctx m w).2).
Proof.
  intros Hm. destruct m; simpl in *.
  - by apply kept_view, view_CreatePool_handler.
  - by apply kept_view, view_DecommissionPool_handler.
  - apply kept_AddLiquidity.
  - by apply kept_view, view_RemoveLiquidity_handler.
  - by apply kept_view, view_RemoveLiquidityUnits.
  - apply kept_Swap.
  - apply kept_view. unfold ModifyPmtpRates, SetPmtpParams, SetPmtpEpoch, SetPmtpInterPolicyRate,
      SetPmtpRateParams. solve_frame.
  - apply kept_view. unfold UpdatePmtpParams, SetPmtpParams. solve_frame.
  - by apply kept_view, view_CancelUnlock.
  - by apply kept_view, view_UnlockLiquidity.
  - apply kept_view. unfold UpdateRewardsParams, SetRewardParams. solve_frame.
  - apply kept_view. unfold AddRewardPeriod, SetRewardParams. solve_frame.
  - apply kept_view. unfold UpdateStakingRewardParams. solve_frame.
  - intros Hok. unfold UpdateLiquidityProtectionParams.
    apply (after_admin (λ w, threshold_ok (clp_of w))); [done|].
    unfold EmitEvents, upd_store, mbind, M_bind, modify. simpl. world_simpl.
    unfold threshold_ok, threshold, max_threshold. simpl. lia.
  - intros Hok. unfold ModifyLiquidityProtectionRates.
    apply (after_admin (λ w, threshold_ok (clp_of w))); [done|].
    unfold EmitEvents, upd_store, mbind, M_bind, modify. simpl. world_simpl.
    by apply threshold_set.
  - apply kept_view. unfold AddProviderDistributionPeriod, SetProviderDistributionParams. solve_frame.
  - apply kept_view. unfold UpdateSwapFeeParams, SetSwapFeeParams. solve_frame.
  - done.
Qed.

Lemma replenish_keeps w :
  threshold_ok (clp_of w) → 0 < (clp_of w).(cs_LiquidityProtectionParams).(EpochLength) →
  ∃ w', replenish_threshold w = (Ok tt, w') ∧ threshold_ok (clp_of w').
Proof.
  intros Hok He. pose proof Hok as [Ht Hm]. rewrite replenish_run by lia. destruct (IsActive _); [|eauto].
  rewrite (proj2 (Z.ltb_ge _ _)) by lia. eexists. split; [done|]. rewrite clp_put_clp.
  apply threshold_set; [|done]. apply refill_bounds; [lia|]. apply Z.div_pos; lia.
Qed.
End threshold.

(** C22: the protection threshold stays between zero and its maximum through every message,
    however it ends, except an administrator's [ModifyLiquidityProtectionRates] above the
    maximum; while it does, the begin blocker's refill never panics and keeps it there. *)
Theorem threshold_always {W : Type} `{HL : SdkLaws} `{CW : ClpWorld W} `{Paginator}
    `{TokenRegistryKeeper W} `{AdminKeeper W} `{MarginKeeper W} `{MintKeeper W} `{SdkErrors}
    `{!MintQuiet W} (ctx : Ctx) (m : ClpMsg) (w : W) :
  threshold_ok (store w) → sound_threshold_msg (store w) m →
  let w1 := (NewHandler ctx m w).2 in
  threshold_ok (store w1) ∧
  (0 < (store (S := ClpStore) w1).(cs_LiquidityProtectionParams).(EpochLength) →
   ∃ w2, replenish_threshold w1 = (Ok tt, w2) ∧ threshold_ok (store w2)).
Proof.
  intros Hok Hm w1. assert (threshold_ok (store w1)) by (by apply kept_message).
  split; [done|]. by apply replenish_keeps.
Qed.

(** C23: one update of the threshold: selling takes the value sold from it and panics when it
    exceeds what is left; buying refills it, at most to the maximum; nothing happens while the
    protection is off. *)
Theorem MustUpdateLiquidityProtectionThreshold_spec {W : Type} `{HL : SdkLaws} `{HasStore ClpStore W}
    (sell : bool) (n : Uint) (p : Dec) (w : W) (v : Z) :
  threshold_ok (store w) → CalcFuryValue n p = Ok v →
  let s := store (S := ClpStore) w in
  MustUpdateLiquidityProtectionThreshold sell n p w =
  if s.(cs_LiquidityProtectionParams).(IsActive) then
    match (if sell then take (threshold s) v else Some (refill (max_threshold s) (threshold s) v)) with
    | Some t => (Ok tt, put_store (set_threshold t s) w)
    | None => (Panic, w)
    end
  else (Ok tt, w).
Proof. intros. by apply MustUpdate_run. Qed.

(** C24: an administrator's message that passes its stateless checks and succeeds can stop the
    chain: [ModifyLiquidityProtectionRates] does not compare the new threshold with the
    maximum, and the next begin blocker subtracts it from the maximum and panics. *)
Theorem ModifyLiquidityProtectionRates_halts {W : Type} `{HL : SdkLaws} `{CW : ClpWorld W} `{Paginator}
    `{TokenRegistryKeeper W} `{AdminKeeper W} `{MarginKeeper W} `{MintKeeper W} `{SdkErrors}
    `{PolicyFloat} (ctx : Ctx) (m : MsgModifyLiquidityProtectionRates) (a : AccAddress) (w : W) :
  let p := (store (S := ClpStore) w).(cs_LiquidityProtectionParams) in
  AccAddressFromBech32 m.(mlr_Signer) = Ok a → Keepers.IsAdminAccount w AdminType_CLPDEX a = true →
  p.(IsActive) = true → 0 < p.(EpochLength) →
  0 <= p.(MaxFuryLiquidityThreshold) < 2 ^ 256 →
  p.(MaxFuryLiquidityThreshold) < m.(mlr_CurrentFuryLiquidityThreshold) →
  MsgModifyLiquidityProtectionRates_ValidateBasic m = Ok tt ∧
  ∃ w', ModifyLiquidityProtectionRates m w = (Ok tt, w') ∧ BeginBlocker ctx w' = (Panic, w').
Proof.
  intros p Ea Had Hact He Hm Hlt. split.
  { unfold MsgModifyLiquidityProtectionRates_ValidateBasic. by rewrite Ea. }
  unfold ModifyLiquidityProtectionRates, require_admin, IsAdminAccountM.
  unfold mbind, M_bind, lift, gets. rewrite Ea, Had.
  unfold EmitEvents, upd_store, modify. simpl. eexists. split; [done|].
  unfold BeginBlocker. unfold mbind at 1, M_bind at 1.
  rewrite replenish_run; rewrite !clp_put_events, !clp_put_clp; unfold max_threshold, threshold; simpl;
    fold p; try lia.
  by rewrite Hact, (proj2 (Z.ltb_lt _ _)).
Qed.

(** A chain with an active protection, its threshold at 400 of 1000. *)
Definition protected : World :=
  genesis <| w_clp := clp_genesis
    <| cs_LiquidityProtectionParams := mkLiquidityProtectionParams 1000 "fury" 10 true |>
    <| cs_LiquidityProtectionRateParams := mkLiquidityProtectionRateParams 400 |> |>.
Definition raise (t : Z) : ClpMsg :=
  AMsgModifyLiquidityProtectionRates (mkMsgModifyLiquidityProtectionRates "@admin" t).

Lemma threshold_always_witness :
  let w1 := (NewHandler (block 10) (raise 950) protected).2 in
  threshold_ok (store w1) ∧
  (0 < (store (S := ClpStore) w1).(cs_LiquidityProtectionParams).(EpochLength) →
   ∃ w2, replenish_threshold w1 = (Ok tt, w2) ∧ threshold_ok (store w2)).
Proof. apply threshold_always; by vm_compute. Defined.

Lemma MustUpdateLiquidityProtectionThreshold_spec_witness :
  MustUpdateLiquidityProtectionThreshold true 300 OneDec protected
  = (Ok tt, put_store (set_threshold 100 protected.(w_clp)) protected).
Proof.
  rewrite (MustUpdateLiquidityProtectionThreshold_spec true 300 OneDec protected 300);
    [reflexivity|by vm_compute|by vm_compute].
Defined.

Lemma ModifyLiquidityProtectionRates_halts_witness :
  let m := mkMsgModifyLiquidityProtectionRates "@admin" 1001 in
  MsgModifyLiquidityProtectionRates_ValidateBasic m = Ok tt ∧
  ∃ w', ModifyLiquidityProtectionRates m protected = (Ok tt, w') ∧
    BeginBlocker (block 11) w' = (Panic, w').
Proof.
  apply (ModifyLiquidityProtectionRates_halts (block 11) _ "admin" protected); try by vm_compute.
Defined.
