(* ===== verification/ClpQuerySpec.v ===== *)
(** * ClpQuerySpec: what the queries of x/clp answer

    The estimate of an add is what the add does, the balances shown to a provider are what leaving
    pays, the pages of a listing are the whole listing, and no query changes the chain. *)

From S2P Require Import Prelude Sdk SdkRef Rat Bank Keepers Admin Registry ClpTypes ClpMath.
From S2P Require Import ClpKeeper Pages ClpPolicy ClpRewards ClpLiquidity ClpMsgs ClpServer.
From S2P Require Import ClpModule.
From S2P Require Import ClpQuery.
From S2P Require Import World ClpMathSpec ClpStoreSpec ClpUnits ClpExec ClpSettings ClpEffects.
From S2P Require Import ClpParams Scenario ClpUnitsSpec ClpBalanceSpec.
Local Open Scope Z_scope.

Section spec.
Context {W : Type} {sdk : Sdk} {HL : SdkLaws sdk} {coins : CoinLib} {bank : BankKeeper W}
  {paginator : Paginator} {registry : TokenRegistryKeeper W} {admin : AdminKeeper W}
  {margin : MarginKeeper W} {mint : MintKeeper W} {errs : SdkErrors}
  {clp : HasStore ClpStore W} {events : HasStore EventLog W} {CW : ClpWorld W}
  {pages : Pages} {json : ClpJson}.
Implicit Types w : W.
Notation clp_of w := (store (S := ClpStore) w).

(** ** Queries read *)
Lemma ro_paged {A} (r : res A) : readonly (paged (W := W) r).
Proof. unfold paged. solve_frame. Qed.
Lemma ro_pagination p : readonly (pagination_or_default (W := W) p).
Proof. unfold pagination_or_default. solve_frame. Qed.
Lemma ro_not_nil {A} (o : option A) : readonly (not_nil (W := W) o).
Proof. unfold not_nil. solve_frame. Qed.
Lemma ro_assets a l : readonly (GetAssetsForLiquidityProviderPaginated (W := W) a l).
Proof. unfold GetAssetsForLiquidityProviderPaginated. solve_frame. Qed.
#[local] Hint Resolve ro_paged ro_pagination ro_not_nil ro_assets : frame.
Lemma ro_provider_data a x : readonly (provider_data (W := W) a x).
Proof. unfold provider_data. solve_frame. Qed.
#[local] Hint Resolve ro_provider_data : frame.
Lemma ro_NewQuerier ctx path data : readonly (NewQuerier (W := W) ctx path data).
Proof.
  unfold NewQuerier. destruct path as [|p path]; [solve_frame|].
  repeat match goal with |- context [if ?b then _ else _] => destruct b end;
    unfold queryPool, queryPools, queryLiquidityProvider, queryLiquidityProviderData, queryAssetList,
      queryLPList, queryAllLP, queryParams, queryRewardParams, queryPmtpParams, GetPool_query,
      GetPools_query, GetLiquidityProvider_query, GetLiquidityProviderData_query, GetAssetList_query,
      GetLiquidityProviderList_query, GetLiquidityProviders_query, GetPmtpParams_query, GetParams_query,
      GetRewardParams_query, GetPoolsPaginated, GetAllLiquidityProvidersPaginated,
      LiquidityProvidersForAssetPage, GetSymmetryThreshold, GetSymmetryRatio, ClpKeeper.GetParams,
      unmarshal, marshal; solve_frame.
Qed.

(** ** The estimate of an add *)
(** What the estimate and the message compute first: the units of an add. *)
Definition add_units (asset : Asset) (n e : Uint) : M W (Uint * Uint * SwapStatus * option Uint) :=
  pool ← wrap_err ErrPoolDoesNotExist (GetPool asset.(Symbol));
  rates ← GetPmtpRateParams;
  sellNativeSwapFeeRate ← GetSwapFeeRate GetSettlementAsset false;
  buyNativeSwapFeeRate ← GetSwapFeeRate asset false;
  '(nativeAssetDepth, externalAssetDepth) ←
    lift (ExtractDebt pool pool.(NativeAssetBalance) pool.(ExternalAssetBalance) false);
  lift (CalculatePoolUnits pool.(PoolUnits) nativeAssetDepth externalAssetDepth n e
          sellNativeSwapFeeRate buyNativeSwapFeeRate rates.(PmtpCurrentRunningRate)).
Lemma add_units_run asset n e w pool rates f1 f2 nd ed r :
  (clp_of w).(cs_Pools) !! pool_key asset.(Symbol) = Some pool →
  GetPmtpRateParams w = (Ok rates, w) → GetSwapFeeRate GetSettlementAsset false w = (Ok f1, w) →
  GetSwapFeeRate asset false w = (Ok f2, w) →
  UintAdd pool.(NativeAssetBalance) pool.(NativeLiabilities) = Ok nd →
  UintAdd pool.(ExternalAssetBalance) pool.(ExternalLiabilities) = Ok ed →
  CalculatePoolUnits pool.(PoolUnits) nd ed n e f1 f2 rates.(PmtpCurrentRunningRate) = Ok r →
  add_units asset n e w = (Ok r, w).
Proof.
  intros Hp Hr H1 H2 Hn He Hc. unfold add_units.
  rewrite (bind_run _ _ w pool w) by (unfold wrap_err, on_err; by rewrite (proj2 (GetPool_ok _ _ _ _) (conj eq_refl Hp))).
  rewrite (bind_run _ _ _ _ _ Hr), (bind_run _ _ _ _ _ H1), (bind_run _ _ _ _ _ H2).
  rewrite (bind_run _ _ w (nd, ed) w) by (unfold lift, ExtractDebt; by rewrite Hn; simpl; rewrite He).
  unfold lift. by rewrite Hc.
Qed.
Lemma estimate_units req res w w' : GetPoolShareEstimate req w = (Ok res, w') →
  w' = w ∧ ∃ asset nu lu st, req.(per_ExternalAsset) = Some asset ∧
    add_units asset req.(per_NativeAssetAmount) req.(per_ExternalAssetAmount) w
    = (Ok (nu, lu, st, res.(pes_SwapInfo).(si_Amount)), w) ∧
    DecQuo (NewDec lu) (NewDec nu) = Ok res.(pes_Percentage).
Proof.
  unfold GetPoolShareEstimate. destruct (per_ExternalAsset req) as [asset|]; [|done]. intros H.
  inv_exec. split; [done|]. do 4 eexists. split; [done|]. split; [by eapply add_units_run|done].
Qed.
Lemma handler_units msg w u w' : AddLiquidity_handler msg w = (Ok u, w') → queue_off (clp_of w) →
  ∃ addr pool nu lu st sa s,
    add_units msg.(al_ExternalAsset) msg.(al_NativeAssetAmount) msg.(al_ExternalAssetAmount) w
    = (Ok (nu, lu, st, sa), w) ∧
    AccAddressFromBech32 msg.(al_Signer) = Ok addr ∧
    (clp_of w).(cs_Pools) !! pool_key msg.(al_ExternalAsset).(Symbol) = Some pool ∧
    same_books s (clp_of w) ∧
    let lp := provider_after_add s msg addr lu in
    (Asset_Validate lp.(LPAsset) = Ok true →
     same_books (clp_of w') (set_lp lp (set_pool (added_pool pool nu msg.(al_NativeAssetAmount)
       msg.(al_ExternalAssetAmount)) s))).
Proof.
  unfold AddLiquidity_handler. intros H Hq. inv_exec.
  match goal with Hc : add_liquidity_swap_checks _ _ _ _ _ _ _ _ _ ?w = (Ok _, ?w') |- _ =>
    eapply quiet_ok in Hc as [Hb _]; [|apply quiet_add_liquidity_swap_checks] end.
  match goal with Ha : AddLiquidity _ _ _ _ ?w1 = (Ok _, ?w2), Hi : IsRemovalQueueEnabled _ = _ |- _ =>
    pose proof (preserves_ok _ _ _ _ _ (view_AddLiquidity cs_Params _ _ _ _) Ha) as Hpar;
    apply AddLiquidity_ok in Ha as (addr & Ea & _ & _ & _ & -> & _ & _ & Hset);
    assert (a11 = false) as -> by (apply same_books_split in Hb as (_ & _ & Hb); unfold view in Hpar;
      unfold queue_off in Hq; unfold IsRemovalQueueEnabled in Hi; inv_clp; world_simpl; congruence) end.
  rewrite orb_true_r in H. inv_clp. do 6 eexists. exists (clp_of w0).
  split; [by eapply add_units_run|]. split; [done|]. split; [done|]. split; [done|]. intros V.
  world_simpl. by rewrite (Hset V).
Qed.

(** ** What a provider has *)
Lemma provider_shown ctx req res w w' :
  GetLiquidityProvider_query ctx (Some req) w = (Ok res, w') → w' = w ∧ ∃ lp pool nd ed n e left sa,
    (clp_of w).(cs_LPs) !! GetLiquidityProviderKey req.(lpr_Symbol) req.(lpr_LpAddress) = Some lp ∧
    (clp_of w).(cs_Pools) !! pool_key req.(lpr_Symbol) = Some pool ∧
    UintAdd pool.(NativeAssetBalance) pool.(NativeLiabilities) = Ok nd ∧
    UintAdd pool.(ExternalAssetBalance) pool.(ExternalLiabilities) = Ok ed ∧
    CalculateWithdrawal pool.(PoolUnits) (UintString nd) (UintString ed)
      (UintString lp.(LiquidityProviderUnits)) (IntString MaxWbasis) 0 = Ok (n, e, left, sa) ∧
    res.(lps_NativeAssetBalance) = UintString n ∧ res.(lps_ExternalAssetBalance) = UintString e ∧
    res.(lps_LiquidityProvider) = lp.
Proof.
  unfold GetLiquidityProvider_query, not_nil, CalculateAllAssetsForLP. intros H. inv_exec.
  split; [done|]. by do 8 eexists.
Qed.

(** ** Pages *)
Context {PL : PagesLaws pages paginator}.
Lemma GetPools_page ctx w page p : page.(pg_Limit) <= MaxPageLimit →
  Paginate (prefix_store (String PoolPrefix "") (clp_of w).(cs_Pools)) page = Ok p →
  GetPools_query ctx (Some (mkPoolsReq (Some page))) w
  = (Ok (mkPoolsRes p.1 ctx.(BlockHeight) (AccString GetCLPModuleAddress) p.2), w).
Proof.
  intros Hl Hp. unfold GetPools_query, not_nil, pagination_or_default, GetPoolsPaginated, throw_if.
  unfold paged, wrap_err, on_err, lift, get_clp, get_store, gets, mbind, M_bind, mret, M_ret.
  cbn [psr_Pagination]. cbv beta iota zeta. destruct (Z.gtb_spec page.(pg_Limit) MaxPageLimit); [lia|].
  rewrite Hp. by destruct p.
Qed.
End spec.

(** C36: Estimating an add gives the share that adding then gives: with the numbers the estimate
    answers, the message that adds these amounts gives its signer units whose quotient by the new
    units of the pool is the percentage of the estimate. *)
Theorem GetPoolShareEstimate_agrees {W : Type} `{HL : SdkLaws} `{CW : ClpWorld W} `{Paginator}
    `{TokenRegistryKeeper W} `{AdminKeeper W} `{MarginKeeper W} `{MintKeeper W} `{SdkErrors}
    (msg : MsgAddLiquidity) (res : PoolShareEstimateRes) (w w0 w' : W) :
  GetPoolShareEstimate (mkPoolShareEstimateReq (Some msg.(al_ExternalAsset)) msg.(al_NativeAssetAmount)
    msg.(al_ExternalAssetAmount)) w = (Ok res, w0) →
  AddLiquidity_handler msg w = (Ok tt, w') → queue_off (store w) →
  w0 = w ∧ ∃ addr pool newUnits lpUnits s,
    AccAddressFromBech32 msg.(al_Signer) = Ok addr ∧
    (store w).(cs_Pools) !! pool_key msg.(al_ExternalAsset).(Symbol) = Some pool ∧
    DecQuo (NewDec lpUnits) (NewDec newUnits) = Ok res.(pes_Percentage) ∧
    same_books s (store w) ∧
    let lp := provider_after_add s msg addr lpUnits in
    (Asset_Validate lp.(LPAsset) = Ok true →
     same_books (store w') (set_lp lp (set_pool (added_pool pool newUnits msg.(al_NativeAssetAmount)
       msg.(al_ExternalAssetAmount)) s))).
Proof.
  intros He Ha Hq. apply estimate_units in He as (-> & asset & nu & lu & st & [= <-] & Hu & Hd).
  destruct (handler_units msg w tt w' Ha Hq) as (addr & pool & nu' & lu' & st' & sa & s & Hu' & Ea & Ep & Hs & Hb).
  simpl in Hu. rewrite Hu in Hu'. injection Hu' as <- <- _ _. split; [done|]. by exists addr, pool, nu, lu, s.
Qed.

(** C37: The balances shown for a provider are what leaving pays: if the provider then removes all of
    its liquidity, the module account pays exactly these amounts of the two assets to it. *)
Theorem GetLiquidityProvider_pays {W : Type} `{HL : SdkLaws} `{CW : ClpWorld W} `{Paginator}
    `{TokenRegistryKeeper W} `{AdminKeeper W} `{MarginKeeper W} `{MintKeeper W} `{SdkErrors}
    (qctx ctx : Ctx) (msg : MsgRemoveLiquidity) (res : LiquidityProviderRes) (w w0 w' : W) :
  GetLiquidityProvider_query qctx
    (Some (mkLiquidityProviderReq msg.(rl_ExternalAsset).(Symbol) msg.(rl_Signer))) w = (Ok res, w0) →
  msg.(rl_WBasisPoints) = MaxWbasis → RemoveLiquidity_handler ctx msg w = (Ok tt, w') →
  w0 = w ∧ ∃ addr n e, AccAddressFromBech32 res.(lps_LiquidityProvider).(LiquidityProviderAddress) = Ok addr ∧
    res.(lps_NativeAssetBalance) = UintString n ∧ res.(lps_ExternalAssetBalance) = UintString e ∧
    moved GetCLPModuleAddress addr (pair_amount msg.(rl_ExternalAsset).(Symbol) e n) w w'.
Proof.
  intros Hq Hw Hr.
  apply leaving_pays in Hr as (lp & pool & nd & ed & addr & n & e & left & sa & El & Ep & En & Ee & Ec & Ea & Hm).
  apply provider_shown in Hq as (-> & lp' & pool' & nd' & ed' & n' & e' & left' & sa' & El' & Ep' & En' & Ee' & Ec' & Hn & He & ->).
  simpl in *. split; [done|]. exists addr, n, e. rewrite Hw in Ec.
  assert (lp' = lp) as -> by congruence. assert (pool' = pool) as -> by congruence.
  assert (nd' = nd) as -> by congruence. assert (ed' = ed) as -> by congruence.
  rewrite Ec in Ec'. injection Ec' as <- <- _ _. done.
Qed.

Lemma pool_prefix (s : ClpStore) : store_wf s →
  ∀ k p, s.(cs_Pools) !! k = Some p → ∃ rest, k = String PoolPrefix "" +:+ rest.
Proof. intros Hw k p ->%(pools_keyed _ Hw). by eexists. Qed.
(** The pools of one page and the key of the next. *)
Definition ask_pools {W : Type} `{CW : ClpWorld W} `{Pages} (ctx : Ctx) (w : W) (page : PageRequest)
    : res (list Pool * string) :=
  (λ res, (res.(pss_Pools), res.(pss_Pagination).(NextKey)))
    <$> (GetPools_query ctx (Some (mkPoolsReq (Some page))) w).1.
(** A client that walks the pools page by page, with any limit the chain accepts, each time from
    the key it was given, sees every pool exactly once, in the order of the keys. *)
Theorem GetPools_walk {W : Type} `{HL : SdkLaws} `{CW : ClpWorld W} `{PL : PagesLaws}
    (ctx : Ctx) (limit : Z) (w : W) : 0 < limit <= MaxPageLimit → store_wf (store w) →
  pages_walked (ask_pools ctx w) limit "" (kv_values (store (S := ClpStore) w).(cs_Pools)).
Proof.
  intros Hl Hw. rewrite <- (prefix_store_values _ _ (pool_prefix _ Hw)).
  apply walk_all; [by apply prefix_store_nodup|unfold MaxPageLimit in *; lia| |].
  - apply Forall_forall. intros [k p] Hin%prefix_store_key%(pools_keyed _ Hw) Hk0. simpl in Hk0. subst k.
    injection Hin as Hk. by destruct (Symbol _).
  - intros key p He. unfold ask_pools. rewrite (GetPools_page _ _ _ p) by (done || apply Hl). done.
Qed.

(** ** Witnesses *)
Definition with_pool : World := deliver (block 10) genesis alice_creates.
Lemma with_pool_units : units_ok (store (S := ClpStore) with_pool).
Proof.
  eapply (message_units (block 10) alice_creates genesis); [vm_compute; reflexivity|apply alice_may_create|by left|apply genesis_units].
Qed.
Lemma GetPools_walk_witness :
  pages_walked (ask_pools (block 10) with_pool) 1 "" (kv_values (store (S := ClpStore) with_pool).(cs_Pools)).
Proof.
  assert (0 < 1 <= MaxPageLimit) as Hl by (unfold MaxPageLimit; lia).
  exact (GetPools_walk (block 10) 1 with_pool Hl (proj1 with_pool_units)).
Defined.
Definition bob_adds_cusdc : MsgAddLiquidity := mkMsgAddLiquidity "@bob" cusdc (10 * ether) (20 * ether).
Definition bob_estimate : res PoolShareEstimateRes * World :=
  GetPoolShareEstimate (mkPoolShareEstimateReq (Some cusdc) (10 * ether) (20 * ether)) with_pool.
Lemma GetPoolShareEstimate_agrees_witness : ∃ res newUnits lpUnits,
  bob_estimate.1 = Ok res ∧ DecQuo (NewDec lpUnits) (NewDec newUnits) = Ok res.(pes_Percentage).
Proof.
  destruct bob_estimate as [[res| |] w0] eqn:E; [|by apply (f_equal fst) in E; vm_compute in E..].
  destruct (AddLiquidity_handler bob_adds_cusdc with_pool) as [[[]| |] w'] eqn:Ea;
    [|by apply (f_equal fst) in Ea; vm_compute in Ea..].
  destruct (GetPoolShareEstimate_agrees bob_adds_cusdc res with_pool w0 w' E Ea eq_refl)
    as (_ & addr & pool & nu & lu & s & _ & _ & Hd & _).
  exists res, nu, lu. split; [done|exact Hd].
Defined.
Definition with_two : World := deliver (block 10) with_pool bob_adds.
Definition bob_leaves : MsgRemoveLiquidity := mkMsgRemoveLiquidity "@bob" cusdc 10000 0.
Lemma GetLiquidityProvider_pays_witness : ∃ res w' addr n e,
  (GetLiquidityProvider_query (block 10) (Some (mkLiquidityProviderReq "cusdc" "@bob")) with_two).1 = Ok res ∧
  RemoveLiquidity_handler (block 10) bob_leaves with_two = (Ok tt, w') ∧
  res.(lps_NativeAssetBalance) = UintString n ∧
  moved GetCLPModuleAddress addr (pair_amount "cusdc" e n) with_two w'.
Proof.
  destruct (GetLiquidityProvider_query (block 10) (Some (mkLiquidityProviderReq "cusdc" "@bob")) with_two)
    as [[res| |] w0] eqn:E; [|by apply (f_equal fst) in E; vm_compute in E..].
  destruct (RemoveLiquidity_handler (block 10) bob_leaves with_two) as [[[]| |] w'] eqn:Er;
    [|by apply (f_equal fst) in Er; vm_compute in Er..].
  destruct (GetLiquidityProvider_pays (block 10) (block 10) bob_leaves res with_two w0 w' E eq_refl Er)
    as (_ & addr & n & e & _ & Hn & _ & Hm).
  exists res, w', addr, n, e. split; [done|]. split; [done|]. split; [exact Hn|exact Hm].
Defined.
