(* ===== verification/MarginQuerySpec.v ===== *)
(** * MarginQuerySpec: what the queries of x/margin answer

    The pages of the open positions are all of them, as many as the status says; the pages of an
    address are its positions; a page of a pool with an offset is always empty. *)

From S2P Require Import MarginTypes Margin MarginServer.
From S2P Require Import Prelude Sdk SdkRef Rat Float Bank Keepers Admin Registry ClpTypes ClpMath.
From S2P Require Import ClpKeeper Pages ClpPolicy ClpRewards ClpLiquidity ClpMsgs ClpServer.
From S2P Require Import ClpModule.
From S2P Require Import ClpQuery MarginQuery World ClpMathSpec ClpStoreSpec ClpUnits ClpExec.
From S2P Require Import ClpSettings.
From S2P Require Import ClpEffects MarginExec MarginEffects MarginInv MarginBlock Scenario.
From S2P Require Import MarginSpec.
Local Open Scope Z_scope.

Section spec.
Context {W : Type} {sdk : Sdk} {HL : SdkLaws sdk} {coins : CoinLib} {bank : BankKeeper W}
  {paginator : Paginator} {pages : Pages} {PL : PagesLaws pages paginator}
  {registry : TokenRegistryKeeper W} {clp : HasStore ClpStore W} {events : HasStore EventLog W}
  {margin : HasStore MarginStore W} {MW : MarginWorld W} {float : MarginFloat}.
Implicit Types w : W.
Notation margin_of w := (store (S := MarginStore) w).

Lemma mtp_prefix s : positions_ok s →
  ∀ k m, s.(ms_MTPs) !! k = Some m → ∃ rest, k = String MTPPrefix "" +:+ rest.
Proof. intros Hp k m E. destruct (po_stored _ Hp _ _ E) as (-> & _). by eexists. Qed.

(** The positions of one page and the key of the next. *)
Definition ask_positions w (page : PageRequest) : res (list MTP * string) :=
  (λ res, (res.(pr_Mtps), res.(pr_Pagination).(NextKey)))
    <$> (GetPositions (mkPositionsRequest (Some page)) w).1.
Lemma GetPositions_page w page p : page.(pg_Limit) <= MaxPageLimit →
  Paginate (prefix_store (String MTPPrefix "") (margin_of w).(ms_MTPs)) page = Ok p →
  GetPositions (mkPositionsRequest (Some page)) w = (Ok (mkPositionsResponse p.1 p.2), w).
Proof.
  intros Hl Hp. unfold GetPositions, limit_checked, GetMTPs, throw_if, page_or, lift, get_margin, get_store,
    gets, mbind, M_bind, mret, M_ret. cbn [po_Pagination]. cbv beta iota zeta.
  destruct (Z.gtb_spec page.(pg_Limit) MaxPageLimit); [lia|]. rewrite Hp. by destruct p.
Qed.
Lemma GetStatus_counts w : positions_ok (margin_of w) → ∃ opened,
  GetStatus w = (Ok (mkStatusResponse (Z.of_nat (length (kv_values (margin_of w).(ms_MTPs)))) opened), w) ∧
  Z.of_nat (length (kv_values (margin_of w).(ms_MTPs))) <= opened.
Proof.
  intros Hp. destruct (po_counts _ Hp) as (n & En & _ & Eo & Hle & _).
  assert (length (kv_values (margin_of w).(ms_MTPs)) = size (margin_of w).(ms_MTPs)) as ->.
  { unfold kv_values. by rewrite length_fmap, (Permutation_length (kv_iter_perm _)), length_map_to_list. }
  exists n. split; [|done].
  unfold GetStatus, GetOpenMTPCount, GetMTPCount, lift, get_margin, get_store, gets, mbind, M_bind, mret, M_ret.
  cbv beta iota zeta. unfold mtp_count, open_count in *. by rewrite Eo, En.
Qed.
(** A key is longer than its prefix by the eight bytes of the id. *)
Lemma rest_nonempty a m : (String.length a <= String.length m.(MarginTypes.Address))%nat →
  String MTPPrefix a +:+ "" ≠ mtp_key m.
Proof.
  intros Hl E. apply (f_equal String.length) in E. unfold mtp_key, GetMTPKey in E.
  rewrite string_length_app in E. simpl in E. rewrite string_length_app in E. simpl in E. lia.
Qed.
Lemma positions_walk w limit : 0 < limit <= MaxPageLimit → positions_ok (margin_of w) →
  pages_walked (ask_positions w) limit "" (kv_values (margin_of w).(ms_MTPs)).
Proof.
  intros Hl Hp. rewrite <- (prefix_store_values _ _ (mtp_prefix _ Hp)).
  apply walk_all; [by apply prefix_store_nodup|unfold MaxPageLimit in *; lia| |].
  - apply Forall_forall. intros [k m] Hin%prefix_store_key Hk. simpl in Hk. subst k.
    apply (rest_nonempty "" m); [simpl; lia|]. apply (po_stored _ Hp _ _ Hin).
  - intros key p He. unfold ask_positions. rewrite (GetPositions_page _ _ p) by (done || apply Hl). done.
Qed.

(** The positions of one page of an address. *)
Definition ask_own (address : string) w (page : PageRequest) : res (list MTP * string) :=
  (λ res, (res.(pr_Mtps), res.(pr_Pagination).(NextKey)))
    <$> (GetPositionsForAddress (mkPositionsForAddressRequest address (Some page)) w).1.
Definition own_positions (addr : AccAddress) (s : MarginStore) : list MTP :=
  filter (λ m, m.(MarginTypes.Address) = AccString addr) (kv_values s.(ms_MTPs)).
Lemma own_page address addr w page p : page.(pg_Limit) <= MaxPageLimit →
  AccAddressFromBech32 address = Ok addr →
  Paginate (prefix_store (GetMTPPrefixForAddress (AccString addr)) (margin_of w).(ms_MTPs)) page = Ok p →
  ask_own address w page = Ok (shown p).
Proof.
  intros Hl Ha Hp. unfold ask_own, GetPositionsForAddress, GetMTPsForAddress, throw_if, page_or, lift, get_margin,
    get_store, gets, mbind, M_bind, mret, M_ret. cbn [pa_Pagination pa_Address]. cbv beta iota zeta.
  rewrite Ha. cbv beta iota zeta. destruct (Z.gtb_spec page.(pg_Limit) MaxPageLimit); [lia|].
  rewrite Hp. by destruct p.
Qed.
Lemma own_prefix a b id : String.length b = String.length a →
  String.prefix (GetMTPPrefixForAddress a) (GetMTPKey b id) = true ↔ b = a.
Proof.
  intros Hl. unfold GetMTPPrefixForAddress, GetMTPKey. split; [|intros ->; apply (prefix_app_self (String MTPPrefix a))].
  intros [rest E]%prefix_inv. injection E as E. revert b Hl E.
  induction a as [|x a IH]; intros [|y b] Hl E; simpl in *; try done. injection E as -> E. f_equal. apply IH; [lia|done].
Qed.
(** Where all addresses are of one length, the prefix of one selects its positions. *)
Lemma own_entries addr s : positions_ok s →
  (∀ k m, s.(ms_MTPs) !! k = Some m → String.length m.(MarginTypes.Address) = String.length (AccString addr)) →
  (prefix_store (GetMTPPrefixForAddress (AccString addr)) s.(ms_MTPs)).*2 = own_positions addr s.
Proof.
  intros Hp Hl.
  assert ((prefix_store (GetMTPPrefixForAddress (AccString addr)) s.(ms_MTPs)).*2
    = (filter (λ e : string * MTP, String.prefix (GetMTPPrefixForAddress (AccString addr)) e.1 = true)
         (kv_iter s.(ms_MTPs))).*2) as ->.
  { rewrite prefix_store_entries, <- list_fmap_compose. by apply list_fmap_ext. }
  unfold own_positions, kv_values.
  assert (∀ k m, (k, m) ∈ kv_iter s.(ms_MTPs) → k = mtp_key m ∧
    String.length m.(MarginTypes.Address) = String.length (AccString addr)) as H.
  { intros k m Hin%elem_of_kv_iter. split; [by destruct (po_stored _ Hp _ _ Hin)|by eapply Hl]. }
  induction (kv_iter s.(ms_MTPs)) as [|[k m] l IH]; [done|].
  destruct (H k m ltac:(left)) as [-> Hm]. pose proof (own_prefix _ _ m.(Id) Hm) as He.
  csimpl. rewrite !filter_cons. simpl. rewrite <- IH by (intros; apply H; by right).
  unfold mtp_key in *. by do 2 case_decide; [|tauto..|].
Qed.
Lemma own_walk address addr w limit : 0 < limit <= MaxPageLimit → positions_ok (margin_of w) →
  AccAddressFromBech32 address = Ok addr →
  (∀ k m, (margin_of w).(ms_MTPs) !! k = Some m →
     String.length m.(MarginTypes.Address) = String.length (AccString addr)) →
  pages_walked (ask_own address w) limit "" (own_positions addr (margin_of w)).
Proof.
  intros Hl Hp Ha Hs. rewrite <- (own_entries _ _ Hp Hs).
  apply walk_all; [by apply prefix_store_nodup|unfold MaxPageLimit in *; lia| |].
  - apply Forall_forall. intros [k m] Hin%prefix_store_key Hk. simpl in Hk. subst k.
    apply (rest_nonempty (AccString addr) m); [by rewrite (Hs _ _ Hin)|]. apply (po_stored _ Hp _ _ Hin).
  - intros key p He. by apply own_page with addr; [apply Hl| |].
Qed.

(** ** Pages of a pool *)
Lemma no_hit asset (calls : list (MTP * bool)) : (∀ before m after, calls = before ++ (m, true) :: after →
    0 < Z.of_nat (length (filter (λ c, of_pool asset c.1 c.2 = true) before))) →
  taken (of_pool asset) calls = [].
Proof.
  intros H. assert (filter (λ c, of_pool asset c.1 c.2 = true) calls = []) as E.
  { induction calls as [|[m a] calls IH] using rev_ind; [done|].
    assert (filter (λ c, of_pool asset c.1 c.2 = true) calls = []) as E.
    { apply IH. intros before m' after ->. apply (H before m' (after ++ [(m, a)])). by rewrite <- app_assoc. }
    rewrite filter_app, E, filter_cons. case_decide as Ea; [|done].
    simpl in Ea. unfold of_pool in Ea. apply andb_true_iff in Ea as [-> _].
    specialize (H calls m [] eq_refl). rewrite E in H. simpl in H. lia. }
  unfold taken. assert (∀ l : list (MTP * bool), filter (λ c, of_pool asset c.1 c.2 = true) l = [] →
    filter (λ c, c.2 && of_pool asset c.1 c.2 = true) l = []) as Hsub.
  { intros l. induction l as [|[m a] l IH]; [done|]. rewrite !filter_cons. simpl.
    case_decide as Ea; [done|]. intros. rewrite decide_False; [by apply IH|]. by intros [_ ?]%andb_true_iff. }
  by rewrite Hsub.
Qed.
End spec.

(** C38: A client that walks the open positions page by page sees every position exactly once, as many
    as the status says are open; and walking the pages of an address it sees exactly the positions of
    this address, where all addresses are written with one length. *)
Theorem positions_shown {W : Type} `{HL : SdkLaws} `{MW : MarginWorld W} `{PL : PagesLaws}
    `{TokenRegistryKeeper W} `{MarginFloat} (limit : Z) (address : string) (addr : AccAddress) (w : W) :
  let s := store (S := MarginStore) w in
  0 < limit <= MaxPageLimit → positions_ok s → AccAddressFromBech32 address = Ok addr →
  (∀ k m, s.(ms_MTPs) !! k = Some m →
     String.length m.(MarginTypes.Address) = String.length (AccString addr)) →
  pages_walked (ask_positions w) limit "" (kv_values s.(ms_MTPs)) ∧
  pages_walked (ask_own address w) limit "" (own_positions addr s) ∧
  ∃ opened, GetStatus w = (Ok (mkStatusResponse (Z.of_nat (length (kv_values s.(ms_MTPs)))) opened), w).
Proof.
  cbv zeta. intros Hl Hp Ha Hs. split; [by apply positions_walk|]. split; [by apply own_walk|].
  destruct (GetStatus_counts w Hp) as (opened & E & _). by exists opened.
Qed.

(** A page of the positions of a pool that begins at an offset is empty: the callback counts a
    position as a hit only when the page takes it, and the page takes none before as many hits as
    the offset. *)
Theorem GetPositionsByPool_offset {W : Type} `{HL : SdkLaws} `{MW : MarginWorld W} `{PL : PagesLaws}
    `{TokenRegistryKeeper W} `{MarginFloat} (asset : string) (page : PageRequest) (res : PositionsResponse)
    (w w' : W) :
  page.(pg_Key) = "" → 0 < page.(pg_Offset) →
  GetPositionsByPool (mkPositionsByPoolRequest asset (Some page)) w = (Ok res, w') →
  res.(pr_Mtps) = [].
Proof.
  intros Hk Ho Hr. unfold GetPositionsByPool, GetMTPsForPool_page, page_or in Hr. cbn [pp_Pagination pp_Asset] in Hr.
  inv_exec. simpl. apply no_hit. intros before m after ->.
  match goal with E : FilteredCalls _ _ _ = _ |- _ =>
    pose proof (filtered_offset _ _ _ _ _ _ _ _ Hk E eq_refl) end. lia.
Qed.

(** ** Witnesses *)
Definition with_position : World := margin_deliver (block 2) margin_genesis bob_opens.
Lemma with_position_ok : positions_ok (store with_position).
Proof.
  apply (run_positions margin_genesis); [|apply margin_genesis_positions].
  apply (run_message _ (block 2) bob_opens margin_genesis); [constructor|by apply margin_delivered; vm_compute].
Qed.
Lemma with_position_addresses k m : (store (S := MarginStore) with_position).(ms_MTPs) !! k = Some m →
  String.length m.(MarginTypes.Address) = 4%nat.
Proof.
  intros E. assert (m ∈ kv_values (store (S := MarginStore) with_position).(ms_MTPs)) as Hin.
  { apply elem_of_kv_values. by exists k. }
  assert (forallb (λ m, String.length m.(MarginTypes.Address) =? 4)%nat
            (kv_values (store (S := MarginStore) with_position).(ms_MTPs)) = true) as El by (vm_compute; reflexivity).
  apply Nat.eqb_eq. exact (proj1 (forallb_forall _ _) El m (proj1 (list_elem_of_In _ _) Hin)).
Qed.
Lemma positions_shown_witness : ∃ opened, GetStatus with_position = (Ok (mkStatusResponse 1 opened), with_position).
Proof.
  assert (0 < 1 <= MaxPageLimit) as Hl by (unfold MaxPageLimit; lia).
  assert (AccAddressFromBech32 "@bob" = Ok "bob") as Ha by (vm_compute; reflexivity).
  destruct (positions_shown 1 "@bob" "bob" with_position Hl with_position_ok Ha with_position_addresses) as (_ & _ & opened & E).
  exists opened. assert (length (kv_values (store (S := MarginStore) with_position).(ms_MTPs)) = 1%nat) as El
    by (vm_compute; reflexivity).
  rewrite El in E. exact E.
Defined.
Lemma GetPositionsByPool_offset_witness :
  (∃ res w', GetPositionsByPool (mkPositionsByPoolRequest "cusdc" (Some (limit_page 10))) with_position
     = (Ok res, w') ∧ length res.(pr_Mtps) = 1%nat) ∧
  ∃ res w', GetPositionsByPool (mkPositionsByPoolRequest "cusdc" (Some (mkPageRequest "" 1 10 false false)))
     with_position = (Ok res, w') ∧ res.(pr_Mtps) = [].
Proof.
  split.
  - destruct (GetPositionsByPool (mkPositionsByPoolRequest "cusdc" (Some (limit_page 10))) with_position)
      as [[res| |] w'] eqn:E; [|by apply (f_equal fst) in E; vm_compute in E..].
    exists res, w'. split; [done|]. apply (f_equal fst) in E. vm_compute in E. by injection E as <-.
  - destruct (GetPositionsByPool (mkPositionsByPoolRequest "cusdc" (Some (mkPageRequest "" 1 10 false false)))
      with_position) as [[res| |] w'] eqn:E; [|by apply (f_equal fst) in E; vm_compute in E..].
    exists res, w'. split; [done|].
    exact (GetPositionsByPool_offset "cusdc" (mkPageRequest "" 1 10 false false) res with_position w'
      eq_refl eq_refl E).
Defined.
