(* ===== verification/PmtpSpec.v ===== *)
(** * PmtpSpec: a ratio-shifting policy runs its counters down over its window

    [BeginBlocker] starts a policy at its first block, compounds the running rate once per
    block, counts blocks and epochs down, and at the last block resets the counters and keeps
    the rate for the time until the next policy. *)

From S2P Require Import Prelude Sdk SdkRef Rat Bank Keepers Admin Registry ClpTypes ClpMath.
From S2P Require Import ClpKeeper.
From S2P Require Import ClpPolicy ClpRewards ClpLiquidity ClpMsgs ClpServer ClpModule World.
From S2P Require Import ClpStoreSpec ClpUnits ClpExec ClpSettings ClpEffects Scenario.
Local Open Scope Z_scope.

(** The part of the store a policy uses. *)
Definition pmtp_state (s : ClpStore) : PmtpParams * PmtpEpoch * PmtpRateParams :=
  (s.(cs_PmtpParams), s.(cs_PmtpEpoch), s.(cs_PmtpRateParams)).
#[export] Instance pmtp_setting : Setting pmtp_state.
Proof. done. Qed.
#[export] Instance pmtp_queue_free : QueueFree pmtp_state.
Proof. done. Qed.

(** A well-formed policy: [n] epochs of [len] blocks from block [start] on. *)
Definition policy (p : PmtpParams) (start len n : Z) : Prop :=
  p.(PmtpPeriodStartBlock) = start ∧ p.(PmtpPeriodEpochLength) = len ∧
  p.(PmtpPeriodEndBlock) = start + n * len - 1 ∧
  0 <= start ∧ 0 < len ∧ 0 < n ∧ start + n * len < 2 ^ 63.

(** The counters after [k] blocks of the window. *)
Definition counters (len n k : Z) : PmtpEpoch :=
  if (k =? 0) || (k =? n * len) then mkPmtpEpoch 0 0
  else mkPmtpEpoch (n - k / len) (len - k mod len).

Section pmtp.
Context {W : Type} {sdk : Sdk} {HL : SdkLaws sdk} {coins : CoinLib} {bank : BankKeeper W}
  {paginator : Paginator} {registry : TokenRegistryKeeper W} {admin : AdminKeeper W}
  {margin : MarginKeeper W} {mint : MintKeeper W} {errs : SdkErrors}
  {clp : HasStore ClpStore W} {events : HasStore EventLog W} {CW : ClpWorld W}
  {pf : PolicyFloat}.
Implicit Types w : W.
Notation clp_of w := (store (S := ClpStore) w).
Notation pm w := (pmtp_state (clp_of w)).

(** [begin_blocks h k]: the begin blockers of [k] blocks from height [h] on. *)
Fixpoint begin_blocks (h : Z) (k : nat) : M W unit :=
  match k with
  | O => mret tt
  | S k => _ ← BeginBlocker (mkCtx h ""); begin_blocks (h + 1) k
  end.

(** The rate after [k] blocks at [block_rate] from [inter]. *)
Definition compounded (block_rate inter : Dec) (k : Z) (rate : Dec) : Prop :=
  ∃ power, DecPower (NewDec 1 + block_rate) k = Ok power ∧ rate = power - NewDec 1 + inter.

(** What holds after [k] blocks of the window. *)
Definition policy_at (len n : Z) (p0 : PmtpParams) (r0 : PmtpRateParams) (k : Z)
    (st : PmtpParams * PmtpEpoch * PmtpRateParams) : Prop :=
  let '(p, e, r) := st in
  p = p0 ∧ e = counters len n k ∧
  (k = 0 → r = r0) ∧
  (0 < k → compounded r.(PmtpPeriodBlockRate) r0.(PmtpInterPolicyRate) k r.(PmtpCurrentRunningRate)) ∧
  r.(PmtpInterPolicyRate)
    = (if k =? n * len then r.(PmtpCurrentRunningRate) else r0.(PmtpInterPolicyRate)).

Lemma pm_events (l : EventLog) w : pm (put_store l w) = pm w.
Proof. by rewrite clp_put_events. Qed.

Lemma view_replenish : preserves (view pmtp_state) (replenish_threshold (W := W)).
Proof.
  unfold replenish_threshold, SetLiquidityProtectionCurrentFuryLiquidityThreshold,
    SetLiquidityProtectionRateParams. solve_frame.
Qed.
Lemma view_PolicyRun r : preserves (view pmtp_state) (PolicyRun (W := W) r).
Proof. unfold PolicyRun, PolicyRun_pool. solve_frame. Qed.

Ltac unfold_pmtp := unfold SetPmtpCurrentRunningRate, SetPmtpBlockRate, SetPmtpInterPolicyRate,
  DecrementPmtpBlockCounter, DecrementPmtpEpochCounter, SetPmtpBlockCounter, SetPmtpEpoch,
  SetPmtpRateParams, GetPmtpParams, GetPmtpEpoch, GetPmtpRateParams in *.

(** The setters of the counters. *)
Lemma dec_block_run w : DecrementPmtpBlockCounter w
  = (Ok tt, put_store (clp_of w <| cs_PmtpEpoch ::= λ e, e <| BlockCounter := int64 (e.(BlockCounter) - 1) |> |>) w).
Proof. done. Qed.
Lemma dec_epoch_run w : DecrementPmtpEpochCounter w
  = (Ok tt, put_store (clp_of w <| cs_PmtpEpoch ::= λ e, e <| EpochCounter := int64 (e.(EpochCounter) - 1) |> |>) w).
Proof. done. Qed.
Lemma set_block_run n w : SetPmtpBlockCounter n w
  = (Ok tt, put_store (clp_of w <| cs_PmtpEpoch ::= λ e, e <| BlockCounter := n |> |>) w).
Proof. done. Qed.
Lemma set_epoch_run e w : SetPmtpEpoch e w = (Ok tt, put_store (clp_of w <| cs_PmtpEpoch := e |>) w).
Proof. done. Qed.
Lemma set_inter_run x w : SetPmtpInterPolicyRate x w
  = (Ok tt, put_store (clp_of w <| cs_PmtpRateParams ::= λ r, r <| PmtpInterPolicyRate := x |> |>) w).
Proof. done. Qed.
Lemma get_params_run w : GetPmtpParams w = (Ok (clp_of w).(cs_PmtpParams), w).
Proof. done. Qed.
Lemma get_epoch_run w : GetPmtpEpoch w = (Ok (clp_of w).(cs_PmtpEpoch), w).
Proof. done. Qed.
Lemma get_rates_run w : GetPmtpRateParams w = (Ok (clp_of w).(cs_PmtpRateParams), w).
Proof. done. Qed.

(** The phases of [run_policy_counters]. *)
Lemma PolicyStart_ok w u w' start len n p e r :
  PolicyStart w = (Ok u, w') → pm w = (p, e, r) → policy p start len n →
  ∃ rate, pm w' = (p, mkPmtpEpoch n len, r <| PmtpPeriodBlockRate := rate |>).
Proof.
  unfold PolicyStart. unfold_pmtp. intros H Hpm (Hs & Hlen & He & Hp).
  unfold pmtp_state in *. simplify_eq. inv_clp. world_simpl. simpl.
  set (p := cs_PmtpParams (clp_of w)) in *. set (start := PmtpPeriodStartBlock p) in *.
  set (len := PmtpPeriodEpochLength p) in *. rewrite He in *. unfold quo_s in *. rewrite (proj2 (Z.eqb_neq _ 0)) in * by lia. inv_ok.
  assert (0 < n * len) by nia. assert (n <= n * len) by nia.
  replace (start + n * len - 1 - start) with (n * len - 1) by lia.
  rewrite (int64_id (n * len - 1)) by lia. replace (n * len - 1 + 1) with (n * len) by lia.
  rewrite (int64_id (n * len)), Z.quot_mul, wrap_s_id by lia. eauto.
Qed.

Lemma PolicyCalculations_ok ctx w x w' start len n p e r k :
  PolicyCalculations ctx w = (Ok x, w') → pm w = (p, e, r) → policy p start len n →
  ctx.(BlockHeight) = start + k → 0 <= k < n * len →
  pm w' = (p, e, r <| PmtpCurrentRunningRate := x |>) ∧
  compounded r.(PmtpPeriodBlockRate) r.(PmtpInterPolicyRate) (k + 1) x.
Proof.
  unfold PolicyCalculations. unfold_pmtp. intros H Hpm (Hs & Hlen & He & Hp) Hh Hk.
  unfold pmtp_state in *. simplify_eq. inv_clp. inv_sdk. world_simpl. simpl.
  split; [done|]. rewrite Hh in *.
  match goal with Hd : DecPower _ ?q = Ok _ |- _ => assert (q = k + 1) as Eq end.
  { rewrite (int64_id (_ - _)), int64_id, uint64_id; lia. }
  rewrite Eq in *. eexists. split; [done|]. lia.
Qed.

Lemma succ_div_mod k len : 0 < len → 0 <= k →
  if len - k mod len - 1 =? 0 then (k + 1) / len = k / len + 1 ∧ (k + 1) mod len = 0
  else (k + 1) / len = k / len ∧ (k + 1) mod len = k mod len + 1.
Proof.
  intros Hl Hk. pose proof (Z.div_mod k len) as Hd. pose proof (Z.mod_pos_bound k len Hl) as Hb.
  destruct (Z.eqb_spec (len - k mod len - 1) 0) as [E|E].
  - assert (k + 1 = (k / len + 1) * len) as -> by lia.
    split; [by apply Z.div_mul; lia|by apply Z.mod_mul; lia].
  - split; symmetry; [eapply Z.div_unique with (r := k mod len + 1)
                     |eapply Z.mod_unique with (q := k / len)]; lia.
Qed.

Notation left len n k := (mkPmtpEpoch (n - k / len) (len - k mod len)).

(** The start of the policy at the first block. *)
Lemma phase_start {A} (ev : M W A) ctx w u w' start len n p0 r0 k :
  (if (ctx.(BlockHeight) =? start) && ((clp_of w).(cs_PmtpEpoch).(EpochCounter) =? 0)
      && ((clp_of w).(cs_PmtpEpoch).(BlockCounter) =? 0)
   then _ ← PolicyStart; EmitEvent "policy_start" else mret tt) w = (Ok u, w') →
  policy p0 start len n → policy_at len n p0 r0 k (pm w) →
  ctx.(BlockHeight) = start + k → 0 <= k < n * len →
  ∃ r, pm w' = (p0, left len n k, r) ∧ r.(PmtpInterPolicyRate) = r0.(PmtpInterPolicyRate).
Proof.
  intros H Hp Hat Hh Hk. destruct (pm w) as [[p e] r] eqn:Epm. pose proof Epm as Epm'.
  unfold pmtp_state in Epm'. injection Epm' as E1 E2 E3. rewrite E2 in H. clear E1 E2 E3.
  destruct Hat as (-> & -> & _ & _ & Hi).
  rewrite (proj2 (Z.eqb_neq k (n * len))) in Hi by lia. rewrite Hh in H. destruct (Z.eq_dec k 0) as [->|Hk0].
  - rewrite Z.add_0_r, Z.eqb_refl in H. unfold counters in H. simpl in H.
    inv_clp. rewrite pm_events.
    match goal with Hs : PolicyStart _ = (Ok _, _) |- _ =>
      destruct (PolicyStart_ok _ _ _ _ _ _ _ _ _ Hs Epm Hp) as [rate ->] end.
    destruct Hp as (_ & _ & _ & _ & Hlen & _). rewrite Z.div_0_l, Z.mod_0_l, !Z.sub_0_r by lia. eauto.
  - rewrite (proj2 (Z.eqb_neq _ _)) in H by lia. inv_clp. exists r. rewrite Epm. unfold counters.
    rewrite (proj2 (Z.eqb_neq k 0)), (proj2 (Z.eqb_neq k (n * len))) by lia. done.
Qed.

Lemma phase_blocks ctx w w' x e1 start len n p0 r0 r k :
  (if (ctx.(BlockHeight) >=? start) && (ctx.(BlockHeight) <=? start + n * len - 1)
      && ((clp_of w).(cs_PmtpEpoch).(EpochCounter) >? 0)
   then r ← PolicyCalculations ctx; _ ← DecrementPmtpBlockCounter; mret r
   else mret (clp_of w).(cs_PmtpRateParams).(PmtpCurrentRunningRate)) w = (Ok x, w') →
  policy p0 start len n → pm w = (p0, e1, r) → e1 = left len n k →
  r.(PmtpInterPolicyRate) = r0.(PmtpInterPolicyRate) →
  ctx.(BlockHeight) = start + k → 0 <= k < n * len →
  pm w' = (p0, mkPmtpEpoch (n - k / len) (len - k mod len - 1), r <| PmtpCurrentRunningRate := x |>) ∧
  compounded r.(PmtpPeriodBlockRate) r0.(PmtpInterPolicyRate) (k + 1) x.
Proof.
  intros H Hp Hpm -> Hi Hh Hk. rewrite <- Hi.
  assert (0 < len ∧ len < 2 ^ 63) as [Hl Hl63] by (unfold policy in Hp; nia).
  assert (k / len < n) by (apply Z.div_lt_upper_bound; lia).
  pose proof (Z.mod_pos_bound k len Hl).
  assert (cs_PmtpEpoch (clp_of w) = left len n k) as Ee by (unfold pmtp_state in Hpm; congruence).
  rewrite Ee, Hh, Z.geb_leb, Z.gtb_ltb in H. simpl in H.
  rewrite !(proj2 (Z.leb_le _ _)), (proj2 (Z.ltb_lt _ _)) in H by lia. simpl in H.
  apply bind_ok in H as (r1 & w1 & Hc & H).
  destruct (PolicyCalculations_ok _ _ _ _ _ _ _ _ _ _ k Hc Hpm Hp Hh Hk) as [Hpm1 Hcomp].
  apply bind_ok in H as (u & w2 & Hd & [-> ->]%ret_ok). split; [|done].
  rewrite dec_block_run in Hd. injection Hd as _ <-. rewrite clp_put_clp.
  unfold pmtp_state in *. simpl. injection Hpm1 as -> -> ->. simpl. by rewrite int64_id by lia.
Qed.

Lemma phase_epochs ctx w u w' e p0 r start len n k :
  (if ((clp_of w).(cs_PmtpEpoch).(BlockCounter) =? 0) && (ctx.(BlockHeight) <? start + n * len - 1)
      && (ctx.(BlockHeight) >=? start)
   then _ ← DecrementPmtpEpochCounter; params ← GetPmtpParams;
        SetPmtpBlockCounter params.(PmtpPeriodEpochLength)
   else mret tt) w = (Ok u, w') →
  policy p0 start len n → pm w = (p0, e, r) →
  e = mkPmtpEpoch (n - k / len) (len - k mod len - 1) →
  ctx.(BlockHeight) = start + k → 0 <= k < n * len →
  ∃ e', pm w' = (p0, e', r) ∧ (k + 1 < n * len → e' = left len n (k + 1)).
Proof.
  intros H Hp Hpm -> Hh Hk.
  assert (cs_PmtpEpoch (clp_of w) = mkPmtpEpoch (n - k / len) (len - k mod len - 1)) as Ee
    by (unfold pmtp_state in Hpm; congruence).
  assert (0 < len) as Hl by (unfold policy in Hp; lia).
  pose proof (succ_div_mod k len Hl ltac:(lia)) as Hsucc.
  rewrite Ee, Hh in H. simpl in H.
  destruct (Z.eqb_spec (len - k mod len - 1) 0) as [E0|E0]; simpl in H.
  - rewrite Z.geb_leb, (proj2 (Z.leb_le _ _)), andb_true_r in H by lia.
    destruct (Z.ltb_spec (start + k) (start + n * len - 1)).
    + rewrite (bind_run _ _ _ _ _ (dec_epoch_run w)), (bind_run _ _ _ _ _ (get_params_run _)) in H.
      rewrite set_block_run in H. injection H as _ <-. rewrite !clp_put_clp.
      unfold pmtp_state in *. simpl. injection Hpm as -> -> ->. simpl.
      eexists. split; [done|]. intros _. destruct Hsucc as [-> ->].
      assert (0 <= k / len < n) by (split; [apply Z.div_pos|apply Z.div_lt_upper_bound]; lia).
      unfold policy in Hp. rewrite int64_id by nia. f_equal; lia.
    + apply ret_ok in H as [_ <-]. eexists. split; [done|lia].
  - apply ret_ok in H as [_ <-]. eexists. split; [done|]. intros _. destruct Hsucc as [-> ->]. f_equal; lia.
Qed.

(** The end at the last block. *)
Lemma phase_end {A} (ev : M W A) ctx w u w' x e p0 r start len n k :
  (if ctx.(BlockHeight) =? start + n * len - 1
   then _ ← SetPmtpEpoch (mkPmtpEpoch 0 0); _ ← SetPmtpInterPolicyRate x; EmitEvent "policy_end"
   else mret tt) w = (Ok u, w') →
  pm w = (p0, e, r) → ctx.(BlockHeight) = start + k →
  pm w' = if k + 1 =? n * len then (p0, mkPmtpEpoch 0 0, r <| PmtpInterPolicyRate := x |>) else (p0, e, r).
Proof.
  intros H Hpm Hh. rewrite Hh in H.
  destruct (Z.eqb_spec (start + k) (start + n * len - 1)), (Z.eqb_spec (k + 1) (n * len)); try lia.
  - rewrite (bind_run _ _ _ _ _ (set_epoch_run _ w)), (bind_run _ _ _ _ _ (set_inter_run _ _)) in H.
    apply EmitEvent_ok in H as ->. rewrite pm_events, !clp_put_clp.
    unfold pmtp_state in *. simpl. by injection Hpm as -> _ ->.
  - by apply ret_ok in H as [_ <-].
Qed.

Lemma policy_block ctx w x w' start len n p0 r0 k :
  run_policy_counters ctx w = (Ok x, w') →
  policy p0 start len n → policy_at len n p0 r0 k (pm w) →
  ctx.(BlockHeight) = start + k → 0 <= k < n * len →
  policy_at len n p0 r0 (k + 1) (pm w').
Proof.
  unfold run_policy_counters. intros H Hp Hat Hh Hk.
  assert ((clp_of w).(cs_PmtpParams) = p0) as Ep0
    by (unfold pmtp_state in Hat; by destruct Hat as (-> & _)).
  rewrite (bind_run _ _ _ _ _ (get_params_run w)), (bind_run _ _ _ _ _ (get_epoch_run w)) in H.
  rewrite Ep0, (proj1 Hp), (proj1 (proj2 (proj2 Hp))) in H.
  apply bind_ok in H as (u1 & w1 & H1 & H).
  destruct (phase_start (mret tt) _ _ _ _ _ _ _ _ _ _ H1 Hp Hat Hh Hk) as (r1 & Hpm1 & Hi).
  rewrite (bind_run _ _ _ _ _ (get_rates_run w1)), (bind_run _ _ _ _ _ (get_epoch_run w1)) in H.
  apply bind_ok in H as (x2 & w2 & H2 & H).
  destruct (phase_blocks _ _ _ _ _ _ _ _ _ _ _ _ H2 Hp Hpm1 eq_refl Hi Hh Hk) as [Hpm2 Hcomp].
  rewrite (bind_run _ _ _ _ _ (get_epoch_run w2)) in H.
  apply bind_ok in H as (u3 & w3 & H3 & H).
  destruct (phase_epochs _ _ _ _ _ _ _ _ _ _ _ H3 Hp Hpm2 eq_refl Hh Hk) as (e3 & Hpm3 & He3).
  apply bind_ok in H as (u4 & w4 & H4 & [-> ->]%ret_ok).
  rewrite (phase_end (mret tt) _ _ _ _ _ _ _ _ _ _ _ _ H4 Hpm3 Hh).
  unfold policy_at, counters. rewrite (proj2 (Z.eqb_neq (k + 1) 0)) by lia. simpl.
  destruct (Z.eqb_spec (k + 1) (n * len)); simpl; (split; [done|]); (split; [|split; [lia|]]);
    try done; try (split; [done|]); try done.
  by apply He3; lia.
Qed.

Lemma begin_block_ok ctx w u w' :
  BeginBlocker ctx w = (Ok u, w') →
  ∃ w1 x w2, pm w1 = pm w ∧ run_policy_counters ctx w1 = (Ok x, w2) ∧ pm w' = pm w2.
Proof.
  unfold BeginBlocker. intros H. apply bind_ok in H as (u1 & w1 & H1 & H).
  apply bind_ok in H as (x & w2 & H2 & H). exists w1, x, w2.
  split; [exact (preserves_ok _ _ _ _ _ view_replenish H1)|]. split; [done|].
  exact (preserves_ok _ _ _ _ _ (preserves_ignore_err _ _ (view_PolicyRun x)) H).
Qed.

Lemma policy_blocks i w u w' start len n p0 r0 k :
  begin_blocks (start + k) i w = (Ok u, w') →
  policy p0 start len n → policy_at len n p0 r0 k (pm w) → 0 <= k → k + Z.of_nat i <= n * len →
  policy_at len n p0 r0 (k + Z.of_nat i) (pm w').
Proof.
  revert w k. induction i as [|i IH]; intros w k H Hp Hat Hk Hi.
  - apply ret_ok in H as [_ <-]. by rewrite Z.add_0_r.
  - cbn [begin_blocks] in H. apply bind_ok in H as (u1 & w1 & (w2 & x & w3 & E1 & H1 & E2)%begin_block_ok & H).
    rewrite <- E1 in Hat. replace (k + Z.of_nat (S i)) with (k + 1 + Z.of_nat i) by lia.
    apply (IH w1); [by replace (start + (k + 1)) with (start + k + 1) by lia|done| |lia|lia].
    rewrite E2. eapply policy_block; [done..|lia].
Qed.
End pmtp.

(** C25: a policy of [n] epochs of [len] blocks, started from reset counters: after [k] blocks
    of its window the epoch and block counters say exactly what is left, the running rate is
    the block rate compounded [k] times on top of the rate kept from the last policy; at the
    last block the counters are reset and the running rate becomes the rate kept. *)
Theorem pmtp_policy_runs {W : Type} `{HL : SdkLaws} `{CW : ClpWorld W} `{TokenRegistryKeeper W}
    `{PolicyFloat} (k : nat) (start len n : Z) (w w' : W) :
  let s := store (S := ClpStore) w in
  let s' := store (S := ClpStore) w' in
  policy s.(cs_PmtpParams) start len n → s.(cs_PmtpEpoch) = mkPmtpEpoch 0 0 →
  0 < Z.of_nat k <= n * len → begin_blocks start k w = (Ok tt, w') →
  let inter := s.(cs_PmtpRateParams).(PmtpInterPolicyRate) in
  let rates := s'.(cs_PmtpRateParams) in
  s'.(cs_PmtpParams) = s.(cs_PmtpParams) ∧
  compounded rates.(PmtpPeriodBlockRate) inter (Z.of_nat k) rates.(PmtpCurrentRunningRate) ∧
  if Z.of_nat k =? n * len
  then s'.(cs_PmtpEpoch) = mkPmtpEpoch 0 0 ∧ rates.(PmtpInterPolicyRate) = rates.(PmtpCurrentRunningRate)
  else s'.(cs_PmtpEpoch) = mkPmtpEpoch (n - Z.of_nat k / len) (len - Z.of_nat k mod len) ∧
       rates.(PmtpInterPolicyRate) = inter.
Proof.
  intros s s' Hp He Hk Hrun inter rates.
  assert (policy_at len n s.(cs_PmtpParams) s.(cs_PmtpRateParams) (0 + Z.of_nat k) (pmtp_state s')) as Hat.
  { eapply policy_blocks; [by rewrite Z.add_0_r|done| |lia|lia].
    unfold policy_at, pmtp_state. fold s. rewrite He. split; [done|]. split; [done|].
    split; [done|]. split; [lia|]. rewrite (proj2 (Z.eqb_neq 0 _)); [done|lia]. }
  rewrite Z.add_0_l in Hat. destruct Hat as (Hpp & Hee & _ & Hc & Hi). specialize (Hc (proj1 Hk)).
  split; [done|]. split; [done|]. unfold counters in Hee. rewrite (proj2 (Z.eqb_neq _ 0)) in Hee by lia.
  simpl in Hee. by destruct (Z.of_nat k =? n * len).
Qed.

(** Two epochs of three blocks from block 20 on, over a pool. *)
Definition with_policy : World :=
  deliver (block 10) genesis alice_creates
    <| w_clp ::= λ s, s <| cs_PmtpParams := mkPmtpParams (10 ^ 17) 3 20 25 |> |>.
Definition after_blocks (k : nat) : World := (begin_blocks 20 k with_policy).2.

Lemma pmtp_policy_runs_witness :
  let inter := (store (S := ClpStore) with_policy).(cs_PmtpRateParams).(PmtpInterPolicyRate) in
  let rates := (store (S := ClpStore) (after_blocks 4)).(cs_PmtpRateParams) in
  compounded rates.(PmtpPeriodBlockRate) inter (Z.of_nat 4) rates.(PmtpCurrentRunningRate) ∧
  (store (S := ClpStore) (after_blocks 4)).(cs_PmtpEpoch) = mkPmtpEpoch 1 2 ∧
  (store (S := ClpStore) (after_blocks 6)).(cs_PmtpEpoch) = mkPmtpEpoch 0 0.
Proof.
  assert (policy (store (S := ClpStore) with_policy).(cs_PmtpParams) 20 3 2) as Hp by (repeat split; vm_compute; congruence).
  assert ((store (S := ClpStore) with_policy).(cs_PmtpEpoch) = mkPmtpEpoch 0 0) as He0
    by (vm_compute; reflexivity).
  assert (0 < Z.of_nat 4 <= 2 * 3 ∧ 0 < Z.of_nat 6 <= 2 * 3) as [H4 H6] by lia.
  assert (begin_blocks 20 4 with_policy = (Ok tt, after_blocks 4)) as R4 by (vm_compute; reflexivity).
  assert (begin_blocks 20 6 with_policy = (Ok tt, after_blocks 6)) as R6 by (vm_compute; reflexivity).
  destruct (pmtp_policy_runs 4 20 3 2 with_policy (after_blocks 4) Hp He0 H4 R4) as (_ & Hc & He & _).
  destruct (pmtp_policy_runs 6 20 3 2 with_policy (after_blocks 6) Hp He0 H6 R6) as (_ & _ & He' & _).
  split; [exact Hc|]. split; [exact He|exact He'].
Defined.
