(* ===== verification/RegistrySpec.v ===== *)
(** * RegistrySpec: the token registry is a map from denominations to entries

    The registry is a list searched from the front; its operations behave as those of a map,
    with or without duplicates in the list, and only an administrator of the registry changes
    it. *)

From S2P Require Import Prelude Sdk SdkRef Rat Bank Keepers Admin World.
From S2P Require Import ClpTypes ClpMsgs Scenario.
From S2P Require Import Registry RegistryModule.
Local Open Scope Z_scope.

Section lookup.
Context {errs : SdkErrors}.
Implicit Types (l : list RegistryEntry) (d : string).

(** [GetEntry] by structural recursion. *)
Fixpoint find_entry l d : res RegistryEntry :=
  match l with
  | [] => Err ErrKeyNotFound
  | e :: l => if String.eqb e.(re_Denom) d then Ok e else find_entry l d
  end.

Lemma GetEntry_find l d : GetEntry (mkRegistry l) d = find_entry l d.
Proof.
  unfold GetEntry. simpl. induction l as [|e l IH]; [done|]. cbn [list_find find_entry].
  rewrite <- IH. destruct (String.eqb_spec e.(re_Denom) d) as [E|E].
  - by rewrite decide_True.
  - rewrite decide_False by done. by destruct (list_find (λ e, e.(re_Denom) = d) l) as [[]|].
Qed.

Lemma find_replace l e d :
  find_entry (replace_or_append l e) d = if String.eqb e.(re_Denom) d then Ok e else find_entry l d.
Proof.
  induction l as [|x l IH]; [done|]. simpl. unfold Registry.StringCompare.
  destruct (String.eqb_spec x.(re_Denom) e.(re_Denom)) as [E|E]; simpl.
  - destruct (String.eqb_spec x.(re_Denom) d), (String.eqb_spec e.(re_Denom) d); congruence.
  - rewrite IH. destruct (String.eqb_spec x.(re_Denom) d), (String.eqb_spec e.(re_Denom) d); congruence.
Qed.

Lemma find_remove l r d :
  find_entry (filter (λ t, Registry.StringCompare t.(re_Denom) r = false) l) d
  = if String.eqb r d then Err ErrKeyNotFound else find_entry l d.
Proof.
  induction l as [|x l IH]; [simpl; by destruct (String.eqb r d)|].
  rewrite filter_cons. unfold Registry.StringCompare in *.
  destruct (String.eqb_spec x.(re_Denom) r) as [E|E]; simpl; rewrite IH.
  - destruct (String.eqb_spec x.(re_Denom) d), (String.eqb_spec r d); congruence.
  - destruct (String.eqb_spec x.(re_Denom) d), (String.eqb_spec r d); congruence.
Qed.

Lemma denoms_replace l e :
  NoDup (re_Denom <$> l) → NoDup (re_Denom <$> replace_or_append l e) ∧
  ∀ d, d ∈ (re_Denom <$> replace_or_append l e) → d = e.(re_Denom) ∨ d ∈ (re_Denom <$> l).
Proof.
  induction l as [|x l IH]; intros Hn; simpl in *.
  - split; [apply NoDup_singleton|]. intros d [->|?]%elem_of_cons; auto.
  - apply NoDup_cons in Hn as [Hx Hn]. unfold Registry.StringCompare.
    destruct (String.eqb_spec x.(re_Denom) e.(re_Denom)) as [E|E]; simpl.
    + rewrite <- E. split; [by apply NoDup_cons|]. intros d Hd. by right.
    + destruct (IH Hn) as [IH1 IH2]. split.
      * apply NoDup_cons. split; [|done]. intros [|]%IH2; [congruence|done].
      * intros d [->|[|]%IH2]%elem_of_cons; [right; left|by left|right; by right].
Qed.
End lookup.

Section server.
Context {W : Type} {coins : CoinLib} {errs : SdkErrors} {admin : AdminKeeper W}
  {reg : HasStore Registry W} {HS : StoreLaws Registry W reg}.
Implicit Types w : W.

Definition is_registry_admin (w : W) (from : string) : bool :=
  match AccAddressFromBech32 from with
  | Ok a => Keepers.IsAdminAccount w AdminType_TOKENREGISTRY a
  | _ => false
  end.

Lemma require_registry_admin {A} from (k : M W A) r w w' :
  (_ ← require_TOKENREGISTRY from; k) w = (r, w') →
  if is_registry_admin w from then k w = (r, w') else is_ok r = false ∧ w' = w.
Proof.
  unfold require_TOKENREGISTRY, is_registry_admin, mbind, M_bind, lift, gets.
  destruct (AccAddressFromBech32 from) as [a|e|]; try by intros [= <- <-].
  destruct (Keepers.IsAdminAccount _ _ _); [done|]. by intros [= <- <-].
Qed.
End server.

(** ** The registry as a map *)
(** What a list of entries stands for: the first entry of a denomination counts. *)
Notation table := (gmap string RegistryEntry) (only parsing).
Definition table_of (r : Registry) : table :=
  foldr (λ e t, <[e.(re_Denom) := e]> t) ∅ r.(Entries).
Definition as_lookup (o : option RegistryEntry) `{SdkErrors} : res RegistryEntry :=
  match o with Some e => Ok e | None => Err ErrKeyNotFound end.

(** What a message asks of the map. *)
Definition table_step (msg : RegistryMsg) (t : table) : table :=
  match msg with
  | TMsgRegister m => <[m.(rg_Entry).(re_Denom) := m.(rg_Entry)]> t
  | TMsgSetRegistry m => table_of m.(sr_Registry)
  | TMsgDeregister m => delete m.(dr_Denom) t
  end.
Definition registry_signer (msg : RegistryMsg) : string :=
  match msg with
  | TMsgRegister m => m.(rg_From) | TMsgSetRegistry m => m.(sr_From) | TMsgDeregister m => m.(dr_From)
  end.

Lemma table_lookup `{SdkErrors} r d : GetEntry r d = as_lookup (table_of r !! d).
Proof.
  destruct r as [l]. rewrite GetEntry_find. unfold table_of. simpl.
  induction l as [|e l IH]; [done|]. simpl. destruct (String.eqb_spec e.(re_Denom) d) as [<-|E].
  - by rewrite lookup_insert_eq.
  - by rewrite lookup_insert_ne.
Qed.
Lemma table_eq `{SdkErrors} r (t : table) : (∀ d, GetEntry r d = as_lookup (t !! d)) → table_of r = t.
Proof.
  intros Hl. apply map_eq. intros d. specialize (Hl d). rewrite table_lookup in Hl.
  destruct (table_of r !! d), (t !! d); by simplify_eq/=.
Qed.
Lemma table_replace `{SdkErrors} l e :
  table_of (mkRegistry (replace_or_append l e)) = <[e.(re_Denom) := e]> (table_of (mkRegistry l)).
Proof.
  apply table_eq. intros d. rewrite GetEntry_find, find_replace, <- GetEntry_find, table_lookup.
  destruct (String.eqb_spec e.(re_Denom) d) as [<-|E].
  - by rewrite lookup_insert_eq.
  - by rewrite lookup_insert_ne.
Qed.
Lemma table_remove `{SdkErrors} l d :
  table_of (mkRegistry (filter (λ t, Registry.StringCompare t.(re_Denom) d = false) l))
  = delete d (table_of (mkRegistry l)).
Proof.
  apply table_eq. intros d'. rewrite GetEntry_find, find_remove, <- GetEntry_find, table_lookup.
  destruct (String.eqb_spec d d') as [<-|E].
  - by rewrite lookup_delete_eq.
  - by rewrite lookup_delete_ne.
Qed.

Section refine.
Context {W : Type} {coins : CoinLib} {errs : SdkErrors} {admin : AdminKeeper W}
  {reg : HasStore Registry W} {HS : StoreLaws Registry W reg}.
Context (roles_apart : ∀ (r : Registry) (w : W) t a,
  Keepers.IsAdminAccount (put_store r w) t a = Keepers.IsAdminAccount w t a).
Implicit Types w : W.

(** A message that fails changes nothing. *)
Definition deliver_registry w (msg : RegistryMsg) : W :=
  match NewHandler msg w with (Ok _, w') => w' | _ => w end.
Definition duplicate_free_entries (r : Registry) : Prop := NoDup (re_Denom <$> r.(Entries)).

Lemma step_refines w msg r w' : NewHandler msg w = (r, w') →
  if is_registry_admin w (registry_signer msg)
  then r = Ok tt ∧ (∃ s, w' = put_store s w) ∧ table_of (store w') = table_step msg (table_of (store w))
  else is_ok r = false ∧ w' = w.
Proof.
  destruct msg as [[from e]|[from s]|[from d]]; simpl; intros E;
    apply require_registry_admin in E; simpl in E; (destruct (is_registry_admin w from); [|done]);
    unfold SetToken, RemoveToken, GetRegistry, SetRegistry, get_store, upd_store, gets, modify, mbind,
      M_bind in E; simpl in E; injection E as <- <-; rewrite store_put; (split; [done|]);
    (split; [by eexists|]).
  - destruct (store w). apply table_replace.
  - done.
  - destruct (store w). apply table_remove.
Qed.
Lemma admins_kept w s from : is_registry_admin (put_store s w) from = is_registry_admin w from.
Proof. unfold is_registry_admin. destruct (AccAddressFromBech32 from); [apply roles_apart|done|done]. Qed.

(** C14: The registry implements a map from denominations to entries.  Over any sequence of
    messages, failed ones included, exactly those signed by an administrator of the registry take
    effect, and what they do is what the map does: registering inserts, deregistering deletes,
    setting replaces.  Looking a denomination up, and the export and import of the genesis, see
    the map and nothing else. *)
Theorem registry_refines_map (msgs : list RegistryMsg) w :
  let w' := foldl deliver_registry w msgs in
  table_of (store w') =
    foldl (λ t msg, if is_registry_admin w (registry_signer msg) then table_step msg t else t)
      (table_of (store w)) msgs ∧
  (∀ d, GetEntry (store w') d = as_lookup (table_of (store w') !! d)) ∧
  (∀ msg, is_ok (NewHandler msg w').1 = is_registry_admin w (registry_signer msg)) ∧
  (∀ w2 : W, ∃ g w3, ExportGenesis w' = (Ok g, w') ∧ InitGenesis g w2 = (Ok tt, w3) ∧
     table_of (store w3) = table_of (store w')).
Proof.
  simpl. revert w. induction msgs as [|msg msgs IH]; intros w; simpl.
  - split_and!; [done|apply table_lookup| |].
    + intros msg. destruct (NewHandler msg w) as [r w1] eqn:E. apply step_refines in E. simpl.
      by destruct (is_registry_admin _ _); destruct E as [-> _].
    + intros w2. exists (mkGenesisState (Some (store w))), (put_store (store w) w2).
      split_and!; [done|done|by rewrite store_put].
  - assert (∃ w1, deliver_registry w msg = w1 ∧ (∀ from, is_registry_admin w1 from = is_registry_admin w from)
      ∧ table_of (store w1) = if is_registry_admin w (registry_signer msg)
                              then table_step msg (table_of (store w)) else table_of (store w))
      as (w1 & -> & Ha & Ht).
    { unfold deliver_registry. destruct (NewHandler msg w) as [r w1] eqn:E. apply step_refines in E.
      destruct (is_registry_admin _ _).
      - destruct E as (-> & [s ->] & ?). exists (put_store s w). split_and!; [done| |done].
        intros. apply admins_kept.
      - destruct E as [E ->]. exists w. by destruct r. }
    destruct (IH w1) as (H1 & H2 & H3 & H4). split_and!; [|done|intros; by rewrite H3, Ha|done].
    rewrite H1, Ht. clear -Ha. revert Ha. generalize (if is_registry_admin w (registry_signer msg)
      then table_step msg (table_of (store w)) else table_of (store w)). induction msgs as [|x l IH];
      intros t Ha; simpl; [done|]. rewrite Ha. by apply IH.
Qed.
End refine.

Definition cdash : RegistryEntry := listed "cdash" [Permission_CLP].
(** An administrator lists two tokens and removes one; somebody else has no say. *)
Definition registry_msgs : list RegistryMsg :=
  [TMsgRegister (mkMsgRegister "@admin" cdash); TMsgDeregister (mkMsgDeregister "@bob" "fury");
   TMsgRegister (mkMsgRegister "@admin" (listed "czec" [])); TMsgDeregister (mkMsgDeregister "@admin" "cdash")].
Definition after_registry_msgs : World := foldl deliver_registry genesis registry_msgs.

Lemma world_roles_apart (r : Registry) (w : World) t a :
  Keepers.IsAdminAccount (put_store r w) t a = Keepers.IsAdminAccount w t a.
Proof. done. Qed.
Lemma registry_refines_map_witness :
  table_of (store after_registry_msgs)
  = delete "cdash" (<["czec" := listed "czec" []]> (<["cdash" := cdash]> (table_of (store genesis)))).
Proof.
  destruct (registry_refines_map world_roles_apart registry_msgs genesis) as [H _].
  unfold after_registry_msgs. rewrite H. vm_compute. reflexivity.
Defined.

(** ** The initial registry and the migration *)
Example initial_registry_valid :
  MsgSetRegistry_ValidateBasic (mkMsgSetRegistry "@admin" InitialRegistry) = Ok tt
  ∧ duplicate_free_entries InitialRegistry.
Proof. split; [by vm_compute|]. by apply (bool_decide_unpack _). Qed.

Lemma delete_all_lookup {V} (ks : list string) (s : gmap string V) k :
  foldl (λ s k, delete k s) s ks !! k = if bool_decide (k ∈ ks) then None else s !! k.
Proof.
  revert s. induction ks as [|x ks IH]; intros s; simpl; [done|].
  rewrite IH. destruct (decide (k = x)) as [->|].
  - rewrite (bool_decide_eq_true_2 (_ ∈ _ :: _)), lookup_delete_eq by by left. by case_bool_decide.
  - rewrite lookup_delete_ne by done. by rewrite (bool_decide_ext (k ∈ x :: ks) (k ∈ ks)) by set_solver.
Qed.
(** The migration deletes exactly the keys under the old prefix. *)
Lemma migration_lookup (s : RawStore) k :
  MigrateToVer4 s !! k = if String.prefix (String (ascii_of_nat 2) "") k then None else s !! k.
Proof.
  unfold MigrateToVer4. rewrite delete_all_lookup. unfold old_keys.
  destruct (String.prefix _ k) eqn:E.
  - case_bool_decide as H; [done|]. destruct (s !! k) as [v|] eqn:Es; [|done]. destruct H.
    apply list_elem_of_filter. split; [done|]. apply list_elem_of_fmap. exists (k, v).
    split; [done|]. by apply elem_of_kv_iter.
  - rewrite bool_decide_eq_false_2; [done|]. intros [H _]%list_elem_of_filter. congruence.
Qed.
