(* ===== verification/AdminSpec.v ===== *)
(** * AdminSpec: administrative roles

    The accounts are stored under their role and address; the keys are injective, so adding
    and removing an account changes exactly its own role, and only an ADMIN does either. *)

From S2P Require Import Prelude Sdk SdkRef Rat Bank Keepers Admin Registry World.
From S2P Require Import ClpTypes ClpMsgs ClpUnits Scenario.
Local Open Scope Z_scope.

Lemma type_no_underscore t : no_underscore (AdminType_String t).
Proof. by destruct t; apply (bool_decide_eq_true_1 (no_underscore _)); vm_compute. Qed.
Lemma type_string_inj t1 t2 : AdminType_String t1 = AdminType_String t2 → t1 = t2.
Proof. by destruct t1, t2. Qed.

(** The first underscore of a key ends the role. *)
Lemma string_split_inv_l s1 a1 s2 a2 :
  no_underscore s1 → no_underscore s2 → s1 +:+ "_" +:+ a1 = s2 +:+ "_" +:+ a2 → s1 = s2 ∧ a1 = a2.
Proof.
  unfold no_underscore. revert s2.
  induction s1 as [|x s1 IH]; intros [|y s2] H1 H2 E;
    rewrite ?(string_app_nil (_ +:+ _)), ?string_app_cons in E.
  - change (String (ascii_of 95) a1 = String (ascii_of 95) a2) in E. by injection E as ->.
  - change (String (ascii_of 95) a1 = String y (s2 +:+ "_" +:+ a2)) in E.
    injection E as <- _. destruct H2. left.
  - change (String x (s1 +:+ "_" +:+ a1) = String (ascii_of 95) a2) in E.
    injection E as -> _. destruct H1. left.
  - injection E as -> E. apply not_elem_of_cons in H1 as [_ H1]. apply not_elem_of_cons in H2 as [_ H2].
    destruct (IH s2 H1 H2 E) as [-> ->]. done.
Qed.
Lemma admin_key_inj a b : GetAdminAccountKey a = GetAdminAccountKey b → a = b.
Proof.
  destruct a as [t a], b as [t' b]. unfold GetAdminAccountKey. simpl. intros E. injection E as E.
  apply string_split_inv_l in E as [->%type_string_inj ->]; [done|apply type_no_underscore..].
Qed.

(** Every account under its own key. *)
Definition accounts_keyed (s : AdminStore) : Prop :=
  ∀ k a, s.(as_Accounts) !! k = Some a → k = GetAdminAccountKey a.

Section admin.
Context {coins : CoinLib}.

Lemma IsAdminAccount_iff s t addr :
  accounts_keyed s →
  IsAdminAccount s t addr = true ↔
  s.(as_Accounts) !! GetAdminAccountKey (mkAdminAccount t (AccString addr))
  = Some (mkAdminAccount t (AccString addr)).
Proof.
  intros Hk. unfold IsAdminAccount.
  assert (existsb (λ a, String.eqb a.(aa_AdminAddress) (AccString addr)) (GetAdminAccountsForType s t) = true
    ↔ s.(as_Accounts) !! GetAdminAccountKey (mkAdminAccount t (AccString addr))
      = Some (mkAdminAccount t (AccString addr))) as Hex.
  { rewrite existsb_exists. unfold GetAdminAccountsForType. split.
    - intros (a & Hin & Ea%String.eqb_eq). apply list_elem_of_In, list_elem_of_filter in Hin as [Et Hin].
      apply elem_of_kv_values in Hin as [k E]. destruct a as [t' a']. simpl in *. subst.
      by rewrite (Hk _ _ E) in E.
    - intros E. eexists. rewrite <- list_elem_of_In, list_elem_of_filter, elem_of_kv_values.
      split; [split; [|by eauto]|]; [done|]. simpl. apply String.eqb_refl. }
  rewrite <- Hex. destruct (GetAdminAccountsForType s t); done.
Qed.

Lemma IsAdminAccount_keyed s t addr :
  accounts_keyed s →
  IsAdminAccount s t addr
  = bool_decide (is_Some (s.(as_Accounts) !! GetAdminAccountKey (mkAdminAccount t (AccString addr)))).
Proof.
  intros Hk. apply eq_bool_prop_intro. rewrite !Is_true_true, bool_decide_eq_true, IsAdminAccount_iff by done.
  split; [eauto|]. intros [a E]. rewrite E. f_equal. symmetry. by apply admin_key_inj, Hk.
Qed.
End admin.

Section server.
Context {W : Type} {sdk : Sdk} {coins : CoinLib} {errs : SdkErrors} {adm : HasStore AdminStore W}
  {HS : StoreLaws AdminStore W adm}.
Implicit Types w : W.

Definition is_ADMIN (w : W) (signer : string) : bool :=
  match AccAddressFromBech32 signer with
  | Ok a => IsAdminAccount (store w) AdminType_ADMIN a
  | _ => false
  end.

Lemma require_ADMIN_run {A} signer (k : M W A) r w w' :
  (_ ← require_ADMIN signer; k) w = (r, w') →
  if is_ADMIN w signer then k w = (r, w') else is_ok r = false ∧ w' = w.
Proof.
  unfold require_ADMIN, is_ADMIN, get_store, mbind, M_bind, lift, gets.
  destruct (AccAddressFromBech32 signer) as [a|e|]; try by intros [= <- <-].
  destruct (IsAdminAccount _ _ _); [done|]. by intros [= <- <-].
Qed.

Lemma set_keyed s a : accounts_keyed s → accounts_keyed (s <| as_Accounts ::= <[GetAdminAccountKey a := a]> |>).
Proof.
  intros Hk k x E. simpl in E. apply lookup_insert_Some in E as [[<- <-]|[_ E]]; [done|by apply Hk].
Qed.
Lemma del_keyed s a : accounts_keyed s → accounts_keyed (s <| as_Accounts ::= delete (GetAdminAccountKey a) |>).
Proof. intros Hk k x E. simpl in E. apply lookup_delete_Some in E as [_ E]. by apply Hk. Qed.
End server.

(** Adding an account gives exactly that address exactly that role, removing one takes
    exactly that role away, every other pair of role and address is as before; a signer that
    is not an ADMIN changes nothing. *)
Theorem admin_roles_change {W : Type} `{CoinLib} `{SdkErrors} `{HS : StoreLaws AdminStore W}
    (w : W) (signer : string) (account : AdminAccount) :
  let role w t a := IsAdminAccount (store w) t a in
  let names t a := bool_decide (account = mkAdminAccount t (AccString a)) in
  accounts_keyed (store w) →
  (∀ r w', AddAccount (mkMsgAddAccount signer account) w = (r, w') →
     if is_ADMIN w signer
     then r = Ok tt ∧ accounts_keyed (store w') ∧ ∀ t a, role w' t a = names t a || role w t a
     else is_ok r = false ∧ w' = w) ∧
  (∀ r w', RemoveAccount (mkMsgRemoveAccount signer account) w = (r, w') →
     if is_ADMIN w signer
     then r = Ok tt ∧ accounts_keyed (store w') ∧ ∀ t a, role w' t a = negb (names t a) && role w t a
     else is_ok r = false ∧ w' = w).
Proof.
  intros role names Hk. unfold role, names. split; intros r w' E.
  - apply require_ADMIN_run in E. simpl in E. revert E. destruct (is_ADMIN w signer); [intros E|done].
    unfold SetAdminAccount, upd_admin, upd_store, modify in E. injection E as <- <-. rewrite store_put.
    split; [done|]. split; [by apply set_keyed|]. intros t a.
    rewrite !IsAdminAccount_keyed by (done || by apply set_keyed). simpl.
    destruct (bool_decide_reflect (account = mkAdminAccount t (AccString a))) as [->|Ea];
      [by rewrite lookup_insert_eq, bool_decide_eq_true_2|].
    rewrite lookup_insert_ne; [done|]. by intros ?%admin_key_inj.
  - apply require_ADMIN_run in E. simpl in E. revert E. destruct (is_ADMIN w signer); [intros E|done].
    unfold RemoveAdminAccount, upd_admin, upd_store, modify in E. injection E as <- <-. rewrite store_put.
    split; [done|]. split; [by apply del_keyed|]. intros t a.
    rewrite !IsAdminAccount_keyed by (done || by apply del_keyed). simpl.
    destruct (bool_decide_reflect (account = mkAdminAccount t (AccString a))) as [->|Ea]; simpl.
    + rewrite lookup_delete_eq. apply bool_decide_eq_false_2. by intros [? ?].
    + rewrite lookup_delete_ne; [done|]. by intros ?%admin_key_inj.
Qed.

Lemma genesis_keyed : accounts_keyed (store genesis).
Proof.
  change (accounts_keyed admin_genesis). intros k a E.
  assert (Forall (λ p : string * AdminAccount, p.1 = GetAdminAccountKey p.2)
            (map_to_list (as_Accounts admin_genesis))) as F
    by (vm_compute; repeat constructor).
  rewrite Forall_forall in F. apply (F (k, a)). by apply elem_of_map_to_list.
Qed.

Definition carol : AdminAccount := mkAdminAccount AdminType_MARGIN "@carol".
Definition with_carol : World := (AddAccount (mkMsgAddAccount "@admin" carol) genesis).2.

Lemma admin_roles_change_witness :
  IsAdminAccount (store with_carol) AdminType_MARGIN "carol" = true ∧
  IsAdminAccount (store with_carol) AdminType_MARGIN "bob"
    = IsAdminAccount (store genesis) AdminType_MARGIN "bob".
Proof.
  assert (AddAccount (mkMsgAddAccount "@admin" carol) genesis = (Ok tt, with_carol)) as E
    by (vm_compute; reflexivity).
  destruct (admin_roles_change genesis "@admin" carol genesis_keyed) as [H _]. specialize (H _ _ E).
  assert (is_ADMIN genesis "@admin" = true) as A by (vm_compute; reflexivity). rewrite A in H.
  destruct H as (_ & _ & H).
  assert (bool_decide (carol = mkAdminAccount AdminType_MARGIN (AccString "carol")) = true) as C1
    by (vm_compute; reflexivity).
  assert (bool_decide (carol = mkAdminAccount AdminType_MARGIN (AccString "bob")) = false) as C2
    by (vm_compute; reflexivity).
  split; rewrite H; [by rewrite C1|by rewrite C2].
Defined.
