(* ===== verification/OracleSpec.v ===== *)
(** * OracleSpec: decided prophecies stay decided, and how they are decided

    What a successful claim does to the store, the invariant of the prophecies, their history
    over all runs, and the decision as a function of the votes alone. *)

From Stdlib Require Import Lqa Qabs.
From S2P Require Import World Scenario BridgeWorld EthBridge.
From S2P Require Import Prelude Sdk Rat Float Bank Keepers ClpKeeper Oracle.
Local Open Scope Z_scope.

Section spec.
Context {W : Type} {coins : CoinLib} {vals : ValAddressLib} {json : ProphecyJson} {order : GoRange}
  {staking : StakingKeeper W} {config : OracleConfig} {orc : HasStore OracleStore W}
  {VL : ValAddressLaws vals} {JL : ProphecyJsonLaws vals json} {SL : StoreLaws OracleStore W orc}.
Implicit Types (w : W) (p : Prophecy) (s : OracleStore).

(** ** The prophecies of a store *)
Definition prophecy_at s (id : string) : option Prophecy :=
  match s.(os_Prophecies) !! id with
  | Some db => match DeserializeFromDB db with Ok p => Some p | _ => None end
  | None => None
  end.
Definition vote p (validator : string) : option string := p.(ValidatorClaims) ≫= (.!! validator).
Definition voters p (claim : string) : list ValAddress := map_get [] p.(ClaimValidators) claim.
Definition decided p : Prop := p.(p_Status).(Text) ≠ STATUS_TEXT_PENDING.

(** The two maps of a prophecy tell the same votes, one per validator. *)
Definition votes_match (cvs : gmap string (list ValAddress)) (vcs : gmap string string) : Prop :=
  (∀ cl addrs, cvs !! cl = Some addrs → utf8_valid cl = true ∧ cl ≠ "" ∧ NoDup addrs ∧
     ∀ a, a ∈ addrs → val_address_ok a ∧ vcs !! ValString a = Some cl) ∧
  (∀ v cl, vcs !! v = Some cl → ∃ a addrs, v = ValString a ∧ cvs !! cl = Some addrs ∧ a ∈ addrs).
Definition votes_ok p : Prop :=
  ∃ cvs vcs, p.(ClaimValidators) = Some cvs ∧ p.(ValidatorClaims) = Some vcs ∧
    votes_match cvs vcs.
Definition oracle_ok s : Prop :=
  ∀ id db, s.(os_Prophecies) !! id = Some db →
    ∃ p, DeserializeFromDB db = Ok p ∧ p.(ID) = id ∧ votes_ok p.

Lemma prophecy_at_ok s id p : oracle_ok s → prophecy_at s id = Some p → p.(ID) = id ∧ votes_ok p.
Proof.
  intros Hs. unfold prophecy_at. destruct (_ !! id) as [db|] eqn:E; [|done].
  destruct (Hs _ _ E) as (q & Hq & ? & ?). rewrite Hq. by intros [= <-].
Qed.

Lemma votes_ok_new id : votes_ok (NewProphecy id).
Proof. by exists ∅, ∅. Qed.

(** ** Serialization *)
Lemma serialize_roundtrip p : votes_ok p →
  ∃ db, SerializeForDB p = Ok db ∧ DeserializeFromDB db = Ok p ∧ db.(db_Id) = p.(ID).
Proof.
  intros (cvs & vcs & Ec & Ev & [Hc Hv]). destruct p as [id st cm vm]. simpl in *. subst.
  destruct (claim_validators_roundtrip cvs) as (t1 & E1 & D1).
  { intros cl addrs (? & ? & ? & Ha)%Hc. split; [done|]. apply Forall_forall. intros a ?.
    by apply Ha. }
  destruct (validator_claims_roundtrip vcs) as (t2 & E2 & D2).
  { intros v cl (a & addrs & -> & (? & _)%Hc & _)%Hv. by split; [apply val_text|]. }
  eexists. unfold SerializeForDB, DeserializeFromDB. simpl. rewrite E1. simpl. rewrite E2. simpl.
  split; [done|]. simpl. rewrite D1. simpl. by rewrite D2.
Qed.

(** ** One vote *)
Lemma ValString_inj a b : val_address_ok a → val_address_ok b → ValString a = ValString b → a = b.
Proof. intros Ha%val_roundtrip Hb%val_roundtrip E. rewrite E in Ha. congruence. Qed.

Lemma AddClaim_ok p a cl p' : votes_ok p → val_address_ok a → utf8_valid cl = true → cl ≠ "" →
  vote p (ValString a) = None → AddClaim p a cl = Ok p' →
  p'.(ID) = p.(ID) ∧ p'.(p_Status) = p.(p_Status) ∧
  voters p' cl = voters p cl ++ [a] ∧ (∀ cl', cl' ≠ cl → voters p' cl' = voters p cl') ∧
  vote p' (ValString a) = Some cl ∧ (∀ v, v ≠ ValString a → vote p' v = vote p v) ∧
  votes_ok p'.
Proof.
  intros (cvs & vcs & Ec & Ev & [Hc Hv]) Ha Hu Hne Hnone. unfold AddClaim, vote, voters in *.
  rewrite Ec, Ev in *. simpl in *. intros [= <-]. simpl. split_and!; try done.
  - by rewrite lookup_insert_eq.
  - intros cl' ?. by rewrite lookup_insert_ne.
  - by rewrite lookup_insert_eq.
  - intros v ?. by rewrite lookup_insert_ne.
  - eexists _, _. split_and!; [done|done|]. split.
    + assert (∀ cl' addrs, cvs !! cl' = Some addrs → a ∉ addrs) as Hfresh.
      { intros cl' addrs (_ & _ & _ & H)%Hc Hin. destruct (H a Hin) as [_ E]. congruence. }
      intros cl' addrs. destruct (decide (cl' = cl)) as [->|Hn].
      * rewrite lookup_insert_eq. intros [= <-]. split_and!; [done|done| |].
        -- destruct (cvs !! cl) as [l|] eqn:El; simpl; [|apply NoDup_singleton].
           apply NoDup_app. split_and!; [by eapply Hc| |apply NoDup_singleton].
           intros x Hx ->%list_elem_of_singleton. by eapply Hfresh.
        -- intros b [Hb| ->%list_elem_of_singleton]%elem_of_app.
           2: { by rewrite lookup_insert_eq. }
           destruct (cvs !! cl) as [l|] eqn:El; simpl in *; [|by apply not_elem_of_nil in Hb].
           destruct (Hc _ _ El) as (_ & _ & _ & H). destruct (H b Hb) as [Hbok E].
           split; [done|]. rewrite lookup_insert_ne; [done|]. congruence.
      * rewrite lookup_insert_ne by done. intros E. destruct (Hc _ _ E) as (? & ? & ? & H).
        split_and!; try done. intros b Hb. destruct (H b Hb) as [Hbok Eb].
        split; [done|]. rewrite lookup_insert_ne; [done|]. congruence.
    + intros v cl'. destruct (decide (v = ValString a)) as [->|Hn].
      * rewrite lookup_insert_eq. intros [= <-]. eexists a, _.
        split_and!; [done|by rewrite lookup_insert_eq|]. apply elem_of_app. right. by apply list_elem_of_singleton.
      * rewrite lookup_insert_ne by done. intros (b & addrs & -> & E & Hb)%Hv.
        destruct (decide (cl' = cl)) as [->|].
        -- eexists b, _. split_and!; [done|by rewrite lookup_insert_eq|].
           rewrite E. simpl. apply elem_of_app. by left.
        -- exists b, addrs. by rewrite lookup_insert_ne.
Qed.

(** ** Counting: machine sums are exact while they stay below [2^53] *)
Definition weight (m : gmap string Validator) (a : ValAddress) : Z :=
  from_option GetConsensusPower 0 (m !! ValString a).
Definition bonded_power (vs : list Validator) : Z := sumZ GetConsensusPower vs.

Context {TL : StakingLaws W vals staking}.

Lemma weight_nonneg m a : 0 <= weight m a.
Proof. unfold weight. destruct (m !! _); simpl; [apply power_nonneg|lia]. Qed.

Lemma claim_power_exact m addrs : sumZ (weight m) addrs < 2 ^ 53 →
  claim_power m addrs = sumZ (weight m) addrs.
Proof.
  unfold claim_power.
  assert (∀ t, 0 <= t → t + sumZ (weight m) addrs < 2 ^ 53 →
    foldl (λ t a, match m !! ValString a with
                  | Some v => int64 (t + GetConsensusPower v) | None => t end) t addrs
    = t + sumZ (weight m) addrs) as H; [|intros Hb; by rewrite H by lia].
  induction addrs as [|a addrs IH]; intros t Ht Hb; simpl in *; [lia|].
  pose proof (weight_nonneg m a) as Hw.
  pose proof (sumZ_nonneg (weight m) addrs (λ x _, weight_nonneg m x)).
  assert (weight m a = from_option GetConsensusPower 0 (m !! ValString a)) as E by done.
  destruct (m !! ValString a) as [v|]; simpl in E; [rewrite int64_id by lia|];
    rewrite IH by lia; lia.
Qed.

Definition listed (wl : list ValAddress) (v : Validator) : Prop :=
  ∃ a, a ∈ wl ∧ GetOperator v = Ok a.
#[local] Instance listed_dec wl v : Decision (listed wl v).
Proof.
  destruct (GetOperator v) as [a|e|] eqn:E.
  - destruct (decide (a ∈ wl)); [left; by exists a|right; intros (b & ? & ?); congruence].
  - right. intros (b & ? & ?). congruence.
  - right. intros (b & ? & ?). congruence.
Defined.

Lemma inWhiteList_exact v a wl : GetOperator v = Ok a →
  inWhiteList v wl = Ok (bool_decide (listed wl v)).
Proof.
  intros E. unfold inWhiteList. rewrite E.
  assert (∀ f, foldR (λ (found : bool) address, if found then Ok true
      else Ok (String.eqb a address)) f wl = Ok (f || bool_decide (a ∈ wl))) as H.
  { induction wl as [|b wl IH]; intros f; simpl; [by destruct f|].
    destruct f; simpl; rewrite IH; simpl; [done|]. f_equal. apply eq_bool_prop_intro.
    rewrite !orb_True. rewrite !bool_decide_spec. rewrite elem_of_cons.
    destruct (String.eqb_spec a b) as [->|]; simpl; tauto. }
  etrans; [exact (H false)|]. f_equal. simpl. apply bool_decide_ext. unfold listed.
  split; [intros; by exists a|]. intros (b & ? & ?). congruence.
Qed.

Definition listed_power (wl : list ValAddress) (vs : list Validator) : Z :=
  sumZ GetConsensusPower (filter (listed wl) vs).

Lemma whitelisted_power_exact wl vs : (∀ v, v ∈ vs → ∃ a, GetOperator v = Ok a) →
  listed_power wl vs < 2 ^ 53 → whitelisted_power vs wl = Ok (listed_power wl vs).
Proof.
  unfold whitelisted_power, listed_power. intros Hop.
  assert (∀ t, 0 <= t → t + sumZ GetConsensusPower (filter (listed wl) vs) < 2 ^ 53 →
    foldR (λ t v, isIn ← inWhiteList v wl;
      Ok (if (isIn : bool) then int64 (t + GetConsensusPower v) else t)) t vs
    = Ok (t + sumZ GetConsensusPower (filter (listed wl) vs))) as H; [|intros; by rewrite H by lia].
  induction vs as [|v vs IH]; intros t Ht Hb; simpl in *; [f_equal; lia|].
  destruct (Hop v) as [a Ha]; [by left|]. rewrite (inWhiteList_exact _ _ _ Ha). simpl.
  pose proof (sumZ_nonneg GetConsensusPower (filter (listed wl) vs) (λ x _, power_nonneg x)).
  pose proof (power_nonneg v). rewrite filter_cons in Hb |- *.
  destruct (decide (listed wl v)) as [Hl|Hl]; simpl in *.
  - rewrite bool_decide_eq_true_2 by done. rewrite int64_id by lia.
    rewrite IH; [f_equal; lia| |lia|lia]. intros x ?. apply Hop. by right.
  - rewrite bool_decide_eq_false_2 by done. apply IH; [|lia|lia]. intros x ?. apply Hop. by right.
Qed.

Lemma by_address_lookup vs k v : NoDup (OperatorAddress <$> vs) →
  by_address vs !! k = Some v ↔ v ∈ vs ∧ OperatorAddress v = k.
Proof.
  unfold by_address. intros Hd.
  assert (∀ m : gmap string Validator, (∀ x, x ∈ vs → m !! OperatorAddress x = None) →
    foldl (λ m v, <[OperatorAddress v := v]> m) m vs !! k = Some v ↔
    m !! k = Some v ∨ v ∈ vs ∧ OperatorAddress v = k) as H.
  { revert Hd. induction vs as [|x vs IH]; intros Hd m Hm; simpl in *.
    { split; [by left|]. intros [?|[[]%not_elem_of_nil _]]; done. }
    apply NoDup_cons in Hd as [Hx Hd].
    rewrite IH; [|done|].
    - rewrite elem_of_cons. destruct (decide (OperatorAddress x = k)) as [<-|Hk].
      + rewrite lookup_insert_eq, (Hm x) by (by left). split.
        * intros [[= <-]|[? E]]; right; (split; [by constructor|done]).
        * intros [?|[[->|?] E]]; [done|by left|by right].
      + rewrite lookup_insert_ne by done. split; [|by intros [?|[[->|?] E]]; auto].
        intros [?|[? E]]; [by left|]. right. split; [by right|done].
    - intros y Hy. rewrite lookup_insert_ne; [apply Hm; by right|].
      intros E. apply Hx. rewrite E. by apply list_elem_of_fmap_2. }
  rewrite H; [|done]. rewrite lookup_empty. naive_solver.
Qed.

(** ** The votes on all claims together never outweigh the whitelist *)
Lemma sumZ_submseteq {A} (f : A → Z) l k : (∀ x, 0 <= f x) → l ⊆+ k → sumZ f l <= sumZ f k.
Proof.
  intros Hf [r ->%(sumZ_perm f)]%submseteq_Permutation. rewrite sumZ_app.
  pose proof (sumZ_nonneg f r (λ x _, Hf x)). lia.
Qed.

Lemma sumZ_weights m cs :
  sumZ (weight m) cs = sumZ GetConsensusPower (omap (λ a, m !! ValString a) cs).
Proof.
  induction cs as [|a cs IH]; [done|]. simpl. rewrite IH. unfold weight.
  by destruct (m !! ValString a).
Qed.

Lemma claims_within w wl cs :
  let vs := GetBondedValidatorsByPower w in
  NoDup cs → (∀ a, a ∈ cs → val_address_ok a ∧ a ∈ wl) →
  sumZ (weight (by_address vs)) cs <= listed_power wl vs.
Proof.
  intros vs Hd Hin. unfold listed_power. rewrite sumZ_weights.
  pose proof (bonded_distinct w) as Hv. apply sumZ_submseteq; [apply power_nonneg|].
  apply NoDup_submseteq.
  - clear -Hd Hin Hv VL. induction cs as [|a cs IH]; simpl; [constructor|].
    apply NoDup_cons in Hd as [Ha Hd].
    assert (NoDup (omap (λ a, by_address vs !! ValString a) cs)) as Hr.
    { apply IH; [done|]. intros b ?. apply Hin. by right. }
    destruct (by_address vs !! ValString a) as [v|] eqn:E; [|done].
    apply NoDup_cons. split; [|done]. intros (b & Hb & Eb)%list_elem_of_omap.
    apply by_address_lookup in E as [_ E]; [|done]. apply by_address_lookup in Eb as [_ Eb]; [|done].
    assert (a = b) as ->; [|done]. apply ValString_inj; [apply Hin; by left| |congruence].
    apply Hin. by right.
  - intros v (a & Ha & E)%list_elem_of_omap. apply by_address_lookup in E as [Hvs E]; [|done].
    apply list_elem_of_filter. split; [|done]. destruct (Hin a Ha) as [Hok Hwl].
    destruct (bonded_operator w v Hvs) as (b & Hb & Hop & Eb). exists b. split; [|done].
    replace b with a; [done|]. apply ValString_inj; [done|done|congruence].
Qed.

(** [l] lists the claims of a prophecy, whatever the order. *)
Definition claim_entries (cvs : gmap string (list ValAddress)) l : Prop := l ≡ₚ map_to_list cvs.
Definition entry_power m (e : string * list ValAddress) : Z := sumZ (weight m) e.2.

Lemma sumZ_concat m (l : list (string * list ValAddress)) :
  sumZ (entry_power m) l = sumZ (weight m) (concat l.*2).
Proof. induction l as [|e l IH]; [done|]. simpl. by rewrite sumZ_app, IH. Qed.

Lemma claimants_NoDup cvs vcs l : votes_match cvs vcs → claim_entries cvs l →
  NoDup (concat l.*2) ∧
  (∀ a, a ∈ concat l.*2 → ∃ cl addrs, cvs !! cl = Some addrs ∧ a ∈ addrs).
Proof.
  intros [Hc _] Hp.
  assert (∀ e, e ∈ l → cvs !! e.1 = Some e.2) as Hl.
  { intros [cl addrs] H. rewrite Hp in H. by apply elem_of_map_to_list in H. }
  assert (NoDup l.*1) as Hd by (rewrite Hp; apply NoDup_fst_map_to_list).
  clear Hp. split.
  - induction l as [|[cl addrs] l IH]; simpl in *; [constructor|].
    apply NoDup_cons in Hd as [Hn Hd]. apply NoDup_app. split_and!.
    + eapply Hc, (Hl (cl, addrs)). by left.
    + intros a Ha Hin. apply list_elem_of_In, in_concat in Hin as (addrs' & Hin & Ha').
      apply list_elem_of_In, list_elem_of_fmap in Hin as ([cl' x] & -> & Hin).
      apply list_elem_of_In in Ha'. simpl in Ha'.
      pose proof (Hl _ ltac:(by left)) as E1. pose proof (Hl _ ltac:(by right)) as E2. simpl in *.
      assert (cl = cl') as ->.
      { destruct (Hc _ _ E1) as (_ & _ & _ & H1). destruct (Hc _ _ E2) as (_ & _ & _ & H2).
        destruct (H1 a Ha), (H2 a Ha'). congruence. }
      apply Hn. by apply (list_elem_of_fmap_2 fst _ (cl', x)).
    + apply IH; [|done]. intros e ?. apply Hl. by right.
  - intros a (addrs & Hin & Ha)%list_elem_of_In%in_concat.
    apply list_elem_of_In, list_elem_of_fmap in Hin as ([cl x] & -> & Hin).
    exists cl, x. split; [by apply (Hl (cl, x))|by apply list_elem_of_In].
Qed.

(** ** The tally *)
Lemma tally_exact m l hc hp t : 0 <= t → t + sumZ (entry_power m) l < 2 ^ 53 →
  ∃ hc' hp', foldl (tally_step m) (hc, hp, t) l = (hc', hp', t + sumZ (entry_power m) l) ∧
    hp <= hp' ∧ (∀ e, e ∈ l → entry_power m e <= hp') ∧
    ((hc', hp') = (hc, hp) ∨ ∃ e, e ∈ l ∧ hc' = e.1 ∧ hp' = entry_power m e).
Proof.
  revert hc hp t. induction l as [|e l IH]; intros hc hp t Ht Hb; cbn [foldl sumZ foldr] in *.
  { exists hc, hp. rewrite Z.add_0_r. split_and!; [done|lia| |by left].
    by intros e ?%not_elem_of_nil. }
  fold (sumZ (entry_power m) l) in *.
  assert (∀ e, 0 <= entry_power m e) as Hn
    by (intros; apply sumZ_nonneg; intros; apply weight_nonneg).
  pose proof (sumZ_nonneg (entry_power m) l (λ x _, Hn x)). pose proof (Hn e).
  unfold tally_step at 2. rewrite claim_power_exact by (unfold entry_power in *; lia).
  fold (entry_power m e). rewrite int64_id by lia.
  destruct (Z.ltb_spec hp (entry_power m e)) as [Hlt|Hge].
  - destruct (IH e.1 (entry_power m e) (t + entry_power m e)) as (hc' & hp' & -> & ? & Hall & Hor);
      [lia|lia|]. exists hc', hp'. split_and!; [f_equal; lia|lia| |].
    + intros x [->|]%elem_of_cons; [done|auto].
    + right. destruct Hor as [[= -> ->]|(x & ? & ? & ?)];
        [exists e; by repeat constructor|exists x; split; [by right|done]].
  - destruct (IH hc hp (t + entry_power m e)) as (hc' & hp' & -> & ? & Hall & Hor);
      [lia|lia|]. exists hc', hp'. split_and!; [f_equal; lia|lia| |].
    + intros x [->|]%elem_of_cons; [lia|auto].
    + destruct Hor as [?|(x & ? & ? & ?)]; [by left|right; exists x; split; [by right|done]].
Qed.

(** ** The electorate: who votes is on the whitelist, and powers stay far below int64 *)
Definition voters_listed (wl : list ValAddress) p : Prop :=
  ∀ cl a, a ∈ voters p cl → a ∈ wl.
Definition power_behind w p (cl : string) : Z :=
  sumZ (weight (by_address (GetBondedValidatorsByPower w))) (voters p cl).

Lemma FindHighestClaim_exact {OL : GoRangeLaws order} w p wl cvs vcs :
  let vs := GetBondedValidatorsByPower w in
  let m := by_address vs in
  p.(ClaimValidators) = Some cvs → votes_match cvs vcs → voters_listed wl p →
  bonded_power vs < 2 ^ 53 →
  ∃ hc hp, FindHighestClaim p vs wl
    = Ok (hc, hp, sumZ (entry_power m) (map_to_list cvs), listed_power wl vs) ∧
    -1 <= hp <= sumZ (entry_power m) (map_to_list cvs) ∧
    sumZ (entry_power m) (map_to_list cvs) <= listed_power wl vs < 2 ^ 53 ∧
    (∀ e, e ∈ map_to_list cvs → entry_power m e <= hp) ∧
    ((hc, hp) = ("", -1) ∨ ∃ e, e ∈ map_to_list cvs ∧ hc = e.1 ∧ hp = entry_power m e).
Proof.
  intros vs m Ec Hm Hl Hb. unfold FindHighestClaim. rewrite Ec. cbn [from_option].
  pose proof (go_range_perm "FindHighestClaim" (map_to_list cvs)) as Hp.
  set (l := go_range _ _) in *. destruct (claimants_NoDup _ _ _ Hm Hp) as [Hd Hcl].
  assert (listed_power wl vs <= bonded_power vs) as Hlb.
  { apply sumZ_submseteq; [apply power_nonneg|]. apply sublist_submseteq, sublist_filter. }
  assert (sumZ (entry_power m) l <= listed_power wl vs) as Hs.
  { rewrite sumZ_concat. apply claims_within; [done|]. intros a (cl & addrs & E & Ha)%Hcl.
    destruct Hm as [Hc _]. destruct (Hc _ _ E) as (_ & _ & _ & H).
    split; [by apply H|]. apply (Hl cl). unfold voters. by rewrite Ec; simpl; rewrite E. }
  rewrite whitelisted_power_exact; [|intros v (a & _ & ? & _)%bonded_operator; by exists a|lia].
  simpl. destruct (tally_exact m l "" (-1) 0) as (hc & hp & E & ? & Hall & Hor); [lia|lia|].
  fold vs m. rewrite E. exists hc, hp. rewrite <- (sumZ_perm _ _ _ Hp).
  assert (hp <= sumZ (entry_power m) l) as Hhp.
  { assert (∀ e, 0 <= entry_power m e) as Hn
      by (intros; apply sumZ_nonneg; intros; apply weight_nonneg).
    destruct Hor as [[= -> ->]|(e & He & _ & ->)].
    - pose proof (sumZ_nonneg (entry_power m) l (λ x _, Hn x)). lia.
    - by apply sumZ_elem_le. }
  split_and!; [done|lia|done|lia|lia|..].
  - intros e He. apply Hall. by rewrite Hp.
  - destruct Hor as [?|(e & He & ?)]; [by left|right; exists e]. by rewrite <- Hp.
Qed.
End spec.

(** ** A majority in floating point is a majority *)
Definition just_over_half : Q := (2 ^ 53 + 1) # (2 ^ 54).

Lemma f64_quot_majority a b : 0 < b < 2 ^ 53 → -1 <= a < 2 ^ 53 →
  (just_over_half < f64_quot a b)%Q → b < 2 * a.
Proof.
  intros Hb Ha Hc. unfold f64_quot in Hc.
  pose proof (f64_exact_int a ltac:(lia)) as Ea. pose proof (f64_exact_int b ltac:(lia)) as Eb.
  pose proof (f64_error (f64_of_int a / f64_of_int b)) as He.
  set (q := (f64_of_int a / f64_of_int b)%Q) in *.
  assert (q * inject_Z b == inject_Z a)%Q as Eq.
  { unfold q. rewrite Ea, Eb. field. intros E. apply (Qeq_bool_neq (inject_Z b) 0); [|done].
    unfold Qeq_bool. simpl. lia. }
  set (r := f64 q) in *. clearbody q r. clear Ea Eb.
  destruct (Z.lt_ge_cases b (2 * a)) as [|Hle]; [done|]. exfalso.
  assert (q <= 1 # 2)%Q as Hq.
  { assert (inject_Z 2 * inject_Z a <= inject_Z b)%Q as H2
      by (rewrite <- inject_Z_mult; by rewrite <- Zle_Qle).
    assert (0 < inject_Z b)%Q as Hb0 by (unfold Qlt; simpl; lia).
    apply (Qmult_le_r _ _ (inject_Z b)); [done|]. rewrite Eq. unfold Qle in *. simpl in *. lia. }
  clear Hle Eq. change (inject_Z (2 ^ 53)) with (9007199254740992 # 1)%Q in He.
  unfold just_over_half in Hc.
  change ((2 ^ 53 + 1) # 2 ^ 54)%Q with (9007199254740993 # 18014398509481984)%Q in Hc.
  destruct (Qlt_le_dec q 0) as [Hn|Hn].
  - rewrite (Qabs_neg q) in He by lra. pose proof (Qle_Qabs (r - q)). lra.
  - rewrite (Qabs_pos q) in He by lra. pose proof (Qle_Qabs (r - q)). lra.
Qed.

Lemma f64_ge_majority a b c : 0 <= b < 2 ^ 53 → -1 <= a <= b → (just_over_half < c)%Q →
  f64_ge a b c = true → b < 2 * a.
Proof.
  intros Hb Ha Hc. unfold f64_ge. destruct (Z.eqb_spec b 0) as [->|Hn].
  - intros E%Z.ltb_lt. lia.
  - intros E%Qle_bool_iff. apply f64_quot_majority; [lia|lia|]. by eapply Qlt_le_trans.
Qed.

Lemma sumZ_two {A} (f : A → Z) (l : list A) x y : (∀ z, 0 <= f z) →
  x ∈ l → y ∈ l → x ≠ y → f x + f y <= sumZ f l.
Proof.
  intros Hf Hx Hy Hn. replace (f x + f y) with (sumZ f [x; y]) by (simpl; lia).
  apply sumZ_submseteq; [done|]. apply NoDup_submseteq.
  - apply NoDup_cons. split; [|apply NoDup_singleton]. by intros ?%list_elem_of_singleton.
  - intros z [->|[->|[]%not_elem_of_nil]%elem_of_cons]%elem_of_cons; done.
Qed.

(** ** The decision *)
Section decision.
Context {W : Type} {vals : ValAddressLib} {json : ProphecyJson}
  {staking : StakingKeeper W} {config : OracleConfig} {orc : HasStore OracleStore W}
  {VL : ValAddressLaws vals} {TL : StakingLaws W vals staking}.
Implicit Types (w : W) (p : Prophecy).

(** The whitelist decodes, everyone who voted is on it, and the bonded power is below [2^53]. *)
Definition electorate w p (wl : list ValAddress) : Prop :=
  GetOracleWhiteList w = (Ok wl, w) ∧ votes_ok p ∧ voters_listed wl p ∧
  bonded_power (GetBondedValidatorsByPower w) < 2 ^ 53.

(** What two tallies of the same votes have in common. *)
Lemma tallies_agree (order order' : GoRange) {OL : GoRangeLaws order} {OL' : GoRangeLaws order'}
    w p wl : electorate w p wl →
  let vs := GetBondedValidatorsByPower w in
  ∃ hc hc' hp cast, FindHighestClaim (order := order) p vs wl = Ok (hc, hp, cast, listed_power wl vs) ∧
    FindHighestClaim (order := order') p vs wl = Ok (hc', hp, cast, listed_power wl vs) ∧
    -1 <= hp <= cast ∧ 0 <= cast <= listed_power wl vs ∧ listed_power wl vs < 2 ^ 53 ∧
    (listed_power wl vs < 2 * hp → hc = hc' ∧ hp = power_behind w p hc).
Proof.
  intros (_ & (cvs & vcs & Ec & _ & Hm) & Hl & Hb). cbv zeta.
  destruct (FindHighestClaim_exact (order := order) w p wl cvs vcs Ec Hm Hl Hb)
    as (hc & hp & E & Hr & Hs & Hall & Hor).
  destruct (FindHighestClaim_exact (order := order') w p wl cvs vcs Ec Hm Hl Hb)
    as (hc' & hp' & E' & Hr' & _ & Hall' & Hor').
  set (m := by_address _) in *. set (l := map_to_list cvs) in *.
  assert (∀ e, 0 <= entry_power m e) as Hn
    by (intros; apply sumZ_nonneg; intros; apply weight_nonneg).
  assert (hp = hp') as <-.
  { destruct Hor as [[= -> ->]|(e & He & -> & ->)], Hor' as [[= -> ->]|(e' & He' & -> & ->)].
    - done.
    - pose proof (Hall _ He'). pose proof (Hn e'). lia.
    - pose proof (Hall' _ He). pose proof (Hn e). lia.
    - pose proof (Hall _ He'). pose proof (Hall' _ He). lia. }
  exists hc, hc', hp, (sumZ (entry_power m) l).
  pose proof (sumZ_nonneg (entry_power m) l (λ x _, Hn x)).
  split_and!; [done|done|lia|lia|lia|lia|lia|]. intros Hmaj.
  destruct Hor as [[= -> ->]|(e & He & -> & ->)]; [lia|].
  destruct Hor' as [[= -> Ep]|(e' & He' & -> & Ep)]; [pose proof (Hn e); lia|].
  split.
  - destruct (decide (e = e')) as [->|Hne]; [done|].
    pose proof (sumZ_two (entry_power m) l e e' Hn He He' Hne). lia.
  - unfold power_behind, voters. rewrite Ec. fold m. destruct e as [cl addrs].
    apply elem_of_map_to_list in He. simpl. by rewrite He.
Qed.

(** C20: Go visits the claims of a prophecy in an order of its own, which may differ between
    the nodes.  As long as those who voted are on the whitelist, the bonded power is below
    [2^53] and the threshold is above one half ([DefaultConsensusNeeded] is), the outcome does
    not depend on it; and a prophecy succeeds only with a claim that validators with more than
    half of the power of the whitelist voted for. *)
Theorem outcome_order_free (order order' : GoRange) (OL : GoRangeLaws order)
    (OL' : GoRangeLaws order') w p wl :
  electorate w p wl → (just_over_half < consensusNeeded)%Q →
  processCompletion (order := order) p w = processCompletion (order := order') p w ∧
  (∀ p' w', processCompletion (order := order) p w = (Ok p', w') →
     w' = w ∧
     (p' = p ∨
      p'.(p_Status).(Text) = STATUS_TEXT_FAILED ∨
      p'.(p_Status).(Text) = STATUS_TEXT_SUCCESS ∧
      listed_power wl (GetBondedValidatorsByPower w)
        < 2 * power_behind w p p'.(p_Status).(FinalClaim))).
Proof.
  intros He Hc. pose proof He as (Hwl & _).
  destruct (tallies_agree order order' w p wl He) as (hc & hc' & hp & cast & E & E' & Hr & Hs & Hb & Hmaj).
  unfold processCompletion, mbind, M_bind, gets, lift. rewrite Hwl, E, E'. simpl.
  destruct (f64_ge hp _ _) eqn:Hge.
  - assert (listed_power wl (GetBondedValidatorsByPower w) < 2 * hp) as Hm
      by (eapply f64_ge_majority; [| |exact Hc|exact Hge]; lia).
    destruct (Hmaj Hm) as [<- Hp].
    split; [done|]. intros p' w' [= <- <-]. split; [done|]. right. right. split; [done|].
    simpl. by rewrite <- Hp.
  - split; [done|]. intros p' w' [= <- <-]. split; [done|].
    destruct (f64_lt _ _ _); [by right; left|by left].
Qed.
End decision.

(** ** History *)
Section history.
Context {W : Type} {coins : CoinLib} {vals : ValAddressLib} {json : ProphecyJson} {order : GoRange}
  {staking : StakingKeeper W} {config : OracleConfig} {orc : HasStore OracleStore W}
  {VL : ValAddressLaws vals} {JL : ProphecyJsonLaws vals json} {SL : StoreLaws OracleStore W orc}.
Implicit Types (w : W) (p : Prophecy) (s : OracleStore).

Lemma GetOracleWhiteList_ro : preserves (λ w, w) GetOracleWhiteList.
Proof.
  apply preserves_bind; [apply preserves_gets|]. intros s. apply preserves_foldM. intros vl entry.
  destruct (ValAddressFromBech32 entry); solve_frame.
Qed.

Lemma GetOracleWhiteList_valid w wl w' : GetOracleWhiteList w = (Ok wl, w') →
  w' = w ∧ Forall val_address_ok wl.
Proof.
  intros H. split; [exact (preserves_ok _ _ _ _ _ GetOracleWhiteList_ro H)|].
  unfold GetOracleWhiteList, get_oracle, get_store in H. inv_ok.
  match goal with H : foldM ?f _ ?l _ = _ |- _ => set (g := f) in H; revert H; generalize l end.
  intros l H.
  assert (Forall val_address_ok []) as Ha by done. revert Ha H. generalize (@nil ValAddress).
  induction l as [|e l IH]; intros acc Ha H; cbn [foldM] in H; [by inv_ok|].
  apply bind_ok in H as (acc' & w1 & H1 & H). unfold g in H1.
  destruct (ValAddressFromBech32 e) as [a|x|] eqn:E; inv_ok.
  eapply IH; [|done]. apply Forall_app. split; [done|].
  constructor; [by eapply val_valid|done].
Qed.

Lemma GetProphecy_ok id w r w' : GetProphecy id w = (Ok r, w') →
  w' = w ∧ r = prophecy_at (store w) id.
Proof.
  unfold GetProphecy, get_oracle, get_store, prophecy_at. intros H. inv_ok.
  destruct (_ !! id) as [db|]; inv_ok; [|done].
  unfold try, lift in *. destruct (DeserializeFromDB db) as [q|e|]; simpl in *; by simplify_eq.
Qed.

Lemma processCompletion_ok p w p' w' : processCompletion p w = (Ok p', w') →
  w' = w ∧ p'.(ID) = p.(ID) ∧ p'.(ClaimValidators) = p.(ClaimValidators) ∧
  p'.(ValidatorClaims) = p.(ValidatorClaims) ∧
  (p' = p ∨ p'.(p_Status).(Text) = STATUS_TEXT_FAILED ∨ p'.(p_Status).(Text) = STATUS_TEXT_SUCCESS).
Proof.
  unfold processCompletion. intros H. inv_ok.
  match goal with E : GetOracleWhiteList _ = _ |- _ =>
    pose proof (preserves_ok _ _ _ _ _ GetOracleWhiteList_ro E) as Ew; simpl in Ew end.
  inv_ok. destruct (f64_ge _ _ _); [|destruct (f64_lt _ _ _)]; inv_ok; split_and!; auto.
Qed.

(** A successful claim: a new vote of a whitelisted, bonded validator on a pending prophecy. *)
Record claimed (claim : Claim) (st : Status) w w' p p' db a : Prop := Claimed {
  cl_voter : ValString a = claim.(ValidatorAddress) ∧ val_address_ok a;
  cl_bonded : ∃ v, GetValidator w a = Some v ∧ IsBonded v = true;
  cl_named : claim.(Id) ≠ "" ∧ claim.(Content) ≠ "";
  cl_before : p = default (NewProphecy claim.(Id)) (prophecy_at (store w) claim.(Id));
  cl_pending : ¬ decided p;
  cl_fresh : vote p claim.(ValidatorAddress) = None;
  cl_id : p'.(ID) = claim.(Id);
  cl_vote : vote p' claim.(ValidatorAddress) = Some claim.(Content);
  cl_others : ∀ v, v ≠ claim.(ValidatorAddress) → vote p' v = vote p v;
  cl_status : p'.(p_Status) = st ∧ st.(Text) ≠ STATUS_TEXT_UNSPECIFIED;
  cl_votes : votes_ok p';
  cl_stored : DeserializeFromDB db = Ok p' ∧ db.(db_Id) = claim.(Id);
  cl_store : w' = put_store (store w <| os_Prophecies ::= <[claim.(Id) := db]> |>) w
}.

Lemma votes_nonempty p v : votes_ok p →
  String.eqb (map_get "" p.(ValidatorClaims) v) "" = true → vote p v = None.
Proof.
  intros (cvs & vcs & _ & Ev & [Hc Hv]) E%String.eqb_eq. unfold vote in *. rewrite Ev in *.
  simpl in *. destruct (vcs !! v) as [cl|] eqn:El; [|done]. simpl in *. subst.
  destruct (Hv _ _ El) as (a & addrs & _ & (_ & ? & _)%Hc & _). done.
Qed.

Lemma ProcessClaim_ok claim w st w' : oracle_ok (store w) → utf8_valid claim.(Content) = true →
  ProcessClaim claim w = (Ok st, w') → ∃ p p' db a, claimed claim st w w' p p' db a.
Proof.
  intros Hs Hu. unfold ProcessClaim, EnsureAddressIsInWhitelist, checkActiveValidator. intros H.
  inv_ok.
  destruct (GetOracleWhiteList_valid _ _ _ E11) as [-> Hwl].
  apply negb_false_iff, existsb_exists in E as (va & Ha & Ea%String.eqb_eq).
  apply list_elem_of_In in Ha. rewrite Forall_forall in Hwl. specialize (Hwl va Ha).
  assert (a0 = va) as -> by (rewrite <- Ea, val_roundtrip in E0 by done; congruence).
  apply GetProphecy_ok in E5 as [-> ->]. apply String.eqb_neq in E3, E4.
  apply bool_decide_eq_false_1 in E6. apply negb_false_iff in E7. apply negb_false_iff in E2.
  set (p := default _ _) in *.
  assert (p.(ID) = claim.(Id) ∧ votes_ok p) as [Hid Hv].
  { unfold p. destruct (prophecy_at _ _) as [q|] eqn:Eq; simpl;
      [by eapply prophecy_at_ok|by split; [|apply votes_ok_new]]. }
  apply votes_nonempty in E7; [|done]. rewrite <- Ea in E7.
  destruct (AddClaim_ok _ _ _ _ Hv Hwl Hu E4 E7 E8) as (Hid1 & Hst1 & _ & _ & Hvote & Hoth & Hv1).
  destruct (processCompletion_ok _ _ _ _ E9) as (-> & Hid2 & Hc2 & Hv2 & Hcase).
  assert (votes_ok a9) as Hv9.
  { destruct Hv1 as (cvs & vcs & ? & ? & ?). exists cvs, vcs. by rewrite Hc2, Hv2. }
  destruct (serialize_roundtrip a9 Hv9) as (db & Es & Ed & Eid).
  unfold SetProphecy, SetDBProphecy, upd_oracle in E10.
  apply bind_ok in E10 as (db' & w1 & [Hl ->]%lift_ok & E10).
  assert (db' = db) as -> by congruence.
  apply upd_store_ok in E10. rewrite Eid, Hid2, Hid1, Hid in E10.
  exists p, a9, db, va. split; try done.
  - destruct (GetValidator w va) as [v|]; [by exists v|done].
  - by rewrite <- Ea.
  - congruence.
  - unfold vote. by rewrite Hv2, <- Ea.
  - intros v Hn. unfold vote. rewrite Hv2. apply Hoth. by rewrite Ea.
  - split; [done|]. destruct Hcase as [->|[->| ->]]; [|done|done]. rewrite Hst1.
    intros Hx. apply E6. by rewrite Hx.
  - split; [done|]. congruence.
Qed.

Lemma ProcessClaim_refused claim w p : prophecy_at (store w) claim.(Id) = Some p → decided p →
  ∀ st w', ProcessClaim claim w ≠ (Ok st, w').
Proof.
  intros Hp Hd st w'. unfold ProcessClaim, EnsureAddressIsInWhitelist, checkActiveValidator.
  intros H. inv_ok.
  match goal with E : GetOracleWhiteList _ = _ |- _ => apply GetOracleWhiteList_valid in E as [-> _] end.
  match goal with E : GetProphecy _ _ = _ |- _ => apply GetProphecy_ok in E as [-> ->] end.
  rewrite Hp in *. simpl in *.
  match goal with E : bool_decide (_ ≠ _) = false |- _ => by apply bool_decide_eq_false_1 in E end.
Qed.

(** What happens to the oracle: claims of text, changes of the whitelist, anything elsewhere. *)
Inductive oracle_step : W → W → Prop :=
| step_claim claim st w w' : utf8_valid claim.(Content) = true →
    ProcessClaim claim w = (Ok st, w') → oracle_step w w'
| step_whitelist sender v op w w' :
    ProcessUpdateWhiteListValidator sender v op w = (Ok tt, w') → oracle_step w w'
| step_elsewhere w w' : store (S := OracleStore) w' = store w → oracle_step w w'.

(** A prophecy later on: decided ones are the same, votes are kept. *)
Definition later p p' : Prop :=
  (decided p → p' = p) ∧ ∀ v cl, vote p v = Some cl → vote p' v = Some cl.
Definition keeps s s' : Prop :=
  ∀ id p, prophecy_at s id = Some p → ∃ p', prophecy_at s' id = Some p' ∧ later p p'.

Lemma keeps_same s s' : s'.(os_Prophecies) = s.(os_Prophecies) → keeps s s'.
Proof. intros E id p. unfold prophecy_at. rewrite E. by exists p. Qed.
Lemma keeps_trans s1 s2 s3 : keeps s1 s2 → keeps s2 s3 → keeps s1 s3.
Proof.
  intros H1 H2 id p (p1 & E1 & D1 & V1)%H1. destruct (H2 _ _ E1) as (p2 & E2 & D2 & V2).
  exists p2. split; [done|]. split; [|by auto]. intros Hd. pose proof (D1 Hd) as ->. by apply D2.
Qed.

Lemma claimed_keeps claim st w w' p p' db a : oracle_ok (store w) →
  claimed claim st w w' p p' db a → oracle_ok (store w') ∧ keeps (store w) (store w').
Proof.
  intros Hs C. destruct (cl_stored _ _ _ _ _ _ _ _ C) as [Ed _].
  assert ((store w').(os_Prophecies) = <[claim.(Id) := db]> (store w).(os_Prophecies)) as Em.
  { rewrite (cl_store _ _ _ _ _ _ _ _ C), store_put. done. }
  split.
  - intros id db'. rewrite Em. destruct (decide (id = claim.(Id))) as [->|Hn].
    + rewrite lookup_insert_eq. intros [= <-]. exists p'.
      by destruct C as [_ _ _ _ _ _ ? _ _ _ ? _ _].
    + rewrite lookup_insert_ne by done. apply Hs.
  - intros id q Hq. destruct (decide (id = claim.(Id))) as [->|Hn].
    + exists p'. split; [unfold prophecy_at; by rewrite Em, lookup_insert_eq, Ed|].
      pose proof (cl_before _ _ _ _ _ _ _ _ C) as Hp. rewrite Hq in Hp. simpl in Hp. subst q.
      split; [intros Hd; by destruct (cl_pending _ _ _ _ _ _ _ _ C)|].
      intros v cl Hv. rewrite (cl_others _ _ _ _ _ _ _ _ C); [done|]. intros ->.
      pose proof (cl_fresh _ _ _ _ _ _ _ _ C). congruence.
    + exists q. split; [|done]. unfold prophecy_at in *. by rewrite Em, lookup_insert_ne.
Qed.

Lemma whitelist_step sender v op w w' : ProcessUpdateWhiteListValidator sender v op w = (Ok tt, w') →
  (store w').(os_Prophecies) = (store w).(os_Prophecies).
Proof.
  unfold ProcessUpdateWhiteListValidator, IsAdminAccount, GetAdminAccount, get_oracle, get_store.
  intros H. inv_ok.
  assert (∀ l w1, SetOracleWhiteList l w1 = (Ok tt, w') →
    (store w').(os_Prophecies) = (store w1).(os_Prophecies)) as Hset.
  { intros l w1 ->%upd_store_ok. by rewrite store_put. }
  destruct (String.eqb op "add"); [|destruct (String.eqb op "remove")];
    unfold AddOracleWhiteList, RemoveOracleWhiteList in *; inv_ok;
    match goal with E : GetOracleWhiteList _ = _ |- _ =>
      apply GetOracleWhiteList_valid in E as [-> _] end; eauto.
Qed.

Lemma step_keeps w w' : oracle_step w w' → oracle_ok (store w) →
  oracle_ok (store w') ∧ keeps (store w) (store w').
Proof.
  intros [claim st w1 w2 Hu E|sender v op w1 w2 E|w1 w2 E] Hs.
  - destruct (ProcessClaim_ok _ _ _ _ Hs Hu E) as (p & p' & db & a & C). by eapply claimed_keeps.
  - apply whitelist_step in E. split; [|by apply keeps_same].
    intros id db. rewrite E. apply Hs.
  - rewrite E. split; [done|by apply keeps_same].
Qed.
End history.

(** C19: whatever claims are made, whoever joins or leaves the whitelist and whatever else
    happens on the chain: the two maps of every prophecy tell the same votes, one for each
    validator; a vote is never changed or withdrawn; and a prophecy that has been decided stays as
    it is and no later claim about it succeeds, so it is reported as decided once. *)
Theorem prophecies_always {W : Type} `{ProphecyJson} `{GoRange} `{StakingKeeper W} `{OracleConfig}
    `{HV : ValAddressLaws} `{HJ : !ProphecyJsonLaws _ _} `{HO : StoreLaws OracleStore W} (w w' : W) :
  oracle_ok (store w) → rtc oracle_step w w' →
  oracle_ok (store w') ∧ keeps (store w) (store w') ∧
  (∀ id p, prophecy_at (store w) id = Some p → decided p →
     ∀ claim st w'', claim.(Id) = id → ProcessClaim claim w' ≠ (Ok st, w'')).
Proof.
  intros Hs Hr. assert (oracle_ok (store w') ∧ keeps (store w) (store w')) as [Hs' Hk].
  { revert Hs. induction Hr as [w|w w1 w2 Hst _ IH]; intros Hs; [by split; [|apply keeps_same]|].
    destruct (step_keeps _ _ Hst Hs) as [Hs1 Hk1]. destruct (IH Hs1) as [? ?].
    split; [done|]. by eapply keeps_trans. }
  split_and!; [done|done|]. intros id p Hp Hd claim st w'' <-.
  destruct (Hk _ _ Hp) as (p' & Hp' & Hl & _). rewrite (Hl Hd) in Hp'.
  by apply (ProcessClaim_refused _ _ p).
Qed.

(** ** The scenario: two of the three validators decide, the third comes too late *)
Definition v1_claims : Claim := mkClaim "17" "%v1" "yes".
Definition v2_claims : Claim := mkClaim "17" "%v2" "yes".
Definition after_v1 : World := (ProcessClaim v1_claims bridge_genesis).2.
Definition after_v2 : World := (ProcessClaim v2_claims after_v1).2.

Lemma ran {W A} (m : M W A) w a : (m w).1 = Ok a → m w = (Ok a, (m w).2).
Proof. destruct (m w) as [r w']. simpl. by intros ->. Qed.
Lemma bridge_genesis_ok : oracle_ok (store bridge_genesis).
Proof.
  intros id db H. change ((∅ : gmap string DBProphecy) !! id = Some db) in H.
  by rewrite lookup_empty in H.
Qed.
Lemma two_claims : rtc oracle_step bridge_genesis after_v2.
Proof.
  apply (rtc_l _ _ after_v1).
  - apply (step_claim v1_claims (mkStatus STATUS_TEXT_PENDING "")); [done|].
    apply (ran (ProcessClaim v1_claims)). by vm_compute.
  - apply rtc_once. apply (step_claim v2_claims (mkStatus STATUS_TEXT_SUCCESS "yes")); [done|].
    apply (ran (ProcessClaim v2_claims)). by vm_compute.
Qed.
Lemma two_claims_decide :
  ∃ p, prophecy_at (store after_v2) "17" = Some p ∧ p.(p_Status).(Text) = STATUS_TEXT_SUCCESS.
Proof. eexists. split; vm_compute; reflexivity. Qed.

Lemma prophecies_always_witness :
  oracle_ok (store after_v2) ∧
  ∀ st w, ProcessClaim (mkClaim "17" "%v3" "yes") after_v2 ≠ (Ok st, w).
Proof.
  destruct (prophecies_always bridge_genesis after_v2 bridge_genesis_ok two_claims) as (Hok & _ & _).
  split; [exact Hok|]. intros st w.
  destruct two_claims_decide as (p & Hp & Hd).
  apply (prophecies_always after_v2 after_v2 Hok (rtc_refl _ _)) with "17" p; [done| |done].
  unfold decided. by rewrite Hd.
Defined.

(** Another order of the claims. *)
Definition backwards : GoRange := {| go_range A site l := reverse l |}.
Lemma backwards_laws : GoRangeLaws backwards.
Proof. split. intros A site l. simpl. apply reverse_Permutation. Qed.
Definition split_votes : Prophecy :=
  mkProphecy "17" (NewStatus STATUS_TEXT_PENDING "")
    (Some (list_to_map [("yes", ["v1"; "v2"]); ("no", ["v3"])]))
    (Some (list_to_map [("%v1", "yes"); ("%v2", "yes"); ("%v3", "no")])).

Ltac by_entries H :=
  apply elem_of_map_to_list in H; vm_compute in H;
  repeat (apply elem_of_cons in H as [[= -> ->]|H]); [..|by apply not_elem_of_nil in H].
Ltac by_elements H :=
  repeat (apply elem_of_cons in H as [->|H]); [..|by apply not_elem_of_nil in H].

Lemma split_votes_electorate : electorate bridge_genesis split_votes ["v1"; "v2"; "v3"].
Proof.
  split; [by vm_compute|]. split; [|split].
  - eexists _, _. split; [reflexivity|]. split; [reflexivity|]. split.
    + intros cl addrs H. by_entries H; split_and!; try done;
        try (by apply (bool_decide_eq_true_1 (NoDup _))); intros a Ha; by_elements Ha;
        (split; [unfold val_address_ok; simpl; lia|by vm_compute]).
    + intros v cl H. by_entries H;
        [exists "v3", ["v3"]|exists "v1", ["v1"; "v2"]|exists "v2", ["v1"; "v2"]];
        (split; [done|split; [by vm_compute|by apply (bool_decide_eq_true_1 (_ ∈ _))]]).
  - intros cl a. unfold voters, map_get. simpl ClaimValidators. unfold from_option, default.
    destruct (_ !! cl) as [addrs|] eqn:H; [|by intros ?%not_elem_of_nil]. simpl. intros Ha.
    by_entries H; by_elements Ha; by apply (bool_decide_eq_true_1 (_ ∈ _)).
  - by vm_compute.
Qed.

Lemma outcome_order_free_witness :
  (processCompletion split_votes bridge_genesis).1
    = Ok (split_votes <| p_Status := mkStatus STATUS_TEXT_SUCCESS "yes" |>) ∧
  processCompletion split_votes bridge_genesis
    = processCompletion (order := backwards) split_votes bridge_genesis.
Proof.
  split; [by vm_compute|].
  apply (outcome_order_free _ backwards _ backwards_laws bridge_genesis split_votes
           ["v1"; "v2"; "v3"] split_votes_electorate). by vm_compute.
Defined.

(** Votes of validators that left the whitelist still count, while the whole they are measured
    against shrinks: two claims can then both reach the threshold, and the order of the map
    decides between them. *)
Definition tied_votes : Prophecy :=
  mkProphecy "17" (NewStatus STATUS_TEXT_PENDING "")
    (Some (list_to_map [("yes", ["v1"]); ("no", ["v2"])]))
    (Some (list_to_map [("%v1", "yes"); ("%v2", "no")])).
Example outcome_depends_on_order :
  let w := bridge_genesis <| w_oracle := mkOracleStore (Some ["%v3"]) "admin" ∅ |>
             <| w_validators := list_to_map [("v1", 40%N); ("v2", 40%N); ("v3", 20%N)] |> in
  (processCompletion tied_votes w).1 ≠ (processCompletion (order := backwards) tied_votes w).1.
Proof. vm_compute. discriminate. Qed.
