(* ===== verification/EthBridgeSpec.v ===== *)
(** * EthBridgeSpec: coins over the bridge

    A decided claim mints its coins once; locking and burning destroy exactly what is sent and
    collect the fee; the blacklist and the pause stop both. *)

From S2P Require Import World Scenario BridgeWorld OracleSpec.
From S2P Require Import Prelude Sdk SdkRef Rat Bank Keepers Admin ClpKeeper ClpExec Oracle.
From S2P Require Import EthBridge.
Local Open Scope Z_scope.

Section spec.
Context {W : Type} {sdk : Sdk} {HL : SdkLaws sdk} {coins : CoinLib} {vals : ValAddressLib}
  {eth : EthLib} {pjson : ProphecyJson} {cjson : ClaimJson} {order : GoRange}
  {errs : SdkErrors} {bank : BankKeeper W} {staking : StakingKeeper W} {config : OracleConfig}
  {accounts : AccountKeeper W} {admin : AdminKeeper W} {orc : HasStore OracleStore W}
  {bridge : HasStore EthBridgeStore W} {events : HasStore EventLog W}
  {VL : ValAddressLaws vals} {PL : ProphecyJsonLaws vals pjson} {JL : ClaimJsonLaws cjson}
  {BW : EthBridgeWorld W}.
Implicit Types w : W.
Notation oracle_of w := (store (S := OracleStore) w).
Notation bridge_of w := (store (S := EthBridgeStore) w).

Lemma still_put_bridge (s : EthBridgeStore) w : still w (put_store s w).
Proof. intros a d. unfold balance. by rewrite frame_balance. Qed.
Lemma still_put_oracle (s : OracleStore) w : still w (put_store s w).
Proof. intros a d. unfold balance. by rewrite frame_balance. Qed.
Lemma still_events (l : list string) w a w' : EmitEvents l w = (Ok a, w') →
  still w w' ∧ oracle_of w' = oracle_of w ∧ bridge_of w' = bridge_of w.
Proof.
  unfold EmitEvents. intros ->%upd_store_ok. split_and!.
  - intros x d. unfold balance. by rewrite frame_balance.
  - apply store_put_other.
  - apply store_put_other.
Qed.

(** ** Coins *)
Definition amount_in (denom : string) (amount : Z) (d : string) : Z :=
  if String.eqb denom d then amount else 0.
Lemma one_coin_ok denom amount w cs w' : one_coin denom amount w = (Ok cs, w') →
  w' = w ∧ 0 <= amount ∧ ∀ d, AmountOf cs d = amount_in denom amount d.
Proof.
  unfold one_coin. intros H. inv_ok.
  match goal with E : NewCoin _ _ = Ok _ |- _ => apply new_coin_inv in E as (-> & ? & _) end.
  match goal with E : NewCoins _ = Ok _ |- _ => rename E into Ec end.
  split_and!; [done|done|]. intros d. rewrite (new_coins_amount _ _ d Ec).
  unfold AmountOf, amount_in. simpl. lia.
Qed.

(** The coins of a successful claim: pegged tokens are written with a prefix. *)
Definition minted_denom (c : OracleClaimContent) : string :=
  match c.(oc_ClaimType) with
  | CLAIM_TYPE_LOCK => PeggedCoinPrefix +:+ c.(oc_Symbol)
  | _ => c.(oc_Symbol)
  end.
Definition pays (c : OracleClaimContent) w w' : Prop :=
  ∀ a d, balance w' a d = balance w a d
    + (if String.eqb a c.(oc_CosmosReceiver) then amount_in (minted_denom c) c.(oc_Amount) d else 0).

Lemma AddPeggyToken_ok token w a w' : AddPeggyToken token w = (Ok a, w') →
  still w w' ∧ oracle_of w' = oracle_of w ∧ token ∈ (bridge_of w').(eb_PeggyTokens) ∧
  bridge_of w' = bridge_of w <| eb_PeggyTokens := (bridge_of w').(eb_PeggyTokens) |> ∧
  (NoDup (bridge_of w).(eb_PeggyTokens) → NoDup (bridge_of w').(eb_PeggyTokens)).
Proof.
  unfold AddPeggyToken, ExistsPeggyToken, GetPeggyToken, get_bridge, get_store. intros H. inv_ok.
  destruct (existsb _ _) eqn:E; inv_ok.
  - apply existsb_exists in E as (x & Hx & ->%String.eqb_eq). split_and!; try done.
    + by apply list_elem_of_In.
    + by destruct (bridge_of w').
  - apply upd_store_ok in H. subst w'. rewrite store_put. split_and!; try done.
    + apply still_put_bridge.
    + apply store_put_other.
    + apply elem_of_app. right. by apply list_elem_of_singleton.
    + simpl. intros Hd. apply NoDup_app. split_and!; [done| |apply NoDup_singleton].
      intros x Hx ->%list_elem_of_singleton.
      assert (existsb (λ v, String.eqb v token) (bridge_of w).(eb_PeggyTokens) = true); [|congruence].
      apply existsb_exists. exists token. split; [by apply list_elem_of_In|apply String.eqb_refl].
Qed.

Lemma mint_and_send cs a w w1 w' : MintCoins ModuleName cs w = (Ok tt, w1) →
  SendCoinsFromModuleToAccount ModuleName a cs w1 = (Ok tt, w') →
  oracle_of w' = oracle_of w ∧ bridge_of w' = bridge_of w ∧
  ∀ x d, balance w' x d = balance w x d + (if String.eqb x a then AmountOf cs d else 0).
Proof.
  intros Hm Hs. split_and!.
  - rewrite (preserves_ok _ _ _ _ _ (frame_send_ma ModuleName a cs) Hs).
    by rewrite (preserves_ok _ _ _ _ _ (frame_mint ModuleName cs) Hm).
  - rewrite (preserves_ok _ _ _ _ _ (frame_send_ma ModuleName a cs) Hs).
    by rewrite (preserves_ok _ _ _ _ _ (frame_mint ModuleName cs) Hm).
  - intros x d. rewrite (send_module_account _ _ _ _ _ x d Hs), (mint_coins _ _ _ _ x d Hm).
    destruct (String.eqb x (NewModuleAddress ModuleName)); lia.
Qed.

Lemma ProcessSuccessfulClaim_ok fc w a w' : ProcessSuccessfulClaim fc w = (Ok a, w') →
  ∃ c, Unmarshal_OracleClaimContent fc = Ok c ∧ 0 <= c.(oc_Amount) ∧
    c.(oc_ClaimType) ≠ CLAIM_TYPE_UNSPECIFIED ∧ pays c w w' ∧ oracle_of w' = oracle_of w ∧
    (c.(oc_ClaimType) = CLAIM_TYPE_LOCK →
     PeggedCoinPrefix +:+ c.(oc_Symbol) ∈ (bridge_of w').(eb_PeggyTokens)).
Proof.
  unfold ProcessSuccessfulClaim, CreateOracleClaimFromOracleString. intros H.
  apply bind_ok in H as (c & w0 & [Hc ->]%lift_ok & H).
  apply bind_ok in H as (cs & w2 & Hmint & H).
  apply on_err_ok in H as [H|(e & w3 & _ & H)]; [|by inv_ok]. destruct a.
  exists c. split; [by destruct (Unmarshal_OracleClaimContent fc)|].
  assert (∀ d w1 w1', still w w1 → oracle_of w1 = oracle_of w → minted_denom c = d →
    (cs' ← one_coin d c.(oc_Amount); _ ← MintCoins ModuleName cs'; mret cs') w1 = (Ok cs, w1') →
    w1' = w2 → 0 <= c.(oc_Amount) ∧ pays c w w' ∧ oracle_of w' = oracle_of w ∧
      bridge_of w' = bridge_of w1) as Hrun.
  { intros d w1 w1' Hst Ho Hd Hr ->. inv_ok.
    match goal with E : one_coin _ _ _ = _ |- _ => apply one_coin_ok in E as (-> & ? & Ha) end.
    match goal with E : MintCoins _ _ _ = (Ok ?u, _) |- _ => destruct u;
      destruct (mint_and_send _ _ _ _ _ E H) as (Hor & Hbr & Hbal) end.
    split_and!; [done| |congruence|done]. intros x d'. by rewrite Hbal, Hst, Ha. }
  destruct c.(oc_ClaimType) eqn:Et; [by inv_ok| |].
  - destruct (Hrun c.(oc_Symbol) w w2) as (? & ? & ? & _); try done.
    unfold minted_denom. by rewrite Et.
  - apply bind_ok in Hmint as (u & w1 & Hadd & Hmint).
    destruct (AddPeggyToken_ok _ _ _ _ Hadd) as (Hst & Ho & Hin & _).
    destruct (Hrun (PeggedCoinPrefix +:+ c.(oc_Symbol)) w1 w2) as (? & ? & ? & Hb); try done.
    { unfold minted_denom. by rewrite Et. }
    split_and!; try done. intros _. by rewrite Hb.
Qed.

(** ** Claims *)
Lemma oracle_claim_ok ec oc : CreateOracleClaimFromEthClaim ec = Ok oc →
  oc.(Id) = oracle_id ec ∧ oc.(ValidatorAddress) = ec.(ec_ValidatorAddress) ∧
  utf8_valid oc.(Content) = true.
Proof.
  unfold CreateOracleClaimFromEthClaim. intros H.
  apply rbind_ok in H as (a & _ & H). apply rbind_ok in H as (t & Ht & [= <-]).
  split_and!; [done|done|]. by eapply content_text.
Qed.

Lemma CreateEthBridgeClaim_ok msg w a w' : let ec := msg.(cc_EthBridgeClaim) in
  oracle_ok (oracle_of w) → CreateEthBridgeClaim msg w = (Ok a, w') →
  ∃ oc st p p' db va w1, claimed oc st w w1 p p' db va ∧
    oc.(Id) = oracle_id ec ∧ oc.(ValidatorAddress) = ec.(ec_ValidatorAddress) ∧
    utf8_valid oc.(Content) = true ∧ Oracle.ProcessClaim oc w = (Ok st, w1) ∧
    oracle_of w' = oracle_of w1 ∧ CreateOracleClaimFromEthClaim ec = Ok oc ∧
    (if bool_decide (st.(Text) = STATUS_TEXT_SUCCESS)
     then ∃ c, Unmarshal_OracleClaimContent st.(FinalClaim) = Ok c ∧ 0 <= c.(oc_Amount) ∧
            c.(oc_ClaimType) ≠ CLAIM_TYPE_UNSPECIFIED ∧ pays c w w' ∧
            (c.(oc_ClaimType) = CLAIM_TYPE_LOCK →
             PeggedCoinPrefix +:+ c.(oc_Symbol) ∈ (bridge_of w').(eb_PeggyTokens))
     else still w w').
Proof.
  intros ec Hok. unfold CreateEthBridgeClaim, EthBridge.ProcessClaim. intros H.
  apply bind_ok in H as (st & w1 & Hc & H).
  apply bind_ok in Hc as (oc & w0 & [Ho ->]%lift_ok & Hc). simpl in Hc.
  destruct (oracle_claim_ok _ _ Ho) as (Hid & Hva & Hu).
  destruct (ProcessClaim_ok _ _ _ _ Hok Hu Hc) as (p & p' & db & va & C).
  apply bind_ok in H as (u & w2 & Hp & H). apply still_events in H as (Hst & Hor & Hbr).
  assert (still w w1) as Hst1 by (rewrite (cl_store _ _ _ _ _ _ _ _ C); apply still_put_oracle).
  exists oc, st, p, p', db, va, w1. split; [done|]. split; [done|]. split; [done|].
  split; [done|]. split; [done|].
  destruct (bool_decide _) eqn:Es.
  - destruct (ProcessSuccessfulClaim_ok _ _ _ _ Hp) as (c & ? & ? & ? & Hpay & Ho2 & Hpeg).
    split; [by rewrite Hor, Ho2|]. split; [done|]. exists c. split_and!; try done.
    + intros x d. by rewrite Hst, Hpay, Hst1.
    + intros Hl. rewrite Hbr. by apply Hpeg.
  - inv_ok. split; [by rewrite Hor|]. split; [done|]. intros x d. by rewrite Hst, Hst1.
Qed.

(** ** What leaves for Ethereum *)

(** The fee goes to the receiver of ceth, or stays with the module when there is none. *)
Definition fee_collector w : AccAddress :=
  match GetCethReceiverAccount w with
  | (Ok a, _) => if String.eqb a "" then NewModuleAddress ModuleName else a
  | _ => NewModuleAddress ModuleName
  end.
Definition exported (sender : AccAddress) (symbol : string) (amount fee : Z) w w' : Prop :=
  ∀ a d, balance w' a d = balance w a d
    - (if String.eqb a sender then amount_in symbol amount d + amount_in CethSymbol fee d else 0)
    + (if String.eqb a (fee_collector w) then amount_in CethSymbol fee d else 0).

Lemma GetCethReceiverAccount_ro w r w' : GetCethReceiverAccount w = (r, w') → w' = w.
Proof.
  unfold GetCethReceiverAccount, get_bridge, get_store, mbind, M_bind, gets.
  destruct (String.eqb _ ""); [by intros [= <- <-]|].
  by destruct (AccAddressFromBech32 _); intros [= <- <-].
Qed.
Lemma fee_collector_set w b w' : IsCethReceiverAccountSet w = (Ok b, w') → w' = w ∧
  (if b then GetCethReceiverAccount w = (Ok (fee_collector w), w)
   else fee_collector w = NewModuleAddress ModuleName).
Proof.
  unfold IsCethReceiverAccountSet, fee_collector. intros H.
  apply bind_ok in H as (a & w1 & Hg & [<- <-]%ret_ok).
  pose proof (GetCethReceiverAccount_ro _ _ _ Hg) as ->. split; [done|]. rewrite Hg.
  by destruct (String.eqb a "").
Qed.

(** Both handlers end like this: what [coins] holds goes to the module, [amount] is burned. *)
Lemma send_and_burn sender symbol amount cs extra w u w' :
  (∀ d, AmountOf cs d = amount_in symbol amount d + extra d) →
  (_ ← SendCoinsFromAccountToModule sender ModuleName cs;
   cs ← one_coin symbol amount; BurnCoins ModuleName cs) w = (Ok u, w') →
  0 <= amount ∧ oracle_of w' = oracle_of w ∧ bridge_of w' = bridge_of w ∧
  ∀ a d, balance w' a d = balance w a d
    - (if String.eqb a sender then amount_in symbol amount d + extra d else 0)
    + (if String.eqb a (NewModuleAddress ModuleName) then extra d else 0).
Proof.
  intros Hcs H. apply bind_ok in H as ([] & w1 & Hs & H).
  apply bind_ok in H as (cs' & w2 & (-> & Hpos & Ha)%one_coin_ok & H). destruct u.
  split_and!; [done|..].
  - rewrite (preserves_ok _ _ _ _ _ (frame_burn ModuleName cs') H).
    by rewrite (preserves_ok _ _ _ _ _ (frame_send_am sender ModuleName cs) Hs).
  - rewrite (preserves_ok _ _ _ _ _ (frame_burn ModuleName cs') H).
    by rewrite (preserves_ok _ _ _ _ _ (frame_send_am sender ModuleName cs) Hs).
  - intros a d. rewrite (burn_coins _ _ _ _ a d H), (send_account_module _ _ _ _ _ a d Hs).
    rewrite Ha, Hcs. destruct (String.eqb a sender), (String.eqb a (NewModuleAddress ModuleName)); lia.
Qed.

Lemma pay_fee sender receiver fee cs w u w' :
  (∀ d, AmountOf cs d = amount_in CethSymbol fee d) →
  SendCoins sender receiver cs w = (Ok u, w') →
  oracle_of w' = oracle_of w ∧ bridge_of w' = bridge_of w ∧
  ∀ a d, balance w' a d = balance w a d
    - (if String.eqb a sender then amount_in CethSymbol fee d else 0)
    + (if String.eqb a receiver then amount_in CethSymbol fee d else 0).
Proof.
  intros Ha Hs. destruct u. split_and!.
  - by rewrite (preserves_ok _ _ _ _ _ (frame_send sender _ cs) Hs).
  - by rewrite (preserves_ok _ _ _ _ _ (frame_send sender _ cs) Hs).
  - intros a d. by rewrite (send_coins _ _ _ _ _ a d Hs), Ha.
Qed.

(** The common part of locking and burning: a fee, then the coins. *)
Definition export_coins (sender : AccAddress) (symbol : string) (amount fee : Int)
    (without : M W Coins) : M W unit :=
  isSet ← IsCethReceiverAccountSet;
  coins ←
    (if (isSet : bool) then
       coins ← one_coin CethSymbol fee;
       receiver ← GetCethReceiverAccount;
       _ ← SendCoins sender receiver coins;
       one_coin symbol amount
     else without);
  _ ← SendCoinsFromAccountToModule sender ModuleName coins;
  coins ← one_coin symbol amount;
  BurnCoins ModuleName coins.

Lemma export_coins_ok sender symbol amount fee without w u w' :
  (∀ cs w1, without w = (Ok cs, w1) → w1 = w ∧ 0 <= fee ∧
     ∀ d, AmountOf cs d = amount_in symbol amount d + amount_in CethSymbol fee d) →
  export_coins sender symbol amount fee without w = (Ok u, w') →
  0 <= amount ∧ 0 <= fee ∧ oracle_of w' = oracle_of w ∧ bridge_of w' = bridge_of w ∧
  exported sender symbol amount fee w w'.
Proof.
  intros Hwithout H. unfold export_coins in H.
  apply bind_ok in H as (isSet & w1 & [-> Hfee]%fee_collector_set & H).
  apply bind_ok in H as (cs & w1 & Hc & H). destruct isSet.
  - apply bind_ok in Hc as (cs1 & w2 & (-> & Hpos & Ha)%one_coin_ok & Hc).
    apply bind_ok in Hc as (r & w2 & Hr & Hc). rewrite Hfee in Hr. injection Hr as <- <-.
    apply bind_ok in Hc as (u2 & w2 & Hs & (-> & Hpos2 & Ha2)%one_coin_ok).
    destruct (pay_fee _ _ _ _ _ _ _ Ha Hs) as (Ho1 & Hb1 & Hbal1).
    destruct (send_and_burn sender symbol amount cs (λ _, 0) _ _ _
                ltac:(intros d; rewrite Ha2; lia) H) as (_ & Ho2 & Hb2 & Hbal2).
    split_and!; [done|done|congruence|congruence|]. intros a d. rewrite Hbal2, Hbal1.
    destruct (String.eqb a sender), (String.eqb a _), (String.eqb a (NewModuleAddress _)); lia.
  - destruct (Hwithout _ _ Hc) as (-> & Hpos & Ha).
    destruct (send_and_burn _ _ _ _ _ _ _ _ Ha H) as (Hpos2 & Ho & Hb & Hbal).
    split_and!; [done|done|done|done|]. intros a d. rewrite Hbal. by rewrite Hfee.
Qed.

Lemma two_coins_ok symbol amount fee w cs w1 :
  (coin ← lift (NewCoin symbol amount); ceth ← lift (NewCoin CethSymbol fee);
   lift (NewCoins [coin; ceth])) w = (Ok cs, w1) →
  w1 = w ∧ 0 <= fee ∧ ∀ d, AmountOf cs d = amount_in symbol amount d + amount_in CethSymbol fee d.
Proof.
  intros H. apply bind_ok in H as (c1 & w2 & [Hc1 ->]%lift_ok & H).
  apply bind_ok in H as (c2 & w2 & [Hc2 ->]%lift_ok & [Hn ->]%lift_ok).
  apply new_coin_inv in Hc1 as (-> & _ & _), Hc2 as (-> & ? & _). split_and!; [done|done|].
  intros d. rewrite (new_coins_amount _ _ d Hn). unfold AmountOf, amount_in. simpl. lia.
Qed.

Lemma exists_pegged symbol w b w1 : ExistsPeggyToken symbol w = (Ok b, w1) →
  w1 = w ∧ (b = true ↔ symbol ∈ (bridge_of w).(eb_PeggyTokens)).
Proof.
  unfold ExistsPeggyToken, GetPeggyToken, get_bridge, get_store. intros H. inv_ok.
  split; [done|]. rewrite existsb_exists. setoid_rewrite list_elem_of_In. split.
  - by intros (x & Hx & ->%String.eqb_eq).
  - intros Hx. exists symbol. split; [done|apply String.eqb_refl].
Qed.

(** What both ask before anything moves. *)
Definition bridge_open (symbol receiver signer : string) (pegged : Prop) w (sender : AccAddress) : Prop :=
  (bridge_of w).(eb_Pause) = false ∧ pegged ∧
  (bridge_of w).(eb_Blacklist) !! receiver = None ∧
  AccAddressFromBech32 signer = Ok sender ∧ is_Some (GetAccount w sender).

Lemma is_paused_ok w b w1 : IsPaused w = (Ok b, w1) → w1 = w ∧ b = (bridge_of w).(eb_Pause).
Proof. unfold IsPaused, get_bridge, get_store. intros H. by inv_ok. Qed.
Lemma is_blacklisted_ok address w b w1 : IsBlacklisted address w = (Ok b, w1) →
  w1 = w ∧ b = bool_decide (is_Some ((bridge_of w).(eb_Blacklist) !! address)).
Proof. unfold IsBlacklisted, get_bridge, get_store. intros H. by inv_ok. Qed.
Lemma bool_lookup {V} (m : gmap string V) k : bool_decide (is_Some (m !! k)) = false → m !! k = None.
Proof. intros H%bool_decide_eq_false_1. by apply eq_None_not_Some. Qed.
Lemma not_in_list {A} (x : A) (l : list A) b : (b = true ↔ x ∈ l) → b = false → x ∉ l.
Proof. intros H ->. by intros ?%H. Qed.

Lemma blacklist_and_export sender receiver symbol amount fee without w u w' :
  (∀ cs w1, without w = (Ok cs, w1) → w1 = w ∧ 0 <= fee ∧
     ∀ d, AmountOf cs d = amount_in symbol amount d + amount_in CethSymbol fee d) →
  (blacklisted ← IsBlacklisted receiver; _ ← throw_if blacklisted ErrInvalidEthAddress;
   export_coins sender symbol amount fee without) w = (Ok u, w') →
  (bridge_of w).(eb_Blacklist) !! receiver = None ∧
  0 <= amount ∧ 0 <= fee ∧ oracle_of w' = oracle_of w ∧ bridge_of w' = bridge_of w ∧
  exported sender symbol amount fee w w'.
Proof.
  intros Hw H. apply bind_ok in H as (b & w1 & [-> ->]%is_blacklisted_ok & H).
  apply bind_ok in H as (u1 & w1 & [Hf ->]%throw_if_ok & H).
  split; [by apply bool_lookup|by eapply export_coins_ok].
Qed.

Lemma ProcessLock_ok sender msg w u w' : ProcessLock sender msg w = (Ok u, w') →
  (bridge_of w).(eb_Blacklist) !! msg.(lk_EthereumReceiver) = None ∧
  0 <= msg.(lk_Amount) ∧ 0 <= msg.(lk_CethAmount) ∧
  oracle_of w' = oracle_of w ∧ bridge_of w' = bridge_of w ∧
  exported sender msg.(lk_Symbol) msg.(lk_Amount) msg.(lk_CethAmount) w w'.
Proof. intros H. eapply blacklist_and_export; [|exact H]. apply two_coins_ok. Qed.

Lemma ProcessBurn_ok sender msg w u w' : 0 <= msg.(bn_CethAmount) →
  ProcessBurn sender msg w = (Ok u, w') →
  (bridge_of w).(eb_Blacklist) !! msg.(bn_EthereumReceiver) = None ∧
  0 <= msg.(bn_Amount) ∧ 0 <= msg.(bn_CethAmount) ∧
  oracle_of w' = oracle_of w ∧ bridge_of w' = bridge_of w ∧
  exported sender msg.(bn_Symbol) msg.(bn_Amount) msg.(bn_CethAmount) w w'.
Proof.
  intros Hfee H.
  eapply (blacklist_and_export sender _ _ _ _
    (if String.eqb msg.(bn_Symbol) CethSymbol then
       total ← lift (IntAdd msg.(bn_CethAmount) msg.(bn_Amount)); one_coin CethSymbol total
     else coin ← lift (NewCoin msg.(bn_Symbol) msg.(bn_Amount));
          ceth ← lift (NewCoin CethSymbol msg.(bn_CethAmount)); lift (NewCoins [coin; ceth])));
    [|exact H].
  intros cs w1. destruct (String.eqb_spec (bn_Symbol msg) CethSymbol) as [->|_]; [|apply two_coins_ok].
  intros Hc. apply bind_ok in Hc as (t & w2 & [->%int_add_inv ->]%lift_ok & (-> & _ & Ha)%one_coin_ok).
  split_and!; [done|done|]. intros d. rewrite Ha. unfold amount_in. destruct (String.eqb _ d); lia.
Qed.

(** What both handlers ask of the sender. *)
Lemma checked_sender signer e (k : AccAddress → M W unit) w u w' :
  (sender ← lift (AccAddressFromBech32 signer); _ ← existing_account sender e; k sender) w
    = (Ok u, w') →
  ∃ sender, AccAddressFromBech32 signer = Ok sender ∧ is_Some (GetAccount w sender) ∧
    k sender w = (Ok u, w').
Proof.
  intros H. apply bind_ok in H as (a & w1 & [Ha ->]%lift_ok & H).
  apply bind_ok in H as (u1 & w1 & Hx & H). unfold existing_account in Hx.
  apply bind_ok in Hx as (acc & w2 & [-> ->]%gets_ok & Hx).
  exists a. destruct (GetAccount w a); [|by apply throw_ok in Hx]. by apply ret_ok in Hx as [_ <-].
Qed.

Lemma Lock_ok msg w u w' : Lock msg w = (Ok u, w') →
  ∃ sender, bridge_open msg.(lk_Symbol) msg.(lk_EthereumReceiver) msg.(lk_CosmosSender)
      (msg.(lk_Symbol) ∉ (bridge_of w).(eb_PeggyTokens)) w sender ∧
    0 <= msg.(lk_Amount) ∧ 0 <= msg.(lk_CethAmount) ∧ oracle_of w' = oracle_of w ∧
    bridge_of w' = bridge_of w ∧
    exported sender msg.(lk_Symbol) msg.(lk_Amount) msg.(lk_CethAmount) w w'.
Proof.
  unfold Lock. intros H. apply bind_ok in H as (p & w1 & [-> ->]%is_paused_ok & H).
  apply bind_ok in H as (u1 & w1 & [Hpause ->]%throw_if_ok & H).
  apply bind_ok in H as (b & w1 & [-> Hpeg]%exists_pegged & H).
  apply bind_ok in H as (u2 & w1 & [Hb ->]%throw_if_ok & H).
  apply checked_sender in H as (sender & Hs & Hacc & H).
  apply bind_ok in H as (u3 & w1 & Hl & (Hst & Ho & Hbr)%still_events).
  destruct (ProcessLock_ok _ _ _ _ _ Hl) as (Hbl & ? & ? & Ho1 & Hb1 & Hex).
  exists sender. unfold bridge_open.
  split_and!; try done; [by eapply not_in_list|congruence|congruence|].
  intros a d. by rewrite Hst, Hex.
Qed.

Lemma Burn_ok msg w u w' : 0 <= msg.(bn_CethAmount) → Burn msg w = (Ok u, w') →
  ∃ sender, bridge_open msg.(bn_Symbol) msg.(bn_EthereumReceiver) msg.(bn_CosmosSender)
      (msg.(bn_Symbol) ∈ (bridge_of w).(eb_PeggyTokens)) w sender ∧
    0 <= msg.(bn_Amount) ∧ 0 <= msg.(bn_CethAmount) ∧ oracle_of w' = oracle_of w ∧
    bridge_of w' = bridge_of w ∧
    exported sender msg.(bn_Symbol) msg.(bn_Amount) msg.(bn_CethAmount) w w'.
Proof.
  unfold Burn. intros Hfee H. apply bind_ok in H as (p & w1 & [-> ->]%is_paused_ok & H).
  apply bind_ok in H as (u1 & w1 & [Hpause ->]%throw_if_ok & H).
  apply bind_ok in H as (b & w1 & [-> Hpeg]%exists_pegged & H).
  apply bind_ok in H as (u2 & w1 & [Hb%negb_false_iff ->]%throw_if_ok & H).
  apply checked_sender in H as (sender & Hs & Hacc & H).
  apply bind_ok in H as (u3 & w1 & Hl & (Hst & Ho & Hbr)%still_events).
  destruct (ProcessBurn_ok _ _ _ _ _ Hfee Hl) as (Hbl & ? & ? & Ho1 & Hb1 & Hex).
  exists sender. unfold bridge_open.
  split_and!; try done; [by apply Hpeg|congruence|congruence|].
  intros a d. by rewrite Hst, Hex.
Qed.

(** ** The blacklist *)
Lemma forM_upd {A} (g : A → EthBridgeStore → EthBridgeStore) l w u w' :
  forM (λ a, upd_bridge (g a)) l w = (Ok u, w') →
  bridge_of w' = foldl (λ s a, g a s) (bridge_of w) l ∧ oracle_of w' = oracle_of w ∧ still w w'.
Proof.
  unfold forM. revert w u. induction l as [|a l IH]; intros w u H; cbn [foldM] in H.
  { apply ret_ok in H as [_ <-]. done. }
  apply bind_ok in H as ([] & w1 & ->%upd_store_ok & H). apply IH in H as (Hb & Ho & Hs).
  rewrite store_put in Hb. split_and!; [done|by rewrite Ho; apply store_put_other|].
  intros x d. rewrite Hs. apply still_put_bridge.
Qed.

Definition drop_address (address : string) (s : EthBridgeStore) : EthBridgeStore :=
  s <| eb_Blacklist ::= delete address |>.
Definition put_address (address : string) (s : EthBridgeStore) : EthBridgeStore :=
  s <| eb_Blacklist ::= <[address := address]> |>.
Definition same_but_blacklist (s s' : EthBridgeStore) : Prop :=
  s' = s <| eb_Blacklist := s'.(eb_Blacklist) |>.

Lemma drop_addresses l s x :
  same_but_blacklist s (foldl (λ s a, drop_address a s) s l) ∧
  (is_Some ((foldl (λ s a, drop_address a s) s l).(eb_Blacklist) !! x) ↔
   is_Some (s.(eb_Blacklist) !! x) ∧ x ∉ l).
Proof.
  revert s. induction l as [|a l IH]; intros s; simpl.
  - split; [by destruct s|]. split; [intros ?; split; [done|apply not_elem_of_nil]|by intros [? _]].
  - destruct (IH (drop_address a s)) as [Hs Hx]. split; [by rewrite Hs|]. rewrite Hx. simpl.
    rewrite not_elem_of_cons, lookup_delete_is_Some. naive_solver.
Qed.
Lemma put_addresses l s x :
  same_but_blacklist s (foldl (λ s a, put_address a s) s l) ∧
  (is_Some ((foldl (λ s a, put_address a s) s l).(eb_Blacklist) !! x) ↔
   is_Some (s.(eb_Blacklist) !! x) ∨ x ∈ l).
Proof.
  revert s. induction l as [|a l IH]; intros s; simpl.
  - split; [by destruct s|]. split; [by left|]. by intros [?|?%not_elem_of_nil].
  - destruct (IH (put_address a s)) as [Hs Hx]. split; [by rewrite Hs|]. rewrite Hx. simpl.
    rewrite elem_of_cons, lookup_insert_is_Some. destruct (decide (a = x)); naive_solver.
Qed.

Definition blacklisted (s : EthBridgeStore) (address : string) : Prop :=
  is_Some (s.(eb_Blacklist) !! address).
Lemma SetBlacklist_ok msg w u w' : SetBlacklist msg w = (Ok u, w') →
  (∃ from, AccAddressFromBech32 msg.(bl_From) = Ok from ∧
     Keepers.IsAdminAccount w AdminType_ETHBRIDGE from = true) ∧
  (∀ x, blacklisted (bridge_of w') x ↔
     x ∈ msg.(bl_Addresses) ∨ x = "" ∧ blacklisted (bridge_of w) "") ∧
  same_but_blacklist (bridge_of w) (bridge_of w') ∧ oracle_of w' = oracle_of w ∧ still w w'.
Proof.
  unfold SetBlacklist, get_bridge, get_store. intros H.
  apply bind_ok in H as (from & w1 & [Hf ->]%lift_ok & H).
  apply bind_ok in H as (adm & w1 & [-> ->]%gets_ok & H).
  apply bind_ok in H as (u1 & w1 & [Ha%negb_false_iff ->]%throw_if_ok & H).
  apply bind_ok in H as (s & w1 & [-> ->]%gets_ok & H).
  set (removals := filter _ _) in H.
  apply bind_ok in H as (u2 & w1 & Hd & H).
  apply (forM_upd drop_address) in Hd as (Hb1 & Ho1 & Hs1).
  apply (forM_upd put_address) in H as (Hb2 & Ho2 & Hs2).
  split; [by exists from|]. split_and!.
  - intros x. unfold blacklisted. rewrite Hb2.
    rewrite (proj2 (put_addresses _ _ x)), Hb1, (proj2 (drop_addresses _ _ x)).
    assert (x ∈ removals ↔ is_Some ((bridge_of w).(eb_Blacklist) !! x) ∧
      (0 < String.length x)%nat ∧ x ∉ msg.(bl_Addresses)) as Hr.
    { unfold removals. rewrite list_elem_of_filter, list_elem_of_fmap. split.
      - intros [Hx ([k v] & -> & Hin%elem_of_kv_iter)]. simpl in *. by split; [exists v|].
      - intros [[v Hv] Hx]. split; [done|]. exists (x, v). by split; [|apply elem_of_kv_iter]. }
    rewrite Hr. destruct (decide (x ∈ msg.(bl_Addresses))) as [|Hn]; [tauto|].
    split; [|intros [?|[-> ?]]; [done|left; split; [done|simpl; lia]]].
    intros [[Hx Hnr]|?]; [right|done]. destruct (decide (x = "")) as [->|Hne]; [done|].
    destruct Hnr. split_and!; [done| |done]. destruct x; simpl; [done|lia].
  - unfold same_but_blacklist. rewrite Hb2.
    rewrite (proj1 (put_addresses msg.(bl_Addresses) _ "")), Hb1.
    by rewrite (proj1 (drop_addresses removals _ "")).
  - congruence.
  - intros x d. by rewrite Hs2, Hs1.
Qed.

(** ** The other messages and the oracle *)
Lemma oracle_upd_bridge f : preserves (store (S := OracleStore)) (upd_bridge f).
Proof. intros w. apply store_put_other. Qed.
Lemma oracle_emit l : preserves (store (S := OracleStore)) (EmitEvents l).
Proof. intros w. apply store_put_other. Qed.
#[local] Hint Resolve oracle_upd_bridge oracle_emit : frame.
Lemma oracle_send a b cs : preserves (store (S := OracleStore)) (SendCoins a b cs).
Proof. apply frame_send. Qed.
Lemma oracle_send_am a m cs :
  preserves (store (S := OracleStore)) (SendCoinsFromAccountToModule a m cs).
Proof. apply frame_send_am. Qed.
Lemma oracle_send_ma a m cs :
  preserves (store (S := OracleStore)) (SendCoinsFromModuleToAccount m a cs).
Proof. apply frame_send_ma. Qed.
Lemma oracle_burn m cs : preserves (store (S := OracleStore)) (BurnCoins m cs).
Proof. apply frame_burn. Qed.
#[local] Hint Resolve oracle_send oracle_send_am oracle_send_ma oracle_burn : frame.
Lemma oracle_read_bridge : preserves (store (S := OracleStore)) get_bridge.
Proof. apply preserves_gets. Qed.
#[local] Hint Resolve oracle_read_bridge : frame.
Lemma oracle_one_coin denom amount : preserves (store (S := OracleStore)) (one_coin denom amount).
Proof. unfold one_coin. walk_frame. Qed.
#[local] Hint Resolve oracle_one_coin : frame.
Lemma oracle_receiver : preserves (store (S := OracleStore)) GetCethReceiverAccount.
Proof. unfold GetCethReceiverAccount. walk_frame. Qed.
#[local] Hint Resolve oracle_receiver : frame.
Lemma oracle_account a e : preserves (store (S := OracleStore)) (existing_account a e).
Proof. unfold existing_account. walk_frame. Qed.
#[local] Hint Resolve oracle_account : frame.
Lemma oracle_is_admin a : preserves (store (S := OracleStore)) (OracleIsAdmin a).
Proof. simpl. unfold Oracle.IsAdminAccount, GetAdminAccount, get_oracle, get_store. walk_frame. Qed.
#[local] Hint Resolve oracle_is_admin : frame.

Lemma oracle_quiet m :
  match m with
  | AMsgCreateEthBridgeClaim _ | AMsgUpdateWhiteListValidator _ => True
  | _ => preserves (store (S := OracleStore)) (NewHandler m)
  end.
Proof.
  destruct m; try done; simpl NewHandler.
  - unfold Burn, ProcessBurn, IsPaused, ExistsPeggyToken, GetPeggyToken, IsBlacklisted,
      IsCethReceiverAccountSet. walk_frame.
  - unfold Lock, ProcessLock, IsPaused, ExistsPeggyToken, GetPeggyToken, IsBlacklisted,
      IsCethReceiverAccountSet. walk_frame.
  - unfold UpdateCethReceiverAccount, ProcessUpdateCethReceiverAccount, SetCethReceiverAccount.
    walk_frame.
  - unfold RescueCeth, ProcessRescueCeth. walk_frame.
  - unfold SetBlacklist. walk_frame.
  - unfold SetPause_handler, SetPause. walk_frame.
Qed.

(** A message that succeeds is steps of the oracle. *)
Lemma message_steps m w u w' : oracle_ok (oracle_of w) → NewHandler m w = (Ok u, w') →
  rtc oracle_step w w'.
Proof.
  intros Hok H. pose proof (oracle_quiet m) as Q. destruct m as [m|m|m|m|m|m|m|m];
    try (apply rtc_once, step_elsewhere; exact (preserves_ok _ _ _ _ _ Q H)).
  - simpl in H. destruct (CreateEthBridgeClaim_ok _ _ _ _ Hok H)
      as (oc & st & p & p' & db & va & w1 & C & _ & _ & Hu & Hc & Ho & _).
    apply (rtc_l _ _ w1); [by eapply step_claim|]. apply rtc_once, step_elsewhere. done.
  - simpl in H. unfold UpdateWhiteListValidator in H.
    apply checked_sender in H as (sender & _ & _ & H).
    apply bind_ok in H as (va & w1 & [Hv|(e & w2 & _ & Hx)]%on_err_ok & H); [|by apply throw_ok in Hx].
    apply lift_ok in Hv as [_ ->]. apply bind_ok in H as ([] & w1 & Hw & (_ & Ho & _)%still_events).
    apply (rtc_l _ _ w1); [exact (step_whitelist _ _ _ _ _ Hw)|]. by apply rtc_once, step_elsewhere.
Qed.

(** ** Runs, and the claims they pay *)
Definition decided_at w (id : string) : Prop := ∃ p, prophecy_at (oracle_of w) id = Some p ∧ decided p.
Definition succeeded_at w (id : string) : Prop :=
  ∃ p, prophecy_at (oracle_of w) id = Some p ∧ p.(p_Status).(Text) = STATUS_TEXT_SUCCESS.
(** A run, with the messages that succeeded and the states before and after each. *)
Inductive bridge_run : W → list (BridgeMsg * W * W) → W → Prop :=
| run_done w : bridge_run w [] w
| run_message m w u w1 l w' : NewHandler m w = (Ok u, w1) → bridge_run w1 l w' →
    bridge_run w ((m, w, w1) :: l) w'
| run_elsewhere w w1 l w' : oracle_of w1 = oracle_of w → bridge_run w1 l w' → bridge_run w l w'.

Definition claims_about (id : string) (m : BridgeMsg) : bool :=
  match m with
  | AMsgCreateEthBridgeClaim msg => String.eqb (oracle_id msg.(cc_EthBridgeClaim)) id
  | _ => false
  end.
(** What all claims about one prophecy together do to a balance. *)
Definition paid_for (id : string) (l : list (BridgeMsg * W * W)) (a : AccAddress) (d : string) : Z :=
  sumZ (λ '(m, w, w1), if claims_about id m then balance w1 a d - balance w a d else 0) l.

Lemma decided_later w w' id : keeps (oracle_of w) (oracle_of w') → decided_at w id → decided_at w' id.
Proof.
  intros Hk (p & Hp & Hd). destruct (Hk _ _ Hp) as (p' & Hp' & Hl & _). exists p'.
  rewrite (Hl Hd) in Hp' |- *. done.
Qed.
Lemma steps_keep w w' : oracle_ok (oracle_of w) → rtc oracle_step w w' →
  oracle_ok (oracle_of w') ∧ keeps (oracle_of w) (oracle_of w').
Proof.
  intros Hs Hr. revert Hs. induction Hr as [w|w w1 w2 Hst _ IH]; intros Hs;
    [by split; [|apply keeps_same]|].
  destruct (step_keeps _ _ Hst Hs) as [Hs1 Hk1]. destruct (IH Hs1) as [? ?].
  split; [done|]. by eapply keeps_trans.
Qed.

(** The vote of a validator on a prophecy that need not exist. *)
Definition vote_at w (id validator : string) : option string :=
  prophecy_at (oracle_of w) id ≫= λ p, vote p validator.
(** The text of a claim on which validators agree. *)
Definition claim_text (claim : EthBridgeClaim) (text : string) : Prop :=
  ∃ receiver, AccAddressFromBech32 claim.(ec_CosmosReceiver) = Ok receiver ∧
    Marshal_OracleClaimContent (NewOracleClaimContent receiver claim.(ec_Amount) claim.(ec_Symbol)
      (NewEthereumAddress claim.(ec_TokenContractAddress)) claim.(ec_ClaimType)) = Ok text.

Lemma oracle_claim_text ec oc : CreateOracleClaimFromEthClaim ec = Ok oc → claim_text ec oc.(Content).
Proof.
  unfold CreateOracleClaimFromEthClaim. intros (r & Hr & H)%rbind_ok. apply rbind_ok in H as (t & Ht & [= <-]).
  by exists r.
Qed.

Lemma vote_new id v : vote (NewProphecy id) v = None.
Proof. done. Qed.

(** What an accepted claim does to its prophecy. *)
Definition accepted (msg : MsgCreateEthBridgeClaim) w w' p : Prop :=
  let claim := msg.(cc_EthBridgeClaim) in
  let id := oracle_id claim in
  ¬ decided_at w id ∧ vote_at w id claim.(ec_ValidatorAddress) = None ∧
  (∃ a v, ValString a = claim.(ec_ValidatorAddress) ∧ GetValidator w a = Some v ∧ IsBonded v = true) ∧
  prophecy_at (oracle_of w') id = Some p ∧
  (∃ text, claim_text claim text ∧ ∀ v, vote p v
    = if decide (v = claim.(ec_ValidatorAddress)) then Some text else vote_at w id v) ∧
  ∀ other, other ≠ id → prophecy_at (oracle_of w') other = prophecy_at (oracle_of w) other.
(** What it pays, if anything. *)
Definition claim_paid w w' p : Prop :=
  (p.(p_Status).(Text) = STATUS_TEXT_SUCCESS →
     ∃ c, Unmarshal_OracleClaimContent p.(p_Status).(FinalClaim) = Ok c ∧ 0 <= c.(oc_Amount) ∧
       c.(oc_ClaimType) ≠ CLAIM_TYPE_UNSPECIFIED ∧ pays c w w' ∧
       (c.(oc_ClaimType) = CLAIM_TYPE_LOCK →
        PeggedCoinPrefix +:+ c.(oc_Symbol) ∈ (bridge_of w').(eb_PeggyTokens))) ∧
  (p.(p_Status).(Text) ≠ STATUS_TEXT_SUCCESS → still w w').

Lemma claim_accepted msg w w' : oracle_ok (oracle_of w) → CreateEthBridgeClaim msg w = (Ok tt, w') →
  ∃ p, accepted msg w w' p ∧ claim_paid w w' p.
Proof.
  intros Hok H. destruct (CreateEthBridgeClaim_ok _ _ _ _ Hok H)
    as (oc & st & p & p' & db & va & w1 & C & Hid & Hva & _ & _ & Ho & Hoc & Hcase).
  destruct (cl_stored _ _ _ _ _ _ _ _ C) as [Ed _].
  destruct (cl_status _ _ _ _ _ _ _ _ C) as [Est _].
  pose proof (cl_before _ _ _ _ _ _ _ _ C) as Hp. rewrite Hid in Hp.
  assert (∀ v, vote p v = vote_at w (oracle_id msg.(cc_EthBridgeClaim)) v) as Hv.
  { intros v. unfold vote_at. rewrite Hp. by destruct (prophecy_at _ _). }
  assert ((oracle_of w').(os_Prophecies) = <[oracle_id msg.(cc_EthBridgeClaim) := db]> (oracle_of w).(os_Prophecies)) as Em.
  { rewrite Ho, (cl_store _ _ _ _ _ _ _ _ C), store_put. simpl. by rewrite Hid. }
  exists p'. split; [unfold accepted; cbv zeta; split_and!|].
  - intros (q & Hq & Hd). apply (cl_pending _ _ _ _ _ _ _ _ C). rewrite Hp, Hq. done.
  - rewrite <- Hv, <- Hva. apply (cl_fresh _ _ _ _ _ _ _ _ C).
  - destruct (cl_bonded _ _ _ _ _ _ _ _ C) as (v & ? & ?).
    destruct (cl_voter _ _ _ _ _ _ _ _ C) as [? _]. exists va, v. by rewrite <- Hva.
  - unfold prophecy_at. by rewrite Em, lookup_insert_eq, Ed.
  - exists oc.(Content). split; [by apply oracle_claim_text|]. intros v. rewrite <- Hva.
    destruct (decide (v = oc.(ValidatorAddress))) as [->|E]; [apply (cl_vote _ _ _ _ _ _ _ _ C)|].
    rewrite (cl_others _ _ _ _ _ _ _ _ C) by done. apply Hv.
  - intros other Hn. unfold prophecy_at. by rewrite Em, lookup_insert_ne.
  - unfold claim_paid. rewrite Est. split; intros E.
    + by rewrite bool_decide_eq_true_2 in Hcase by done.
    + by rewrite bool_decide_eq_false_2 in Hcase by done.
Qed.

(** C16: a claim that is accepted is a new vote of a bonded validator on a prophecy that was not
    decided: the validator had not voted on it before, and now has voted for the text of the
    message's receiver, amount, symbol, token and type; no other vote and no other prophecy
    changes.  If the vote makes the prophecy succeed, the claim it decides on is paid: its
    receiver gets exactly its amount, of the symbol with the prefix for coins locked on Ethereum
    and of the plain symbol for coins burned there, and no other balance changes; otherwise no
    balance changes at all. *)
Theorem CreateEthBridgeClaim_pays msg w w' :
  oracle_ok (oracle_of w) → CreateEthBridgeClaim msg w = (Ok tt, w') →
  ∃ p, accepted msg w w' p ∧ claim_paid w w' p.
Proof. apply claim_accepted. Qed.

(** A message that is no claim about a prophecy leaves it alone. *)
Lemma message_elsewhere m w u w' id : oracle_ok (oracle_of w) → NewHandler m w = (Ok u, w') →
  claims_about id m = false → prophecy_at (oracle_of w') id = prophecy_at (oracle_of w) id.
Proof.
  intros Hok H Hm. pose proof (oracle_quiet m) as Q. destruct m as [m|m|m|m|m|m|m|m];
    try (pose proof (preserves_ok _ _ _ _ _ Q H) as Ho; by rewrite Ho).
  - simpl in H, Hm. destruct u. apply String.eqb_neq in Hm.
    destruct (claim_accepted _ _ _ Hok H) as (p & (_ & _ & _ & _ & _ & Hoth) & _). by apply Hoth.
  - simpl in H. unfold UpdateWhiteListValidator in H.
    apply checked_sender in H as (sender & _ & _ & H).
    apply bind_ok in H as (va & w1 & [Hv|(e & w2 & _ & Hx)]%on_err_ok & H); [|by apply throw_ok in Hx].
    apply lift_ok in Hv as [_ ->]. apply bind_ok in H as ([] & w1 & Hw & (_ & Ho & _)%still_events).
    apply whitelist_step in Hw. unfold prophecy_at. by rewrite Ho, Hw.
Qed.

Lemma decided_same w w' id : prophecy_at (oracle_of w') id = prophecy_at (oracle_of w) id →
  decided_at w' id → decided_at w id.
Proof. unfold decided_at. by intros ->. Qed.
Lemma success_decided w id : succeeded_at w id → decided_at w id.
Proof. intros (p & Hp & E). exists p. split; [done|]. unfold decided. by rewrite E. Qed.
(** A decided prophecy keeps its decision to the end. *)
Lemma decision_kept w w' id p : keeps (oracle_of w) (oracle_of w') →
  prophecy_at (oracle_of w) id = Some p → decided p → prophecy_at (oracle_of w') id = Some p.
Proof. intros Hk Hp Hd. destruct (Hk _ _ Hp) as (p' & Hp' & Hl & _). by rewrite (Hl Hd) in Hp'. Qed.
Lemma run_keeps w l w' : oracle_ok (oracle_of w) → bridge_run w l w' →
  keeps (oracle_of w) (oracle_of w').
Proof.
  intros Hok Hr. revert Hok. induction Hr as [w|m w u w1 l w' H Hr IH|w w1 l w' E Hr IH]; intros Hok.
  - by apply keeps_same.
  - destruct (steps_keep _ _ Hok (message_steps _ _ _ _ Hok H)) as [Hok1 Hk1].
    eapply keeps_trans; [exact Hk1|by apply IH].
  - rewrite E in IH. by apply IH.
Qed.

(** The payments of a run about one prophecy. *)
Definition paid_once (id : string) (l : list (BridgeMsg * W * W)) w w' : Prop :=
  (decided_at w id ∨ ¬ succeeded_at w' id → ∀ a d, paid_for id l a d = 0) ∧
  (¬ decided_at w id → ∀ p, prophecy_at (oracle_of w') id = Some p →
   p.(p_Status).(Text) = STATUS_TEXT_SUCCESS →
   ∃ c, Unmarshal_OracleClaimContent p.(p_Status).(FinalClaim) = Ok c ∧ 0 <= c.(oc_Amount) ∧
     ∀ a d, paid_for id l a d
       = if String.eqb a c.(oc_CosmosReceiver) then amount_in (minted_denom c) c.(oc_Amount) d else 0).

Lemma paid_once_skip m w w1 l w' id : claims_about id m = false →
  prophecy_at (oracle_of w1) id = prophecy_at (oracle_of w) id →
  paid_once id l w1 w' → paid_once id ((m, w, w1) :: l) w w'.
Proof.
  intros Hm E [H1 H2]. assert (∀ a d, paid_for id ((m, w, w1) :: l) a d = paid_for id l a d) as Ep
    by (intros a d; unfold paid_for; simpl; by rewrite Hm).
  split.
  - intros H a d. rewrite Ep. apply H1. destruct H as [H|H]; [left; by eapply decided_same|by right].
  - intros Hn p Hp Hs. destruct (H2) with (p := p) as (c & ? & ? & Hc); try done.
    { intros Hd. apply Hn. by eapply decided_same. }
    exists c. split_and!; try done. intros a d. by rewrite Ep.
Qed.

Lemma paid_once_claim m w w1 l w' id : oracle_ok (oracle_of w) → NewHandler m w = (Ok tt, w1) →
  claims_about id m = true → keeps (oracle_of w1) (oracle_of w') →
  paid_once id l w1 w' → paid_once id ((m, w, w1) :: l) w w'.
Proof.
  intros Hok H Hm Hk [H1 H2]. destruct m as [msg|?|?|?|?|?|?|?]; try done.
  simpl in H, Hm. apply String.eqb_eq in Hm as <-.
  destruct (claim_accepted _ _ _ Hok H) as (p & (Hn & _ & _ & Hp & _) & Hs & Hf).
  set (id := oracle_id _) in *.
  assert (∀ a d, paid_for id ((AMsgCreateEthBridgeClaim msg, w, w1) :: l) a d
    = balance w1 a d - balance w a d + paid_for id l a d) as Ep
    by (intros a d; unfold paid_for; simpl; fold id; by rewrite String.eqb_refl).
  destruct (decide (p.(p_Status).(Text) = STATUS_TEXT_SUCCESS)) as [E|E].
  - destruct (Hs E) as (c & Hc & Ham & _ & Hpay & _).
    assert (decided_at w1 id) as Hd by (apply success_decided; by exists p).
    assert (∀ a d, paid_for id l a d = 0) as H0 by (apply H1; by left).
    assert (prophecy_at (oracle_of w') id = Some p) as Hp'.
    { apply (decision_kept w1); [done|done|]. unfold decided. by rewrite E. }
    split.
    + intros [?|Hx]; [done|]. destruct Hx. by exists p.
    + intros _ q Hq _. rewrite Hp' in Hq. injection Hq as <-. exists c. split_and!; try done.
      intros a d. rewrite Ep, H0, Hpay. lia.
  - assert (∀ a d, paid_for id ((AMsgCreateEthBridgeClaim msg, w, w1) :: l) a d = paid_for id l a d) as Es.
    { intros a d. rewrite Ep, (Hf E a d). lia. }
    split.
    + intros [?|Hx] a d; [done|]. rewrite Es. apply H1. by right.
    + intros _ q Hq Eq. destruct (H2) with (p := q) as (c & ? & ? & Hc); try done.
      { intros (q' & Hq' & Hd). rewrite Hp in Hq'. injection Hq' as <-.
        rewrite (decision_kept w1 w' id p) in Hq by done. by injection Hq as <-. }
      exists c. split_and!; try done. intros a d. by rewrite Es.
Qed.

(** C15: however the messages of the bridge follow each other and whatever happens elsewhere, all
    claims about one prophecy together change balances at most once.  If the prophecy had been
    decided at the start of the run, or has not succeeded at its end, the claims about it add
    nothing to any account; if it succeeds during the run, they add exactly the amount of the
    claim it decides on to the receiver of that claim, and nothing to anyone else. *)
Theorem claims_pay_once w l w' id : oracle_ok (oracle_of w) → bridge_run w l w' →
  paid_once id l w w'.
Proof.
  intros Hok Hr. revert Hok. induction Hr as [w|m w u w1 l w' H Hr IH|w w1 l w' E Hr IH]; intros Hok.
  - split; [done|]. intros Hn p Hp E. destruct Hn. apply success_decided. by exists p.
  - destruct (steps_keep _ _ Hok (message_steps _ _ _ _ Hok H)) as [Hok1 _]. destruct u.
    destruct (claims_about id m) eqn:Em.
    + eapply paid_once_claim; [done|done|done|by eapply run_keeps|by apply IH].
    + apply paid_once_skip; [done|by eapply message_elsewhere|by apply IH].
  - assert (oracle_ok (oracle_of w1)) as Hok1 by by rewrite E.
    destruct (IH Hok1) as [H1 H2]. unfold paid_once, decided_at in *. rewrite E in H1, H2. done.
Qed.

Lemma MsgLock_valid msg : MsgLock_ValidateBasic msg = Ok tt →
  0 < msg.(lk_Amount) ∧ lockGasCost <= msg.(lk_CethAmount).
Proof.
  unfold MsgLock_ValidateBasic. repeat (case_match; [done|]). intros _.
  match goal with H : (lk_Amount msg <=? 0) = false |- _ => apply Z.leb_gt in H end.
  match goal with H : (_ <? lockGasCost) = false |- _ => apply Z.ltb_ge in H end. done.
Qed.
Lemma MsgBurn_valid msg : MsgBurn_ValidateBasic msg = Ok tt →
  0 < msg.(bn_Amount) ∧ burnGasCost <= msg.(bn_CethAmount).
Proof.
  unfold MsgBurn_ValidateBasic. cbv zeta. repeat (case_match; [done|]). intros _.
  match goal with H : (bn_Amount msg <=? 0) = false |- _ => apply Z.leb_gt in H end.
  match goal with H : (_ <? burnGasCost) = false |- _ => apply Z.ltb_ge in H end. done.
Qed.

(** C26: a valid message that locks or burns succeeds only when the bridge is not paused, the
    receiver is not on the blacklist, the sender has an account, and the coin is, for a burn, one
    that came over the bridge, for a lock, one that did not.  Then exactly the amount disappears
    from the sender, the fee, at least the cost of gas, moves from the sender to its collector,
    no other balance changes, and neither do the settings of the bridge. *)
Theorem lock_and_burn m w w' : ValidateBasic m = Ok tt → NewHandler m w = (Ok tt, w') →
  match m with
  | AMsgLock msg => ∃ sender,
      bridge_open msg.(lk_Symbol) msg.(lk_EthereumReceiver) msg.(lk_CosmosSender)
        (msg.(lk_Symbol) ∉ (bridge_of w).(eb_PeggyTokens)) w sender ∧
      0 < msg.(lk_Amount) ∧ lockGasCost <= msg.(lk_CethAmount) ∧
      bridge_of w' = bridge_of w ∧
      exported sender msg.(lk_Symbol) msg.(lk_Amount) msg.(lk_CethAmount) w w'
  | AMsgBurn msg => ∃ sender,
      bridge_open msg.(bn_Symbol) msg.(bn_EthereumReceiver) msg.(bn_CosmosSender)
        (msg.(bn_Symbol) ∈ (bridge_of w).(eb_PeggyTokens)) w sender ∧
      0 < msg.(bn_Amount) ∧ burnGasCost <= msg.(bn_CethAmount) ∧
      bridge_of w' = bridge_of w ∧
      exported sender msg.(bn_Symbol) msg.(bn_Amount) msg.(bn_CethAmount) w w'
  | _ => True
  end.
Proof.
  intros Hv H. destruct m as [|msg|msg| | | | |]; try done; simpl in *.
  - destruct (MsgBurn_valid _ Hv) as [? Hfee].
    destruct (Burn_ok msg w tt w') as (sender & ? & _ & _ & _ & ? & ?);
      [unfold burnGasCost in Hfee; lia|done|]. by exists sender.
  - destruct (MsgLock_valid _ Hv) as [? Hfee].
    destruct (Lock_ok msg w tt w' H) as (sender & ? & _ & _ & _ & ? & ?). by exists sender.
Qed.

(** Only an administrator of the bridge sets the blacklist.  Afterwards it holds the
    addresses of the message and no others, except the empty one, which once put there stays;
    nothing else changes; and while an address is on it, coins can be neither locked nor burned
    for it. *)
Theorem SetBlacklist_exact msg w w' : SetBlacklist msg w = (Ok tt, w') →
  (∃ from, AccAddressFromBech32 msg.(bl_From) = Ok from ∧
     Keepers.IsAdminAccount w AdminType_ETHBRIDGE from = true) ∧
  (∀ x, blacklisted (bridge_of w') x ↔
     x ∈ msg.(bl_Addresses) ∨ x = "" ∧ blacklisted (bridge_of w) "") ∧
  same_but_blacklist (bridge_of w) (bridge_of w') ∧ oracle_of w' = oracle_of w ∧ still w w' ∧
  (∀ x w2 lk u, x ∈ msg.(bl_Addresses) → bridge_of w2 = bridge_of w' →
     lk.(lk_EthereumReceiver) = x → (Lock lk w2).1 ≠ Ok u) ∧
  (∀ x w2 bn u, x ∈ msg.(bl_Addresses) → bridge_of w2 = bridge_of w' →
     bn.(bn_EthereumReceiver) = x → 0 <= bn.(bn_CethAmount) → (Burn bn w2).1 ≠ Ok u).
Proof.
  intros H. destruct (SetBlacklist_ok _ _ _ _ H) as (Hadm & Hx & Hs & Ho & Hst).
  split_and!; try done.
  - intros x w2 lk u Hin Hb <- E. destruct (Lock lk w2) as [r w3] eqn:Hl. simpl in E. subst r.
    destruct (Lock_ok _ _ _ _ Hl) as (s & (_ & _ & Hnone & _) & _). rewrite Hb in Hnone.
    destruct (proj2 (Hx _) (or_introl Hin)) as [v Hv]. congruence.
  - intros x w2 bn u Hin Hb <- Hfee E. destruct (Burn bn w2) as [r w3] eqn:Hl. simpl in E. subst r.
    destruct (Burn_ok _ _ _ _ Hfee Hl) as (s & (_ & _ & Hnone & _) & _). rewrite Hb in Hnone.
    destruct (proj2 (Hx _) (or_introl Hin)) as [v Hv]. congruence.
Qed.
End spec.

(** ** The scenario: two validators report coins locked on Ethereum, alice sends coins there *)
Definition claim_of (validator : string) : MsgCreateEthBridgeClaim :=
  mkMsgCreateEthBridgeClaim (dai_claim validator).
Definition claimed_by (validator : string) (w : World) : World :=
  (CreateEthBridgeClaim (claim_of validator) w).2.
Definition after_one : World := claimed_by "%v1" bridge_genesis.
Definition after_two : World := claimed_by "%v2" after_one.
Definition dai_id : string := "17" +:+ some_address.

Lemma one_ran : CreateEthBridgeClaim (claim_of "%v1") bridge_genesis = (Ok tt, after_one).
Proof. unfold after_one, claimed_by. apply ran. vm_compute. reflexivity. Qed.
Lemma two_ran : CreateEthBridgeClaim (claim_of "%v2") after_one = (Ok tt, after_two).
Proof. unfold after_two, claimed_by. apply ran. vm_compute. reflexivity. Qed.
Lemma after_one_ok : oracle_ok (store after_one).
Proof.
  apply (steps_keep bridge_genesis after_one bridge_genesis_ok).
  apply (message_steps (AMsgCreateEthBridgeClaim (claim_of "%v1")) _ tt _ bridge_genesis_ok one_ran).
Qed.

Lemma CreateEthBridgeClaim_pays_witness :
  balance after_two "bob" "cdai" = 3 * ether ∧ ¬ decided_at after_one dai_id ∧
  vote_at after_one dai_id "%v2" = None.
Proof.
  split; [vm_compute; reflexivity|].
  destruct (CreateEthBridgeClaim_pays (claim_of "%v2") after_one after_two after_one_ok two_ran)
    as (p & (Hn & Hv & _) & _). split; [exact Hn|exact Hv].
Defined.

Definition two_claims_made : list (BridgeMsg * World * World) :=
  [(AMsgCreateEthBridgeClaim (claim_of "%v1"), bridge_genesis, after_one);
   (AMsgCreateEthBridgeClaim (claim_of "%v2"), after_one, after_two)].
Lemma two_claims_run : bridge_run bridge_genesis two_claims_made after_two.
Proof.
  apply (run_message (AMsgCreateEthBridgeClaim (claim_of "%v1")) _ tt after_one _ _ one_ran).
  apply (run_message (AMsgCreateEthBridgeClaim (claim_of "%v2")) _ tt _ _ _ two_ran), run_done.
Qed.
Lemma claims_pay_once_witness :
  paid_for dai_id two_claims_made "bob" "cdai" = 3 * ether ∧ paid_once dai_id two_claims_made bridge_genesis after_two.
Proof.
  split; [vm_compute; reflexivity|].
  exact (claims_pay_once bridge_genesis two_claims_made after_two dai_id bridge_genesis_ok two_claims_run).
Defined.

Definition alice_locks (receiver : string) : MsgLock :=
  mkMsgLock "@alice" (5 * ether) "fury" 1 receiver lockGasCost.
Definition after_lock : World := (NewHandler (AMsgLock (alice_locks some_address)) bridge_genesis).2.
Lemma lock_and_burn_witness :
  ∃ sender, exported sender "fury" (5 * ether) lockGasCost bridge_genesis after_lock ∧
    balance after_lock "alice" "fury" = 995 * ether.
Proof.
  destruct (lock_and_burn (AMsgLock (alice_locks some_address)) bridge_genesis after_lock)
    as (sender & _ & _ & _ & _ & H).
  - vm_compute. reflexivity.
  - unfold after_lock. apply ran. vm_compute. reflexivity.
  - exists sender. split; [exact H|vm_compute; reflexivity].
Defined.

Definition admin_lists : MsgSetBlacklist := mkMsgSetBlacklist "@admin" [some_address].
Definition after_listing : World := (SetBlacklist admin_lists bridge_genesis).2.
Lemma SetBlacklist_exact_witness :
  (Lock (alice_locks some_address) after_listing).1 ≠ Ok tt.
Proof.
  destruct (SetBlacklist_exact admin_lists bridge_genesis after_listing)
    as (_ & _ & _ & _ & _ & H & _).
  - unfold after_listing. apply ran. vm_compute. reflexivity.
  - apply (H some_address); [by left|done|done].
Defined.

(** Entries are compared as texts: an address on the blacklist still receives coins when its
    letters are written in the other case, which go-ethereum reads as the same address. *)
Definition same_address : string := "0xab5801a7d398351b8be11c439e05c5b3259aec9b".
Example blacklist_by_spelling :
  HexToAddress same_address = HexToAddress some_address ∧
  is_ok (NewHandler (AMsgLock (alice_locks same_address)) after_listing).1 = true.
Proof. split; vm_compute; reflexivity. Qed.

(** Two claims with different chain ids and nonces are about one prophecy. *)
Example oracle_id_collides : ∃ c1 c2,
  c1.(ec_EthereumChainId) ≠ c2.(ec_EthereumChainId) ∧ c1.(ec_Nonce) ≠ c2.(ec_Nonce) ∧
  oracle_id c1 = oracle_id c2.
Proof.
  exists (mkEthBridgeClaim 1 some_address 70 "dai" some_address some_address "@bob" "%v1" 1 CLAIM_TYPE_LOCK),
    (mkEthBridgeClaim 17 some_address 0 "usdc" some_address some_address "@bob" "%v1" 1 CLAIM_TYPE_LOCK).
  split_and!; [done|done|]. vm_compute. reflexivity.
Qed.
