(* ===== verification/EthBridgeQuerySpec.v ===== *)
(** * EthBridgeQuerySpec: what the query of a prophecy shows

    An accepted claim is shown with the numbers it was made with. *)

From S2P Require Import World Scenario BridgeWorld OracleSpec.
From S2P Require Import Prelude Sdk SdkRef Rat Bank Keepers Admin ClpKeeper ClpExec Oracle.
From S2P Require Import EthBridge EthBridgeSpec EthBridgeQuery.
Local Open Scope Z_scope.

Section spec.
Context {W : Type} {sdk : Sdk} {HL : SdkLaws sdk} {coins : CoinLib} {vals : ValAddressLib}
  {eth : EthLib} {pjson : ProphecyJson} {cjson : ClaimJson} {order : GoRange}
  {errs : SdkErrors} {bank : BankKeeper W} {staking : StakingKeeper W} {config : OracleConfig}
  {accounts : AccountKeeper W} {admin : AdminKeeper W} {orc : HasStore OracleStore W}
  {bridge : HasStore EthBridgeStore W} {events : HasStore EventLog W}
  {VL : ValAddressLaws vals} {PL : ProphecyJsonLaws vals pjson} {JL : ClaimJsonLaws cjson}
  {BW : EthBridgeWorld W} {OL : GoRangeLaws order}.
Implicit Types w : W.
Notation oracle_of w := (store (S := OracleStore) w).

(** Every vote of a prophecy becomes one claim of the answer. *)
Lemma map_claims_ok chain contract nonce symbol token sender votes f claims :
  MapOracleClaimsToEthBridgeClaims chain contract nonce symbol token sender votes f = Ok claims →
  length claims = size votes ∧
  ∀ v text, votes !! v = Some text → ∃ a c, ValAddressFromBech32 v = Ok a ∧
    f chain contract nonce sender a text = Ok c ∧ c ∈ claims.
Proof.
  unfold MapOracleClaimsToEthBridgeClaims.
  set (l := go_range _ _). pose proof (go_range_perm "MapOracleClaimsToEthBridgeClaims" (map_to_list votes)) as Hperm.
  fold l in Hperm. clearbody l. intros H.
  assert (∀ acc r, foldR (λ mappedClaims entry,
    validatorAddress ← (match ValAddressFromBech32 (entry : string * string).1 with
                        | Err _ => Err ErrInvalidAddress | r => r end);
    mappedClaim ← f chain contract nonce sender validatorAddress entry.2;
    Ok (mappedClaims ++ [mappedClaim])) acc l = Ok r →
    ∃ new, r = acc ++ new ∧ Forall2 (λ e c, ∃ a, ValAddressFromBech32 e.1 = Ok a ∧
      f chain contract nonce sender a e.2 = Ok c) l new) as Hfold.
  { clear. induction l as [|e l IH]; intros acc r; simpl; [intros [= <-]; exists []; by rewrite app_nil_r|].
    intros H. apply rbind_ok in H as (acc' & H1 & H). apply rbind_ok in H1 as (a & Ha & H1).
    apply rbind_ok in H1 as (c & Hc & [= <-]). apply IH in H as (new & -> & Hnew).
    exists (c :: new). split; [by rewrite <- app_assoc|]. constructor; [|done]. exists a.
    by destruct (ValAddressFromBech32 e.1); simplify_eq. }
  apply Hfold in H as (new & -> & Hf). simpl. split.
  - rewrite <- (Forall2_length _ _ _ Hf), (Permutation_length Hperm). apply length_map_to_list.
  - intros v text Hv%elem_of_map_to_list. rewrite <- Hperm in Hv. apply list_elem_of_lookup in Hv as [i Hi].
    destruct (Forall2_lookup_l _ _ _ _ _ Hf Hi) as (c & Hc & a & Ha & Hfa). exists a, c.
    split; [done|]. split; [done|]. by eapply list_elem_of_lookup_2.
Qed.
Lemma GetProphecy_at id w : GetProphecy id w = (Ok (prophecy_at (oracle_of w) id), w) ∨ (GetProphecy id w).1 = Panic.
Proof.
  unfold GetProphecy, prophecy_at, get_oracle, get_store, gets, try, lift, mbind, M_bind, mret, M_ret.
  destruct (os_Prophecies _ !! id) as [db|]; [|by left]. destruct (DeserializeFromDB db); first [by left|by right].
Qed.

(** C39: What a validator claimed is what the query of the prophecy shows: when a claim was accepted,
    the query with its numbers answers the status of the prophecy and one claim per vote, among them
    this validator's with the symbol, amount, receiver and type it was made with. *)
Theorem EthProphecy_shows msg contract symbol token receiver res w w' w'' :
  let claim := msg.(cc_EthBridgeClaim) in
  oracle_ok (oracle_of w) → CreateEthBridgeClaim msg w = (Ok tt, w') →
  AccAddressFromBech32 claim.(ec_CosmosReceiver) = Ok receiver → receiver ≠ "" →
  utf8_valid claim.(ec_Symbol) = true → Z.abs claim.(ec_Amount) < 2 ^ 255 →
  String.length (NewEthereumAddress claim.(ec_TokenContractAddress)) = 20%nat →
  EthProphecy (mkQueryEthProphecyRequest claim.(ec_EthereumChainId) contract claim.(ec_Nonce) symbol token
    claim.(ec_EthereumSender)) w' = (Ok res, w'') →
  w'' = w' ∧ ∃ p validator, prophecy_at (oracle_of w') (oracle_id claim) = Some p ∧
    res.(es_Id) = oracle_id claim ∧ res.(es_Status) = p.(p_Status) ∧
    length res.(es_Claims) = size (default ∅ p.(ValidatorClaims)) ∧
    ValAddressFromBech32 claim.(ec_ValidatorAddress) = Ok validator ∧
    NewEthBridgeClaim claim.(ec_EthereumChainId) (NewEthereumAddress contract) claim.(ec_Nonce)
      claim.(ec_Symbol) (NewEthereumAddress claim.(ec_TokenContractAddress))
      (NewEthereumAddress claim.(ec_EthereumSender)) receiver validator claim.(ec_Amount)
      claim.(ec_ClaimType) ∈ res.(es_Claims).
Proof.
  cbv zeta. intros Hok H Hrec Hr Hs Ham Ht Hq.
  destruct (CreateEthBridgeClaim_ok _ _ _ _ Hok H) as (oc & st & p & p' & db & va & w1 & C & Hid & Hva & _ & _ & Ho & Hoc & _).
  destruct (cl_stored _ _ _ _ _ _ _ _ C) as [Ed _].
  assert (prophecy_at (oracle_of w') (oracle_id msg.(cc_EthBridgeClaim)) = Some p') as Hat.
  { unfold prophecy_at. rewrite Ho, (cl_store _ _ _ _ _ _ _ _ C), store_put. simpl.
    by rewrite Hid, lookup_insert_eq, Ed. }
  unfold EthProphecy in Hq. cbn [eq_EthereumChainId eq_Nonce eq_EthereumSender] in Hq.
  apply bind_ok in Hq as (found & w2 & Hg & Hq).
  destruct (GetProphecy_at (oracle_id msg.(cc_EthBridgeClaim)) w') as [E|E]; unfold oracle_id in E;
    rewrite Hg in E; [|done]. injection E as -> ->. fold (oracle_id msg.(cc_EthBridgeClaim)) in Hq. rewrite Hat in Hq.
  apply bind_ok in Hq as (claims & w3 & [Hm ->]%lift_ok & Hq). injection Hq as <- <-.
  apply map_claims_ok in Hm as [Hlen Hall].
  pose proof (cl_vote _ _ _ _ _ _ _ _ C) as Hvote. rewrite Hva in Hvote. unfold vote in Hvote.
  assert (default ∅ p'.(ValidatorClaims) !! msg.(cc_EthBridgeClaim).(ec_ValidatorAddress) = Some oc.(Content)) as Hv.
  { by destruct (ValidatorClaims p'). }
  apply Hall in Hv as (a & c & Ha & Hc & Hin).
  split; [done|]. exists p', a. split; [done|]. split; [by rewrite <- Hid; apply (cl_id _ _ _ _ _ _ _ _ C)|].
  split; [done|]. split; [done|]. split; [done|].
  unfold CreateOracleClaimFromEthClaim in Hoc. rewrite Hrec, rbind_Ok in Hoc.
  apply rbind_ok in Hoc as (text & Htext & Hoc). injection Hoc as <-. simpl in Hc.
  destruct (content_roundtrip (NewOracleClaimContent receiver _ _ _ msg.(cc_EthBridgeClaim).(ec_ClaimType)) Hr Hs Ham Ht) as (t & Et & Eu).
  unfold NewOracleClaimContent in *. simpl in Htext. rewrite Et in Htext. injection Htext as <-.
  unfold CreateEthClaimFromOracleString, CreateOracleClaimFromOracleString in Hc. rewrite Eu in Hc.
  by injection Hc as <-.
Qed.
End spec.

(** ** The scenario: the claim of the first validator *)
Definition dai_query : QueryEthProphecyRequest :=
  mkQueryEthProphecyRequest 1 some_address 7 "" "" some_address.
Lemma EthProphecy_shows_witness : ∃ res w, EthProphecy dai_query after_one = (Ok res, w) ∧
  length res.(es_Claims) = 1%nat ∧ ∃ c, c ∈ res.(es_Claims) ∧ c.(ec_Amount) = (dai_claim "%v1").(ec_Amount).
Proof.
  destruct (EthProphecy dai_query after_one) as [[res| |] w] eqn:E; [|by apply (f_equal fst) in E; vm_compute in E..].
  exists res, w. split; [done|]. split; [by apply (f_equal fst) in E; vm_compute in E; injection E as <-|].
  assert (oracle_ok (store bridge_genesis)) as Hok by (exact bridge_genesis_ok).
  destruct (EthProphecy_shows (claim_of "%v1") some_address "" "" "bob" res bridge_genesis after_one w
    Hok one_ran) as (_ & p & v & _ & _ & _ & _ & _ & Hin); [by vm_compute..|exact E|].
  eexists. split; [exact Hin|done].
Defined.
