(* ===== verification/MessagesSpec.v ===== *)
(** * MessagesSpec: who signs a message

    A message made for an account is signed by this account; the validation of some messages is
    enough for their signers to be known, that of the others is not. *)

From S2P Require Import Prelude Sdk SdkRef Rat Bank Keepers Admin Registry RegistryModule.
From S2P Require Import Disp Oracle EthBridge MarginTypes Margin MarginServer.
From S2P Require Import ClpTypes ClpMath ClpKeeper ClpLiquidity ClpMsgs ClpModule Messages World.
From S2P Require Import ClpExec Scenario.
Local Open Scope Z_scope.

Section spec.
Context {sdk : Sdk} {coins : CoinLib} {HC : CoinLaws coins} {coinslib : CoinsLib} {vals : ValAddressLib}
  {eth : EthLib} {errs : SdkErrors} {json : SignJson}.

Lemma signed_by a : a ≠ "" → ClpMsgs.GetSigners (AccString a) = Ok [a].
Proof. intros Ha. unfold ClpMsgs.GetSigners, must. by rewrite acc_roundtrip. Qed.
Lemma bridge_signed_by a : a ≠ "" → EthBridge.must_address (AccString a) = Ok a.
Proof. intros Ha. unfold EthBridge.must_address. by rewrite acc_roundtrip. Qed.

(** Every message that a constructor makes for an account has this account as its only signer. *)
Theorem made_messages_signed (a b : AccAddress) (v : ValAddress) (s t : string) (x y : Asset) (m n k : Z) :
  a ≠ "" →
  GetSigners (NewMsgDecommissionPool a s) = Ok [a] ∧
  GetSigners (NewMsgSwap a x y m n) = Ok [a] ∧
  GetSigners (NewMsgRemoveLiquidity a x m n) = Ok [a] ∧
  GetSigners (NewMsgRemoveLiquidityUnits a x m) = Ok [a] ∧
  GetSigners (NewMsgAddLiquidity a x m n) = Ok [a] ∧
  GetSigners (NewMsgCreatePool a x m n) = Ok [a] ∧
  GetSigners (NewMsgLock k a s m t n) = Ok [a] ∧
  GetSigners (NewMsgBurn k a s m t n) = Ok [a] ∧
  GetSigners (NewMsgUpdateCethReceiverAccount a b) = Ok [a] ∧
  GetSigners (NewMsgRescueCeth a b m) = Ok [a] ∧
  GetSigners (NewMsgUpdateWhiteListValidator a v s) = Ok [a].
Proof.
  intros Ha. pose proof (signed_by a Ha) as H1. pose proof (bridge_signed_by a Ha) as H2.
  repeat split; first [exact H1|simpl; by rewrite H2].
Qed.

(** What validation lets pass has a signer. *)
Definition checks_signer (A : Type) `{LegacyMsg A} : Prop :=
  ∀ m m' : A, ValidateBasic m = Ok m' → ∃ a, GetSigners m = Ok [a].
Lemma known_signer s a : AccAddressFromBech32 s = Ok a → ClpMsgs.GetSigners s = Ok [a].
Proof. intros E. unfold ClpMsgs.GetSigners. by rewrite E. Qed.
Lemma from_Err s e a :
  match AccAddressFromBech32 s with Err _ => Err e | r => r end = Ok a → AccAddressFromBech32 s = Ok a.
Proof. by destruct (AccAddressFromBech32 s). Qed.

Theorem validated_messages_have_signers :
  checks_signer MsgUpdatePmtpParams ∧ checks_signer MsgModifyPmtpRates ∧
  checks_signer MsgUpdateLiquidityProtectionParams ∧ checks_signer MsgModifyLiquidityProtectionRates ∧
  checks_signer MsgRegister ∧ checks_signer MsgSetRegistry ∧ checks_signer MsgDeregister ∧
  checks_signer MsgCreateDistribution ∧ checks_signer MsgCreateUserClaim ∧ checks_signer MsgRunDistribution.
Proof.
  unfold checks_signer.
  repeat split; intros m m' H; cbn [ValidateBasic MsgUpdatePmtpParams_msg MsgModifyPmtpRates_msg
    MsgUpdateLiquidityProtectionParams_msg MsgModifyLiquidityProtectionRates_msg MsgRegister_msg
    MsgSetRegistry_msg MsgDeregister_msg MsgCreateDistribution_msg MsgCreateUserClaim_msg
    MsgRunDistribution_msg] in H; unfold kept in H; inv_ok.
  all: unfold MsgUpdatePmtpParams_ValidateBasic, MsgModifyPmtpRates_ValidateBasic,
    MsgUpdateLiquidityProtectionParams_ValidateBasic, MsgModifyLiquidityProtectionRates_ValidateBasic,
    MsgRegister_ValidateBasic, MsgSetRegistry_ValidateBasic, MsgDeregister_ValidateBasic,
    MsgCreateDistribution_ValidateBasic, MsgCreateUserClaim_ValidateBasic, MsgRunDistribution_ValidateBasic in *;
    inv_ok_if.
  all: repeat match goal with E : match AccAddressFromBech32 _ with _ => _ end = Ok _ |- _ => apply from_Err in E end.
  all: first [eexists; by apply known_signer|
    unfold MsgCreateDistribution_GetSigners, MsgCreateUserClaim_GetSigners, MsgRunDistribution_GetSigners,
      Disp.must_address; match goal with E : AccAddressFromBech32 _ = _ |- _ => by rewrite E; eexists end].
Qed.
End spec.

(** A swap needs some text as its signer only: it passes validation and its signers panic. *)
Example swap_of_nobody `{SignJson} :
  let m := mkMsgSwap "nobody" (NewAsset "fury") (NewAsset "cusdc") 1 0 in
  ValidateBasic m = Ok m ∧ GetSigners m = Panic.
Proof. by split; vm_compute. Qed.
