(* ===== verification/MigrationsSpec.v ===== *)
(** * MigrationsSpec: an upgrade keeps the books

    After every migration of x/clp the units of each pool are still those of its providers; what the
    third version removes; the texts of the old statuses. *)

From S2P Require Import Disp Oracle EthBridge MarginTypes Margin.
From S2P Require Import Prelude Sdk SdkRef Rat Bank Keepers Admin Registry ClpTypes ClpMath.
From S2P Require Import ClpKeeper ClpModule.
From S2P Require Import Migrations World ClpStoreSpec ClpUnits ClpExec ClpEffects Scenario.
From S2P Require Import ClpUnitsSpec.
Local Open Scope Z_scope.

Section spec.
Context {W : Type} {sdk : Sdk} {HL : SdkLaws sdk} {coins : CoinLib} {bank : BankKeeper W}
  {paginator : Paginator} {registry : TokenRegistryKeeper W} {clp : HasStore ClpStore W}
  {events : HasStore EventLog W} {CW : ClpWorld W}.
Implicit Types w : W.
Notation clp_of w := (store (S := ClpStore) w).

Lemma forM_keeps {A} (P : W → Prop) (f : A → M W unit) l w u w' :
  (∀ x w w', x ∈ l → P w → f x w = (Ok tt, w') → P w') → forM f l w = (Ok u, w') → P w → P w'.
Proof.
  unfold forM. revert w. generalize tt at 2 as b. induction l as [|x l IH]; intros b w Hf H HP.
  - simpl in H. inv_ok. done.
  - simpl in H. apply bind_ok in H as ([] & w1 & Hx & H). eapply IH; [|exact H|].
    + intros y v v' Hy. apply Hf. by right.
    + eapply Hf; [left|exact HP|exact Hx].
Qed.

(** *** Version 2 *)
(** The pools of a list are in the store with their units. *)
Definition pools_stored (pools : list Pool) w : Prop :=
  units_ok (clp_of w) ∧ ∀ p, p ∈ pools → pool_ok p ∧ ∃ p0,
    (clp_of w).(cs_Pools) !! pool_key p.(ExternalAsset).(Symbol) = Some p0 ∧ p0.(PoolUnits) = p.(PoolUnits).
Lemma pools_stored_all w : units_ok (clp_of w) → pools_stored (kv_values (clp_of w).(cs_Pools)) w.
Proof.
  intros Hu. split; [done|]. intros p [k E]%elem_of_kv_values. split; [by eapply pools_ok; [apply Hu|]|].
  exists p. split; [|done]. by rewrite <- (pools_keyed _ (proj1 Hu) _ _ E).
Qed.
Lemma reset_keeps pools p w w' : p ∈ pools → pools_stored pools w →
  on_err (SetPool (reset_pool p)) (λ _, panic) w = (Ok tt, w') → pools_stored pools w'.
Proof.
  intros Hp [Hu Hs] H. unfold on_err in H. destruct (SetPool _ w) as [[a| |] w1] eqn:E; [|done..].
  injection H as _ ->. apply SetPool_ok in E as [_ ->]. destruct (Hs _ Hp) as (Hok & p0 & E0 & EU).
  unfold pools_stored. rewrite store_put. split.
  - eapply units_ok_set_pool; [done|exact E0| |by rewrite EU]. by destruct Hok; split.
  - intros q Hq. destruct (Hs _ Hq) as (Hqok & q0 & F0 & FU). split; [done|].
    unfold set_pool. simpl. destruct (decide (pool_key (Symbol (ExternalAsset q)) = pool_key (Symbol (ExternalAsset p)))) as [Ek|Hn].
    + exists (reset_pool p). rewrite Ek in *. rewrite lookup_insert_eq. split; [done|]. simpl. congruence.
    + exists q0. by rewrite lookup_insert_ne by done.
Qed.
Lemma quiet_rates a d p : preserves (seen (W := W) a d) (SetPmtpRateParams p).
Proof. unfold SetPmtpRateParams. solve_frame. Qed.
#[local] Hint Resolve quiet_rates : frame.
Lemma quiet_settings : quiet (W := W) (SetRewardParams GetDefaultRewardParams) ∧
  (∀ e, quiet (W := W) (SetPmtpEpoch e)) ∧ (∀ p, quiet (W := W) (SetPmtpParams p)) ∧
  ∀ r, quiet (W := W) (SetPmtpInterPolicyRate r).
Proof.
  unfold SetRewardParams, SetPmtpEpoch, SetPmtpParams, SetPmtpInterPolicyRate.
  split_and!; intros; intros a d; solve_frame.
Qed.
Lemma MigrateToVer2_keeps u w w' : MigrateToVer2 w = (Ok u, w') → units_ok (clp_of w) → units_ok (clp_of w').
Proof.
  destruct quiet_settings as (Q1 & Q2 & Q3 & Q4). unfold MigrateToVer2. intros H Hu.
  apply bind_ok in H as (a1 & w1 & [B1 _]%(quiet_ok _ _ _ _ Q1) & H).
  apply bind_ok in H as (a2 & w2 & [B2 _]%(quiet_ok _ _ _ _ (λ a d, quiet_rates a d _)) & H).
  apply bind_ok in H as (a3 & w3 & [B3 _]%(quiet_ok _ _ _ _ (Q2 _)) & H).
  apply bind_ok in H as (pmtp & w4 & [_ ->]%lift_ok & H).
  apply bind_ok in H as (a5 & w5 & [B5 _]%(quiet_ok _ _ _ _ (Q3 _)) & H).
  apply bind_ok in H as (a6 & w6 & [B6 _]%(quiet_ok _ _ _ _ (Q4 _)) & H).
  apply bind_ok in H as (pools & w7 & Hp & H).
  apply bind_ok in Hp as (s & w8 & [-> ->]%get_clp_ok & [= <- <-]).
  assert (units_ok (clp_of w6)) as Hu6 by (by rewrite B6, B5, B3, B2, B1).
  refine (proj1 (forM_keeps (pools_stored _) _ _ _ _ _ _ H (pools_stored_all _ Hu6))).
  intros p v v' Hp. by apply reset_keeps.
Qed.

(** *** Version 3 *)
(** What the removal leaves of a provider and its pool. *)
Definition units_removed (symbol : string) (lp : string * Uint) (s s' : ClpStore) : Prop :=
  match s.(cs_LPs) !! GetLiquidityProviderKey symbol lp.1 with
  | None => s' = s
  | Some l => ∃ p, s.(cs_Pools) !! pool_key symbol = Some p ∧
      lp.2 <= l.(LiquidityProviderUnits) ∧ lp.2 <= p.(PoolUnits) ∧
      s' = set_pool (p <| PoolUnits := p.(PoolUnits) - lp.2 |>)
             (set_lp (l <| LiquidityProviderUnits := l.(LiquidityProviderUnits) - lp.2 |>) s)
  end.
Lemma remove_units_ok symbol lp w u w' : units_ok (clp_of w) → no_underscore lp.1 →
  Asset_Validate (mkAsset symbol) = Ok true → remove_units symbol lp w = (Ok u, w') →
  units_removed symbol lp (clp_of w) (clp_of w').
Proof.
  unfold remove_units, units_removed. intros [Hwf _] Hlp HA H. apply bind_ok in H as (found & w1 & Hf & H).
  destruct (cs_LPs (clp_of w) !! _) as [l|] eqn:El.
  - assert (GetLiquidityProvider symbol lp.1 w = (Ok l, w)) as Eg by (by apply GetLiquidityProvider_ok).
    unfold try in Hf. rewrite Eg in Hf. injection Hf as <- <-.
    apply bind_ok in H as (pool & w1 & Hp & H). unfold on_err in Hp.
    destruct (GetPool symbol w) as [[p| |] w2] eqn:Ep; [|done..]. injection Hp as -> ->.
    apply GetPool_ok in Ep as [-> Ep]. exists pool. split; [done|].
    apply bind_ok in H as (units & w3 & [[-> Hle]%uint_sub_ok ->]%lift_ok & H).
    apply bind_ok in H as (a & w4 & Hl & H).
    destruct (lps_keyed _ Hwf _ _ El) as [Ek Hn]. apply lp_key_inj in Ek as [Es Ea]; [|done..].
    destruct l as [[sym] lu la us]. simpl in *. subst sym la.
    apply SetLiquidityProvider_ok in Hl as ->; [|done].
    apply bind_ok in H as (pu & w5 & [[-> Hple]%uint_sub_ok ->]%lift_ok & H).
    apply bind_ok in H as (r & w6 & Ht & [= _ <-]).
    pose proof (pools_keyed _ Hwf _ _ Ep) as Ekp. apply pool_key_inj in Ekp.
    split; [lia|]. split; [lia|]. unfold try in Ht.
    match type of Ht with match SetPool ?q ?v with _ => _ end = _ =>
      assert (SetPool q v = (Ok tt, put_store (set_pool q (store v)) v)) as Es end.
    { apply SetPool_ok. split; [|done]. destruct pool as [[psym] ?]. simpl in *. by subst psym. }
    rewrite Es in Ht. injection Ht as _ <-. by rewrite store_put, store_put.
  - assert (GetLiquidityProvider symbol lp.1 w = (Err ErrLiquidityProviderDoesNotExist, w)) as Eg.
    { unfold GetLiquidityProvider, get_clp, get_store, gets, mbind, M_bind. by rewrite El. }
    unfold try in Hf. rewrite Eg in Hf. injection Hf as <- <-. by injection H as _ <-.
Qed.
(** Both sides lose the same units. *)
Lemma units_removed_ok symbol lp s s' : no_underscore lp.1 → units_ok s → units_removed symbol lp s s' → units_ok s'.
Proof.
  unfold units_removed. intros Hn [Hwf Hu] H. destruct (cs_LPs s !! _) as [l|] eqn:El; [|by subst].
  destruct H as (p & Ep & Hl & Hp & ->). destruct (lps_keyed _ Hwf _ _ El) as [Ek Hnl].
  apply lp_key_inj in Ek as [Es Ea]; [|done..]. pose proof (pools_keyed _ Hwf _ _ Ep) as Ekp. apply pool_key_inj in Ekp.
  eapply (units_ok_proper (set_lp _ (set_pool _ s))); [by apply same_books_split|].
  apply units_ok_set_both; simpl; [by split| |done|lia|congruence|].
  - pose proof (pools_ok _ Hwf _ _ Ep) as []. by split.
  - unfold pool_units, held_units. rewrite <- Es, <- Ea, Ep, El. simpl. lia.
Qed.
Lemma removed_names l acc lps :
  foldR (λ lps lp, units ← must (NewUintFromString (lp : string * string).2); Ok (lps ++ [(lp.1, units)])) acc l
  = Ok lps → lps.*1 = acc.*1 ++ l.*1.
Proof.
  revert acc. induction l as [|e l IH]; intros acc H; simpl in H; [injection H as <-; by rewrite app_nil_r|].
  apply rbind_ok in H as (acc' & H1 & H). apply rbind_ok in H1 as (n & _ & [= <-]). apply IH in H as ->.
  rewrite fmap_app, <- app_assoc. done.
Qed.
Lemma removed_no_underscore a : a ∈ removed_units.*1 → no_underscore a.
Proof.
  assert (forallb (λ a, bool_decide (no_underscore a)) removed_units.*1 = true) as H by (vm_compute; reflexivity).
  intros Ha. refine (bool_decide_eq_true_1 _ _). exact (proj1 (forallb_forall _ _) H a (proj1 (list_elem_of_In _ _) Ha)).
Qed.
Lemma MigrateToVer3_keeps u w w' : Asset_Validate (mkAsset "cusdc") = Ok true →
  MigrateToVer3 w = (Ok u, w') → units_ok (clp_of w) → units_ok (clp_of w').
Proof.
  unfold MigrateToVer3. intros HA H. apply bind_ok in H as (lps & w1 & [Hl ->]%lift_ok & H).
  apply removed_names in Hl. revert H. apply (forM_keeps (λ w, units_ok (clp_of w))).
  intros [a n] v v' Hin Hv H. assert (no_underscore a) as Hn.
  { assert (a ∈ lps.*1) as Ha by (apply list_elem_of_fmap; by exists (a, n)).
    rewrite Hl in Ha. exact (removed_no_underscore a Ha). }
  apply (units_removed_ok "cusdc" (a, n) (clp_of v) (clp_of v') Hn Hv). by apply remove_units_ok in H.
Qed.
Lemma MigrateToVer4_keeps u w w' :
  MigrateToVer4 w = (Ok u, w') → units_ok (clp_of w) → units_ok (clp_of w').
Proof.
  intros H. apply upd_clp_ok in H as ->. rewrite store_put. by apply units_ok_same.
Qed.

(** The texts of the old statuses are read back. *)
Lemma status_text_roundtrip t : StringToStatusText (StatusTextToString t) = t.
Proof. by destruct t. Qed.
End spec.

(** C40: Every migration of x/clp that an upgrade runs keeps the books: if the units of each pool were
    the sum of those of its providers, they still are when the migration ends, also where it takes
    units away. *)
Theorem migrations_keep_units {W : Type} `{HL : SdkLaws} `{CW : ClpWorld W} (from : Z) (m : M W unit) (w w' : W) :
  clp_migration from = Some m → Asset_Validate (mkAsset "cusdc") = Ok true →
  units_ok (store (S := ClpStore) w) → m w = (Ok tt, w') → units_ok (store (S := ClpStore) w').
Proof.
  unfold clp_migration. intros Hm HA Hu E.
  destruct (from =? 1); [injection Hm as <-; by apply MigrateToVer2_keeps in E|].
  destruct (from =? 2); [injection Hm as <-; by apply MigrateToVer3_keeps in E|].
  destruct (from =? 3); [|done]. injection Hm as <-. by apply MigrateToVer4_keeps in E.
Qed.

(** ** The scenario: a provider from whom version 3 takes units *)
Definition listed_provider : LiquidityProvider :=
  mkLP (mkAsset "cusdc") (10 ^ 23) "black1smknl4uf89ef84kg020ff7ask7l0sxz3s93gva" [].
Definition before_upgrade_pool : Pool :=
  default (migrate_pool (mkPool39 "cusdc" 0 0 0))
    ((store (S := ClpStore) (deliver (block 10) genesis alice_creates)).(cs_Pools) !! pool_key "cusdc").
Definition before_upgrade : World :=
  let w := deliver (block 10) genesis alice_creates in
  put_store (set_lp listed_provider
    (set_pool (before_upgrade_pool <| PoolUnits := before_upgrade_pool.(PoolUnits) + 10 ^ 23 |>) (store w))) w.
Lemma before_upgrade_units : units_ok (store (S := ClpStore) before_upgrade).
Proof.
  unfold before_upgrade. cbv zeta. rewrite store_put. apply units_ok_set_both.
  - eapply (message_units (block 10) alice_creates genesis); [vm_compute; reflexivity|apply alice_may_create|by left|apply genesis_units].
  - split; by vm_compute.
  - by apply (bool_decide_eq_true_1 (no_underscore _)); vm_compute.
  - done.
  - by vm_compute.
  - by vm_compute.
Qed.
Lemma migrations_keep_units_witness : ∃ w',
  MigrateToVer3 before_upgrade = (Ok tt, w') ∧ units_ok (store (S := ClpStore) w').
Proof.
  destruct (MigrateToVer3 before_upgrade) as [[[]| |] w'] eqn:E; [|by apply (f_equal fst) in E; vm_compute in E..].
  exists w'. split; [done|].
  assert (Asset_Validate (mkAsset "cusdc") = Ok true) as HA by (vm_compute; reflexivity).
  exact (migrations_keep_units 2 MigrateToVer3 before_upgrade w' eq_refl HA before_upgrade_units E).
Defined.
