(* ===== verification/DispSpec.v ===== *)
(** * DispSpec: what x/dispensation promises

    Records are stored under their own key and status; the coins of pending and failed records
    are in the module's account; running a distribution pays each record once; the minting of the
    block handler stops at its limit. *)

From S2P Require Import Prelude Bech32 Sdk SdkRef Bank Keepers World Scenario OracleSpec ClpTypes.
From S2P Require Import ClpExec.
From S2P Require Import Disp DispWorld.
Local Open Scope Z_scope.

(** ** Stores *)
Definition record_key (dr : DistributionRecord) : RecordPrefix * string :=
  GetDistributionRecordKey dr.(dr_Status) dr.(dr_Name) dr.(dr_RecipientAddress) dr.(dr_Type).
(** The text of the key, the same under every status. *)
Definition record_text (dr : DistributionRecord) : string := (record_key dr).2.

Definition finished (status : DistributionStatus) (height : Z) (dr : DistributionRecord)
    : DistributionRecord := dr <| dr_Status := status |> <| dr_CompletedHeight := height |>.

Lemma key_text status name recipient t :
  (GetDistributionRecordKey status name recipient t).2
  = (GetDistributionRecordKey DISTRIBUTION_STATUS_PENDING name recipient t).2.
Proof. by destruct status. Qed.
Lemma finished_text status height dr : record_text (finished status height dr) = record_text dr.
Proof.
  unfold record_text, record_key. simpl. rewrite key_text. symmetry. apply key_text.
Qed.

Section store.
Context {coinslib : CoinsLib}.

Definition records_ok (s : DispStore) : Prop := ∀ p k dr,
  ds_Records p s !! k = Some dr → record_key dr = (p, k) ∧ DistributionRecord_Validate dr = true.
(** Every value is stored under its own key and is valid. *)
Definition disp_ok (s : DispStore) : Prop :=
  records_ok s ∧
  (∀ k d, s.(ds_Distributions) !! k = Some d →
    k = GetDistributionsKey d.(d_Name) d.(d_Type) d.(d_Runner) ∧ Distribution_Validate d = true) ∧
  (∀ k c, s.(ds_Claims) !! k = Some c →
    k = GetUserClaimKey c.(uc_UserAddress) c.(uc_Type) ∧ UserClaim_Validate c = true).

Lemma ds_Records_set p q f s :
  ds_Records p (ds_set_Records q f s) = if decide (p = q) then f (ds_Records p s) else ds_Records p s.
Proof. by destruct p, q. Qed.
Lemma ds_set_other q f s : let s' := ds_set_Records q f s in
  s'.(ds_Distributions) = s.(ds_Distributions) ∧ s'.(ds_Claims) = s.(ds_Claims) ∧
  s'.(ds_MintController) = s.(ds_MintController).
Proof. by destruct q. Qed.

Lemma disp_ok_record s dr : disp_ok s → DistributionRecord_Validate dr = true →
  disp_ok (ds_set_Records (record_key dr).1 <[record_text dr := dr]> s).
Proof.
  intros (Hr & Hd & Hc) Hv. destruct (ds_set_other (record_key dr).1 <[record_text dr := dr]> s)
    as (Ed & Ec & _). split_and!; [|by rewrite Ed|by rewrite Ec].
  intros p k x. rewrite ds_Records_set. case_decide as E; [|apply Hr].
  intros [[<- <-]|[_ Hx]]%lookup_insert_Some; [|by apply Hr]. split; [|done].
  by rewrite E, <- surjective_pairing.
Qed.
Lemma disp_ok_forget s p k : disp_ok s → disp_ok (ds_set_Records p (delete k) s).
Proof.
  intros (Hr & Hd & Hc). destruct (ds_set_other p (delete k) s) as (Ed & Ec & _).
  split_and!; [|by rewrite Ed|by rewrite Ec].
  intros q k' x. rewrite ds_Records_set. case_decide; [|apply Hr].
  intros [_ Hx]%lookup_delete_Some. by apply Hr.
Qed.
Lemma disp_ok_distribution s d : disp_ok s → Distribution_Validate d = true →
  disp_ok (s <| ds_Distributions ::= <[GetDistributionsKey d.(d_Name) d.(d_Type) d.(d_Runner) := d]> |>).
Proof.
  intros (Hr & Hd & Hc) Hv. split_and!; [by intros p; specialize (Hr p); destruct p| |done].
  intros k x. simpl. intros [[<- <-]|[_ Hx]]%lookup_insert_Some; [done|by apply Hd].
Qed.
Lemma disp_ok_claim s c : disp_ok s → UserClaim_Validate c = true →
  disp_ok (s <| ds_Claims ::= <[GetUserClaimKey c.(uc_UserAddress) c.(uc_Type) := c]> |>).
Proof.
  intros (Hr & Hd & Hc) Hv. split_and!; [by intros p; specialize (Hr p); destruct p|done|].
  intros k x. simpl. intros [[<- <-]|[_ Hx]]%lookup_insert_Some; [done|by apply Hc].
Qed.
Lemma disp_ok_unclaim s k : disp_ok s → disp_ok (s <| ds_Claims ::= delete k |>).
Proof.
  intros (Hr & Hd & Hc). split_and!; [by intros p; specialize (Hr p); destruct p|done|].
  intros k' x. simpl. intros [_ Hx]%lookup_delete_Some. by apply Hc.
Qed.
Lemma disp_ok_controller s c : disp_ok s → disp_ok (s <| ds_MintController := c |>).
Proof. intros (Hr & Hd & Hc). split_and!; [by intros p; specialize (Hr p); destruct p|done|done]. Qed.

Lemma finished_valid status height dr :
  DistributionRecord_Validate (finished status height dr) = DistributionRecord_Validate dr.
Proof. done. Qed.

(** The store after a pending record is finished. *)
Definition settled (status : DistributionStatus) (height : Z) (dr : DistributionRecord)
    (s : DispStore) : DispStore :=
  let dr' := finished status height dr in
  ds_set_Records RecordPrefixPending (delete (record_text dr))
    (ds_set_Records (record_key dr').1 <[record_text dr := dr']> s).
End store.

Section spec.
Context {W : Type} {sdk : Sdk} {HL : SdkLaws sdk} {coins : CoinLib} {coinslib : CoinsLib}
  {errs : SdkErrors} {bank : BankKeeper W} {disp : HasStore DispStore W}
  {events : HasStore EventLog W} {DW : DispWorld W}.
Implicit Types w : W.
Notation disp_of w := (store (S := DispStore) w).
Notation dok w := (disp_ok (disp_of w)).

(** ** The invariant survives every operation, also one that fails half-way *)
Notation keeps m := (maintains (λ w, dok w) m).

Lemma keeps_ok {A} (m : M W A) w r w' : keeps m → m w = (r, w') → dok w → dok w'.
Proof. intros Hm E Hok. specialize (Hm w Hok). by rewrite E in Hm. Qed.
Lemma keeps_untouched {A} (m : M W A) : preserves (store (S := DispStore)) m → keeps m.
Proof. apply maintains_preserves. by intros w w' ->. Qed.
Lemma keeps_upd f : (∀ s, disp_ok s → disp_ok (f s)) → keeps (upd_disp f).
Proof. intros Hf w Hw. unfold upd_disp, upd_store, modify. simpl. rewrite store_put. by apply Hf. Qed.
Lemma keeps_throw_if c e (m : M W unit) : (c = false → keeps m) → keeps (_ ← throw_if c e; m).
Proof. intros Hm. destruct c; [by intros w|by apply Hm]. Qed.

(** Operations that only read leave the store alone. *)
Lemma reads_exists name recipient status t :
  preserves (store (S := DispStore)) (ExistsDistributionRecord name recipient status t).
Proof. unfold ExistsDistributionRecord, get_disp, get_store. solve_frame. Qed.
Lemma reads_get name recipient status t :
  preserves (store (S := DispStore)) (GetDistributionRecord name recipient status t).
Proof. unfold GetDistributionRecord, get_disp, get_store. solve_frame. Qed.
Lemma reads_iterate status : preserves (store (S := DispStore)) (iterate status).
Proof. unfold iterate, GetDistributionRecordsIterator, get_disp, get_store. solve_frame. Qed.
Lemma reads_controller : preserves (store (S := DispStore)) GetMintController.
Proof. unfold GetMintController, get_disp, get_store. solve_frame. Qed.
Lemma bank_out m a cs : preserves (store (S := DispStore)) (SendCoinsFromModuleToAccount m a cs).
Proof. apply frame_send_ma. Qed.
Lemma bank_in a m cs : preserves (store (S := DispStore)) (SendCoinsFromAccountToModule a m cs).
Proof. apply frame_send_am. Qed.
Lemma bank_mint m cs : preserves (store (S := DispStore)) (MintCoins m cs).
Proof. apply frame_mint. Qed.
Hint Resolve bank_out bank_in bank_mint reads_exists reads_get reads_iterate reads_controller : frame.

Lemma keeps_set_record dr : keeps (SetDistributionRecord dr).
Proof.
  apply keeps_throw_if. intros Hv%negb_false_iff. apply keeps_upd. intros s Hs.
  by apply (disp_ok_record s dr).
Qed.
Lemma keeps_delete_record name recipient status t :
  keeps (DeleteDistributionRecord name recipient status t).
Proof.
  apply maintains_bind; [apply keeps_untouched; solve_frame|]. intros e.
  apply keeps_throw_if. intros _. apply keeps_upd. intros s. apply disp_ok_forget.
Qed.
Lemma keeps_wrap {A} e (m : M W A) : keeps m → keeps (wrap_err e m).
Proof. intros Hm. apply maintains_on_err; [done|]. intros e'. by apply keeps_untouched. Qed.
Lemma keeps_on_err (m : M W unit) h : keeps m → (∀ e, keeps (h e)) → keeps (on_err m h).
Proof. apply maintains_on_err. Qed.
Lemma keeps_try {A} (m : M W A) : keeps m → keeps (try m).
Proof. intros Hm w Hw. specialize (Hm w Hw). unfold try. by destruct (m w) as [[]]. Qed.
Lemma keeps_forM {A} (f : A → M W unit) l : (∀ x, keeps (f x)) → keeps (forM f l).
Proof. intros Hf. apply maintains_foldM. auto. Qed.
Lemma keeps_change dr height status : keeps (ChangeRecordStatus dr height status).
Proof.
  apply maintains_bind; [apply keeps_wrap, keeps_set_record|]. intros _.
  apply keeps_wrap, keeps_delete_record.
Qed.
Lemma keeps_set_distribution d : keeps (SetDistribution d).
Proof.
  apply keeps_throw_if. intros Hv%negb_false_iff. apply keeps_upd. intros s Hs.
  by apply disp_ok_distribution.
Qed.
Lemma keeps_set_claim c : keeps (SetClaim c).
Proof.
  apply keeps_throw_if. intros Hv%negb_false_iff. apply keeps_upd. intros s Hs.
  by apply disp_ok_claim.
Qed.
Lemma keeps_delete_claim recipient t : keeps (DeleteClaim recipient t).
Proof. apply keeps_upd. intros s. apply disp_ok_unclaim. Qed.
Lemma keeps_controller c : keeps (SetMintController c).
Proof. apply keeps_upd. intros s. apply disp_ok_controller. Qed.
Lemma keeps_emit es : keeps (EmitEvents es).
Proof.
  apply keeps_untouched. intros w. unfold EmitEvents, upd_store, modify. simpl. apply store_put_other.
Qed.
Lemma keeps_or_panic m : keeps m → keeps (or_panic m).
Proof. intros Hm. apply maintains_on_err; [done|]. intros e. by apply keeps_untouched. Qed.

Create HintDb keeps.
Hint Resolve keeps_set_record keeps_change keeps_set_distribution keeps_set_claim
  keeps_delete_claim keeps_controller keeps_emit keeps_wrap keeps_on_err keeps_try keeps_forM
  keeps_or_panic : keeps.
(** Along the steps of a handler; whatever writes no record, distribution, claim or controller
    leaves the store alone. *)
Ltac walk_keeps := intros;
  repeat match goal with
         | |- maintains _ (mbind _ _) => apply maintains_bind; [|intros ?]
         | |- maintains _ (match ?c with _ => _ end) => destruct c
         end;
  first [solve [eauto with keeps] | apply keeps_untouched; solve [solve_frame]].

Lemma keeps_distribute_drop height dr : keeps (distribute_drop height dr).
Proof. unfold distribute_drop. walk_keeps. Qed.
Lemma keeps_create_drop height name t runner o : keeps (create_drop height name t runner o).
Proof. unfold create_drop. walk_keeps. Qed.
Hint Resolve keeps_distribute_drop keeps_create_drop : keeps.
Lemma keeps_handler ctx m : keeps (NewHandler ctx m).
Proof.
  destruct m as [m|m|m]; simpl;
    unfold CreateDistribution, CreateUserClaim, RunDistribution, VerifyAndSetDistribution,
      ExistsDistribution, AccumulateDrops, CreateDrops, ExistsClaim, DistributeDrops,
      GetLimitedRecordsForRunner, get_disp, get_store; walk_keeps.
Qed.
Lemma keeps_ret {A} (a : A) : keeps (mret a).
Proof. by intros w. Qed.
Lemma keeps_add_mint c : keeps (AddMintAmount c).
Proof. unfold AddMintAmount. walk_keeps. Qed.
Hint Resolve keeps_ret keeps_add_mint : keeps.
Lemma keeps_begin_blocker : keeps BeginBlocker.
Proof.
  unfold BeginBlocker, TokensCanBeMinted, block_mint_amount, IsLastBlock, ignore_err. walk_keeps.
Qed.
Lemma keeps_import data : keeps (InitGenesis data).
Proof. unfold InitGenesis. walk_keeps. Qed.

(** ** Finishing one record *)
Lemma set_record_run dr w : DistributionRecord_Validate dr = true →
  SetDistributionRecord dr w
  = (Ok tt, put_store (ds_set_Records (record_key dr).1 <[record_text dr := dr]> (disp_of w)) w).
Proof. intros Hv. unfold SetDistributionRecord. by rewrite Hv. Qed.

Lemma delete_record_run name recipient status t w dr :
  let key := GetDistributionRecordKey status name recipient t in
  ds_Records key.1 (disp_of w) !! key.2 = Some dr →
  DeleteDistributionRecord name recipient status t w
  = (Ok tt, put_store (ds_set_Records key.1 (delete key.2) (disp_of w)) w).
Proof.
  intros key Hdr. unfold DeleteDistributionRecord, ExistsDistributionRecord, get_disp, get_store.
  fold key. unfold mbind, M_bind, gets, mret, M_ret. by rewrite Hdr.
Qed.

Lemma change_run dr height status w : DistributionRecord_Validate dr = true →
  dr.(dr_Status) = DISTRIBUTION_STATUS_PENDING → status ≠ DISTRIBUTION_STATUS_PENDING →
  (disp_of w).(ds_Pending) !! record_text dr = Some dr →
  ChangeRecordStatus dr height status w = (Ok tt, put_store (settled status height dr (disp_of w)) w).
Proof.
  intros Hv Hp Hs Hdr. unfold ChangeRecordStatus, wrap_err, on_err, mbind, M_bind.
  rewrite set_record_run by done. fold (finished status height dr).
  assert (record_key dr = (RecordPrefixPending, record_text dr)) as Ek.
  { unfold record_text, record_key. by rewrite Hp. }
  assert ((record_key (finished status height dr)).1 ≠ RecordPrefixPending) as Hn.
  { unfold record_key. simpl. by destruct status. }
  erewrite delete_record_run.
  - rewrite store_put, put_store_put. unfold settled.
    change (GetDistributionRecordKey (dr_Status dr) _ _ _) with (record_key dr).
    rewrite Ek. simpl. by rewrite finished_text.
  - change (GetDistributionRecordKey (dr_Status dr) _ _ _) with (record_key dr).
    rewrite Ek, store_put, ds_Records_set, decide_False by (intros E; by rewrite <- E in Hn).
    exact Hdr.
Qed.

Lemma sumZ_cons {A} (f : A → Z) x l : sumZ f (x :: l) = f x + sumZ f l.
Proof. done. Qed.

(** Coins that a payment of [dr] to [r] adds to account [a]. *)
Definition payout (r : AccAddress) (dr : DistributionRecord) (a : AccAddress) (d : string) : Z :=
  (if String.eqb a r then AmountOf dr.(dr_Coins) d else 0)
  - (if String.eqb a (NewModuleAddress ModuleName) then AmountOf dr.(dr_Coins) d else 0).
Definition outcome (sent : bool) : DistributionStatus :=
  if sent then DISTRIBUTION_STATUS_COMPLETED else DISTRIBUTION_STATUS_FAILED.
Definition waiting w (dr : DistributionRecord) : Prop :=
  (disp_of w).(ds_Pending) !! record_text dr = Some dr.

(** What leaves the records alone apart from [f]. *)
Definition same_but_claims (s s' : DispStore) : Prop :=
  (∀ p, ds_Records p s' = ds_Records p s) ∧ s'.(ds_Distributions) = s.(ds_Distributions) ∧
  s'.(ds_MintController) = s.(ds_MintController).

Lemma balance_put (s : DispStore) w a d : balance (put_store s w) a d = balance w a d.
Proof. unfold balance. by rewrite frame_balance. Qed.

Lemma waiting_pending w dr : dok w → waiting w dr →
  DistributionRecord_Validate dr = true ∧ dr.(dr_Status) = DISTRIBUTION_STATUS_PENDING.
Proof.
  intros (Hr & _) Hw. destruct (Hr RecordPrefixPending _ _ Hw) as [Hk Hv]. split; [done|].
  unfold record_key in Hk. by destruct (dr_Status dr).
Qed.

(** The claim that paying a record uses up, and the claims after. *)
Definition claim_key (dr : DistributionRecord) : string :=
  GetUserClaimKey dr.(dr_RecipientAddress) dr.(dr_Type).
Definition uses_claim (sent : bool) (dr : DistributionRecord) : bool := sent && DoesTypeSupportClaim dr.
Definition after_claim (sent : bool) (dr : DistributionRecord) (claims : gmap string UserClaim)
    : gmap string UserClaim := if uses_claim sent dr then delete (claim_key dr) claims else claims.
(** Whether the bank would send the coins of a record. *)
Definition bank_sends (dr : DistributionRecord) (r : AccAddress) w : bool :=
  is_ok (SendCoinsFromModuleToAccount ModuleName r dr.(dr_Coins) w).1.

Lemma settled_claims b height dr s : (settled (outcome b) height dr s).(ds_Claims) = s.(ds_Claims).
Proof. by destruct b. Qed.

Lemma distribute_drop_run height dr r w : dok w → waiting w dr →
  AccAddressFromBech32 dr.(dr_RecipientAddress) = Ok r →
  ∃ sent w', distribute_drop height dr w = (Ok tt, w') ∧
    same_but_claims (settled (outcome sent) height dr (disp_of w)) (disp_of w') ∧
    (∀ a d, balance w' a d = balance w a d + (if sent : bool then payout r dr a d else 0)) ∧
    sent = bank_sends dr r w ∧
    (disp_of w').(ds_Claims) = after_claim sent dr (disp_of w).(ds_Claims).
Proof.
  intros Hok Hw Ha. destruct (waiting_pending _ _ Hok Hw) as [Hv Hp].
  unfold distribute_drop, bank_sends, after_claim, uses_claim. rewrite Ha.
  unfold mbind, M_bind, try. simpl.
  destruct (SendCoinsFromModuleToAccount _ _ _ w) as [[[]|e|] w1] eqn:Es.
  - assert (disp_of w1 = disp_of w) as E1 by (by apply (preserves_ok _ _ _ _ _ (bank_out _ _ _) Es)).
    rewrite change_run; [|done|done|done|by unfold waiting in Hw; rewrite E1]. exists true.
    assert (∀ (s : DispStore) a d, balance (put_store s w1) a d = balance w a d + payout r dr a d) as Hb.
    { intros s a d. rewrite balance_put, (send_module_account _ _ _ _ _ a d Es).
      unfold payout. lia. }
    rewrite E1. unfold DeleteClaim, upd_disp, upd_store, modify.
    destruct (DoesTypeSupportClaim dr); eexists; (split; [done|]); cbv beta.
    + split; [|split; [intros a d; rewrite balance_put; apply Hb|split; [done|by rewrite !store_put]]].
      rewrite !store_put. split_and!; [|done..]. by intros [].
    + split; [by rewrite store_put|]. split; [intros a d; apply Hb|]. split; [done|by rewrite store_put].
  - assert (disp_of w1 = disp_of w) as E1 by (by apply (preserves_ok _ _ _ _ _ (bank_out _ _ _) Es)).
    unfold on_err. rewrite change_run; [|done|done|done|by unfold waiting in Hw; rewrite E1].
    exists false. eexists. split; [done|]. rewrite store_put, E1. split; [done|].
    split; [|split; done]. intros a d.
    rewrite balance_put, (send_module_account_err _ _ _ _ _ _ a d Es); [lia|done].
  - pose proof (dw_send_ends ModuleName r (dr_Coins dr) w) as Hn. by rewrite Es in Hn.
Qed.

(** ** Finishing the records of one message *)
Definition payee (dr : DistributionRecord) : AccAddress :=
  match AccAddressFromBech32 dr.(dr_RecipientAddress) with Ok r => r | _ => "" end.
Definition reachable_recipient (dr : DistributionRecord) : Prop :=
  is_ok (AccAddressFromBech32 dr.(dr_RecipientAddress)) = true.
Lemma reachable_payee dr : reachable_recipient dr →
  AccAddressFromBech32 dr.(dr_RecipientAddress) = Ok (payee dr).
Proof. unfold reachable_recipient, payee. by destruct (AccAddressFromBech32 _). Qed.

(** The records [l] of [w] are finished in [w']: those of [paid] are completed, their coins
    have gone from the module to the recipient and the claims of their recipients are used up, if
    the type of the record has claims; the others have failed and moved nothing. *)
Definition claims_used (paid : DistributionRecord → bool) (l : list DistributionRecord) : list string :=
  claim_key <$> filter (λ dr, uses_claim (paid dr) dr = true) l.
Definition finishes (paid : DistributionRecord → bool) (height : Z) (l : list DistributionRecord)
    (w w' : W) : Prop :=
  (∀ k, (disp_of w').(ds_Pending) !! k
        = if decide (k ∈ record_text <$> l) then None else (disp_of w).(ds_Pending) !! k) ∧
  (∀ dr, dr ∈ l → let dr' := finished (outcome (paid dr)) height dr in
     ds_Records (record_key dr').1 (disp_of w') !! record_text dr = Some dr') ∧
  (∀ k p, p ≠ RecordPrefixPending → k ∉ record_text <$> l →
     ds_Records p (disp_of w') !! k = ds_Records p (disp_of w) !! k) ∧
  (disp_of w').(ds_Distributions) = (disp_of w).(ds_Distributions) ∧
  (disp_of w').(ds_MintController) = (disp_of w).(ds_MintController) ∧
  (∀ a d, balance w' a d
    = balance w a d + sumZ (λ dr, if paid dr then payout (payee dr) dr a d else 0) l) ∧
  ∀ k, (disp_of w').(ds_Claims) !! k
       = if decide (k ∈ claims_used paid l) then None else (disp_of w).(ds_Claims) !! k.
Lemma claims_used_ext f g l : (∀ dr, dr ∈ l → f dr = g dr) → claims_used f l = claims_used g l.
Proof.
  unfold claims_used. induction l as [|dr l IH]; [done|]. intros H. rewrite !filter_cons, (H dr) by by left.
  assert (∀ x, x ∈ l → f x = g x) as Hl by (intros x Hx; apply H; by right).
  case_decide; [|by apply IH]. rewrite !fmap_cons. f_equal. by apply IH.
Qed.
(** A record is paid exactly if the bank sends its coins when its turn comes. *)
Definition paid_by_bank (paid : DistributionRecord → bool) (height : Z) (l : list DistributionRecord)
    w : Prop := ∀ l1 dr l2, l = l1 ++ dr :: l2 →
  ∃ w1, forM (distribute_drop height) l1 w = (Ok tt, w1) ∧ paid dr = bank_sends dr (payee dr) w1.

Lemma outcome_prefix b height dr :
  (record_key (finished (outcome b) height dr)).1
  = if b then RecordPrefixCompleted else RecordPrefixFailed.
Proof. by destruct b. Qed.
Lemma settled_pending b height dr s :
  (settled (outcome b) height dr s).(ds_Pending) = delete (record_text dr) s.(ds_Pending).
Proof. unfold settled. rewrite outcome_prefix. by destruct b. Qed.
Lemma same_pending b height dr s s' : same_but_claims (settled (outcome b) height dr s) s' →
  s'.(ds_Pending) = delete (record_text dr) s.(ds_Pending).
Proof.
  intros [Hr _]. rewrite <- (settled_pending b height dr). exact (Hr RecordPrefixPending).
Qed.
Lemma settled_done b height dr s p : p ≠ RecordPrefixPending →
  ds_Records p (settled (outcome b) height dr s)
  = if decide (p = if b then RecordPrefixCompleted else RecordPrefixFailed)
    then <[record_text dr := finished (outcome b) height dr]> (ds_Records p s) else ds_Records p s.
Proof. intros Hp. unfold settled. rewrite outcome_prefix. by destruct p, b. Qed.

Lemma finishes_cons sent paid height dr l w w1 w' : record_text dr ∉ record_text <$> l →
  same_but_claims (settled (outcome sent) height dr (disp_of w)) (disp_of w1) →
  (∀ a d, balance w1 a d = balance w a d + (if sent then payout (payee dr) dr a d else 0)) →
  (disp_of w1).(ds_Claims) = after_claim sent dr (disp_of w).(ds_Claims) →
  finishes paid height l w1 w' →
  finishes (λ x, if decide (x = dr) then sent else paid x) height (dr :: l) w w'.
Proof.
  intros Hn Hs Hb Hcl (Fp & Fi & Fo & Fd & Fm & Fb & Fc). pose proof (same_pending _ _ _ _ _ Hs) as Hpend.
  destruct Hs as (Hr & Hd & Hm).
  assert (∀ x, x ∈ l → x ≠ dr) as Hne.
  { intros x Hx ->. apply Hn. by apply list_elem_of_fmap_2. }
  assert (∀ p, p ≠ RecordPrefixPending → ds_Records p (disp_of w1)
    = ds_Records p (settled (outcome sent) height dr (disp_of w))) as Hr' by auto.
  split_and!.
  - intros k. rewrite Fp, Hpend. simpl. case_decide as E1.
    + by rewrite decide_True by (by right).
    + destruct (decide (k = record_text dr)) as [->|E2].
      * by rewrite decide_True, lookup_delete_eq by left.
      * rewrite decide_False by (by intros [|]%elem_of_cons). by rewrite lookup_delete_ne.
  - intros x [->|Hx]%elem_of_cons; cbv zeta.
    + rewrite decide_True by done. rewrite Fo; [|by rewrite outcome_prefix; destruct sent|done].
      rewrite outcome_prefix, Hr' by by destruct sent. rewrite settled_done by by destruct sent.
      by rewrite decide_True, lookup_insert_eq.
    + rewrite decide_False by auto. by apply Fi.
  - intros k p Hp [Hk1 Hk2]%not_elem_of_cons. rewrite Fo, Hr', settled_done by done.
    case_decide; [|done]. by rewrite lookup_insert_ne.
  - rewrite Fd, Hd. unfold settled. by destruct (ds_set_other RecordPrefixPending
      (delete (record_text dr)) (ds_set_Records (record_key (finished (outcome sent) height dr)).1
      <[record_text dr:=finished (outcome sent) height dr]> (disp_of w))) as (-> & _ & _);
      destruct sent.
  - rewrite Fm, Hm. unfold settled. by destruct sent.
  - intros a d. rewrite Fb, Hb, sumZ_cons. rewrite decide_True by done.
    rewrite (sumZ_ext (λ x, if paid x then payout (payee x) x a d else 0)
      (λ x, if if decide (x = dr) then sent else paid x then payout (payee x) x a d else 0) l); [lia|].
    intros x Hx. by rewrite decide_False by auto.
  - intros k. rewrite Fc, Hcl.
    assert (claims_used (λ x, if decide (x = dr) then sent else paid x) (dr :: l)
      = (if uses_claim sent dr then [claim_key dr] else []) ++ claims_used paid l) as ->.
    { rewrite <- (claims_used_ext (λ x, if decide (x = dr) then sent else paid x) paid l)
        by (intros x Hx; by rewrite decide_False by auto).
      unfold claims_used. rewrite filter_cons, (decide_True (P := dr = dr)) by done.
      by destruct (uses_claim sent dr). }
    unfold after_claim. destruct (uses_claim sent dr); [|done]. simpl.
    case_decide as E1; [by rewrite decide_True by (by right)|].
    destruct (decide (k = claim_key dr)) as [->|E2].
    + by rewrite decide_True, lookup_delete_eq by left.
    + rewrite decide_False by (by intros [|]%elem_of_cons). by rewrite lookup_delete_ne.
Qed.

Lemma drops_run height l w : dok w → NoDup (record_text <$> l) →
  (∀ dr, dr ∈ l → waiting w dr ∧ reachable_recipient dr) →
  ∃ paid w', forM (distribute_drop height) l w = (Ok tt, w') ∧ finishes paid height l w w' ∧
    paid_by_bank paid height l w.
Proof.
  revert w. induction l as [|dr l IH]; intros w Hok Hnd Hl.
  - exists (λ _, false), w. split; [done|]. split; [split_and!; try done|].
    + by intros dr ?%not_elem_of_nil.
    + intros a d. simpl. lia.
    + by intros [|??] ??.
  - apply NoDup_cons in Hnd as [Hn Hnd]. destruct (Hl dr ltac:(left)) as [Hw Ha].
    destruct (distribute_drop_run height dr _ w Hok Hw (reachable_payee _ Ha))
      as (sent & w1 & Hrun & Hs & Hb & Hsent & Hcl).
    pose proof (keeps_ok _ _ _ _ (keeps_distribute_drop height dr) Hrun Hok) as Hok1.
    destruct (IH w1 Hok1 Hnd) as (paid & w' & Hrest & Hf & Hpaid).
    { intros x Hx. destruct (Hl x ltac:(by right)) as [Hwx Hax]. split; [|done].
      unfold waiting. rewrite (same_pending _ _ _ _ _ Hs), lookup_delete_ne; [done|].
      intros E. apply Hn. rewrite E. by apply list_elem_of_fmap_2. }
    eexists _, w'. split; [|split; [by eapply finishes_cons|]].
    { unfold forM. simpl. rewrite (bind_run _ _ _ _ _ Hrun). exact Hrest. }
    intros [|y l1] x l2 [= -> ->]; [exists w; by rewrite decide_True|].
    destruct (Hpaid l1 x l2 eq_refl) as (w2 & H2 & ->). exists w2. rewrite decide_False.
    + split; [|done]. unfold forM. simpl. rewrite (bind_run _ _ _ _ _ Hrun). exact H2.
    + intros ->. apply Hn, list_elem_of_fmap_2, elem_of_app. right. left.
Qed.

(** ** Running a distribution *)
Lemma limited_take f c count l : 0 <= count <= c → c <= MaxRecordsPerBlock →
  limited_records f c count l = take (Z.to_nat (c - count)) (filter (λ x, f x = true) l).
Proof.
  unfold MaxRecordsPerBlock. revert count. induction l as [|x l IH]; intros count Hc Hm; simpl.
  - by rewrite filter_nil, take_nil.
  - destruct (Z.eqb_spec count c) as [->|Hne]; [by rewrite Z.sub_diag|].
    rewrite int64_id by lia. rewrite filter_cons. destruct (f x) eqn:E.
    + rewrite decide_True, IH by (done || lia).
      replace (Z.to_nat (c - count)) with (S (Z.to_nat (c - (count + 1)))) by lia. done.
    + rewrite decide_False, IH by (done || lia). done.
Qed.

(** The pending records a message asks for, in the order of their keys, and those it gets. *)
Definition due (msg : MsgRunDistribution) w : list DistributionRecord :=
  filter (λ dr, runner_wants msg.(rd_Name) msg.(rd_AuthorizedRunner) msg.(rd_Type) dr = true)
    (kv_values (disp_of w).(ds_Pending)).
Definition batch (msg : MsgRunDistribution) w : list DistributionRecord :=
  take (Z.to_nat msg.(rd_Count)) (due msg w).

Lemma MsgRun_valid msg : MsgRunDistribution_ValidateBasic msg = Ok tt →
  0 < msg.(rd_Count) <= MaxRecordsPerBlock.
Proof.
  unfold MsgRunDistribution_ValidateBasic. destruct (negb _); [done|].
  destruct (String.eqb _ _); [done|]. intros (a & _ & H)%rbind_ok.
  destruct ((_ <? _) || _) eqn:E; [done|]. apply orb_false_elim in E as [?%Z.ltb_ge ?%Z.leb_gt]. lia.
Qed.

Lemma batch_sublist msg w : batch msg w `sublist_of` kv_values (disp_of w).(ds_Pending).
Proof. etrans; [apply sublist_take|apply sublist_filter]. Qed.
Lemma pending_texts w : dok w → NoDup (record_text <$> kv_values (disp_of w).(ds_Pending)).
Proof.
  intros (Hr & _). unfold kv_values. rewrite <- list_fmap_compose.
  assert (((record_text ∘ snd) <$> kv_iter (disp_of w).(ds_Pending))
          = (kv_iter (disp_of w).(ds_Pending)).*1) as ->.
  { apply list_fmap_ext. intros i [k dr] Hi%list_elem_of_lookup_2.
    apply elem_of_kv_iter in Hi. destruct (Hr RecordPrefixPending _ _ Hi) as [Hk _].
    unfold record_text. simpl. by rewrite Hk. }
  apply kv_keys_nodup.
Qed.
Lemma batch_distinct msg w : dok w → NoDup (record_text <$> batch msg w).
Proof.
  intros Hok. eapply sublist_NoDup; [by apply pending_texts|]. apply fmap_sublist, batch_sublist.
Qed.
Lemma pending_waiting w dr : dok w → dr ∈ kv_values (disp_of w).(ds_Pending) → waiting w dr.
Proof.
  intros (Hr & _) [k Hk]%elem_of_kv_values. unfold waiting, record_text.
  destruct (Hr RecordPrefixPending _ _ Hk) as [E _]. by rewrite E.
Qed.
Lemma batch_waiting msg w dr : dok w → dr ∈ batch msg w → waiting w dr.
Proof.
  intros Hok Hdr. apply pending_waiting; [done|].
  eapply (sublist_subseteq _ _ (batch_sublist msg w)); [exact Hdr].
Qed.

Lemma emit_keeps es w : ∃ w', EmitEvents es w = (Ok tt, w') ∧ disp_of w' = disp_of w ∧
  ∀ a d, balance w' a d = balance w a d.
Proof.
  eexists. split; [done|]. cbv beta. split; [apply store_put_other|]. intros a d.
  unfold balance. by rewrite frame_balance.
Qed.

(** Every pending record names an address that can be paid. *)
Definition recipients_ok w : Prop := ∀ k dr,
  (disp_of w).(ds_Pending) !! k = Some dr → reachable_recipient dr.

Lemma limited_batch msg w : 0 < msg.(rd_Count) <= MaxRecordsPerBlock →
  GetLimitedRecordsForRunner msg.(rd_Name) msg.(rd_AuthorizedRunner) msg.(rd_Type)
    DISTRIBUTION_STATUS_PENDING msg.(rd_Count) w = (Ok (batch msg w), w).
Proof.
  intros Hc. unfold GetLimitedRecordsForRunner, iterate, GetDistributionRecordsIterator, get_disp,
    get_store, mbind, M_bind, gets, mret, M_ret. cbv beta iota.
  by rewrite limited_take, Z.sub_0_r by lia.
Qed.
Lemma run_run ctx msg w : 0 < msg.(rd_Count) <= MaxRecordsPerBlock → dok w → recipients_ok w →
  ∃ paid w', RunDistribution ctx msg w = (Ok tt, w') ∧
    finishes paid ctx.(BlockHeight) (batch msg w) w w' ∧
    paid_by_bank paid ctx.(BlockHeight) (batch msg w) w.
Proof.
  intros Hc Hok Ha. unfold RunDistribution, DistributeDrops.
  destruct (drops_run ctx.(BlockHeight) (batch msg w) w) as (paid & w1 & Hrun & Hf & Hpaid);
    [done|by apply batch_distinct| |].
  { intros dr Hdr. split; [by eapply batch_waiting|].
    apply (sublist_subseteq _ _ (batch_sublist msg w)), elem_of_kv_values in Hdr as [k Hk].
    by eapply Ha. }
  rewrite (bind_run _ _ w (batch msg w) w1);
    [|rewrite (bind_run _ _ _ _ _ (limited_batch msg w Hc)), (bind_run _ _ _ _ _ Hrun); done].
  destruct (emit_keeps (imap (λ (i : nat) _, EventTypeDistributionRecordsList +:+ pretty (Z.of_nat i))
    (batch msg w) ++ [EventTypeDistributionRun]) w1) as (w' & He & Hd & Hb).
  exists paid, w'. split; [exact He|]. split; [|exact Hpaid].
  destruct Hf as (F1 & F2 & F3 & F4 & F5 & F6 & F7).
  unfold finishes. rewrite Hd. split_and!; try done. intros a d. by rewrite Hb.
Qed.

(** ** How many records are due *)
Lemma count_filter {A} (f : A → bool) l :
  Z.of_nat (length (filter (λ x, f x = true) l)) = sumZ (λ x, if f x then 1 else 0) l.
Proof.
  induction l as [|x l IH]; [done|]. rewrite filter_cons. simpl.
  destruct (f x); [rewrite decide_True by done|rewrite decide_False by done]; simpl; lia.
Qed.
Lemma map_sumZ_deletes (g : DistributionRecord → Z) (m : gmap string DistributionRecord) l :
  NoDup (record_text <$> l) → (∀ dr, dr ∈ l → m !! record_text dr = Some dr) →
  map_sumZ g (foldr (λ dr, delete (record_text dr)) m l) = map_sumZ g m - sumZ g l.
Proof.
  induction l as [|dr l IH]; simpl; [lia|]. intros [Hn Hd]%NoDup_cons Hl.
  rewrite (map_sumZ_delete _ _ _ dr).
  - rewrite IH; [lia|done|]. intros x Hx. apply Hl. by right.
  - assert (∀ k, k ∉ record_text <$> l →
      foldr (λ dr, delete (record_text dr)) m l !! k = m !! k) as Hout.
    { clear. intros k. induction l as [|x l IH]; [done|]. intros [Hx Hk]%not_elem_of_cons. simpl.
      by rewrite lookup_delete_ne, IH. }
    rewrite Hout by done. apply Hl. by left.
Qed.
Lemma finishes_pending paid height l w w' : finishes paid height l w w' →
  (disp_of w').(ds_Pending) = foldr (λ dr, delete (record_text dr)) (disp_of w).(ds_Pending) l.
Proof.
  intros (Fp & _). apply map_eq. intros k. rewrite Fp. clear Fp.
  induction l as [|dr l IH]; [done|]. cbn [fmap list_fmap foldr].
  destruct (decide (k = record_text dr)) as [->|Hne].
  - by rewrite decide_True, lookup_delete_eq by left.
  - rewrite lookup_delete_ne, <- IH by done. apply decide_ext. rewrite elem_of_cons. naive_solver.
Qed.

Lemma due_count msg w : Z.of_nat (length (due msg w)) = map_sumZ
  (λ dr, if runner_wants msg.(rd_Name) msg.(rd_AuthorizedRunner) msg.(rd_Type) dr then 1 else 0)
  (disp_of w).(ds_Pending).
Proof. unfold due. by rewrite count_filter, map_sumZ_values. Qed.

Lemma due_after paid height msg w w' : dok w → finishes paid height (batch msg w) w w' →
  length (due msg w') = (length (due msg w) - Z.to_nat msg.(rd_Count))%nat.
Proof.
  intros Hok Hf. apply Nat2Z.inj. rewrite due_count, (finishes_pending _ _ _ _ _ Hf).
  rewrite map_sumZ_deletes; [|by apply batch_distinct|intros dr; by apply batch_waiting].
  rewrite <- due_count, <- count_filter. unfold batch.
  assert (∀ l : list DistributionRecord, (∀ dr, dr ∈ l → runner_wants msg.(rd_Name)
    msg.(rd_AuthorizedRunner) msg.(rd_Type) dr = true) → filter (λ dr, runner_wants msg.(rd_Name)
    msg.(rd_AuthorizedRunner) msg.(rd_Type) dr = true) l = l) as Hall.
  { induction l as [|x l IH]; [done|]. intros H. rewrite filter_cons_True by (apply H; by left).
    f_equal. apply IH. intros dr Hdr. apply H. by right. }
  rewrite Hall, length_take; [lia|]. intros dr Hdr.
  apply (sublist_subseteq _ _ (sublist_take _ _)) in Hdr. by apply list_elem_of_filter in Hdr as [? _].
Qed.

Lemma recipients_later paid height l w w' : finishes paid height l w w' → recipients_ok w →
  recipients_ok w'.
Proof.
  intros (Fp & _) Ha k dr. rewrite Fp. case_decide; [done|]. apply Ha.
Qed.
Lemma run_ok ctx msg w w' : RunDistribution ctx msg w = (Ok tt, w') → dok w → dok w'.
Proof. apply (keeps_ok _ _ _ _ (keeps_handler ctx (AMsgRunDistribution msg))). Qed.
Lemma runs_complete msg ctxs w : 0 < msg.(rd_Count) <= MaxRecordsPerBlock → dok w →
  recipients_ok w →
  ∃ w', forM (λ ctx, RunDistribution ctx msg) ctxs w = (Ok tt, w') ∧
    length (due msg w') = (length (due msg w) - length ctxs * Z.to_nat msg.(rd_Count))%nat.
Proof.
  intros Hc. revert w. induction ctxs as [|ctx ctxs IH]; intros w Hok Ha.
  - exists w. split; [done|]. simpl. lia.
  - destruct (run_run ctx msg w Hc Hok Ha) as (paid & w1 & Hrun & Hf & _).
    destruct (IH w1) as (w' & Hrest & Hlen);
      [by eapply run_ok|by eapply recipients_later|].
    exists w'. split.
    + unfold forM. simpl. rewrite (bind_run _ _ _ _ _ Hrun). exact Hrest.
    + rewrite Hlen, (due_after _ _ _ _ _ Hok Hf). simpl. lia.
Qed.

(** ** The coins the module owes *)
Definition treasury : AccAddress := NewModuleAddress ModuleName.
Definition promised (d : string) (dr : DistributionRecord) : Z := AmountOf dr.(dr_Coins) d.
(** The coins of the records that are not paid: pending and failed. *)
Definition owed (s : DispStore) (d : string) : Z :=
  map_sumZ (promised d) s.(ds_Pending) + map_sumZ (promised d) s.(ds_Failed).
Definition surplus w (d : string) : Z := balance w treasury d - owed (disp_of w) d.

Lemma promised_nonneg dr d : DistributionRecord_Validate dr = true → 0 <= promised d dr.
Proof.
  unfold DistributionRecord_Validate, promised, AmountOf. destruct (_ =? _)%nat; [done|].
  destruct (Coins_IsValid (dr_Coins dr)) eqn:Hv; [|done]. intros _.
  apply coins_valid in Hv as [_ Hv]. rewrite Forall_forall in Hv. apply sumZ_nonneg.
  intros c Hc. destruct (Hv c Hc) as [_ ?]. case_match; lia.
Qed.
Lemma old_nonneg p k s d : records_ok s → 0 <= old_value (promised d) (ds_Records p s) k.
Proof.
  intros Hr. unfold old_value. destruct (ds_Records p s !! k) as [dr|] eqn:E; simpl; [|lia].
  apply promised_nonneg. by eapply Hr.
Qed.

Lemma owed_settled b height dr s d : records_ok s → s.(ds_Pending) !! record_text dr = Some dr →
  owed (settled (outcome b) height dr s) d <= owed s d - (if b then promised d dr else 0).
Proof.
  intros Hr Hp. unfold owed. rewrite settled_pending, (map_sumZ_delete _ _ _ dr) by done.
  assert ((settled (outcome b) height dr s).(ds_Failed) = if b then s.(ds_Failed)
    else <[record_text dr := finished (outcome b) height dr]> s.(ds_Failed)) as ->
    by (unfold settled; rewrite outcome_prefix; by destruct b).
  destruct b; [lia|]. rewrite map_sumZ_insert.
  pose proof (old_nonneg RecordPrefixFailed (record_text dr) s d Hr) as Ho.
  change (ds_Records RecordPrefixFailed s) with (ds_Failed s) in Ho.
  change (promised d (finished (outcome false) height dr)) with (promised d dr). lia.
Qed.
Lemma owed_same s s' d : (∀ p, ds_Records p s' = ds_Records p s) → owed s' d = owed s d.
Proof.
  intros H. unfold owed. pose proof (H RecordPrefixPending) as H1.
  pose proof (H RecordPrefixFailed) as H2. simpl in *. by rewrite H1, H2.
Qed.

Lemma drop_step height dr w u w1 : dok w → waiting w dr → distribute_drop height dr w = (Ok u, w1) →
  (∀ x, record_text x ≠ record_text dr → waiting w x → waiting w1 x) ∧
  ∀ d, surplus w d <= surplus w1 d.
Proof.
  intros Hok Hw Hrun. destruct (AccAddressFromBech32 (dr_RecipientAddress dr)) as [r|e|] eqn:Ea.
  - destruct (distribute_drop_run height dr r w Hok Hw Ea) as (b & w1' & Hrun' & Hs & Hb & _).
    rewrite Hrun in Hrun'. injection Hrun' as -> <-. split.
    + intros x Hx Hwx. unfold waiting. by rewrite (same_pending _ _ _ _ _ Hs), lookup_delete_ne.
    + intros d. unfold surplus. rewrite Hb. destruct Hs as [Hr _]. rewrite (owed_same _ _ d Hr).
      pose proof (owed_settled b height dr (disp_of w) d (proj1 Hok) Hw) as Ho.
      destruct (waiting_pending _ _ Hok Hw) as [Hv _]. pose proof (promised_nonneg dr d Hv).
      unfold payout, promised, treasury in *. rewrite String.eqb_refl.
      destruct b; [|lia]. destruct (String.eqb _ r); lia.
  - unfold distribute_drop in Hrun. rewrite Ea in Hrun. injection Hrun as _ <-. split; [done|].
    intros d. lia.
  - by destruct (acc_not_panic (dr_RecipientAddress dr)).
Qed.
Lemma drops_surplus height l w u w' d : dok w → NoDup (record_text <$> l) →
  (∀ dr, dr ∈ l → waiting w dr) → forM (distribute_drop height) l w = (Ok u, w') →
  surplus w d <= surplus w' d.
Proof.
  revert w. induction l as [|dr l IH]; intros w Hok Hnd Hl Hrun.
  - injection Hrun as _ <-. lia.
  - apply NoDup_cons in Hnd as [Hn Hnd]. apply bind_ok in Hrun as (a & w1 & H1 & Hrun).
    destruct (drop_step _ _ _ _ _ Hok (Hl dr ltac:(left)) H1) as [Hk Hs].
    etrans; [apply (Hs d)|]. apply IH; [|done| |by destruct a].
    + exact (keeps_ok _ _ _ _ (keeps_distribute_drop height dr) H1 Hok).
    + intros x Hx. apply Hk; [|apply Hl; by right]. intros E. apply Hn. rewrite <- E.
      by apply list_elem_of_fmap_2.
Qed.

(** ** Creating a distribution *)
Definition outputs_amount (l : list Output) (d : string) : Z := sumZ (λ o, AmountOf o.(out_Coins) d) l.

Lemma total_amount l total d : TotalOutput l = Ok total → AmountOf total d = outputs_amount l d.
Proof.
  destruct l as [|o l]; [done|]. simpl. generalize (out_Coins o). induction l as [|x l IH]; intros c.
  - intros [= ->]. unfold outputs_amount. simpl. lia.
  - simpl. intros (c' & Hc & H)%rbind_ok. rewrite (IH _ H), (coins_plus_amount _ _ _ d Hc).
    unfold outputs_amount. simpl. lia.
Qed.

Lemma disp_read {A} (f : DispStore → A) w : (s ← get_disp; mret (f s)) w = (Ok (f (disp_of w)), w).
Proof. done. Qed.

Lemma set_record_ok dr w u w' : SetDistributionRecord dr w = (Ok u, w') →
  DistributionRecord_Validate dr = true ∧
  w' = put_store (ds_set_Records (record_key dr).1 <[record_text dr := dr]> (disp_of w)) w.
Proof.
  unfold SetDistributionRecord. intros H. apply bind_ok in H as (a & w1 & [Hv ->]%throw_if_ok & H).
  apply negb_false_iff in Hv. apply upd_store_ok in H. done.
Qed.

(** The key of the record of an output, and the coins pending under a key. *)
Definition drop_key (name : string) (t : DistributionType) (o : Output) : string :=
  name +:+ "_" +:+ pretty (type_number t) +:+ "_" +:+ out_Address o.
Definition pending_amount (s : DispStore) (k d : string) : Z :=
  old_value (promised d) s.(ds_Pending) k.
Definition record_for (height : Z) (name : string) (t : DistributionType) (runner : string)
    (o : Output) (dr : DistributionRecord) : Prop :=
  dr.(dr_Status) = DISTRIBUTION_STATUS_PENDING ∧ dr.(dr_Type) = t ∧ dr.(dr_Name) = name ∧
  dr.(dr_RecipientAddress) = o.(out_Address) ∧ dr.(dr_StartHeight) = height ∧
  dr.(dr_CompletedHeight) = -1 ∧ dr.(dr_AuthorizedRunner) = runner.

(** The record written for an output: the pending coins of the same key are added. *)
Lemma create_drop_ok height name t runner o w u w' :
  create_drop height name t runner o w = (Ok u, w') →
  (∀ a d, balance w' a d = balance w a d) ∧
  ∃ dr, record_for height name t runner o dr ∧
    disp_of w' = disp_of w <| ds_Pending ::= <[drop_key name t o := dr]> |> ∧
    ∀ d, promised d dr = pending_amount (disp_of w) (drop_key name t o) d + AmountOf o.(out_Coins) d.
Proof.
  unfold create_drop. intros H. apply bind_ok in H as (b & w1 & Hb & H).
  unfold ExistsDistributionRecord in Hb. rewrite disp_read in Hb. injection Hb as <- <-.
  apply bind_ok in H as (dr & w1 & Hdr & H). apply wrap_err_ok in H. simpl in Hdr.
  set (key := name +:+ "_" +:+ pretty (type_number t) +:+ "_" +:+ out_Address o) in *.
  assert (w1 = w ∧ record_key dr = (RecordPrefixPending, key) ∧ record_for height name t runner o dr ∧
    ∀ d, promised d dr = pending_amount (disp_of w) key d + AmountOf o.(out_Coins) d)
    as (-> & Ek & Hf & Ha).
  { unfold pending_amount, old_value.
    destruct ((disp_of w).(ds_Pending) !! key) as [old|] eqn:Eo; simpl in Hdr.
    - apply bind_ok in Hdr as (old' & w2 & Hold & Hadd). apply wrap_err_ok in Hold.
      unfold GetDistributionRecord in Hold. apply bind_ok in Hold as (s & w3 & [-> ->]%gets_ok & Hold).
      apply lift_ok in Hold as [Hold ->]. simpl in Hold. fold key in Hold. rewrite Eo in Hold.
      injection Hold as <-. apply lift_ok in Hadd as [Hadd ->].
      unfold DistributionRecord_Add in Hadd. apply rbind_ok in Hadd as (cs & Hcs & [= <-]).
      split_and!; [done|done|done|]. intros d. unfold promised. simpl.
      rewrite (coins_plus_amount _ _ _ d Hcs). unfold promised. simpl. lia.
    - apply ret_ok in Hdr as [<- <-]. split_and!; [done|done|done|]. intros d.
      unfold promised. simpl. lia. }
  apply set_record_ok in H as [Hv ->]. split; [intros a d; apply balance_put|].
  exists dr. split_and!; try apply Hf; [|done]. rewrite store_put. unfold record_text. by rewrite Ek.
Qed.

(** The same for all outputs. *)
Definition output_amount (key : Output → string) (l : list Output) (k d : string) : Z :=
  sumZ (λ o, if String.eqb (key o) k then AmountOf o.(out_Coins) d else 0) l.
Definition drops_created (height : Z) (l : list Output) (name : string) (t : DistributionType)
    (runner : string) (s s' : DispStore) : Prop :=
  s' = s <| ds_Pending := s'.(ds_Pending) |> ∧
  (∀ k d, pending_amount s' k d = pending_amount s k d + output_amount (drop_key name t) l k d) ∧
  (∀ o, o ∈ l → ∃ dr, s'.(ds_Pending) !! drop_key name t o = Some dr ∧
                      record_for height name t runner o dr) ∧
  (∀ k, k ∉ drop_key name t <$> l → s'.(ds_Pending) !! k = s.(ds_Pending) !! k) ∧
  ∀ d, owed s' d = owed s d + outputs_amount l d.

Lemma drop_key_inj name t o o' : drop_key name t o = drop_key name t o' →
  out_Address o = out_Address o'.
Proof. unfold drop_key. intros E. by do 4 apply (inj (String.append _)) in E. Qed.

Lemma create_drops_ok height l name t runner w u w' :
  CreateDrops height l name t runner w = (Ok u, w') →
  (∀ a d, balance w' a d = balance w a d) ∧
  drops_created height l name t runner (disp_of w) (disp_of w').
Proof.
  unfold CreateDrops. revert w. induction l as [|o l IH]; intros w H.
  - injection H as _ <-. split; [done|]. unfold drops_created, output_amount, outputs_amount. simpl.
    split_and!; [by destruct (disp_of w)|intros; lia|by intros o ?%not_elem_of_nil|done|intros; lia].
  - apply bind_ok in H as (a & w1 & H1 & H). destruct a.
    destruct (create_drop_ok _ _ _ _ _ _ _ _ H1) as (Hb & dr & Hf & E & Ha).
    destruct (IH w1 H) as (Hb' & E' & Hk & Ho & Hn & Hd).
    split; [intros; by rewrite Hb'|]. rewrite E in E'. split_and!.
    + rewrite E'. done.
    + intros k d. rewrite Hk, E. unfold pending_amount, output_amount, old_value. rewrite sumZ_cons.
      simpl. destruct (String.eqb_spec (drop_key name t o) k) as [<-|Hne].
      * rewrite lookup_insert_eq. simpl. rewrite Ha. unfold pending_amount, old_value. lia.
      * rewrite lookup_insert_ne by done. lia.
    + intros x [->|Hx]%elem_of_cons; [|by apply Ho].
      destruct (decide (drop_key name t o ∈ drop_key name t <$> l)) as [Hin|Hout].
      * apply list_elem_of_fmap in Hin as (y & Ey & Hy). destruct (Ho y Hy) as (dr' & Hdr' & Hf').
        exists dr'. rewrite Ey. split; [done|]. unfold record_for in *.
        by rewrite (drop_key_inj _ _ _ _ Ey).
      * exists dr. split; [|done]. rewrite Hn, E by done. simpl. apply lookup_insert_eq.
    + intros k [Hne Hk']%not_elem_of_cons. rewrite Hn, E by done. simpl. by rewrite lookup_insert_ne.
    + intros d. rewrite Hd, E. unfold owed, outputs_amount. simpl. rewrite map_sumZ_insert, Ha.
      unfold pending_amount. lia.
Qed.

(** What a distributor pays is what the records promise. *)
Definition distribution_name (ctx : Ctx) (distributor : string) : string :=
  pretty ctx.(BlockHeight) +:+ "_" +:+ distributor.
Definition distribution_of (ctx : Ctx) (msg : MsgCreateDistribution) : Distribution :=
  mkDistribution msg.(cd_Type) (distribution_name ctx msg.(cd_Distributor)) msg.(cd_AuthorizedRunner).
Definition distribution_key (d : Distribution) : string :=
  GetDistributionsKey d.(d_Name) d.(d_Type) d.(d_Runner).
Definition distribution_created (ctx : Ctx) (msg : MsgCreateDistribution) (distributor : AccAddress)
    w w' : Prop :=
  let d := distribution_of ctx msg in
  (disp_of w).(ds_Distributions) !! distribution_key d = None ∧
  drops_created ctx.(BlockHeight) msg.(cd_Output) d.(d_Name) msg.(cd_Type) msg.(cd_AuthorizedRunner)
    (disp_of w <| ds_Distributions ::= <[distribution_key d := d]> |>) (disp_of w') ∧
  ∀ a d, balance w' a d = balance w a d
    - (if String.eqb a distributor then outputs_amount msg.(cd_Output) d else 0)
    + (if String.eqb a treasury then outputs_amount msg.(cd_Output) d else 0).

Lemma verify_ok name t runner w u w' : VerifyAndSetDistribution name t runner w = (Ok u, w') →
  let d := mkDistribution t name runner in
  (disp_of w).(ds_Distributions) !! distribution_key d = None ∧
  w' = put_store (disp_of w <| ds_Distributions ::= <[distribution_key d := d]> |>) w.
Proof.
  unfold VerifyAndSetDistribution, ExistsDistribution. intros H.
  apply bind_ok in H as (b & w2 & Hb & H). rewrite disp_read in Hb. injection Hb as <- <-.
  apply bind_ok in H as (c & w2 & [Hn ->]%throw_if_ok & H). apply wrap_err_ok in H.
  apply bool_decide_eq_false, eq_None_not_Some in Hn. split; [exact Hn|].
  unfold SetDistribution in H. apply bind_ok in H as (e & w3 & [_ ->]%throw_if_ok & ->%upd_store_ok).
  done.
Qed.
Lemma create_ok ctx msg w u w' : CreateDistribution ctx msg w = (Ok u, w') →
  ∃ distributor, AccAddressFromBech32 msg.(cd_Distributor) = Ok distributor ∧
    distribution_created ctx msg distributor w w'.
Proof.
  unfold CreateDistribution. intros H. apply bind_ok in H as (a0 & w1 & Hv & H).
  apply verify_ok in Hv as [Hn Hv].
  apply bind_ok in H as (total & w2 & [Ht ->]%lift_ok & H).
  apply bind_ok in H as (a2 & w3 & Hc & H). unfold AccumulateDrops in Hc.
  apply bind_ok in Hc as (distributor & w4 & [Ha ->]%lift_ok & Hc). apply wrap_err_ok in Hc.
  apply bind_ok in H as (a3 & w5 & Hd & He).
  assert (disp_of w3 = disp_of w1) as E3 by (by apply (preserves_ok _ _ _ _ _ (bank_in _ _ _) Hc)).
  destruct (create_drops_ok _ _ _ _ _ _ _ _ Hd) as [Hb5 Ho5].
  destruct (emit_keeps [EventTypeDistributionStarted] w5) as (w6 & He' & E6 & Hb6).
  rewrite He' in He. injection He as _ ->. exists distributor. unfold distribution_created.
  split_and!; [done|exact Hn| |].
  - rewrite E3, Hv, store_put in Ho5. rewrite E6. exact Ho5.
  - intros a d. destruct a2. rewrite Hb6, Hb5, (send_account_module _ _ _ _ _ a d Hc), Hv, balance_put.
    by rewrite !(total_amount _ _ d Ht).
Qed.

(** ** Minting *)
Definition max_mint : Z := 350 * 10 ^ 24.
Definition per_block : Z := 225 * 10 ^ 18.
Definition counter (s : DispStore) : Z :=
  from_option (λ c, c.(TotalCounter).(Amount)) 0 s.(ds_MintController).
Definition mint_ok (s : DispStore) : Prop := ∀ c, s.(ds_MintController) = Some c →
  c.(TotalCounter).(Denom) = NativeSymbol ∧ 0 <= c.(TotalCounter).(Amount) <= max_mint.
(** What a block may still mint. *)
Definition next_mint (s : DispStore) : Z :=
  match s.(ds_MintController) with
  | None => 0
  | Some c => Z.min per_block (max_mint - c.(TotalCounter).(Amount))
  end.
Definition without_counter (s : DispStore) : DispStore := s <| ds_MintController := None |>.

Lemma parse_max : NewIntFromString MaxMintAmount = Some max_mint.
Proof. apply (int_literal max_mint). unfold max_mint. lia. Qed.
Lemma parse_per_block : NewIntFromString MintAmountPerBlock = Some per_block.
Proof. apply (int_literal per_block). unfold per_block. lia. Qed.
Lemma native_coin n : 0 <= n → NewCoin NativeSymbol n = Ok (mkCoin NativeSymbol n).
Proof. intros. apply new_coin_valid; [|done]. apply new_coin_settlement. Qed.

Lemma can_mint_run w c : (disp_of w).(ds_MintController) = Some c →
  c.(TotalCounter).(Denom) = NativeSymbol →
  TokensCanBeMinted w = (Ok (c.(TotalCounter).(Amount) <? max_mint), w).
Proof.
  intros Hc Hd. unfold TokensCanBeMinted, GetMintController, get_disp, get_store, mbind, M_bind, gets,
    mret, M_ret. rewrite Hc. cbv iota beta. rewrite parse_max. simpl. unfold lift.
  rewrite native_coin by (unfold max_mint; lia). by rewrite coin_is_lt, Hd.
Qed.
Lemma block_amount_run w c : (disp_of w).(ds_MintController) = Some c →
  0 <= c.(TotalCounter).(Amount) <= max_mint →
  block_mint_amount w = (Ok (Some (next_mint (disp_of w))), w).
Proof.
  intros Hc Hr. unfold block_mint_amount, IsLastBlock, GetMintController, get_disp, get_store, mbind,
    M_bind, gets, mret, M_ret, next_mint. rewrite parse_per_block. cbv iota beta. rewrite Hc.
  rewrite parse_max. cbv iota beta. unfold lift.
  assert (Z.abs (max_mint - c.(TotalCounter).(Amount)) < 2 ^ 255) as Hb
    by (revert Hr; unfold max_mint; lia).
  rewrite (int_sub_total _ _ Hb). cbv iota beta.
  destruct (Z.leb_spec (max_mint - c.(TotalCounter).(Amount)) per_block).
  - rewrite Hc. cbv iota beta. rewrite (int_sub_total _ _ Hb), Z.min_r by lia. done.
  - by rewrite Z.min_l by lia.
Qed.
Lemma add_mint_run w c n : (disp_of w).(ds_MintController) = Some c →
  c.(TotalCounter).(Denom) = NativeSymbol → 0 <= c.(TotalCounter).(Amount) → 0 <= n →
  c.(TotalCounter).(Amount) + n <= max_mint →
  AddMintAmount (mkCoin NativeSymbol n) w = (Ok tt, put_store (disp_of w <| ds_MintController :=
    Some (mkMintController (mkCoin NativeSymbol (c.(TotalCounter).(Amount) + n))) |>) w).
Proof.
  intros Hc Hd Ha Hn Hm. unfold AddMintAmount, GetMintController, get_disp, get_store, mbind, M_bind,
    gets, mret, M_ret. rewrite Hc. cbv iota beta. unfold lift.
  rewrite coin_add_total; [by rewrite Hd|done|]. unfold max_mint in *. simpl. lia.
Qed.

Definition amount_of_native (n : Z) (d : string) : Z := if String.eqb NativeSymbol d then n else 0.
Lemma amount_native n d : AmountOf [mkCoin NativeSymbol n] d = amount_of_native n d.
Proof. apply Z.add_0_r. Qed.

(** Minting [n] for account [a0]. *)
Definition mints (n : Z) (a0 : AccAddress) (w w' : W) : Prop :=
  without_counter (disp_of w') = without_counter (disp_of w) ∧ mint_ok (disp_of w') ∧
  counter (disp_of w') = counter (disp_of w) + n ∧
  (is_Some (disp_of w).(ds_MintController) → is_Some (disp_of w').(ds_MintController)) ∧
  ∀ a d, balance w' a d = balance w a d + (if String.eqb a a0 then amount_of_native n d else 0).
Lemma mints_nothing w : mint_ok (disp_of w) → mints 0 treasury w w.
Proof.
  intros Hok. split_and!; [done|done|lia|done|]. intros a d. unfold amount_of_native.
  repeat case_match; lia.
Qed.

Lemma pay_pool n a w w1 w2 w3 : 0 <= n → mint_ok (disp_of w) →
  MintCoins ModuleName [mkCoin NativeSymbol n] w = (Ok tt, w1) →
  ignore_err (SendCoinsFromModuleToAccount ModuleName a [mkCoin NativeSymbol n]) w1 = (Ok tt, w2) →
  disp_of w3 = disp_of w2 <| ds_MintController := (disp_of w3).(ds_MintController) |> →
  counter (disp_of w3) = counter (disp_of w2) + n → mint_ok (disp_of w3) →
  is_Some (disp_of w3).(ds_MintController) →
  (∀ x d, balance w3 x d = balance w2 x d) →
  ∃ a0, (a0 = treasury ∨ a0 = a) ∧ mints n a0 w w3.
Proof.
  intros Hn Hok Hm Hs Hd Hc Hok3 Hsome Hb.
  assert (disp_of w1 = disp_of w) as E1 by (by apply (preserves_ok _ _ _ _ _ (bank_mint _ _) Hm)).
  assert (disp_of w2 = disp_of w) as E2.
  { rewrite <- E1. eapply preserves_ok; [|exact Hs]. solve_frame. }
  assert (∀ x d, balance w1 x d = balance w x d
    + (if String.eqb x treasury then amount_of_native n d else 0)) as Hb1.
  { intros x d. by rewrite (mint_coins _ _ _ _ x d Hm), amount_native. }
  assert (∀ a0, (a0 = treasury ∨ a0 = a) → (∀ x d, balance w2 x d = balance w x d
    + (if String.eqb x a0 then amount_of_native n d else 0)) →
    ∃ a0, (a0 = treasury ∨ a0 = a) ∧ mints n a0 w w3) as Hfin.
  { intros a0 Ha0 Hb2. exists a0. split; [done|]. split_and!; [|done|by rewrite Hc, E2|done|].
    - rewrite Hd. unfold without_counter. simpl. by rewrite E2.
    - intros x d. by rewrite Hb, Hb2. }
  apply on_err_ok in Hs as [Hs|(e & w2' & Hs & Hr)].
  - apply (Hfin a); [by right|]. intros x d. rewrite (send_module_account _ _ _ _ _ x d Hs), Hb1, amount_native.
    unfold treasury. destruct (String.eqb x _), (String.eqb x a); lia.
  - apply ret_ok in Hr as [_ <-]. apply (Hfin treasury); [by left|]. intros x d.
    rewrite (send_module_account_err _ _ _ _ _ _ x d Hs); [apply Hb1|done].
Qed.

Lemma ignore_send a cs w : ∃ w',
  ignore_err (SendCoinsFromModuleToAccount ModuleName a cs) w = (Ok tt, w').
Proof.
  unfold ignore_err, on_err. pose proof (dw_send_ends ModuleName a cs w) as Hp.
  destruct (SendCoinsFromModuleToAccount _ _ _ w) as [[[]|e|] w']; by eauto.
Qed.

(** The block handler always ends; it mints at most what the limit of a block and the limit of
    the total allow. *)
Lemma begin_block_run w : mint_ok (disp_of w) →
  ∃ n a0 w', BeginBlocker w = (Ok tt, w') ∧ mints n a0 w w' ∧ 0 <= n <= next_mint (disp_of w) ∧
    (a0 = treasury ∨ AccAddressFromBech32 EcoPool = Ok a0) ∧
    (n = next_mint (disp_of w) ∨ (∀ a, AccAddressFromBech32 EcoPool ≠ Ok a) ∨
     ∃ cs e w1, Coins_IsValid cs = true ∧ MintCoins ModuleName cs w = (Err e, w1)).
Proof.
  intros Hok. unfold BeginBlocker, next_mint.
  destruct ((disp_of w).(ds_MintController)) as [c|] eqn:Hc.
  2: { exists 0, treasury, w. split_and!; [|by apply mints_nothing|lia|lia|by left|by left].
    unfold TokensCanBeMinted, GetMintController, get_disp, get_store, mbind, M_bind, gets, mret, M_ret.
    by rewrite Hc. }
  destruct (Hok c Hc) as [Hd Hr]. rewrite (bind_run _ _ _ _ _ (can_mint_run w c Hc Hd)).
  destruct (Z.ltb_spec (Amount (TotalCounter c)) max_mint) as [Hlt|Hge]; simpl.
  2: { exists 0, treasury, w. split_and!;
         [done|by apply mints_nothing|lia|unfold per_block; lia|by left|].
       left. unfold per_block. lia. }
  rewrite (bind_run _ _ _ _ _ (block_amount_run w c Hc Hr)). unfold next_mint. rewrite Hc.
  set (n := Z.min per_block (max_mint - Amount (TotalCounter c))).
  assert (0 < n) as Hn by (unfold n, per_block; lia).
  assert (Amount (TotalCounter c) + n <= max_mint) as Hmax by (unfold n; lia).
  pose proof new_coin_settlement as Hden.
  unfold mbind, M_bind. unfold lift at 1. rewrite native_coin by lia. cbv iota beta.
  unfold lift at 1. rewrite new_coins_one by done. cbv iota beta.
  rewrite coins_valid_one by done. simpl. unfold try at 1, lift.
  destruct (AccAddressFromBech32 EcoPool) as [a|e|] eqn:Ea.
  - unfold try. destruct (MintCoins ModuleName [mkCoin NativeSymbol n] w) as [[[]|e|] w1] eqn:Em.
    + destruct (ignore_send a [mkCoin NativeSymbol n] w1) as (w2 & Es). rewrite Es. cbv iota beta.
      assert (disp_of w2 = disp_of w) as E2.
      { rewrite <- (preserves_ok _ _ _ _ _ (bank_mint _ _) Em).
        eapply preserves_ok; [|exact Es]. solve_frame. }
      assert ((disp_of w2).(ds_MintController) = Some c) as Hc2 by by rewrite E2.
      unfold ignore_err, on_err. rewrite (add_mint_run w2 c n Hc2) by (done || lia).
      destruct (pay_pool n a w w1 w2 (put_store (disp_of w2 <| ds_MintController := Some
        (mkMintController (mkCoin NativeSymbol (Amount (TotalCounter c) + n))) |>) w2))
        as (a0 & Ha0 & Hm); try done; [lia|by rewrite store_put| | | | |].
      * rewrite store_put. unfold counter. simpl. by rewrite Hc2.
      * rewrite store_put. intros c' [= <-]. simpl. split; [done|lia].
      * rewrite store_put. by eexists.
      * intros x d. apply balance_put.
      * exists n, a0. eexists. split_and!; [done|exact Hm|lia|lia| |by left].
        destruct Ha0 as [->| ->]; [by left|by right].
    + exists 0, treasury, w1.
      assert (disp_of w1 = disp_of w) as E1 by (by apply (preserves_ok _ _ _ _ _ (bank_mint _ _) Em)).
      split_and!; [done| |lia|lia|by left|].
      * destruct (mints_nothing w Hok) as (M1 & M2 & M3 & _ & M4). unfold mints. rewrite E1.
        split_and!; try done. intros x d. rewrite (mint_coins_err _ _ _ _ _ x d Em); [apply M4|done].
      * right. right. exists [mkCoin NativeSymbol n], e, w1. split; [|done].
        by apply coins_valid_one.
    + pose proof (dw_mint_ends ModuleName [mkCoin NativeSymbol n] w) as Hp. rewrite Em in Hp.
      exfalso. apply Hp; [by apply coins_valid_one|done].
  - exists 0, treasury, w. split_and!; [done|by apply mints_nothing|lia|lia|by left|].
    right. left. done.
  - by destruct (acc_not_panic EcoPool).
Qed.

(** ** Runs of the module among other code

    Messages that succeed, blocks, and anything that leaves the store alone and takes nothing
    from the module's account.  No message is signed by that account: it has no key. *)
Definition signed_outside (m : DispMsg) : Prop :=
  match m with
  | AMsgCreateDistribution m => AccAddressFromBech32 m.(cd_Distributor) ≠ Ok treasury
  | _ => True
  end.
(** [disp_run k w w']: [k] blocks begin on the way from [w] to [w']. *)
Inductive disp_run : nat → W → W → Prop :=
| run_done w : disp_run 0 w w
| run_message ctx m m' u k w w1 w' : ValidateBasic m = Ok m' → signed_outside m →
    NewHandler ctx m' w = (Ok u, w1) → disp_run k w1 w' → disp_run k w w'
| run_block u k w w1 w' : BeginBlocker w = (Ok u, w1) → disp_run k w1 w' → disp_run (S k) w w'
| run_elsewhere k w w1 w' : disp_of w1 = disp_of w →
    (∀ d, balance w treasury d <= balance w1 treasury d) → disp_run k w1 w' → disp_run k w w'.

(** No message touches the mint controller. *)
Definition controller_of w : option MintController := (disp_of w).(ds_MintController).
Lemma upd_controller f : (∀ s, (f s).(ds_MintController) = s.(ds_MintController)) →
  preserves controller_of (upd_disp f).
Proof.
  intros Hf w. unfold upd_disp, upd_store, modify, controller_of. simpl. by rewrite store_put, Hf.
Qed.
Lemma same_controller {A} (m : M W A) : preserves (store (S := DispStore)) m → preserves controller_of m.
Proof. intros Hm w. unfold controller_of. by rewrite Hm. Qed.
Lemma set_records_controller p f : preserves controller_of (upd_disp (ds_set_Records p f)).
Proof. apply upd_controller. intros s. by destruct (ds_set_other p f s) as (_ & _ & ->). Qed.
Lemma set_record_controller dr : preserves controller_of (SetDistributionRecord dr).
Proof. apply preserves_bind; [solve_frame|]. intros a. apply set_records_controller. Qed.
Lemma change_controller dr height status : preserves controller_of (ChangeRecordStatus dr height status).
Proof.
  apply preserves_bind; [apply preserves_wrap_err, set_record_controller|]. intros a.
  apply preserves_wrap_err, preserves_bind; [apply same_controller, reads_exists|]. intros b.
  apply preserves_bind; [solve_frame|]. intros c. apply set_records_controller.
Qed.
Lemma drop_controller height dr : preserves controller_of (distribute_drop height dr).
Proof.
  unfold distribute_drop. apply preserves_bind; [solve_frame|]. intros [e|a]; [solve_frame|].
  apply preserves_bind; [apply same_controller; solve_frame|]. intros [e|[]].
  - apply preserves_on_err; [apply change_controller|solve_frame].
  - apply preserves_bind; [apply preserves_try, change_controller|]. intros [e|[]].
    + apply same_controller. solve_frame.
    + destruct (DoesTypeSupportClaim dr); [|solve_frame]. by apply upd_controller.
Qed.
Lemma create_controller height name t runner o : preserves controller_of (create_drop height name t runner o).
Proof.
  unfold create_drop. apply preserves_bind; [apply same_controller, reads_exists|]. intros b.
  apply preserves_bind; [|intros dr; apply preserves_wrap_err, set_record_controller].
  apply same_controller. destruct b; solve_frame.
Qed.
Lemma emit_controller es : preserves controller_of (EmitEvents es).
Proof. intros w. unfold controller_of, EmitEvents, upd_store, modify. simpl. by rewrite store_put_other. Qed.
Hint Resolve set_record_controller change_controller drop_controller create_controller
  emit_controller : frame.
Lemma handler_controller ctx m : preserves controller_of (NewHandler ctx m).
Proof.
  destruct m as [m|m|m]; simpl;
    unfold CreateDistribution, CreateUserClaim, RunDistribution, VerifyAndSetDistribution,
      ExistsDistribution, AccumulateDrops, CreateDrops, ExistsClaim, DistributeDrops,
      GetLimitedRecordsForRunner, SetDistribution, SetClaim, get_disp, get_store; intros;
    repeat match goal with |- preserves _ (mbind _ _) => apply preserves_bind; [|intros ?] end;
    first [solve [solve_frame] | by apply upd_controller
          | apply preserves_wrap_err, preserves_bind;
              [solve [solve_frame]|intros ?; by apply upd_controller]
          | apply same_controller; solve [solve_frame]].
Qed.

(** ** One step of a run *)
Lemma sorted_outputs m m' : MsgCreateDistribution_ValidateBasic m = Ok m' →
  m'.(cd_Distributor) = m.(cd_Distributor).
Proof.
  unfold MsgCreateDistribution_ValidateBasic. do 2 (destruct (_ : bool); [done|]).
  intros (? & _ & H)%rbind_ok. apply rbind_ok in H as (? & _ & H).
  by apply rbind_ok in H as (? & _ & [= <-]).
Qed.
Lemma disp_message_surplus ctx m m' u w w1 d : dok w → ValidateBasic m = Ok m' → signed_outside m →
  NewHandler ctx m' w = (Ok u, w1) → surplus w d <= surplus w1 d.
Proof.
  intros Hok Hv Hs H. destruct m as [m|m|m]; simpl in Hv.
  - apply rbind_ok in Hv as (c & Hc & [= <-]). simpl in H, Hs.
    destruct (create_ok _ _ _ _ _ H) as (a & Ha & _ & (_ & _ & _ & _ & Ho) & Hb).
    rewrite (sorted_outputs _ _ Hc) in Ha. unfold surplus. rewrite Ho, Hb, String.eqb_refl.
    rewrite (owed_same (disp_of w) (disp_of w <| ds_Distributions ::= _ |>) d) by (by intros []).
    destruct (String.eqb_spec treasury a) as [<-|]; [done|]. lia.
  - apply rbind_ok in Hv as (? & _ & [= <-]). simpl in H. unfold CreateUserClaim in H.
    apply bind_ok in H as (b & w2 & Hb & H). unfold ExistsClaim in Hb. rewrite disp_read in Hb.
    injection Hb as <- <-. apply bind_ok in H as (? & w2 & [_ ->]%throw_if_ok & H).
    apply bind_ok in H as (c & w2 & [_ ->]%lift_ok & H). apply bind_ok in H as (? & w2 & Hc & He).
    apply bind_ok in Hc as (? & w3 & [_ ->]%throw_if_ok & ->%upd_store_ok).
    set (s' := disp_of w <| ds_Claims ::= _ |>) in He.
    destruct (emit_keeps [EventTypeClaimCreated] (put_store s' w)) as (w6 & He' & E6 & Hb6).
    rewrite He' in He. injection He as _ <-. unfold surplus. rewrite E6, Hb6, balance_put, store_put.
    rewrite (owed_same (disp_of w) s' d) by (by intros []). lia.
  - apply rbind_ok in Hv as ([] & Hc%MsgRun_valid & [= <-]). simpl in H. unfold RunDistribution in H.
    apply bind_ok in H as (l & w2 & H & He). apply bind_ok in H as (l' & w3 & Hl & H).
    rewrite limited_batch in Hl by done. injection Hl as <- <-.
    apply bind_ok in H as (? & w4 & H & [<- <-]%ret_ok).
    destruct (emit_keeps (imap (λ (i : nat) _, EventTypeDistributionRecordsList
      +:+ pretty (Z.of_nat i)) (batch m w) ++ [EventTypeDistributionRun]) w4) as (w6 & He' & E6 & Hb6).
    rewrite He' in He. injection He as _ <-. unfold surplus at 2. rewrite E6, Hb6.
    eapply drops_surplus; [exact Hok|by apply batch_distinct|intros dr; by apply batch_waiting|exact H].
Qed.

Lemma owed_without s s' d : without_counter s = without_counter s' → owed s d = owed s' d.
Proof. intros E. change (owed (without_counter s) d = owed (without_counter s') d). by rewrite E. Qed.
Lemma block_surplus n a0 w w' d : mints n a0 w w' → 0 <= n → surplus w d <= surplus w' d.
Proof.
  intros (E & _ & _ & _ & Hb) Hn. unfold surplus. rewrite Hb, (owed_without _ _ d E).
  unfold amount_of_native. destruct (String.eqb treasury a0); [|lia].
  destruct (String.eqb NativeSymbol d); lia.
Qed.
Lemma disp_ok_without s s' : without_counter s' = without_counter s → disp_ok s → disp_ok s'.
Proof.
  intros E Hs. apply (disp_ok_controller _ None) in Hs. fold (without_counter s) in Hs.
  rewrite <- E in Hs. by apply (disp_ok_controller _ (ds_MintController s')) in Hs; destruct s'.
Qed.

(** What every step of a run keeps. *)
Definition sound w : Prop := disp_ok (disp_of w) ∧ mint_ok (disp_of w).
Lemma controller_counter w w' : controller_of w' = controller_of w →
  counter (disp_of w') = counter (disp_of w) ∧ next_mint (disp_of w') = next_mint (disp_of w) ∧
  (mint_ok (disp_of w) → mint_ok (disp_of w')).
Proof. unfold controller_of, counter, next_mint, mint_ok. by intros ->. Qed.
Lemma message_sound ctx m u w w1 : sound w → NewHandler ctx m w = (Ok u, w1) →
  sound w1 ∧ counter (disp_of w1) = counter (disp_of w).
Proof.
  intros [Hok Hm] H. destruct (controller_counter w w1) as (Hc & _ & Hm').
  - exact (preserves_ok _ _ _ _ _ (handler_controller ctx m) H).
  - split; [|done]. split; [|by apply Hm']. exact (keeps_ok _ _ _ _ (keeps_handler ctx m) H Hok).
Qed.

(** C10: Over every run of messages, blocks and other code, whatever the order, the store of
    x/dispensation stays well formed and the mint counter stays within its limit and never goes
    back; and the module's account never falls behind the coins its pending and failed records
    promise: what it holds beyond them, in any denomination, only grows. *)
Theorem dispensation_always k w w' : sound w → disp_run k w w' →
  sound w' ∧ counter (disp_of w) <= counter (disp_of w') <= max_mint ∧
  ∀ d, surplus w d <= surplus w' d.
Proof.
  intros Hs Hr. revert Hs.
  induction Hr as [w|ctx m m' u k w w1 w' Hv Ho H Hr IH|u k w w1 w' H Hr IH|k w w1 w' E Hb Hr IH];
    intros Hs.
  - split_and!; [done|done| |done]. destruct Hs as [_ Hm]. unfold counter, max_mint.
    destruct ((disp_of w).(ds_MintController)) as [c|] eqn:Ec; simpl; [|lia].
    by destruct (Hm _ Ec) as [_ [_ ?]].
  - destruct (message_sound _ _ _ _ _ Hs H) as [Hs1 Hc]. destruct (IH Hs1) as (Hs' & Hc' & Hd).
    rewrite Hc in Hc'. split_and!; [done|lia|lia|]. intros d.
    pose proof (disp_message_surplus _ _ _ _ _ _ d (proj1 Hs) Hv Ho H). specialize (Hd d). lia.
  - destruct (begin_block_run w (proj2 Hs)) as (n & a0 & w1' & H' & Hm & Hn & _).
    rewrite H in H'. injection H' as _ <-. pose proof Hm as (E & Hm1 & Hc & _).
    destruct IH as (Hs' & Hc' & Hd); [split; [apply (disp_ok_without (disp_of w)); [done|apply Hs]|done]|].
    split_and!; [done|lia|lia|]. intros d.
    pose proof (block_surplus n a0 w w1 d Hm ltac:(lia)). specialize (Hd d). lia.
  - unfold sound in IH. rewrite E in IH. destruct (IH Hs) as (Hs' & Hc' & Hd).
    split; [done|]. split; [done|]. intros d. specialize (Hd d). specialize (Hb d). unfold surplus in *. rewrite E in Hd. lia.
Qed.

(** ** The limit on minting *)
Lemma next_mint_none w : controller_of w = None → next_mint (disp_of w) = 0.
Proof. unfold controller_of, next_mint. by intros ->. Qed.
Lemma next_mint_some w c : controller_of w = Some c →
  next_mint (disp_of w) = Z.min per_block (max_mint - counter (disp_of w)).
Proof. unfold controller_of, next_mint, counter. by intros ->. Qed.

(** The module may mint: a bank that mints every valid set of coins. *)
Definition minter_works : Prop := ∀ cs w, Coins_IsValid cs = true →
  ∃ w1, MintCoins ModuleName cs w = (Ok tt, w1).
Lemma idle_block w : sound w → counter (disp_of w) = max_mint → BeginBlocker w = (Ok tt, w).
Proof.
  intros [_ Hm] Hc. unfold counter in Hc.
  destruct ((disp_of w).(ds_MintController)) as [c|] eqn:E; [|done]. simpl in Hc.
  destruct (Hm c E) as [Hd _]. unfold BeginBlocker.
  by rewrite (bind_run _ _ _ _ _ (can_mint_run w c E Hd)), Hc.
Qed.
Lemma run_counter a k w w' : AccAddressFromBech32 EcoPool = Ok a → minter_works → sound w →
  is_Some (controller_of w) → disp_run k w w' →
  sound w' ∧ is_Some (controller_of w') ∧
  counter (disp_of w') = Z.min max_mint (counter (disp_of w) + Z.of_nat k * per_block).
Proof.
  intros Ha Hmint Hs Hsome Hr. revert Hs Hsome.
  induction Hr as [w|ctx m m' u k w w1 w' Hv Ho H Hr IH|u k w w1 w' H Hr IH|k w w1 w' E Hb Hr IH];
    intros Hs [c Hw].
  - split_and!; try done. assert (counter (disp_of w) <= max_mint); [|lia].
    unfold counter, controller_of in *. rewrite Hw. simpl. by destruct (proj2 Hs _ Hw) as [_ [_ ?]].
  - destruct (message_sound _ _ _ _ _ Hs H) as [Hs1 Hc].
    pose proof (preserves_ok _ _ _ _ _ (handler_controller ctx m') H) as E.
    destruct (IH Hs1) as (? & ? & ->); [by rewrite E, Hw|]. by rewrite Hc.
  - destruct (begin_block_run w (proj2 Hs)) as (n & a0 & w1' & H' & Hm & Hn & _ & Hw').
    rewrite H in H'. injection H' as _ <-. destruct Hm as (E & Hm1 & Hc & Hsome & _).
    destruct Hw' as [->|[Hna|(cs & e & w2 & Hcs & He)]]; [|by destruct (Hna a)|].
    2: { destruct (Hmint cs w Hcs) as (w3 & H3). congruence. }
    rewrite (next_mint_some w c Hw) in *.
    destruct IH as (? & ? & ->); [|apply Hsome; by exists c|].
    { split; [apply (disp_ok_without (disp_of w)); [done|apply Hs]|done]. }
    rewrite Hc. split_and!; try done. unfold per_block. lia.
  - destruct IH as (? & ? & ->); [by unfold sound; rewrite E|unfold controller_of in *; rewrite E; by exists c|].
    by rewrite E.
Qed.

(** The block handler when the address of the pool does not parse: nothing, whatever the
    counter. *)
Lemma unparsed_block w : (∀ a, AccAddressFromBech32 EcoPool ≠ Ok a) → mint_ok (disp_of w) →
  BeginBlocker w = (Ok tt, w).
Proof.
  intros Ha Hok. unfold BeginBlocker. destruct ((disp_of w).(ds_MintController)) as [c|] eqn:Hc.
  2: { unfold TokensCanBeMinted, GetMintController, get_disp, get_store, mbind, M_bind, gets, mret, M_ret.
    by rewrite Hc. }
  destruct (Hok c Hc) as [Hd Hr]. rewrite (bind_run _ _ _ _ _ (can_mint_run w c Hc Hd)).
  destruct (Z.ltb_spec (Amount (TotalCounter c)) max_mint) as [Hlt|Hge]; [|done]. simpl.
  rewrite (bind_run _ _ _ _ _ (block_amount_run w c Hc Hr)). unfold next_mint. rewrite Hc.
  set (n := Z.min per_block (max_mint - Amount (TotalCounter c))).
  assert (0 < n) as Hn by (unfold n, per_block; lia). pose proof new_coin_settlement as Hden.
  unfold mbind, M_bind. unfold lift at 1. rewrite native_coin by lia. cbv iota beta.
  unfold lift at 1. rewrite new_coins_one by done. cbv iota beta.
  rewrite coins_valid_one by done. simpl. unfold try at 1, lift.
  destruct (AccAddressFromBech32 EcoPool) as [a|e|] eqn:Ea; [by destruct (Ha a)|done|].
  by destruct (acc_not_panic EcoPool).
Qed.

Lemma eco_pool_unparsed : (∀ a, AccAddressFromBech32 EcoPool = Ok a → checksum_ok EcoPool = true) →
  ∀ a, AccAddressFromBech32 EcoPool ≠ Ok a.
Proof. intros H a E. apply H in E. by vm_compute in E. Qed.

(** C27: Nothing is ever minted.  The address of the ecosystem pool that the code spells out does
    not pass the checksum of bech32, so that it does not parse; whatever messages and blocks run,
    and however much the limit still allows, each begin blocker leaves the whole state as it is
    and the mint counter stays where it was. *)
Theorem nothing_is_minted k w w' :
  (∀ a, AccAddressFromBech32 EcoPool = Ok a → checksum_ok EcoPool = true) →
  sound w → disp_run k w w' →
  BeginBlocker w' = (Ok tt, w') ∧ counter (disp_of w') = counter (disp_of w).
Proof.
  intros Hsum Hs Hr. pose proof (eco_pool_unparsed Hsum) as Ha. revert Hs.
  induction Hr as [w|ctx m m' u k w w1 w' Hv Ho H Hr IH|u k w w1 w' H Hr IH|k w w1 w' E Hb Hr IH];
    intros Hs.
  - split; [|done]. apply unparsed_block; [done|apply Hs].
  - destruct (message_sound _ _ _ _ _ Hs H) as [Hs1 Hc]. rewrite <- Hc. by apply IH.
  - rewrite unparsed_block in H by (done || apply Hs). injection H as _ <-. by apply IH.
  - unfold sound in IH. rewrite E in IH. by apply IH.
Qed.

(** Were the address valid, minting would stop.  Over any run in which the bank mints and the
    pool's address parses, the counter goes up by the amount of a block until it reaches its
    limit; after 1555556 blocks, from any counter, a block handler does nothing. *)
Theorem minting_stops a k w w' : AccAddressFromBech32 EcoPool = Ok a → minter_works → sound w →
  is_Some (controller_of w) → disp_run k w w' →
  counter (disp_of w') = Z.min max_mint (counter (disp_of w) + Z.of_nat k * per_block) ∧
  (1555556 <= Z.of_nat k → BeginBlocker w' = (Ok tt, w')).
Proof.
  intros Ha Hm Hs Hc Hr. destruct (run_counter a k w w' Ha Hm Hs Hc Hr) as (Hs' & _ & E).
  split; [done|]. intros Hk. apply idle_block; [done|]. rewrite E.
  assert (0 <= counter (disp_of w)); [|unfold max_mint, per_block; lia].
  destruct Hc as [c Hc]. unfold counter, controller_of in *. rewrite Hc. simpl.
  by destruct (proj2 Hs _ Hc) as [_ [? _]].
Qed.

(** C11: A run message finishes exactly its batch: at most as many of the pending records of the
    name, type and runner as it asks for, in the order of their keys.  A record whose coins the
    bank sends when its turn comes becomes completed: the coins go from the module to its
    recipient, and the recipient's claim, if the type has claims, is deleted.  Any other record
    of the batch becomes failed, and nothing moves.  Every other record, distribution, claim and
    balance stays. *)
Theorem RunDistribution_pays ctx msg w : MsgRunDistribution_ValidateBasic msg = Ok tt →
  disp_ok (disp_of w) → recipients_ok w →
  ∃ paid w', NewHandler ctx (AMsgRunDistribution msg) w = (Ok tt, w') ∧
    finishes paid ctx.(BlockHeight) (batch msg w) w w' ∧
    paid_by_bank paid ctx.(BlockHeight) (batch msg w) w.
Proof. intros Hv. apply run_run. by apply MsgRun_valid. Qed.

(** C28: Running a distribution again and again finishes all of it: after enough messages to
    cover the records that are due, none is pending for that name, type and runner. *)
Theorem distribution_completes msg ctxs w : MsgRunDistribution_ValidateBasic msg = Ok tt →
  disp_ok (disp_of w) → recipients_ok w →
  Z.of_nat (length (due msg w)) <= Z.of_nat (length ctxs) * msg.(rd_Count) →
  ∃ w', forM (λ ctx, NewHandler ctx (AMsgRunDistribution msg)) ctxs w = (Ok tt, w') ∧
    due msg w' = [].
Proof.
  intros Hc%MsgRun_valid Hok Ha Hlen. destruct (runs_complete msg ctxs w Hc Hok Ha) as (w' & Hr & E).
  exists w'. split; [exact Hr|]. apply length_zero_iff_nil. rewrite E. lia.
Qed.

(** C29: Whatever message, block handler or import runs, and however it ends, every record stays
    under the key of its own name, type, recipient and status, with a recipient and positive
    coins of distinct denominations, and every distribution and claim under its own key. *)
Theorem store_stays_typed :
  (∀ ctx m, maintains (λ w, disp_ok (disp_of w)) (NewHandler ctx m)) ∧
  maintains (λ w, disp_ok (disp_of w)) BeginBlocker ∧
  ∀ data, maintains (λ w, disp_ok (disp_of w)) (InitGenesis data).
Proof.
  split_and!; [apply keeps_handler|apply keeps_begin_blocker|apply keeps_import].
Qed.

(** ** Genesis *)
Lemma foldl_rev {A B} (f : A → B → A) a l : foldl f a l = foldr (λ x a, f a x) a (rev l).
Proof.
  induction l as [|x l IH] using rev_ind; [done|]. by rewrite foldl_snoc, rev_app_distr, IH.
Qed.
Lemma inserts_values {V} (key : V → string) (m : gmap string V) :
  (∀ k v, m !! k = Some v → key v = k) →
  foldl (λ m v, <[key v := v]> m) ∅ (kv_values m) = m.
Proof.
  intros Hk. rewrite foldl_rev.
  assert (∀ l : list V, foldr (λ v m, <[key v := v]> m) ∅ l
    = (list_to_map ((λ v, (key v, v)) <$> l) : gmap string V)) as E.
  { induction l as [|v l IH]; [done|]. simpl. by rewrite IH. }
  etrans; [apply E|]. rewrite <- (list_to_map_to_list m) at 2.
  assert ((λ v, (key v, v)) <$> kv_values m = kv_iter m) as Ev.
  { unfold kv_values. rewrite <- list_fmap_compose. rewrite <- (list_fmap_id (kv_iter m)) at 2.
    apply list_fmap_ext. intros i [k v] Hi%list_elem_of_lookup_2. apply elem_of_kv_iter in Hi.
    simpl. by rewrite (Hk _ _ Hi). }
  apply list_to_map_proper.
  - rewrite <- list_fmap_compose. change (NoDup (key <$> rev (kv_values m))).
    rewrite <- (Permutation_rev (kv_values m)).
    assert (key <$> kv_values m = (kv_iter m).*1) as -> by (rewrite <- Ev, <- list_fmap_compose; done).
    apply kv_keys_nodup.
  - rewrite <- (Permutation_rev (kv_values m)), Ev. apply kv_iter_perm.
Qed.

Lemma import_list {A} (f : A → M W unit) (g : A → DispStore → DispStore) l w :
  (∀ x w, x ∈ l → f x w = (Ok tt, put_store (g x (disp_of w)) w)) →
  ∃ w', forM (λ x, or_panic (f x)) l w = (Ok tt, w') ∧
    disp_of w' = foldl (λ s x, g x s) (disp_of w) l.
Proof.
  revert w. induction l as [|x l IH]; intros w Hf; [by exists w|].
  destruct (IH (put_store (g x (disp_of w)) w)) as (w' & Hr & E);
    [intros y w1 Hy; apply Hf; by right|].
  exists w'. split; [|rewrite E; simpl; by rewrite store_put].
  unfold forM. simpl. rewrite (bind_run _ _ w tt (put_store (g x (disp_of w)) w)); [exact Hr|].
  unfold or_panic, on_err. by rewrite (Hf x w ltac:(left)).
Qed.

Definition put_record (dr : DistributionRecord) (s : DispStore) : DispStore :=
  ds_set_Records (record_key dr).1 <[record_text dr := dr]> s.
Lemma put_part p l s : (∀ dr, dr ∈ l → (record_key dr).1 = p) →
  foldl (λ s dr, put_record dr s) s l
  = ds_set_Records p (λ m, foldl (λ m dr, <[record_text dr := dr]> m) m l) s.
Proof.
  revert s. induction l as [|dr l IH]; intros s Hl; simpl.
  - by destruct p, s.
  - rewrite IH by (intros x Hx; apply Hl; by right). unfold put_record.
    rewrite (Hl dr) by left. by destruct p.
Qed.
Lemma put_values p (s0 s : DispStore) : records_ok s → ds_Records p s0 = ∅ →
  foldl (λ s dr, put_record dr s) s0 (kv_values (ds_Records p s))
  = ds_set_Records p (λ _, ds_Records p s) s0.
Proof.
  intros Hr H0. rewrite (put_part p).
  - assert (∀ f g, f (ds_Records p s0) = g (ds_Records p s0) →
      ds_set_Records p f s0 = ds_set_Records p g s0) as Hext.
    { intros f g. destruct p, s0; cbn; by intros ->. }
    apply Hext. rewrite H0. apply inserts_values. intros k v Hv. unfold record_text.
    by destruct (Hr p k v Hv) as [-> _].
  - intros dr [k Hk]%elem_of_kv_values. by destruct (Hr p k dr Hk) as [-> _].
Qed.
Definition empty_store : DispStore := mkDispStore ∅ ∅ ∅ ∅ ∅ None.
Definition zero_controller : MintController := mkMintController (mkCoin NativeSymbol 0).

Definition put_distribution (d : Distribution) (s : DispStore) : DispStore :=
  s <| ds_Distributions ::= <[GetDistributionsKey d.(d_Name) d.(d_Type) d.(d_Runner) := d]> |>.
Definition put_claim (c : UserClaim) (s : DispStore) : DispStore :=
  s <| ds_Claims ::= <[GetUserClaimKey c.(uc_UserAddress) c.(uc_Type) := c]> |>.
Lemma put_distributions l s : foldl (λ s d, put_distribution d s) s l = s <| ds_Distributions ::=
  λ m, foldl (λ m d, <[GetDistributionsKey d.(d_Name) d.(d_Type) d.(d_Runner) := d]> m) m l |>.
Proof. revert s. induction l as [|d l IH]; intros s; simpl; [by destruct s|by rewrite IH]. Qed.
Lemma put_claims l s : foldl (λ s c, put_claim c s) s l = s <| ds_Claims ::=
  λ m, foldl (λ m c, <[GetUserClaimKey c.(uc_UserAddress) c.(uc_Type) := c]> m) m l |>.
Proof. revert s. induction l as [|d l IH]; intros s; simpl; [by destruct s|by rewrite IH]. Qed.

(** All the records of a store, in the order of the export. *)
Definition all_records (s : DispStore) : list DistributionRecord :=
  kv_values s.(ds_Pending) ++ kv_values s.(ds_Completed) ++ kv_values s.(ds_Failed).
Lemma rebuilt s : disp_ok s →
  foldl (λ s c, put_claim c s) (foldl (λ s d, put_distribution d s)
    (foldl (λ s dr, put_record dr s) (empty_store <| ds_MintController := Some zero_controller |>)
      (all_records s)) (kv_values s.(ds_Distributions))) (kv_values s.(ds_Claims))
  = s <| ds_MintController := Some zero_controller |>.
Proof.
  intros (Hr & Hd & Hc). unfold all_records. rewrite !foldl_app.
  change (ds_Pending s) with (ds_Records RecordPrefixPending s).
  change (ds_Completed s) with (ds_Records RecordPrefixCompleted s).
  change (ds_Failed s) with (ds_Records RecordPrefixFailed s).
  rewrite (put_values RecordPrefixPending), (put_values RecordPrefixCompleted),
    (put_values RecordPrefixFailed) by done. rewrite put_distributions, put_claims.
  destruct s as [p c f d cl m]. cbn in *. f_equal; apply inserts_values.
  - intros k x Hx. by destruct (Hd k x Hx) as [-> _].
  - intros k x Hx. by destruct (Hc k x Hx) as [-> _].
Qed.
Lemma all_records_valid s dr : disp_ok s → dr ∈ all_records s → DistributionRecord_Validate dr = true.
Proof.
  intros (Hr & _). unfold all_records. rewrite !elem_of_app, !elem_of_kv_values.
  intros [[k Hk]|[[k Hk]|[k Hk]]]; [by eapply (Hr RecordPrefixPending)
    |by eapply (Hr RecordPrefixCompleted)|by eapply (Hr RecordPrefixFailed)].
Qed.
Lemma forallb_all {A} (f : A → bool) l : (∀ x, x ∈ l → f x = true) → forallb f l = true.
Proof. intros H. apply forallb_forall. intros x Hx. by apply H, list_elem_of_In. Qed.

(** C30: A genesis state exported from a well-formed store and imported into an empty one restores
    every record, distribution and claim, but not the mint controller: its counter starts again
    from zero, and with it the whole amount that may still be minted. *)
Theorem genesis_roundtrip w w0 : disp_ok (disp_of w) → disp_of w0 = empty_store →
  ∃ data w', ExportGenesis w = (Ok data, w) ∧ ValidateGenesis data = Ok tt ∧
    InitGenesis data w0 = (Ok tt, w') ∧
    disp_of w' = disp_of w <| ds_MintController := Some zero_controller |> ∧
    counter (disp_of w') = 0.
Proof.
  intros Hok H0. set (s := disp_of w) in *. pose proof Hok as (_ & Hd & Hc).
  assert (∀ dr, dr ∈ all_records s → DistributionRecord_Validate dr = true) as Hv
    by (intros dr; by apply all_records_valid).
  assert (∀ d, d ∈ kv_values s.(ds_Distributions) → Distribution_Validate d = true) as Hvd.
  { intros d [k Hk]%elem_of_kv_values. by eapply Hd. }
  assert (∀ c, c ∈ kv_values s.(ds_Claims) → UserClaim_Validate c = true) as Hvc.
  { intros c [k Hk]%elem_of_kv_values. by eapply Hc. }
  set (w1 := put_store (disp_of w0 <| ds_MintController := Some zero_controller |>) w0).
  destruct (import_list SetDistributionRecord put_record (all_records s) w1) as (w2 & R2 & E2).
  { intros dr w2 Hdr. by rewrite set_record_run by auto. }
  destruct (import_list SetDistribution put_distribution (kv_values s.(ds_Distributions)) w2)
    as (w3 & R3 & E3).
  { intros d w3 Hdd. unfold SetDistribution. by rewrite Hvd. }
  destruct (import_list SetClaim put_claim (kv_values s.(ds_Claims)) w3) as (w4 & R4 & E4).
  { intros c w4 Hcc. unfold SetClaim. by rewrite Hvc. }
  assert (disp_of w4 = s <| ds_MintController := Some zero_controller |>) as E.
  { rewrite E4, E3, E2. unfold w1. rewrite store_put, H0. by apply rebuilt. }
  exists (mkGenesisState (Some (all_records s)) (Some (kv_values s.(ds_Distributions)))
            (Some (kv_values s.(ds_Claims)))), w4.
  split_and!; [done| | |done|by rewrite E].
  - unfold ValidateGenesis. simpl. by rewrite !forallb_all.
  - unfold InitGenesis. rewrite (bind_run _ _ w0 (mkCoin NativeSymbol 0) w0)
      by (unfold lift; by rewrite native_coin).
    rewrite (bind_run _ _ w0 tt w1) by done. rewrite (bind_run _ _ _ _ _ R2).
    rewrite (bind_run _ _ _ _ _ R3). exact R4.
Qed.

(** Checking a message sorts the coins of its outputs and changes no amount. *)
Definition good_output (o : Output) : Prop :=
  Coins_IsValid o.(out_Coins) = true ∧ is_ok (AccAddressFromBech32 o.(out_Address)) = true.
Lemma check_output_ok o o' : check_output o = Ok o' →
  good_output o' ∧ ∀ d, AmountOf o'.(out_Coins) d = AmountOf o.(out_Coins) d.
Proof.
  unfold check_output. intros (a & Ha & H)%rbind_ok. destruct (Coins_IsValid _) eqn:Hc; [|done].
  injection H as <-. split.
  - split; [done|]. simpl. by destruct (AccAddressFromBech32 (out_Address o)).
  - intros d. apply sumZ_perm, coins_sort.
Qed.
Lemma check_all l acc outs : (∀ o, o ∈ acc → good_output o) →
  foldR (λ outputs out, checked ← check_output out; Ok (outputs ++ [checked])) acc l = Ok outs →
  (∀ o, o ∈ outs → good_output o) ∧
  ∀ d, outputs_amount outs d = outputs_amount acc d + outputs_amount l d.
Proof.
  unfold outputs_amount. revert acc. induction l as [|o l IH]; intros acc H0 H.
  - injection H as <-. split; [done|]. intros d. simpl. lia.
  - simpl in H. apply rbind_ok in H as (acc' & H & Hl). apply rbind_ok in H as (o' & Ho & H).
    injection H as <-. apply check_output_ok in Ho as [Hg Ha].
    destruct (IH (acc ++ [o'])) as [Hgs E]; [|exact Hl|].
    + by intros x [Hx| ->%list_elem_of_singleton]%elem_of_app; [apply H0|].
    + split; [done|]. intros d. rewrite E, sumZ_app. simpl. rewrite Ha. lia.
Qed.
Lemma checked_outputs m m' : MsgCreateDistribution_ValidateBasic m = Ok m' →
  (∀ o, o ∈ m'.(cd_Output) → good_output o) ∧
  ∀ d, outputs_amount m'.(cd_Output) d = outputs_amount m.(cd_Output) d.
Proof.
  unfold MsgCreateDistribution_ValidateBasic. do 2 (destruct (_ : bool); [done|]).
  intros (? & _ & H)%rbind_ok. apply rbind_ok in H as (? & _ & H).
  apply rbind_ok in H as (outs & H & [= <-]). apply check_all in H as [Hg E];
    [|by intros o ?%not_elem_of_nil]. split; [done|]. intros d. simpl. rewrite E.
  unfold outputs_amount. simpl. lia.
Qed.

(** An accepted distribution is new: no other of that name, type and runner exists.  The
    distributor pays exactly the sum of the outputs into the module's account; each output's
    coins are added to the pending record of its recipient, which now belongs to this block and
    runner; no other record changes. *)
Theorem CreateDistribution_owes ctx m m' w w' :
  MsgCreateDistribution_ValidateBasic m = Ok m' →
  NewHandler ctx (AMsgCreateDistribution m') w = (Ok tt, w') →
  ∃ distributor, AccAddressFromBech32 m.(cd_Distributor) = Ok distributor ∧
    distribution_created ctx m' distributor w w' ∧
    (∀ o, o ∈ m'.(cd_Output) → good_output o) ∧
    ∀ d, outputs_amount m'.(cd_Output) d = outputs_amount m.(cd_Output) d.
Proof.
  intros Hv H. apply create_ok in H as (a & Ha & Hc). rewrite (sorted_outputs _ _ Hv) in Ha.
  destruct (checked_outputs _ _ Hv) as [Ho He]. exists a. by split_and!.
Qed.
End spec.

(** ** A distribution on the concrete chain *)
Definition disp_genesis : World :=
  genesis <| w_disp := mkDispStore ∅ ∅ ∅ ∅ ∅ (Some zero_controller) |>.
Definition fury (n : Z) : Coins := [mkCoin "fury" n].
Definition alice_gives : MsgCreateDistribution :=
  mkMsgCreateDistribution "@alice" "@bob" DISTRIBUTION_TYPE_LIQUIDITY_MINING
    [mkOutput "@carol" (fury 5); mkOutput "@dave" (fury 7); mkOutput "@carol" (fury 4)].
Definition bob_runs (count : Z) : MsgRunDistribution :=
  mkMsgRunDistribution "@bob" "10_@alice" DISTRIBUTION_TYPE_LIQUIDITY_MINING count.
Definition given : World := (NewHandler (block 10) (AMsgCreateDistribution alice_gives) disp_genesis).2.
Lemma given_run : NewHandler (block 10) (AMsgCreateDistribution alice_gives) disp_genesis = (Ok tt, given).
Proof. unfold given. apply ran. vm_compute. reflexivity. Qed.
Lemma disp_genesis_sound : sound disp_genesis.
Proof.
  split; [split_and!|].
  - by intros [] k dr.
  - by intros k d.
  - by intros k c.
  - intros c [= <-]. split; [done|]. unfold max_mint. simpl. lia.
Qed.
Lemma given_sound : sound given.
Proof. apply (message_sound _ _ _ _ _ disp_genesis_sound given_run). Qed.

Lemma CreateDistribution_owes_witness :
  balance given "alice" "fury" = 1000 * ether - 16 ∧
  distribution_created (block 10) alice_gives "alice" disp_genesis given.
Proof.
  split; [vm_compute; reflexivity|].
  destruct (CreateDistribution_owes (block 10) alice_gives alice_gives disp_genesis given)
    as (a & [= <-] & H & _).
  - vm_compute. reflexivity.
  - exact given_run.
  - exact H.
Defined.

Lemma all_reachable w : bool_decide (map_Forall (λ _ dr,
    is_ok (AccAddressFromBech32 dr.(dr_RecipientAddress)) = true) (w_disp w).(ds_Pending)) = true →
  recipients_ok w.
Proof. intros H%bool_decide_eq_true k dr Hk. exact (H k dr Hk). Qed.
Lemma given_reachable : recipients_ok given.
Proof. apply all_reachable. vm_compute. reflexivity. Qed.

(** Carol's two outputs are one record; it comes first and is paid. *)
Lemma RunDistribution_pays_witness : ∃ w',
  NewHandler (block 11) (AMsgRunDistribution (bob_runs 1)) given = (Ok tt, w') ∧
  balance w' "carol" "fury" = 9 ∧ length (due (bob_runs 1) w') = 1%nat.
Proof.
  destruct (RunDistribution_pays (block 11) (bob_runs 1) given) as (paid & w' & H & _).
  - vm_compute. reflexivity.
  - exact (proj1 given_sound).
  - exact given_reachable.
  - exists w'. split; [exact H|].
    replace w' with (NewHandler (block 11) (AMsgRunDistribution (bob_runs 1)) given).2 by (by rewrite H).
    split; vm_compute; reflexivity.
Defined.

Lemma distribution_completes_witness : ∃ w',
  forM (λ ctx, NewHandler ctx (AMsgRunDistribution (bob_runs 1))) [block 11; block 12] given
    = (Ok tt, w') ∧ due (bob_runs 1) w' = [].
Proof.
  apply (distribution_completes (bob_runs 1) [block 11; block 12] given).
  - vm_compute. reflexivity.
  - exact (proj1 given_sound).
  - exact given_reachable.
  - vm_compute. discriminate.
Defined.

(** A block, the distribution, its run. *)
Definition begun : World := (BeginBlocker disp_genesis).2.
Lemma begun_run : BeginBlocker disp_genesis = (Ok tt, begun).
Proof. unfold begun. apply ran. vm_compute. reflexivity. Qed.
Definition begun_given : World :=
  (NewHandler (block 10) (AMsgCreateDistribution alice_gives) begun).2.
Lemma begun_given_run :
  NewHandler (block 10) (AMsgCreateDistribution alice_gives) begun = (Ok tt, begun_given).
Proof. unfold begun_given. apply ran. vm_compute. reflexivity. Qed.
Lemma one_block : disp_run 1 disp_genesis begun_given.
Proof.
  eapply run_block; [exact begun_run|].
  apply (run_message (block 10) (AMsgCreateDistribution alice_gives) (AMsgCreateDistribution alice_gives)
    tt 0 begun begun_given); [vm_compute; reflexivity|done|exact begun_given_run|].
  apply run_done.
Qed.

Lemma dispensation_always_witness : sound begun_given ∧
  owed (w_disp begun_given) "fury" = 16 ∧ balance begun_given treasury "fury" = 16.
Proof.
  split.
  - exact (proj1 (dispensation_always 1 disp_genesis begun_given disp_genesis_sound one_block)).
  - split; vm_compute; reflexivity.
Defined.

Lemma nothing_is_minted_witness :
  BeginBlocker begun_given = (Ok tt, begun_given) ∧ counter (w_disp begun_given) = 0.
Proof.
  destruct (nothing_is_minted 1 disp_genesis begun_given) as [E C].
  - intros a E. by vm_compute in E.
  - exact disp_genesis_sound.
  - exact one_block.
  - split; [exact E|exact C].
Defined.

(** The same chain with a mint controller that has counted. *)
Definition given_counted : World :=
  given <| w_disp ::= λ s, s <| ds_MintController :=
    Some (mkMintController (mkCoin NativeSymbol per_block)) |> |>.
Lemma genesis_roundtrip_witness : ∃ data w', ExportGenesis given_counted = (Ok data, given_counted) ∧
  InitGenesis data genesis = (Ok tt, w') ∧ counter (w_disp given_counted) = per_block ∧
  counter (w_disp w') = 0.
Proof.
  destruct (genesis_roundtrip given_counted genesis) as (data & w' & He & _ & Hi & _ & Hc).
  - apply (disp_ok_controller (w_disp given) (Some (mkMintController (mkCoin NativeSymbol per_block)))).
    exact (proj1 given_sound).
  - reflexivity.
  - exists data, w'. repeat (split; [first [exact He | exact Hi | vm_compute; reflexivity]|]). exact Hc.
Defined.

(** Also after a message that fails half-way: an output without coins is collected, not recorded. *)
Definition empty_gift : DispMsg := AMsgCreateDistribution
  (mkMsgCreateDistribution "@alice" "@bob" DISTRIBUTION_TYPE_AIRDROP [mkOutput "@carol" []]).
Definition gift_failed : World := (NewHandler (block 10) empty_gift given).2.
Lemma store_stays_typed_witness :
  (NewHandler (block 10) empty_gift given).1 = Err ErrFailedOutputs ∧
  disp_ok (store (S := DispStore) gift_failed).
Proof.
  split; [vm_compute; reflexivity|].
  pose proof (store_stays_typed (W := World)) as [H _].
  specialize (H (block 10) empty_gift given (proj1 given_sound)). unfold gift_failed. exact H.
Defined.

(** ** Behaviours worth knowing *)

(** The query for the records of a name panics for the unspecified status it has a branch for. *)
Example unspecified_status_panics :
  RecordsByDistributionName "10_@alice" DISTRIBUTION_STATUS_UNSPECIFIED given = (Panic, given).
Proof. reflexivity. Qed.

(** The key of a distribution names its runner, the key of a record does not: a second
    distribution of the block with another runner takes the records of the first over. *)
Definition alice_gives_again : MsgCreateDistribution :=
  mkMsgCreateDistribution "@alice" "@eve" DISTRIBUTION_TYPE_LIQUIDITY_MINING
    [mkOutput "@carol" (fury 1); mkOutput "@dave" (fury 1)].
Definition given_again : World :=
  (NewHandler (block 10) (AMsgCreateDistribution alice_gives_again) given).2.
Example runner_taken_over :
  length (due (bob_runs 20) given) = 2%nat ∧ due (bob_runs 20) given_again = [] ∧
  owed (w_disp given_again) "fury" = 18 ∧
  length (kv_values (w_disp given_again).(ds_Distributions)) = 2%nat.
Proof. vm_compute. done. Qed.
