(* ===== verification/IbcSpec.v ===== *)
(** * IbcSpec: tokens over IBC

    Only listed and exportable denominations leave; a received coin is exchanged for its unit
    exactly, out of the escrow; reducing the precision of an amount loses less than one unit of
    the coarser denomination, and increasing it back restores what was taken. *)

From S2P Require Import Prelude Sdk SdkRef Rat Bank Keepers Registry World Scenario OracleSpec.
From S2P Require Import ClpExec.
From S2P Require Import Ibc IbcWorld BridgeWorld.
From S2P Require Import Ibc.
Local Open Scope Z_scope.

Section spec.
Context {W : Type} {sdk : Sdk} {HL : SdkLaws sdk} {trunc : SdkTruncate} {TL : SdkTruncateLaws sdk trunc}
  {coins : CoinLib} {ibc : IbcLib} {IL : IbcLaws ibc} {errs : SdkErrors} {bank : BankKeeper W}
  {reg : HasStore Registry W} {events : HasStore EventLog W} {transfer : SdkTransferKeeper W}
  {IW : IbcWorld W}.
Implicit Types w : W.
Notation registry_of w := (store (S := Registry) w).

(** ** Precision *)
Lemma dec_one_pos : 0 < dec_one.
Proof. unfold dec_one. lia. Qed.
Lemma increase_inv n k d c : 0 <= k < 2 ^ 64 → IncreasePrecision (NewDec n) k = Ok d →
  DecTruncateInt d = Ok c → c = n * 10 ^ k.
Proof.
  intros Hk. unfold IncreasePrecision. intros (p & Hp & Hm)%rbind_ok Ht.
  apply dec_power_ten_inv in Hp; [|done]. subst p. apply dec_mul_trunc_inv in Hm.
  apply dec_trunc_inv in Ht. unfold NewDec in *. pose proof dec_one_pos.
  replace (n * dec_one * (10 ^ k * dec_one)) with (n * 10 ^ k * dec_one * dec_one) in Hm by ring.
  rewrite Z.quot_mul in Hm by lia. by rewrite Hm, Z.quot_mul in Ht by lia.
Qed.
Lemma convert_incoming_inv text k n c : 0 <= k < 2 ^ 64 → NewIntFromString text = Some n →
  ConvertIncomingCoins text k = Ok c → c = n * 10 ^ k.
Proof.
  intros Hk Hn. unfold ConvertIncomingCoins. rewrite Hn. simpl.
  intros (d & Hd & H)%rbind_ok. apply rbind_ok in H as (t & Ht & H). apply int_new_inv in H. subst c.
  by eapply increase_inv.
Qed.

Lemma reduce_inv n k d c : 0 <= n → 0 <= k < 2 ^ 64 → ReducePrecision (NewDec n) k = Ok d →
  DecTruncateInt d = Ok c → c = n / 10 ^ k.
Proof.
  intros Hn Hk. unfold ReducePrecision. intros (p & Hp & Hq)%rbind_ok Ht.
  apply dec_power_ten_inv in Hp; [|done]. subst p. apply dec_quo_trunc_inv in Hq as [_ Hq].
  apply dec_trunc_inv in Ht. unfold NewDec in *. pose proof dec_one_pos.
  assert (0 < 10 ^ k) by (apply Z.pow_pos_nonneg; lia).
  rewrite Z.quot_mul_cancel_r in Hq by lia. subst c d.
  rewrite Z.quot_quot, <- (Z.quot_div_nonneg n) by nia. by rewrite Z.quot_mul_cancel_r by lia.
Qed.

(** C31: Changing to a denomination with fewer decimals takes the largest multiple of
    10^difference that is in the amount, so that less than one unit of the coarser denomination is
    left with the sender, and sends that many coarse units; when as many come back, exactly what
    was taken is given back. *)
Theorem precision_roundtrip msg from to token conv text :
  0 <= to.(Decimals) <= from.(Decimals) → from.(Decimals) < 2 ^ 63 → 0 <= msg.(mt_Token).(Amount) →
  ConvertCoinsForTransfer msg from to = Ok (token, conv) →
  NewIntFromString text = Some conv.(Amount) →
  let k := from.(Decimals) - to.(Decimals) in
  token.(Denom) = msg.(mt_Token).(Denom) ∧ conv.(Denom) = from.(IbcCounterpartyDenom) ∧
  token.(Amount) = conv.(Amount) * 10 ^ k ∧
  0 <= msg.(mt_Token).(Amount) - token.(Amount) < 10 ^ k ∧
  ConvertIncomingCoins text k = Ok token.(Amount).
Proof.
  intros Hd H63 Hn H Ht k. unfold ConvertCoinsForTransfer in H.
  rewrite int64_id, uint64_id in H by lia. fold k in H.
  assert (0 <= k < 2 ^ 64) as Hk by (unfold k; lia). clearbody k.
  apply rbind_ok in H as (r & Hr & H). apply rbind_ok in H as (c & Hc & H).
  apply rbind_ok in H as (c' & ->%int_new_inv & H).
  apply rbind_ok in H as (cc & [-> _]%new_coin_inv & H).
  apply rbind_ok in H as (t & Hi & H). apply rbind_ok in H as (a & Ha & H).
  apply rbind_ok in H as (a' & Hb & H). apply rbind_ok in H as (tc & [-> _]%new_coin_inv & [= <- <-]).
  simpl in *. pose proof (increase_inv _ _ _ _ Hk Hi Ha) as Ea.
  pose proof (int_new_inv _ _ Hb). subst a'.
  pose proof (reduce_inv _ _ _ _ Hn Hk Hr Hc) as Ec.
  assert (0 < 10 ^ k) by (apply Z.pow_pos_nonneg; lia).
  pose proof (Z.div_mod (Amount (mt_Token msg)) (10 ^ k) ltac:(lia)).
  pose proof (Z.mod_pos_bound (Amount (mt_Token msg)) (10 ^ k) ltac:(lia)).
  split_and!; [done|done|done|lia|lia|].
  unfold ConvertIncomingCoins. by rewrite Ht; simpl; rewrite Hi; simpl; rewrite Ha.
Qed.

(** ** Receiving *)
Lemma new_coins_ok denom n c cs d : NewCoin denom n = Ok c → NewCoins [c] = Ok cs →
  AmountOf cs d = if String.eqb denom d then n else 0.
Proof.
  intros (-> & _)%new_coin_inv Hcs. rewrite (new_coins_amount _ _ d Hcs). apply Z.add_0_r.
Qed.
Lemma emit_ok e w u w' : EmitEvent e w = (Ok u, w') →
  (∀ a d, balance w' a d = balance w a d) ∧ registry_of w' = registry_of w.
Proof.
  unfold EmitEvent. intros ->%upd_store_ok. split.
  - intros a d. unfold balance. by rewrite frame_balance.
  - apply store_put_other.
Qed.

(** The receiver gives [n] of [denom], which are destroyed, and gets [m] of [unit_denom] from the
    escrow. *)
Definition exchanged (receiver escrow : AccAddress) (denom unit_denom : string) (n m : Z) w w' : Prop :=
  ∀ a d, balance w' a d = balance w a d
    - (if String.eqb a receiver then if String.eqb denom d then n else 0 else 0)
    - (if String.eqb a escrow then if String.eqb unit_denom d then m else 0 else 0)
    + (if String.eqb a receiver then if String.eqb unit_denom d then m else 0 else 0).

Definition int64_range (z : Z) : Prop := - 2 ^ 63 <= z < 2 ^ 63.
Lemma decimals_diff a b : 0 < a → a < b → int64_range b → uint64 (int64 (b - a)) = b - a.
Proof. unfold int64_range. intros. rewrite int64_id, uint64_id by lia. done. Qed.

Lemma exec_conv_ok minted unit_ packet data w u w' :
  0 < minted.(Decimals) → minted.(Decimals) < unit_.(Decimals) → int64_range unit_.(Decimals) →
  ExecConvForIncomingCoins minted unit_ packet data w = (Ok u, w') →
  ∃ receiver n, AccAddressFromBech32 data.(fd_Receiver) = Ok receiver ∧
    NewIntFromString data.(fd_Amount) = Some n ∧
    exchanged receiver (GetEscrowAddress packet.(DestPort) packet.(DestChannel)) minted.(re_Denom)
      unit_.(re_Denom) n (n * 10 ^ (unit_.(Decimals) - minted.(Decimals))) w w'.
Proof.
  intros Hpos Hlt Hr. unfold ExecConvForIncomingCoins. intros H.
  apply bind_ok in H as (receiver & w0 & [Hrec ->]%lift_ok & H).
  apply bind_ok in H as (n & w0 & [Hn ->]%lift_ok & H).
  apply bind_ok in H as (c & w0 & [Hc ->]%lift_ok & H).
  apply bind_ok in H as (cs & w0 & [Hcs ->]%lift_ok & H).
  apply bind_ok in H as ([] & w1 & H1 & H). apply bind_ok in H as ([] & w2 & H2 & H).
  apply bind_ok in H as (f & w3 & [_ ->]%lift_ok & H).
  apply bind_ok in H as (fs & w3 & [_ ->]%lift_ok & H).
  apply bind_ok in H as (final & w3 & Hf & H).
  rewrite (proj2 (Z.ltb_lt _ _) Hlt), decimals_diff in Hf by done.
  apply bind_ok in Hf as (m & w4 & [Hm ->]%lift_ok & Hf).
  apply bind_ok in Hf as (mc & w4 & [Hmc ->]%lift_ok & [Hfs ->]%lift_ok).
  apply bind_ok in H as ([] & w5 & H5 & [Hb _]%emit_ok).
  assert (NewIntFromString data.(fd_Amount) = Some n) as Hn'
    by (by destruct (NewIntFromString (fd_Amount data)); simplify_eq/=).
  apply (convert_incoming_inv _ _ n) in Hm; [|unfold int64_range in Hr; lia|done]. subst m.
  exists receiver, n. split_and!; [done|done|]. intros a d.
  rewrite Hb, (send_coins _ _ _ _ _ a d H5), (burn_coins _ _ _ _ a d H2),
    (send_account_module _ _ _ _ _ a d H1).
  rewrite (new_coins_ok _ _ _ _ d Hc Hcs), (new_coins_ok _ _ _ _ d Hmc Hfs).
  destruct (String.eqb a receiver), (String.eqb a (NewModuleAddress ModuleName)); lia.
Qed.

(** A conversion is due: the unit of the denomination is listed with more decimals. *)
Definition conversion_due (r : Registry) (entry : RegistryEntry) : Prop :=
  ∃ unit_, GetEntry r entry.(UnitDenom) = Ok unit_ ∧ 0 < entry.(Decimals) < unit_.(Decimals).
Definition decimals_ok (r : Registry) : Prop := Forall (λ e, int64_range e.(Decimals)) r.(Entries).

Lemma get_entry_in r denom e : GetEntry r denom = Ok e → e ∈ r.(Entries) ∧ e.(re_Denom) = denom.
Proof.
  unfold GetEntry. destruct (list_find _ _) as [[i x]|] eqn:E; [|done]. intros [= ->].
  apply list_find_Some in E as (Hx & ? & _). split; [by eapply list_elem_of_lookup_2|done].
Qed.

Lemma unit_int64 r denom e : decimals_ok r → GetEntry r denom = Ok e → int64_range e.(Decimals).
Proof. intros Hr [He _]%get_entry_in. unfold decimals_ok in Hr. rewrite Forall_forall in Hr. by apply Hr. Qed.

(** The exchange made for a packet when one is due. *)
Definition exchange_made (r : Registry) (packet : Packet) (data : FungibleTokenPacketData)
    (entry : RegistryEntry) w1 w' : Prop :=
  ∃ unit_ receiver n, GetEntry r entry.(UnitDenom) = Ok unit_ ∧
    AccAddressFromBech32 data.(fd_Receiver) = Ok receiver ∧
    NewIntFromString data.(fd_Amount) = Some n ∧
    exchanged receiver (GetEscrowAddress packet.(DestPort) packet.(DestChannel)) entry.(re_Denom)
      unit_.(re_Denom) n (n * 10 ^ (unit_.(Decimals) - entry.(Decimals))) w1 w'.
Lemma convert_received_ok r entry packet data w u w' : decimals_ok r →
  convert_received r entry packet data w = (Ok (inr u), w') →
  (conversion_due r entry → exchange_made r packet data entry w w') ∧
  (¬ conversion_due r entry → w' = w).
Proof.
  intros Hr. unfold convert_received, conversion_due.
  destruct (GetEntry r entry.(UnitDenom)) as [unit_|e|] eqn:Eu; [|intros [= _ <-]|done].
  - destruct (_ && _ && _) eqn:Ec.
    + apply andb_prop in Ec as [[Hu%Z.ltb_lt Hm%Z.ltb_lt]%andb_prop Hl%Z.ltb_lt].
      intros [(a & _ & H)|(e & ? & _)]%try_ok; [|done]. split.
      * intros _. destruct (exec_conv_ok _ _ _ _ _ _ _ Hm Hl (unit_int64 _ _ _ Hr Eu) H)
          as (receiver & n & ? & ? & ?). by exists unit_, receiver, n.
      * intros Hn. destruct Hn. by exists unit_.
    + intros [= _ <-]. split; [|done]. intros (x & [= <-] & H1 & H2).
      rewrite (proj2 (Z.ltb_lt _ _) H1), (proj2 (Z.ltb_lt _ _) H2) in Ec.
      rewrite (proj2 (Z.ltb_lt 0 (Decimals unit_))) in Ec by lia. done.
  - split; [|done]. by intros (x & ? & _).
Qed.

Lemma check_permission entry p :
  CheckEntryPermissions entry [p] = true ↔ p ∈ entry.(Permissions).
Proof.
  unfold CheckEntryPermissions. simpl. rewrite andb_true_r, existsb_exists. split.
  - intros (x & Hx & E). apply bool_decide_eq_true in E as ->. by apply list_elem_of_In.
  - intros H. exists p. split; [by apply list_elem_of_In|by apply bool_decide_eq_true].
Qed.

(** C12: A packet that is acknowledged has been received by the transfer module of ibc-go, its
    denomination here is listed, and it is either a token of this chain coming back or one that
    may be imported.  If its unit is listed with more decimals, the receiver's coins are destroyed
    and replaced by the same value of the unit, 10^difference units each, out of the escrow of the
    channel; otherwise no other coin moves. *)
Theorem OnRecvPacket_pays packet w r w' : decimals_ok (registry_of w) →
  OnRecvPacketWhitelistConvert packet w = (Ok (AckResult r), w') →
  ∃ data denom entry w1, Unmarshal_PacketData packet.(PacketData) = Ok data ∧
    SdkOnRecvPacket packet data w = (Ok tt, w1) ∧
    GetMintedDenomFromPacket packet data = Ok denom ∧
    GetEntry (registry_of w) denom = Ok entry ∧
    (ReceiverChainIsSource packet.(SourcePort) packet.(SourceChannel) data.(fd_Denom) = true ∨
     Permission_IBCIMPORT ∈ entry.(Permissions)) ∧
    (conversion_due (registry_of w) entry → exchange_made (registry_of w) packet data entry w1 w') ∧
    (¬ conversion_due (registry_of w) entry → still w1 w').
Proof.
  intros Hd H. unfold OnRecvPacketWhitelistConvert in H.
  apply bind_ok in H as (dec & w0 & [(data & -> & [Hdata ->]%lift_ok)|(e & -> & _)]%try_ok & H); [|done].
  apply bind_ok in H as (rc & w1 & [([] & -> & Hrec)|(e & -> & _)]%try_ok & H); [|done].
  assert (registry_of w1 = registry_of w) as Er
    by (by apply (preserves_ok _ _ _ _ _ (iw_transfer_registry packet data) Hrec)).
  apply bind_ok in H as (denom & w2 & [Hden ->]%lift_ok & H).
  apply bind_ok in H as (registry & w2 & [-> ->]%gets_ok & H). rewrite Er in H.
  apply bind_ok in H as (found & w2 & [(entry & -> & [He ->]%lift_ok)|(e & -> & _)]%try_ok & H);
    [|by apply bind_ok in H as (? & ? & _ & [=])].
  destruct (IsRecvPacketAllowed packet data entry) eqn:Ha; simpl in H;
    [|by apply bind_ok in H as (? & ? & _ & [=])].
  apply bind_ok in H as (conv & w2 & Hc & H). destruct conv as [e|u]; [done|].
  apply bind_ok in H as (u' & w3 & [Hb _]%emit_ok & [_ <-]%ret_ok).
  destruct (convert_received_ok _ _ _ _ _ _ _ Hd Hc) as [Hdue Hnot].
  exists data, denom, entry, w1. split_and!; try done.
  - unfold IsRecvPacketAllowed in Ha. destruct (ReceiverChainIsSource _ _ _); [by left|right].
    by apply check_permission.
  - intros (unit_ & receiver & n & H1 & H2 & H3 & H4)%Hdue. exists unit_, receiver, n.
    split_and!; try done. intros a d. rewrite Hb. apply H4.
  - intros Hn a d. by rewrite Hb, (Hnot Hn).
Qed.

Lemma alias_of_none entry :
  negb (String.eqb entry.(UnitDenom) "") && negb (String.eqb entry.(UnitDenom) entry.(re_Denom)) = false
  ↔ entry.(UnitDenom) = "" ∨ entry.(UnitDenom) = entry.(re_Denom).
Proof. by rewrite andb_false_iff, !negb_false_iff, !String.eqb_eq. Qed.
Lemma Transfer_branches msg w :
  Transfer msg w =
  match GetEntry (registry_of w) msg.(mt_Token).(Denom) with
  | Ok entry =>
      if negb (String.eqb entry.(UnitDenom) "") && negb (String.eqb entry.(UnitDenom) entry.(re_Denom))
      then (Err ErrPermissionDenied, w)
      else if negb (CheckEntryPermissions entry [Permission_IBCEXPORT]) then (Err ErrPermissionDenied, w)
      else if msg.(mt_Token).(Amount) <=? 0 then (Err ErrAmountTooLowToConvert, w)
      else SdkTransfer msg w
  | Err _ => (Err ErrPermissionDenied, w)
  | Panic => (Panic, w)
  end.
Proof.
  unfold Transfer, GetRegistry, get_store, gets, mbind, M_bind, wrap_err, on_err, lift. cbv beta iota.
  destruct (GetEntry _ _) as [entry|e|]; [|done|done].
  by destruct (_ && _); [|destruct (negb (CheckEntryPermissions _ _)); [|destruct (_ <=? 0)]].
Qed.

(** A transfer reaches ibc-go only as it was asked for, and only if its denomination is
    listed, is no alias of another, may be exported, and its amount is positive; every other
    request is refused and changes nothing. *)
Theorem Transfer_guarded msg w :
  (∃ entry, GetEntry (registry_of w) msg.(mt_Token).(Denom) = Ok entry ∧
     (entry.(UnitDenom) = "" ∨ entry.(UnitDenom) = entry.(re_Denom)) ∧
     Permission_IBCEXPORT ∈ entry.(Permissions) ∧ 0 < msg.(mt_Token).(Amount) ∧
     Transfer msg w = SdkTransfer msg w) ∨
  ((∀ entry, GetEntry (registry_of w) msg.(mt_Token).(Denom) = Ok entry →
      ¬ ((entry.(UnitDenom) = "" ∨ entry.(UnitDenom) = entry.(re_Denom)) ∧
         Permission_IBCEXPORT ∈ entry.(Permissions) ∧ 0 < msg.(mt_Token).(Amount))) ∧
   ∃ e, e ∈ [ErrPermissionDenied; ErrAmountTooLowToConvert] ∧ Transfer msg w = (Err e, w)).
Proof.
  rewrite Transfer_branches. destruct (GetEntry _ _) as [entry|e|] eqn:E.
  - destruct (_ && _) eqn:Eu; [|destruct (CheckEntryPermissions _ _) eqn:Ep;
      [destruct (_ <=? 0) eqn:Ea|]]; simpl.
    + right. split; [|exists ErrPermissionDenied; set_solver]. intros x [= <-] (H & _).
      by rewrite (proj2 (alias_of_none _) H) in Eu.
    + right. split; [|exists ErrAmountTooLowToConvert; set_solver]. intros x [= <-] (_ & _ & H).
      apply Z.leb_le in Ea. lia.
    + left. exists entry. apply alias_of_none in Eu. apply check_permission in Ep.
      apply Z.leb_gt in Ea. done.
    + right. split; [|exists ErrPermissionDenied; set_solver]. intros x [= <-] (_ & H & _).
      by rewrite (proj2 (check_permission _ _) H) in Ep.
  - right. split; [done|]. exists ErrPermissionDenied. set_solver.
  - exfalso. unfold GetEntry in E. by destruct (list_find _ _) as [[]|].
Qed.
End spec.

(** ** On the concrete chain *)
(** Five units with six decimals come in; the receiver has five with eighteen. *)
Definition after_usdt : World := (OnRecvPacketWhitelistConvert usdt_packet ibc_chain).2.
Example usdt_received :
  balance after_usdt "bob" "cusdt" = 5 * ether ∧ balance after_usdt "bob" usdt_denom = 0.
Proof. split; vm_compute; reflexivity. Qed.
Lemma usdt_runs : OnRecvPacketWhitelistConvert usdt_packet ibc_chain
                  = (Ok (AckResult (String (ascii_of_nat 1) "")), after_usdt).
Proof. unfold after_usdt. apply ran. vm_compute. reflexivity. Qed.
Lemma ibc_decimals : decimals_ok (store (S := Registry) ibc_chain).
Proof. repeat constructor; by vm_compute. Qed.
Lemma OnRecvPacket_pays_witness :
  ∃ data denom entry w1, Unmarshal_PacketData usdt_packet.(PacketData) = Ok data ∧
    SdkOnRecvPacket usdt_packet data ibc_chain = (Ok tt, w1) ∧
    GetMintedDenomFromPacket usdt_packet data = Ok denom ∧
    GetEntry ibc_registry denom = Ok entry ∧
    (ReceiverChainIsSource "transfer" "channel-7" data.(fd_Denom) = true ∨
     Permission_IBCIMPORT ∈ entry.(Permissions)) ∧
    (conversion_due ibc_registry entry → exchange_made ibc_registry usdt_packet data entry w1 after_usdt) ∧
    (¬ conversion_due ibc_registry entry → still w1 after_usdt).
Proof. exact (OnRecvPacket_pays usdt_packet ibc_chain _ after_usdt ibc_decimals usdt_runs). Defined.

Definition cusdt_transfer : MsgTransfer :=
  mkMsgTransfer "transfer" "channel-0" (mkCoin "cusdt" 1234567890123456789) "@bob" "carol" (0, 0) 0.
Lemma precision_roundtrip_witness :
  ConvertIncomingCoins "1234567" 12 = Ok 1234567000000000000.
Proof.
  apply (precision_roundtrip cusdt_transfer (entry_with "cusdt" "" "uusdt" 18)
    (entry_with usdt_denom "cusdt" "" 6) (mkCoin "cusdt" 1234567000000000000)
    (mkCoin "uusdt" 1234567) "1234567"); vm_compute; done.
Defined.

Definition fury_transfer : MsgTransfer :=
  mkMsgTransfer "transfer" "channel-0" (mkCoin "fury" 5) "@bob" "carol" (0, 0) 0.
Lemma Transfer_guarded_witness :
  Transfer fury_transfer ibc_chain = SdkTransfer fury_transfer ibc_chain.
Proof.
  destruct (Transfer_guarded fury_transfer ibc_chain) as [(e & _ & _ & _ & _ & H)|(H & _)]; [exact H|].
  exfalso. apply (H (entry_with "fury" "fury" "" 18)); [reflexivity|].
  split; [by right|]. split; [|done]. simpl. constructor.
Defined.
