(* ===== verification/AnteSpec.v ===== *)
(** * AnteSpec: what a transaction must pay, and how strong a validator may become

    The fee a transaction must pay, message by message; the commission and the share of a
    validator in exact integers; and what a transaction that passes the whole chain of checks has
    been checked for. *)

From S2P Require Import Oracle BridgeWorld.
From S2P Require Import Prelude Sdk SdkRef Rat Bank Keepers Admin ClpTypes World Scenario ClpExec.
From S2P Require Import Ante AnteWorld.
Local Open Scope Z_scope.

(** ** Fees *)
Inductive charge := Free | HighCharge | TransferCharge | ProposalCharge | EitherCharge.
Definition charge_of (msg : Msg) : charge :=
  let url := ToLower msg.(MsgTypeURL) in
  let proposal := Contains url "submitproposal" || Contains url TypeMsgSubmitProposal in
  if high_fee_msg url then HighCharge
  else if Contains url "transfer" then if proposal then EitherCharge else TransferCharge
  else if proposal then ProposalCharge else Free.
Definition charged (proposalFee minFee : Z) (c : charge) : Z :=
  match c with
  | Free => minFee
  | HighCharge => high_fee
  | TransferCharge => if minFee <=? transfer_fee then transfer_fee else minFee
  | ProposalCharge => proposalFee
  | EitherCharge => if minFee <=? transfer_fee then transfer_fee else proposalFee
  end.
Definition required_fee (proposalFee : Z) (msgs : list Msg) : Z :=
  foldl (charged proposalFee) 0 (charge_of <$> msgs).

Lemma required_free fee msgs : Forall (λ m, charge_of m = Free) msgs → required_fee fee msgs = 0.
Proof.
  unfold required_fee. generalize 0. induction msgs as [|m l IH]; intros z Hl; [done|].
  apply Forall_cons in Hl as [Hm Hl]. simpl. rewrite Hm. by apply IH.
Qed.
(** Once a bound is reached it is kept by every message that does not charge less. *)
Lemma charges_keep b fee cs : ∀ z, b <= fee → b <= high_fee → b <= z → b <= foldl (charged fee) z cs.
Proof.
  induction cs as [|c cs IH]; intros z Hf Hh Hz; [done|]. simpl. apply IH; [done|done|].
  destruct c; simpl; try done; destruct (Z.leb_spec z transfer_fee); lia.
Qed.
Lemma charges_reach b c fee cs : b <= fee → b <= high_fee → (∀ z, b <= charged fee z c) → c ∈ cs →
  ∀ z, b <= foldl (charged fee) z cs.
Proof.
  intros Hf Hh Hc. induction cs as [|x cs IH]; [by intros ?%not_elem_of_nil|].
  intros [->|Hin]%elem_of_cons z; simpl; [by apply charges_keep|by apply IH].
Qed.

Section spec.
Context {W : Type} {sdk : Sdk} {HL : SdkLaws sdk} {coins : CoinLib} {bank : BankKeeper W}
  {errs : SdkErrors} {adm : HasStore AdminStore W} {vals : ValAddressLib}
  {staking : StakingKeeper W} {pools : StakingPools W} {lib : AnteLib W}
  {BL : BankLaws W coins bank} {AL : AnteLaws W sdk adm lib} {PL : StakingPoolsLaws W pools}.
Implicit Types (w : W) (tx : Tx).

(** The fee of a proposal, as the administrators set it or by default. *)
Definition proposal_fee (s : AdminStore) : Z :=
  match s.(as_Params) with Some p => p.(SubmitProposalFee) | None => 5000 * 10 ^ 18 end.
Notation fee_at w := (proposal_fee (store (S := AdminStore) w)).

Lemma params_read w : ∃ p, Admin.GetParams w = (Ok p, w) ∧ p.(SubmitProposalFee) = fee_at w.
Proof.
  unfold Admin.GetParams. rewrite default_fee_parses. unfold proposal_fee.
  destruct (as_Params (store w)) as [p|] eqn:E; [exists p|exists (mkAdminParams (5000 * 10 ^ 18))];
    (split; [|done]); unfold get_store, gets, mbind, M_bind, lift; simpl; by rewrite E.
Qed.
Lemma min_fee_required fee msgs z : Z.abs fee < 2 ^ 255 →
  foldR (min_fee_step fee) z msgs = Ok (foldl (charged fee) z (charge_of <$> msgs)).
Proof.
  intros Hf. revert z. induction msgs as [|m l IH]; intros z; [done|]. cbn [foldR fmap list_fmap foldl].
  assert (min_fee_step fee z m = Ok (charged fee z (charge_of m))) as ->; [|apply IH].
  unfold min_fee_step, charge_of. destruct (high_fee_msg _); [done|].
  destruct (Contains _ "transfer"), (_ || _) eqn:E; simpl; rewrite ?(int_new _ Hf); try done;
    by destruct (z <=? transfer_fee).
Qed.

(** What a transaction must show to pass. *)
Definition pays (fee : Z) tx : Prop :=
  let r := required_fee fee tx.(GetMsgs) in
  r = 0 ∨ ∃ fees, tx.(GetFee) = Some fees ∧ 0 < fury_fee fees ∧ r <= fury_fee fees.
Definition single_dispensation tx : bool :=
  match tx.(GetMsgs) with [msg] => is_dispensation msg | _ => false end.

(** The decorator, branch by branch. *)
Lemma AdjustGasPrice_branches next ctx tx simulate w : Z.abs (fee_at w) < 2 ^ 255 →
  AdjustGasPriceDecorator next ctx tx simulate w =
  if single_dispensation tx
  then next (mkAnteCtx [mkDecCoin "fury" (NewDecWithPrec 5 8)]) tx simulate w
  else
    let r := required_fee (fee_at w) tx.(GetMsgs) in
    if r =? 0 then next ctx tx simulate w
    else match tx.(GetFee) with
         | None => (Err ErrTxDecode, w)
         | Some fees => if fury_fee fees <=? 0 then (Err ErrLogic, w)
                        else if fury_fee fees <? r then (Err ErrLogic, w) else next ctx tx simulate w
         end.
Proof.
  intros Hf. unfold AdjustGasPriceDecorator. destruct (params_read w) as (p & Hp & Hfee).
  rewrite (bind_run _ _ _ _ _ Hp), Hfee, min_fee_required by done.
  fold (required_fee (fee_at w) tx.(GetMsgs)) (single_dispensation tx).
  destruct (single_dispensation tx).
  - unfold MustNewDecFromStr. rewrite low_price_parses.
    destruct (fury_price (NewDecWithPrec 5 8)) as [Hv Hn]; [done|].
    unfold mbind, M_bind, lift, throw_if. by rewrite Hv, Hn.
  - unfold mbind, M_bind, lift. destruct (_ =? 0); [done|]. destruct (GetFee tx) as [fees|]; [|done].
    by destruct (fury_fee fees <=? 0), (fury_fee fees <? _).
Qed.

(** A transaction of one message of x/dispensation sees lowered gas prices.  Any other passes
    exactly if nothing is required or if its last fee in fury is positive and covers what is
    required; else it is refused and nothing changes.  What is required: nothing without a
    charged message; at least the high fee when a message is charged it or is a proposal, and at
    least the transfer fee when a transfer is among them, provided the fee of a proposal is not
    below these. *)
Theorem AdjustGasPrice_exact next ctx tx simulate w :
  Z.abs (fee_at w) < 2 ^ 255 →
  let run := AdjustGasPriceDecorator next ctx tx simulate w in
  (single_dispensation tx = true →
     run = next (mkAnteCtx [mkDecCoin "fury" (NewDecWithPrec 5 8)]) tx simulate w) ∧
  (single_dispensation tx = false → pays (fee_at w) tx → run = next ctx tx simulate w) ∧
  (single_dispensation tx = false → ¬ pays (fee_at w) tx →
     ∃ e, e ∈ [ErrTxDecode; ErrLogic] ∧ run = (Err e, w)) ∧
  (Forall (λ m, charge_of m = Free) tx.(GetMsgs) → required_fee (fee_at w) tx.(GetMsgs) = 0) ∧
  (high_fee <= fee_at w → (HighCharge ∈ (charge_of <$> tx.(GetMsgs)) ∨
     ProposalCharge ∈ (charge_of <$> tx.(GetMsgs))) → high_fee <= required_fee (fee_at w) tx.(GetMsgs)) ∧
  (transfer_fee <= fee_at w → TransferCharge ∈ (charge_of <$> tx.(GetMsgs)) →
     transfer_fee <= required_fee (fee_at w) tx.(GetMsgs)).
Proof.
  intros Hf run. unfold run. rewrite AdjustGasPrice_branches by done. unfold pays.
  set (r := required_fee (fee_at w) tx.(GetMsgs)).
  split_and!; [by intros ->|intros -> Hp|intros -> Hn|apply required_free| |]; simpl.
  - destruct (Z.eqb_spec r 0); [done|]. destruct Hp as [?|(fees & -> & H1 & H2)]; [done|].
    by rewrite (proj2 (Z.leb_gt _ _) H1), (proj2 (Z.ltb_ge _ _) H2).
  - destruct (Z.eqb_spec r 0); [destruct Hn; by left|].
    destruct (GetFee tx) as [fees|] eqn:E; [|exists ErrTxDecode; set_solver].
    exists ErrLogic. split; [set_solver|]. destruct (Z.leb_spec (fury_fee fees) 0); [done|].
    destruct (Z.ltb_spec (fury_fee fees) r); [done|]. destruct Hn. right. by exists fees.
  - intros Hh [H|H]; eapply charges_reach; try exact H; try done; intros z; simpl; lia.
  - intros Ht H. eapply charges_reach; [done|done| |exact H]. intros z. simpl.
    destruct (Z.leb_spec z transfer_fee); lia.
Qed.

(** ** Commission and power *)
Lemma dec_one_is : dec_one = 10 ^ 18.
Proof. done. Qed.
(** A share in percent compared with 6.6: the quotient is cut to 18 decimals, the product exact. *)
Lemma power_exact a b q p : 0 <= b → DecQuo (NewDec a) (NewDec b) = Ok q →
  DecMul q (NewDec 100) = Ok p →
  0 < b ∧ (p < maxVotingPower → 1000 * a < 66 * b) ∧
  (maxVotingPower <= p → 66 * 10 ^ 15 * b < 1000 * 10 ^ 15 * a + b).
Proof.
  intros Hb [Hn Hq]%dec_quo_inv Hp%dec_mul_inv. unfold maxVotingPower, NewDecWithPrec, NewDec in *.
  rewrite dec_one_is in *. change (10 ^ (18 - 1)) with (10 ^ 17).
  assert (0 < b) as Hb' by lia. split; [done|]. assert (p = 100 * q) as -> by lia.
  rewrite (Z.abs_eq (b * 10 ^ 18)) in Hq by lia.
  assert (Z.abs (q * b - a * 10 ^ 18) < b) as Hd by nia.
  split; intros H.
  - assert (q <= 66 * 10 ^ 15 - 1) by lia. nia.
  - assert (66 * 10 ^ 15 <= q) by lia. nia.
Qed.

(** All that is delegated, and a validator's share of it. *)
Definition delegated w : Z :=
  balance w (GetNotBondedPool w) (BondDenom w) + balance w (GetBondedPool w) (BondDenom w).
Lemma delegated_nonneg w : 0 <= delegated w.
Proof.
  unfold delegated. pose proof (balance_nonneg w (GetNotBondedPool w) (BondDenom w)).
  pose proof (balance_nonneg w (GetBondedPool w) (BondDenom w)). lia.
Qed.
Definition small_share (tokens total : Z) : Prop := 0 < total ∧ 1000 * tokens < 66 * total.
(** Above 6.6 percent, or below it by less than one part in 10^18 of the total. *)
Definition large_share (tokens total : Z) : Prop :=
  66 * 10 ^ 15 * total < 1000 * 10 ^ 15 * tokens + total.

(** What the checks demand of a message, in integers. *)
Definition acceptable w (msg : Msg) : Prop :=
  match msg.(staking_msg) with
  | Some (MsgCreateValidator rate) | Some (MsgEditValidator (Some rate)) => 5 * dec_one <= 100 * rate
  | Some (MsgDelegate address amount) =>
      ∃ v, getValidator w address = Ok v ∧ small_share (GetTokens v + amount) (delegated w + amount)
  | Some (MsgBeginRedelegate src dst amount) =>
      ∃ v, getValidator w dst = Ok v ∧
        small_share (GetTokens v + (if String.eqb src dst then 0 else amount)) (delegated w)
  | _ => True
  end.
Definition unacceptable w (msg : Msg) : Prop :=
  match msg.(staking_msg) with
  | Some (MsgCreateValidator rate) | Some (MsgEditValidator (Some rate)) => 100 * rate < 5 * dec_one
  | Some (MsgDelegate address amount) =>
      ∃ v, getValidator w address = Ok v ∧ large_share (GetTokens v + amount) (delegated w + amount)
  | Some (MsgBeginRedelegate src dst amount) =>
      ∃ v, getValidator w dst = Ok v ∧
        large_share (GetTokens v + (if String.eqb src dst then 0 else amount)) (delegated w)
  | _ => False
  end.
(** Amounts are not negative ([ValidateBasic] of x/staking). *)
Definition amounts_ok (msg : Msg) : Prop :=
  match msg.(staking_msg) with
  | Some (MsgDelegate _ amount) | Some (MsgBeginRedelegate _ _ amount) => 0 <= amount
  | _ => True
  end.

Lemma total_delegated w t : getTotalDelegatedTokens w = Ok t → t = delegated w.
Proof. by intros ->%int_add_inv. Qed.
Lemma delegate_power w v amount p : 0 <= amount →
  CalculateDelegateProjectedVotingPower w v (NewDec amount) = Ok p →
  0 < delegated w + amount ∧
  (p < maxVotingPower → small_share (GetTokens v + amount) (delegated w + amount)) ∧
  (maxVotingPower <= p → large_share (GetTokens v + amount) (delegated w + amount)).
Proof.
  intros Ha. unfold CalculateDelegateProjectedVotingPower.
  intros (t & ->%total_delegated & H)%rbind_ok. apply rbind_ok in H as (b & ->%dec_add_inv & H).
  apply rbind_ok in H as (a & ->%dec_add_inv & H). apply rbind_ok in H as (q & Hq & Hp).
  unfold NewDec in Hq at 1 2 3 4. rewrite <- !Z.mul_add_distr_r in Hq.
  pose proof (delegated_nonneg w).
  destruct (power_exact (GetTokens v + amount) (delegated w + amount) q p) as (H1 & H2 & H3);
    [lia|exact Hq|exact Hp|]. unfold small_share, large_share. auto.
Qed.
Lemma redelegate_power w v amount p :
  CalculateRedelegateProjectedVotingPower w v (NewDec amount) = Ok p →
  0 < delegated w ∧
  (p < maxVotingPower → small_share (GetTokens v + amount) (delegated w)) ∧
  (maxVotingPower <= p → large_share (GetTokens v + amount) (delegated w)).
Proof.
  unfold CalculateRedelegateProjectedVotingPower.
  intros (t & ->%total_delegated & H)%rbind_ok. apply rbind_ok in H as (a & ->%dec_add_inv & H).
  apply rbind_ok in H as (q & Hq & Hp). unfold NewDec in Hq at 1 2. rewrite <- Z.mul_add_distr_r in Hq.
  destruct (power_exact (GetTokens v + amount) (delegated w) q p) as (H1 & H2 & H3);
    [apply delegated_nonneg|exact Hq|exact Hp|]. unfold small_share, large_share. auto.
Qed.
Lemma min_commission_is rate : (rate <? MinCommission) = (100 * rate <? 5 * dec_one).
Proof.
  unfold MinCommission, NewDecWithPrec. rewrite dec_one_is.
  destruct (Z.ltb_spec rate (5 * 10 ^ (18 - 2))), (Z.ltb_spec (100 * rate) (5 * 10 ^ 18)); lia.
Qed.
Lemma limit_sound (P Q : Prop) (p : Dec) : (p < maxVotingPower → P) → (maxVotingPower <= p → Q) →
  ((if maxVotingPower <=? p then Err ErrInvalidRequest else Ok tt) = Ok tt → P) ∧
  (¬ Q → (if maxVotingPower <=? p then Err ErrInvalidRequest else Ok tt) = Ok tt).
Proof. intros HP HQ. destruct (Z.leb_spec maxVotingPower p); split; auto; [done|]. intros []. auto. Qed.

Lemma validateMsg_sound w msg : amounts_ok msg → validateMsg w msg = Ok tt → acceptable w msg.
Proof.
  unfold amounts_ok, validateMsg, acceptable. destruct msg as [url [[rate|[rate|]|addr amt|src dst amt]|]]; simpl.
  - intros _. rewrite min_commission_is. destruct (Z.ltb_spec (100 * rate) (5 * dec_one)); [done|lia].
  - intros _. rewrite min_commission_is. destruct (Z.ltb_spec (100 * rate) (5 * dec_one)); [done|lia].
  - done.
  - intros Ha (v & Hv & H)%rbind_ok. apply rbind_ok in H as (p & Hp & H). exists v. split; [done|].
    apply delegate_power in Hp as (_ & H1 & H2); [|done]. by eapply limit_sound.
  - intros Ha (v & Hv & H)%rbind_ok. apply rbind_ok in H as (p & Hp & H). exists v. split; [done|].
    destruct (String.eqb src dst).
    + change ZeroDec with (NewDec 0) in Hp. apply redelegate_power in Hp as (_ & H1 & H2).
      by eapply limit_sound.
    + apply redelegate_power in Hp as (_ & H1 & H2). by eapply limit_sound.
  - done.
Qed.

(** A message whose validator exists and whose amounts are in the range of real ones. *)
Definition in_range (tokens total : Z) : Prop := 0 <= tokens < 2 ^ 200 ∧ 0 < total < 2 ^ 200.
Definition computable w (msg : Msg) : Prop :=
  match msg.(staking_msg) with
  | Some (MsgDelegate address amount) =>
      ∃ v, getValidator w address = Ok v ∧ in_range (GetTokens v + amount) (delegated w + amount)
  | Some (MsgBeginRedelegate src dst amount) =>
      ∃ v, getValidator w dst = Ok v ∧
        in_range (GetTokens v + (if String.eqb src dst then 0 else amount)) (delegated w)
  | _ => True
  end.
Lemma quotient_total a b : in_range a b → ∃ q p,
  DecQuo (NewDec a) (NewDec b) = Ok q ∧ DecMul q (NewDec 100) = Ok p.
Proof.
  intros [Ha Hb]. unfold NewDec. rewrite dec_one_is in *.
  destruct (dec_quo_total (a * 10 ^ 18) (b * 10 ^ 18)) as [q Hq]; [lia|rewrite dec_one_is; lia|].
  exists q. destruct (dec_quo_inv _ _ _ Hq) as [_ Hd]. rewrite dec_one_is in Hd.
  assert (Z.abs (q * b - a * 10 ^ 18) < b) by nia. assert (Z.abs q < 2 ^ 201 * 10 ^ 18) by nia.
  destruct (dec_mul_total q (100 * 10 ^ 18)) as [p Hp]; [rewrite dec_one_is; lia|]. by exists p.
Qed.
Lemma total_computed w t : delegated w <= t < 2 ^ 200 → getTotalDelegatedTokens w = Ok (delegated w).
Proof.
  intros. pose proof (delegated_nonneg w). assert (Z.abs (delegated w) < 2 ^ 255) as Hb by lia.
  exact (int_add_total _ _ Hb).
Qed.
Lemma sum_computed a b : 0 <= a + b < 2 ^ 200 → DecAdd (NewDec a) (NewDec b) = Ok (NewDec (a + b)).
Proof.
  intros H. unfold NewDec. rewrite dec_add_total; [f_equal; lia|]. rewrite dec_one_is. lia.
Qed.
Lemma delegate_computed w v amount : 0 <= amount →
  in_range (GetTokens v + amount) (delegated w + amount) →
  ∃ p, CalculateDelegateProjectedVotingPower w v (NewDec amount) = Ok p.
Proof.
  intros Ha Hr. pose proof Hr as [H1 H2]. unfold CalculateDelegateProjectedVotingPower.
  rewrite (total_computed w (delegated w + amount)) by lia. simpl. rewrite !sum_computed by lia. simpl.
  destruct (quotient_total _ _ Hr) as (q & p & Hq & Hp). rewrite Hq. simpl. by exists p.
Qed.
Lemma redelegate_computed w v amount : in_range (GetTokens v + amount) (delegated w) →
  ∃ p, CalculateRedelegateProjectedVotingPower w v (NewDec amount) = Ok p.
Proof.
  intros Hr. pose proof Hr as [H1 H2]. unfold CalculateRedelegateProjectedVotingPower.
  rewrite (total_computed w (delegated w)) by lia. simpl. rewrite sum_computed by lia. simpl.
  destruct (quotient_total _ _ Hr) as (q & p & Hq & Hp). rewrite Hq. simpl. by exists p.
Qed.

Lemma validateMsg_complete w msg : amounts_ok msg → computable w msg → ¬ unacceptable w msg →
  validateMsg w msg = Ok tt.
Proof.
  unfold amounts_ok, validateMsg, unacceptable, computable.
  destruct msg as [url [[rate|[rate|]|addr amt|src dst amt]|]]; simpl; try done.
  - intros _ _ H. rewrite min_commission_is. destruct (Z.ltb_spec (100 * rate) (5 * dec_one)); [lia|done].
  - intros _ _ H. rewrite min_commission_is. destruct (Z.ltb_spec (100 * rate) (5 * dec_one)); [lia|done].
  - intros Ha (v & Hv & Hr) Hn. rewrite Hv. simpl. destruct (delegate_computed _ _ _ Ha Hr) as [p Hp].
    rewrite Hp. simpl. apply delegate_power in Hp as (_ & H1 & H2); [|done].
    eapply limit_sound; [exact H1|exact H2|]. intros H. apply Hn. by exists v.
  - intros Ha (v & Hv & Hr) Hn. rewrite Hv. simpl.
    destruct (redelegate_computed _ _ _ Hr) as [p Hp].
    assert ((if String.eqb src dst then ZeroDec else NewDec amt)
            = NewDec (if String.eqb src dst then 0 else amt)) as -> by (by destruct (String.eqb src dst)).
    rewrite Hp. simpl. apply redelegate_power in Hp as (_ & H1 & H2).
    eapply limit_sound; [exact H1|exact H2|]. intros H. apply Hn. by exists v.
Qed.

Lemma checks_read_only w msgs :
  forM (λ msg, w ← get; lift (validateMsg w msg)) msgs w
  = (foldR (λ _ msg, validateMsg w msg) tt msgs, w).
Proof.
  unfold forM. induction msgs as [|m l IH]; [done|]. cbn [foldM foldR].
  destruct (validateMsg w m) as [[]|e|] eqn:E.
  - rewrite (bind_run _ _ w tt w); [exact IH|]. by rewrite <- E.
  - unfold mbind, M_bind, get, lift. by rewrite E.
  - unfold mbind, M_bind, get, lift. by rewrite E.
Qed.
Lemma checks_all w msgs :
  foldR (λ _ msg, validateMsg w msg) tt msgs = Ok tt ↔ Forall (λ m, validateMsg w m = Ok tt) msgs.
Proof.
  induction msgs as [|m l IH]; [split; [constructor|done]|]. simpl. rewrite Forall_cons, <- IH.
  destruct (validateMsg w m) as [[]|e|]; simpl; (split; [intros E|intros [E ?]]; by try split).
Qed.

Lemma commission_branches next ctx tx simulate w :
  ValidateMinCommissionDecorator next ctx tx simulate w =
  match foldR (λ _ msg, validateMsg w msg) tt tx.(GetMsgs) with
  | Ok _ => next ctx tx simulate w
  | Err e => (Err e, w)
  | Panic => (Panic, w)
  end.
Proof.
  unfold ValidateMinCommissionDecorator. unfold mbind at 1, M_bind at 1. by rewrite checks_read_only.
Qed.
Lemma passed_acceptable w msgs : Forall amounts_ok msgs →
  foldR (λ _ msg, validateMsg w msg) tt msgs = Ok tt → Forall (acceptable w) msgs.
Proof.
  intros Ha Hc%checks_all. eapply Forall_impl; [apply Forall_and; split; [exact Ha|exact Hc]|].
  intros m [? ?]. by apply validateMsg_sound.
Qed.

(** C32: A transaction passes the check of validators only if every message in it keeps the
    limits, in exact integers: a new commission is at least 5%, and the validator delegated or
    redelegated to ends with less than 6.6% of all that is delegated.  It then passes unchanged to
    the rest of the chain; a transaction that fails the check changes nothing.  Conversely no
    transaction within the limits is refused, but for shares less than 10^-18 of the total below
    6.6%, as long as its validators exist and amounts are below 2^200. *)
Theorem min_commission_exact next ctx tx simulate w : Forall amounts_ok tx.(GetMsgs) →
  let run := ValidateMinCommissionDecorator next ctx tx simulate w in
  (∀ c w', run = (Ok c, w') → Forall (acceptable w) tx.(GetMsgs) ∧ next ctx tx simulate w = (Ok c, w')) ∧
  (¬ Forall (acceptable w) tx.(GetMsgs) → is_ok run.1 = false ∧ run.2 = w) ∧
  (Forall (λ m, computable w m ∧ ¬ unacceptable w m) tx.(GetMsgs) → run = next ctx tx simulate w).
Proof.
  intros Ha run. unfold run. rewrite commission_branches. split_and!.
  - intros c w'. destruct (foldR _ tt _) as [[]|e|] eqn:E; [|done|done]. intros H.
    split; [by apply passed_acceptable|done].
  - intros Hn. destruct (foldR _ tt _) as [[]|e|] eqn:E; [|done|done].
    destruct Hn. by apply passed_acceptable.
  - intros Hc. rewrite (proj2 (checks_all w tx.(GetMsgs))); [done|].
    eapply Forall_impl; [apply Forall_and; split; [exact Ha|exact Hc]|].
    intros m (? & ? & ?). by apply validateMsg_complete.
Qed.

(** ** The whole chain *)
Notation same_admin w w' := (store (S := AdminStore) w' = store (S := AdminStore) w).
Lemma adjust_lets_through : lets_through (W := W) (λ w w', same_admin w w') AdjustGasPriceDecorator.
Proof.
  intros next ctx tx simulate w c w'. unfold AdjustGasPriceDecorator.
  destruct (params_read w) as (p & Hp & _). rewrite (bind_run _ _ _ _ _ Hp).
  destruct (match tx.(GetMsgs) with [msg] => _ | _ => _ end).
  - intros H. apply bind_ok in H as (? & ? & [_ ->]%lift_ok & H).
    apply bind_ok in H as (? & ? & [_ ->]%throw_if_ok & H).
    apply bind_ok in H as (? & ? & [_ ->]%lift_ok & H). by repeat eexists.
  - intros H. apply bind_ok in H as (? & ? & [_ ->]%lift_ok & H).
    destruct (_ =? 0); [by repeat eexists|]. destruct (GetFee tx); [|done].
    apply bind_ok in H as (? & ? & [_ ->]%throw_if_ok & H).
    apply bind_ok in H as (? & ? & [_ ->]%throw_if_ok & H). by repeat eexists.
Qed.

(** What has been seen to hold at some point of a run that started in [w]. *)
Definition reaches (h : AnteHandler W) tx simulate w : Prop :=
  ∃ ctx w1 c w2, same_admin w w1 ∧ h ctx tx simulate w1 = (Ok c, w2).
Lemma reach_next d ds tx simulate w :
  lets_through (W := W) (λ w w', same_admin w w') d →
  reaches (ChainAnteDecorators (d :: ds)) tx simulate w →
  reaches (ChainAnteDecorators ds) tx simulate w.
Proof.
  intros Hd (ctx & w1 & c & w2 & E1 & H). rewrite chain_cons in H.
  apply Hd in H as (ctx' & w3 & c' & w4 & E3 & H). exists ctx', w3, c', w4. by rewrite E3.
Qed.

Lemma passed_paid next ctx tx simulate w c w' : Z.abs (fee_at w) < 2 ^ 255 →
  AdjustGasPriceDecorator next ctx tx simulate w = (Ok c, w') →
  single_dispensation tx = true ∨ pays (fee_at w) tx.
Proof.
  intros Hf. rewrite AdjustGasPrice_branches by done. unfold pays.
  destruct (single_dispensation tx); [by left|]. simpl. set (r := required_fee _ _). intros H. right.
  destruct (Z.eqb_spec r 0); [by left|right]. destruct (GetFee tx) as [fees|]; [|done].
  destruct (Z.leb_spec (fury_fee fees) 0); [done|]. destruct (Z.ltb_spec (fury_fee fees) r); [done|].
  by exists fees.
Qed.

(** C13: A transaction that passes the whole chain of checks has paid: it is a single message of
    x/dispensation, or its fee covers what its messages require under the parameters of x/admin;
    and every message of x/staking in it kept the limits when it was checked.  Without keepers of
    accounts or of signing modes there is no chain. *)
Theorem ante_guards options h ctx tx simulate w c w' : Z.abs (fee_at w) < 2 ^ 255 →
  Forall amounts_ok tx.(GetMsgs) →
  NewAnteHandler options = Ok h → h ctx tx simulate w = (Ok c, w') →
  is_Some options.(o_AccountKeeper) ∧ is_Some options.(o_SignModeHandler) ∧
  (single_dispensation tx = true ∨ pays (fee_at w) tx) ∧
  (∃ w1, same_admin w w1 ∧ Forall (acceptable w1) tx.(GetMsgs)).
Proof.
  intros Hf Ha Ho Hrun. unfold NewAnteHandler in Ho.
  destruct (o_AccountKeeper options) as [k|], (o_SignModeHandler options) as [m|]; try done.
  injection Ho as <-. split_and!; [done|done| |];
    destruct sdk_decorators_let_through as (D1 & D2 & D3 & D4 & D5 & D6 & D7 & D8);
    set (rest := ValidateMinCommissionDecorator :: _) in Hrun;
    (assert (reaches (ChainAnteDecorators (SetUpContextDecorator :: AdjustGasPriceDecorator ::
      RejectExtensionOptionsDecorator :: MempoolFeeDecorator :: ValidateBasicDecorator ::
      TxTimeoutHeightDecorator :: ValidateMemoDecorator k :: ConsumeGasForTxSizeDecorator k ::
      DeductFeeDecorator k :: rest)) tx simulate w) as R by (by exists ctx, w, c, w'));
    apply (reach_next _ _ _ _ _ D1) in R.
  - destruct R as (ctx1 & w1 & c1 & w2 & E & H). rewrite chain_cons in H.
    rewrite <- E. rewrite <- E in Hf. by eapply passed_paid.
  - apply (reach_next _ _ _ _ _ adjust_lets_through), (reach_next _ _ _ _ _ D2),
      (reach_next _ _ _ _ _ D3), (reach_next _ _ _ _ _ D4), (reach_next _ _ _ _ _ D5),
      (reach_next _ _ _ _ _ (D6 k)), (reach_next _ _ _ _ _ (D7 k)), (reach_next _ _ _ _ _ (D8 k)) in R.
    destruct R as (ctx1 & w1 & c1 & w2 & E & H). exists w1. split; [done|].
    unfold rest in H. rewrite chain_cons, commission_branches in H.
    destruct (foldR _ tt _) as [[]|e|] eqn:Ec; [|done|done]. by apply passed_acceptable.
Qed.
End spec.

(** ** On the concrete chain *)
Definition accept_all : AnteHandler World := λ ctx _ _, mret ctx.
(** What a proposal must pay is forgotten when another message follows it. *)
Example proposal_discount :
  required_fee (5000 * 10 ^ 18) [url_proposal] = 5000 * 10 ^ 18 ∧
  required_fee (5000 * 10 ^ 18) [url_proposal; url_send] = high_fee ∧
  required_fee (5000 * 10 ^ 18) [url_send; url_proposal] = 5000 * 10 ^ 18 ∧
  required_fee (5000 * 10 ^ 18) [url_transfer; url_vote] = transfer_fee ∧
  required_fee (5000 * 10 ^ 18) [url_vote] = 0.
Proof. vm_compute. done. Qed.

Definition swap_tx : Tx := mkTx [url_vote; url_swap] (fee_of (10 ^ 17)).
Lemma AdjustGasPrice_exact_witness :
  pays (proposal_fee admin_genesis) swap_tx ∧
  AdjustGasPriceDecorator accept_all (mkAnteCtx []) swap_tx false genesis
  = accept_all (mkAnteCtx []) swap_tx false genesis.
Proof.
  assert (pays (proposal_fee admin_genesis) swap_tx) as Hp.
  { right. exists [mkCoin "fury" (10 ^ 17)]. split_and!; vm_compute; done. }
  split; [exact Hp|].
  apply (AdjustGasPrice_exact accept_all (mkAnteCtx []) swap_tx false genesis);
    [vm_compute; done|vm_compute; done|exact Hp].
Defined.

Definition staking_tx : Tx := mkTx [create_validator (NewDecWithPrec 5 2); delegate_msg "%v1" 26] None.
Lemma min_commission_exact_witness :
  Forall (acceptable staked) staking_tx.(GetMsgs).
Proof.
  apply (min_commission_exact accept_all (mkAnteCtx []) staking_tx false staked) with
    (c := mkAnteCtx []) (w' := staked); [|vm_compute; reflexivity].
  repeat constructor; vm_compute; done.
Defined.

Definition some_options : HandlerOptions (W := World) := mkHandlerOptions (Some tt) (Some tt) None.
Definition checked_tx : Tx := mkTx (url_swap :: staking_tx.(GetMsgs)) (fee_of (10 ^ 17)).
Lemma ante_guards_witness :
  single_dispensation checked_tx = true ∨ pays (proposal_fee admin_genesis) checked_tx.
Proof.
  eapply (ante_guards some_options _ (mkAnteCtx []) checked_tx false staked (mkAnteCtx []) staked);
    [vm_compute; done|repeat constructor; vm_compute; done|reflexivity|vm_compute; reflexivity].
Defined.
