(* ===== verification/RelayerSpec.v ===== *)
(** * RelayerSpec: the relayer loses no block and changes no number

    What a lock or a burn on this chain and a log on Ethereum become on the other side, through
    the texts of events and the translation of symbols; that the blocks of both chains are read
    without gaps, in order, and once, also over restarts; and how messages already relayed are
    recognised. *)

From S2P Require Import Oracle BridgeWorld.
From S2P Require Import Prelude Sdk SdkRef Rat Bank Keepers ClpExec World Scenario OracleSpec.
From S2P Require Import EthBridge Relayer RelayerText RelayerSub RelayerWorld.
Local Open Scope Z_scope.

Section spec.
Context {sdk : Sdk} {HL : SdkLaws sdk} {coins : CoinLib} {vals : ValAddressLib} {eth : EthLib}
  {bimap : BiMapLib} {order : ClpKeeper.GoRange} {outside : Outside} {errs : SdkErrors}
  {CL : CoinLaws coins} {BL : BiMapLaws bimap} {RL : RelayerLaws sdk eth}
  {OL : ClpKeeper.GoRangeLaws order}.
Implicit Type t : SymbolTranslator.

(** ** From events of this chain *)
Lemma lock_fields msg : MsgLock_ValidateBasic msg = Ok tt →
  IsHexAddress msg.(lk_EthereumReceiver) = true ∧ 0 < msg.(lk_Amount).
Proof.
  unfold MsgLock_ValidateBasic. destruct (String.eqb (pretty _) ""), (String.eqb (lk_CosmosSender msg) ""),
    (String.eqb (lk_EthereumReceiver msg) ""); try done.
  destruct (IsHexAddress _); [simpl|done]. destruct (Z.leb_spec (lk_Amount msg) 0); done.
Qed.
Lemma burn_fields msg : MsgBurn_ValidateBasic msg = Ok tt →
  IsHexAddress msg.(bn_EthereumReceiver) = true ∧ 0 < msg.(bn_Amount) ∧
  ∃ symbol, msg.(bn_Symbol) = String "c" symbol.
Proof.
  unfold MsgBurn_ValidateBasic. destruct (_ =? 0), (String.eqb (bn_CosmosSender msg) ""),
    (String.eqb (bn_EthereumReceiver msg) ""); try done.
  destruct (IsHexAddress _); [simpl|done]. destruct (Z.leb_spec (bn_Amount msg) 0); [done|].
  destruct (bn_Symbol msg) as [|c symbol]; [done|]. destruct (_ <=? _)%nat; [done|].
  cbn [String.substring String.length]. intros Hc. split_and!; [done|done|]. exists symbol.
  assert (String.substring 0 0 symbol = "") as E by (by destruct symbol). rewrite E in Hc.
  destruct (String.eqb_spec (String c "") PeggedCoinPrefix) as [[= ->]|]; done.
Qed.

(** C34: What x/ethbridge emits with an accepted lock or burn is read by the relayer as the message
    it was: the same sender, sequence number, receiver and amount.  The symbol of a lock is
    translated; that of a burn loses the prefix of pegged coins, its first byte. *)
Theorem lock_and_burn_read t (sequence : N) :
  (∀ msg symbol, MsgLock_ValidateBasic msg = Ok tt → msg.(lk_Amount) < 2 ^ 255 →
     OffsideswapToEthereum t msg.(lk_Symbol) = Ok symbol →
     getOracleClaimType (lock_event msg sequence).(ev_Type) = Event_MsgLock ∧
     BurnLockEventToCosmosMsg Event_MsgLock (lock_event msg sequence).(ev_Attributes) t
     = Ok (mkCosmosMsg msg.(lk_CosmosSender) (Some (Z.of_N sequence)) symbol
             (Some msg.(lk_Amount)) (HexToAddress msg.(lk_EthereumReceiver)) Event_MsgLock)) ∧
  (∀ msg, MsgBurn_ValidateBasic msg = Ok tt → msg.(bn_Amount) < 2 ^ 255 →
     getOracleClaimType (burn_event msg sequence).(ev_Type) = Event_MsgBurn ∧
     ∃ symbol, msg.(bn_Symbol) = PeggedCoinPrefix +:+ symbol ∧
     BurnLockEventToCosmosMsg Event_MsgBurn (burn_event msg sequence).(ev_Attributes) t
     = Ok (mkCosmosMsg msg.(bn_CosmosSender) (Some (Z.of_N sequence)) symbol
             (Some msg.(bn_Amount)) (HexToAddress msg.(bn_EthereumReceiver)) Event_MsgBurn)).
Proof.
  split.
  - intros msg symbol Hv Ha Ht. split; [done|]. apply lock_fields in Hv as [Hhex Hp].
    unfold BurnLockEventToCosmosMsg, collect. simpl. rewrite SetString_pretty. simpl.
    rewrite Hhex. simpl. rewrite int_int_parse by lia. simpl. by rewrite Ht.
  - intros msg Hv Ha. split; [done|]. apply burn_fields in Hv as (Hhex & Hp & symbol & Hs).
    exists symbol. split; [done|]. unfold BurnLockEventToCosmosMsg, collect. simpl.
    rewrite SetString_pretty. simpl. rewrite Hhex. simpl. rewrite int_int_parse by lia. simpl.
    by rewrite Hs, burned_pegged.
Qed.

(** ** Running the relayer *)
(** A run that ends, with what it did; it leaves the database alone. *)
Definition does {A} (m : R A) (P : A → list Action → Prop) : Prop := ∀ s, ∃ a s' acts,
  m s = (Ok a, s') ∧ s'.(rs_done) = s.(rs_done) ++ acts ∧
  s'.(rs_CosmosDB) = s.(rs_CosmosDB) ∧ s'.(rs_EthereumDB) = s.(rs_EthereumDB) ∧ P a acts.
Lemma does_ret {A} (a : A) (P : A → list Action → Prop) : P a [] → does (mret a) P.
Proof. intros H s. exists a, s, []. by rewrite app_nil_r. Qed.
Lemma does_call {A} (f : nat → A) (P : A → list Action → Prop) : (∀ n, P (f n) []) → does (call f) P.
Proof. intros H s. do 3 eexists. split; [done|]. simpl. by rewrite app_nil_r. Qed.
Lemma does_bind {A B} (m : R A) (k : A → R B) P (Q : B → list Action → Prop) : does m P →
  (∀ a acts, P a acts → does (k a) (λ b acts', Q b (acts ++ acts'))) → does (m ≫= k) Q.
Proof.
  intros Hm Hk s. destruct (Hm s) as (a & s1 & acts1 & E1 & D1 & C1 & X1 & HP).
  destruct (Hk a acts1 HP s1) as (b & s2 & acts2 & E2 & D2 & C2 & X2 & HQ).
  exists b, s2, (acts1 ++ acts2). rewrite (bind_run _ _ _ _ _ E1), E2, D2, D1, app_assoc, C2, X2.
  done.
Qed.
Lemma does_weaken {A} (m : R A) (P Q : A → list Action → Prop) : does m P →
  (∀ a acts, P a acts → Q a acts) → does m Q.
Proof. intros Hm H s. destruct (Hm s) as (a & s' & acts & ? & ? & ? & ? & ?). exists a, s', acts. split_and!; auto. Qed.

(** Everything the relayer needs to send a message answers. *)
Definition outside_up : Prop :=
  (∀ n, InitRelayConfig n = true) ∧ (∀ n, NewCosmosBridge n = true) ∧
  (∀ n m, NewProphecyClaim_tx n m = true) ∧ (∀ n, TransactionReceipt n = true).

Lemma does_await k : does (await_receipt k) (λ r acts, acts = [] ∧ (outside_up → 0 < k → r = true)%nat).
Proof.
  induction k as [|k IH]; simpl; [apply does_ret; split; [done|lia]|].
  apply (does_bind _ _ (λ ok acts, acts = [] ∧ (outside_up → ok = true))).
  { apply does_call. intros n. split; [done|]. by intros (_ & _ & _ & H). }
  intros ok acts [-> Hok]. destruct ok; [by apply does_ret|]. simpl.
  eapply does_weaken; [exact IH|]. intros r acts [-> _]. split; [done|]. intros Hu _. by apply Hok in Hu.
Qed.
Lemma does_relay_try m : does (try (RelayProphecyClaimToEthereum m)) (λ r acts,
  (acts = [] ∨ acts = [Relayed m]) ∧ (outside_up → r = inr tt) ∧ (r = inr tt → acts = [Relayed m])).
Proof.
  intros s. unfold try, RelayProphecyClaimToEthereum. rewrite (bind_run (call _) _ s _ _ eq_refl).
  destruct (NewProphecyClaim_tx _ m) eqn:E; cbn [negb].
  - rewrite (bind_run (act _) _ _ tt _ eq_refl).
    destruct (does_await 60 (s <| rs_calls ::= S |> <| rs_done ::= λ l, l ++ [Relayed m] |>))
      as (r & s' & acts & Er & D & C & X & -> & Hr).
    rewrite (bind_run _ _ _ _ _ Er). rewrite app_nil_r in D.
    destruct r; simpl; do 3 eexists; (split; [done|]); rewrite D; split_and!; try done; try (by right).
    intros Hu. by specialize (Hr Hu ltac:(lia)).
  - do 3 eexists. split; [done|]. simpl. rewrite app_nil_r. split_and!; try done; [by left|].
    intros (_ & _ & H & _). by rewrite H in E.
Qed.
Lemma does_attempts m k : does (relay_attempts k m) (λ _ acts,
  (∃ j, (j <= k)%nat ∧ acts = replicate j (Relayed m)) ∧ (outside_up → (0 < k)%nat → acts = [Relayed m])).
Proof.
  induction k as [|k IH]; simpl; [apply does_ret; split; [by exists O|lia]|].
  eapply does_bind; [apply does_relay_try|]. intros r acts (Ha & Hu & Hr). destruct r as [e|[]].
  - eapply does_weaken; [exact IH|]. intros _ acts' [(j & Hj & ->) _]. split.
    + destruct Ha as [->| ->]; [exists j; by split; [lia|]|exists (S j); by split; [lia|]].
    + by intros ?%Hu.
  - apply does_ret. rewrite app_nil_r, (Hr eq_refl). split; [|done]. exists 1%nat. split; [lia|done].
Qed.
Lemma does_init k : does (tryInitRelayConfig k) (λ r acts, acts = [] ∧ (outside_up → 0 < k → r = true)%nat).
Proof.
  induction k as [|k IH]; simpl; [apply does_ret; split; [done|lia]|].
  apply (does_bind _ _ (λ ok acts, acts = [] ∧ (outside_up → ok = true))).
  { apply does_call. intros n. split; [done|]. by intros (H & _). }
  intros ok acts [-> Hok]. destruct ok; [by apply does_ret|]. simpl.
  eapply does_weaken; [exact IH|]. intros r acts [-> _]. split; [done|]. intros Hu _. by apply Hok in Hu.
Qed.
(** A message is sent at most five times, and exactly once when the outside answers. *)
Definition sent (m : CosmosMsg) (acts : list Action) : Prop :=
  (∃ j, (j <= 5)%nat ∧ acts = replicate j (Relayed m)) ∧ (outside_up → acts = [Relayed m]).
Lemma does_handle m : does (handleBurnLockMsg m) (λ _, sent m).
Proof.
  unfold handleBurnLockMsg. eapply does_bind; [apply does_init|]. intros ready acts [-> Hr].
  destruct ready; cbn [negb app].
  - apply (does_bind _ _ (λ ok acts, acts = [] ∧ (outside_up → ok = true))).
    { apply does_call. intros n. split; [done|]. by intros (_ & H & _). }
    intros ok acts [-> Hok]. destruct ok; cbn [negb app].
    + eapply does_weaken; [apply does_attempts|]. intros _ acts [H1 H2]. split; [done|].
      intros Hu. apply H2; [done|lia].
    + apply does_ret. split; [by exists O; split; [lia|]|]. by intros ?%Hok.
  - apply does_ret. split; [by exists O; split; [lia|]|]. intros Hu. by specialize (Hr Hu ltac:(lia)).
Qed.

(** ** The blocks of this chain *)
Definition translates t : Prop := ∀ d, ∃ s, OffsideswapToEthereum t d = Ok s.
Lemma collect_returns t ct c a : translates t → collect ct t c a ≠ Panic.
Proof.
  intros Ht. unfold collect, burned_symbol. destruct (Ht (a_Value a)) as [s Hs].
  repeat case_match; try done; simplify_eq/=; by rewrite ?Hs.
Qed.
Lemma read_returns t ct attributes : translates t → BurnLockEventToCosmosMsg ct attributes t ≠ Panic.
Proof.
  intros Ht. unfold BurnLockEventToCosmosMsg. generalize (mkCollected "" None no_address "" None 0).
  induction attributes as [|a l IH]; intros c; simpl; [by destruct (_ <? 5)|].
  pose proof (collect_returns t ct c a Ht). destruct (collect ct t c a); simpl; [apply IH|done|done].
Qed.
(** The locks and burns among the events of a block. *)
Definition message_of t (event : AbciEvent) : option CosmosMsg :=
  let claimType := getOracleClaimType event.(ev_Type) in
  if decide (claimType = Unsupported) then None
  else match BurnLockEventToCosmosMsg claimType event.(ev_Attributes) t with
       | Ok m => Some m | _ => None
       end.
Definition messages_of t (txs : list (list AbciEvent)) : list CosmosMsg :=
  omap (message_of t) (concat txs).
Inductive sends : list CosmosMsg → list Action → Prop :=
| sends_nil : sends [] []
| sends_cons m ms a acts : sent m a → sends ms acts → sends (m :: ms) (a ++ acts).
Lemma sends_app ms1 ms2 a1 a2 : sends ms1 a1 → sends ms2 a2 → sends (ms1 ++ ms2) (a1 ++ a2).
Proof. intros H1 H2. induction H1; simpl; [done|]. rewrite <- app_assoc. by constructor. Qed.

Lemma sends_one m acts : sent m acts → sends [m] acts.
Proof. intros H. rewrite <- (app_nil_r acts). by apply sends_cons; [|apply sends_nil]. Qed.
Lemma does_read t ct attributes : translates t →
  does (match BurnLockEventToCosmosMsg ct attributes t with
        | Ok cosmosMsg => handleBurnLockMsg cosmosMsg | Err _ => mret tt | Panic => panic
        end)
    (λ _, sends (option_list (match BurnLockEventToCosmosMsg ct attributes t with
                              | Ok m => Some m | _ => None end))).
Proof.
  intros Ht. generalize (read_returns t ct attributes Ht).
  generalize (BurnLockEventToCosmosMsg ct attributes t).
  intros [m|e|] H; [|apply does_ret, sends_nil|done].
  eapply does_weaken; [apply does_handle|]. intros ? acts; apply sends_one.
Qed.
Lemma does_event t event : translates t →
  does (with_burn_lock t handleBurnLockMsg event) (λ _, sends (option_list (message_of t event))).
Proof.
  intros Ht. unfold with_burn_lock, message_of, getOracleClaimType.
  destruct (String.eqb _ (Event_String Event_MsgBurn)); [by apply does_read|].
  destruct (String.eqb _ (Event_String Event_MsgLock)); [by apply does_read|].
  apply does_ret, sends_nil.
Qed.
Lemma does_forM {A} (f : A → R unit) (g : A → list CosmosMsg) l :
  (∀ x, does (f x) (λ _, sends (g x))) → does (forM f l) (λ _, sends (concat (g <$> l))).
Proof.
  intros Hf. unfold forM. induction l as [|x l IH]; simpl; [apply does_ret; constructor|].
  eapply does_bind; [apply Hf|]. intros [] acts H. eapply does_weaken; [exact IH|].
  intros ? acts' H'. by apply sends_app.
Qed.
Lemma omap_option_list {A B} (f : A → option B) l : omap f l = concat ((λ x, option_list (f x)) <$> l).
Proof. induction l as [|x l IH]; csimpl; [done|]. by destruct (f x); csimpl; rewrite <- IH. Qed.
Lemma does_block t txs : translates t → does (relay_block t txs) (λ _, sends (messages_of t txs)).
Proof.
  intros Ht. unfold relay_block, messages_of. eapply does_weaken.
  - apply (does_forM _ (omap (message_of t))). intros evs. eapply does_weaken.
    + apply does_forM. intros ev. by apply does_event.
    + intros ? acts. by rewrite omap_option_list.
  - intros ? acts. assert (concat (omap (message_of t) <$> txs) = omap (message_of t) (concat txs)) as ->; [|done].
    induction txs as [|x l IH]; [done|]. cbn [concat fmap list_fmap]. by rewrite omap_app, <- IH.
Qed.

(** What is done for some blocks, one after the other: the messages of each, then its number is
    saved. *)
Inductive blocks_done t (blk : Z → list (list AbciEvent)) : list Z → list Action → Prop :=
| done_nil : blocks_done t blk [] []
| done_cons b bs acts rest : sends (messages_of t (blk b)) acts → blocks_done t blk bs rest →
    blocks_done t blk (b :: bs) (acts ++ SavedCosmos b :: rest).
Lemma blocks_done_app t blk bs1 bs2 a1 a2 : blocks_done t blk bs1 a1 → blocks_done t blk bs2 a2 →
  blocks_done t blk (bs1 ++ bs2) (a1 ++ a2).
Proof.
  intros H1 H2. induction H1; [done|]. rewrite <- app_assoc. cbn [app]. by constructor.
Qed.
(** The node has the blocks up to [top], and gives each within [D] more tries. *)
Definition served (blk : Z → list (list AbciEvent)) (D : nat) (top : Z) : Prop :=
  (∀ n b txs, BlockResults n b = Some txs → txs = blk b) ∧
  (∀ n b, b <= top → ∃ k, (k <= D)%nat ∧ BlockResults (n + k) b = Some (blk b)).

Lemma does_put b : 0 <= b → ∀ s, ∃ s', put_cosmos b s = (Ok tt, s') ∧
  s'.(rs_done) = s.(rs_done) ++ [SavedCosmos b] ∧ s'.(rs_CosmosDB) = Some b.
Proof. intros Hb s. eexists. split; [done|]. simpl. by rewrite Z.abs_eq. Qed.

(** The run over the blocks from [b] to the height [h]. *)
Definition ran_blocks t blk (m : R (option Z)) (b h : Z) (s : RelayerState) : Prop := ∃ s' acts,
  m s = (Ok (Some h), s') ∧ s'.(rs_done) = s.(rs_done) ++ acts ∧
  blocks_done t blk (seqZ b (h + 1 - b)) acts ∧ s'.(rs_CosmosDB) = Some h.
Lemma ran_block t blk k b h s : translates t → 0 <= b <= h →
  (∀ s1, s1.(rs_CosmosDB) = Some b → (b = h ∧ k s1 = (Ok (Some h), s1)) ∨ ran_blocks t blk (k) (b + 1) h s1) →
  ran_blocks t blk (_ ← relay_block t (blk b); _ ← put_cosmos b; k) b h s.
Proof.
  intros Ht Hb Hk. destruct (does_block t (blk b) Ht s) as ([] & s1 & a1 & E1 & D1 & C1 & X1 & H1).
  destruct (does_put b ltac:(lia) s1) as (s2 & E2 & D2 & C2). unfold ran_blocks.
  rewrite (bind_run _ _ _ _ _ E1), (bind_run _ _ _ _ _ E2).
  destruct (Hk s2 C2) as [[-> E3]|(s3 & a3 & E3 & D3 & H3 & C3)].
  - exists s2, (a1 ++ [SavedCosmos h]). rewrite E3, D2, D1, app_assoc. split_and!; [done..| |done].
    replace (h + 1 - h) with 1 by lia. by repeat constructor.
  - exists s3, (a1 ++ SavedCosmos b :: a3). rewrite E3, D3, D2, D1, <- !app_assoc.
    split_and!; [done..| |done]. rewrite seqZ_cons by lia. constructor; [done|].
    by replace (Z.pred (h + 1 - b)) with (h + 1 - (b + 1)) by lia.
Qed.
Lemma relay_blocks_end t fuel last b h s : h < b →
  relay_blocks t (S fuel) last b h s = (Ok (Some last), s).
Proof. intros H. simpl. by rewrite (proj2 (Z.ltb_lt _ _) H). Qed.
Lemma relay_blocks_ok t blk D h : translates t → served blk D h → h < 2 ^ 63 - 1 →
  ∀ fuel k s last b, 0 <= b <= h → BlockResults (s.(rs_calls) + k) b = Some (blk b) →
  (k + 2 + (D + 1) * Z.to_nat (h - b) <= fuel)%nat →
  ran_blocks t blk (relay_blocks t fuel last b h) b h s.
Proof.
  intros Ht [Hblk Htry] Hh fuel. induction fuel as [|fuel IH]; intros k s last b Hb Hk Hf; [lia|].
  simpl. rewrite (proj2 (Z.ltb_ge h b)) by lia. unfold ran_blocks.
  rewrite (bind_run (call _) _ s _ _ eq_refl). destruct (BlockResults (rs_calls s) b) as [txs|] eqn:E.
  - rewrite (Hblk _ _ _ E). refine (ran_block _ _ _ _ _ _ Ht Hb _). intros s1 C1.
    rewrite int64_id by lia. destruct (decide (b = h)) as [->|Hn].
    + left. split; [done|]. destruct fuel; [lia|]. apply relay_blocks_end. lia.
    + right. destruct (Htry s1.(rs_calls) (b + 1) ltac:(lia)) as (k' & Hk' & E').
      apply (IH k'); [lia|done|]. replace (h - (b + 1)) with (h - b - 1) by lia.
      replace (Z.to_nat (h - b)) with (S (Z.to_nat (h - b - 1))) in Hf by lia. lia.
  - destruct k as [|k]; [rewrite Nat.add_0_r in Hk; congruence|].
    destruct (IH k (s <| rs_calls ::= S |>) last b Hb) as (s' & acts & E1 & D1 & H1).
    + simpl. by rewrite <- plus_n_Sm in Hk.
    + lia.
    + by exists s', acts.
Qed.
(** The run leaves the blocks after [first] and up to [top] done, and remembers [top]. *)
Definition relayed t blk (m : R (option Z)) (first top : Z) (s : RelayerState) : Prop :=
  ∃ s' acts, m s = (Ok (Some top), s') ∧ s'.(rs_done) = s.(rs_done) ++ acts ∧
  blocks_done t blk (seqZ (first + 1) (top - first)) acts ∧
  s'.(rs_CosmosDB) = if decide (top = first) then s.(rs_CosmosDB) else Some top.
Lemma served_below blk D h top : served blk D top → h <= top → served blk D h.
Proof. intros [H1 H2] Hh. split; [done|]. intros n b Hb. apply H2. lia. Qed.
Lemma relayed_none t blk m first s : m s = (Ok (Some first), s) → relayed t blk m first first s.
Proof.
  intros E. exists s, []. rewrite E, app_nil_r, Z.sub_diag. split_and!; [done..|constructor|].
  by rewrite decide_True.
Qed.
Lemma relayed_bind t blk m k first mid top s : first <= mid <= top → relayed t blk m first mid s →
  (∀ s1, relayed t blk (k (Some mid)) mid top s1) → relayed t blk (m ≫= k) first top s.
Proof.
  intros Hle (s1 & a1 & E1 & D1 & B1 & C1) Hk. destruct (Hk s1) as (s2 & a2 & E2 & D2 & B2 & C2).
  exists s2, (a1 ++ a2). rewrite (bind_run _ _ _ _ _ E1), E2, D2, D1, app_assoc.
  split_and!; [done..| |].
  - replace (top - first) with ((mid - first) + (top - mid)) by lia. rewrite seqZ_app by lia.
    replace (first + 1 + (mid - first)) with (mid + 1) by lia. by apply blocks_done_app.
  - rewrite C2, C1. repeat case_decide; congruence || lia.
Qed.
Definition enough (D : nat) (first top : Z) : nat := D + 2 + (D + 1) * Z.to_nat (top - first).
Lemma enough_mono D f f' a a' : f <= f' → a' <= a → (enough D f' a' <= enough D f a)%nat.
Proof. unfold enough. nia. Qed.
Lemma new_block_ok t blk D fuel last h s : translates t → served blk D h →
  0 < last → 0 < h < 2 ^ 63 - 1 → last < 2 ^ 63 - 1 → (enough D last (Z.max last h) <= fuel)%nat →
  relayed t blk (new_block t fuel last h) last (Z.max last h) s.
Proof.
  intros Ht Hs Hl Hh Hl' Hf. unfold new_block, enough in *. rewrite (proj2 (Z.eqb_neq last 0)) by lia.
  rewrite int64_id by lia. destruct (decide (h <= last)).
  - rewrite Z.max_l by lia. apply relayed_none. destruct fuel; [lia|]. apply relay_blocks_end. lia.
  - rewrite Z.max_r in * by lia. destruct (proj2 Hs s.(rs_calls) (last + 1) ltac:(lia)) as (k & Hk & E).
    destruct (relay_blocks_ok t blk D h Ht Hs ltac:(lia) fuel k s last (last + 1) ltac:(lia) E)
      as (s' & acts & E1 & D1 & B1 & C1).
    + replace (Z.to_nat (h - last)) with (S (Z.to_nat (h - (last + 1)))) in Hf by lia. lia.
    + exists s', acts. rewrite C1, decide_False by lia.
      by replace (h + 1 - (last + 1)) with (h - last) in B1 by lia.
Qed.
Lemma max_mono l a : a <= foldl Z.max a l.
Proof. revert a. induction l as [|x l IH]; intros a; [done|]. cbn [foldl]. etrans; [apply Z.le_max_l|apply IH]. Qed.
Lemma cosmos_loop_ok t blk D fuel heads : translates t → ∀ last s, 0 < last < 2 ^ 63 - 1 →
  Forall (λ h, 0 < h < 2 ^ 63 - 1) heads → served blk D (foldl Z.max last heads) →
  (enough D last (foldl Z.max last heads) <= fuel)%nat →
  relayed t blk (cosmos_loop t fuel last heads) last (foldl Z.max last heads) s.
Proof.
  intros Ht. induction heads as [|h heads IH]; intros last s Hl Hh Hs Hf; cbn [foldl] in *.
  - by apply relayed_none.
  - inversion_clear Hh as [|? ? Hh1 Hhs]. pose proof (max_mono heads (Z.max last h)) as Hm.
    apply (relayed_bind _ _ _ _ _ (Z.max last h)); [lia| |].
    + apply (new_block_ok _ _ D); [done|eapply served_below; [exact Hs|lia]|lia..|].
      etrans; [apply enough_mono|exact Hf]; lia.
    + intros s1. apply IH; [lia|done..|]. etrans; [apply enough_mono|exact Hf]; lia.
Qed.
(** Where a run begins: at the block that is remembered, or else the first one announced. *)
Definition first_block (s : RelayerState) (heads : list Z) : Z :=
  if last_cosmos_block s =? 0 then hd 0 heads else last_cosmos_block s.
Definition last_block (s : RelayerState) (heads : list Z) : Z :=
  foldl Z.max (first_block s heads) heads.
Lemma CosmosSub_Start_ok t blk D fuel heads s : translates t →
  0 <= last_cosmos_block s < 2 ^ 63 - 1 → heads ≠ [] → Forall (λ h, 0 < h < 2 ^ 63 - 1) heads →
  served blk D (last_block s heads) →
  (enough D (first_block s heads) (last_block s heads) <= fuel)%nat →
  relayed t blk (CosmosSub_Start t fuel heads) (first_block s heads) (last_block s heads) s.
Proof.
  unfold last_block, first_block. intros Ht Hl Hn Hh Hs Hf.
  assert (∀ l, relayed t blk (cosmos_loop t fuel (last_cosmos_block s) heads) l
    (foldl Z.max l heads) s → relayed t blk (CosmosSub_Start t fuel heads) l (foldl Z.max l heads) s)
    as Hstep by done. apply Hstep; clear Hstep.
  destruct (Z.eqb_spec (last_cosmos_block s) 0) as [E|E]; [|apply (cosmos_loop_ok _ _ D); auto; lia].
  rewrite E. destruct heads as [|h heads]; [done|]. simpl in *. inversion_clear Hh as [|? ? Hh1 Hhs].
  rewrite Z.max_id in *. pose proof (max_mono heads h). apply (relayed_bind _ _ _ _ _ h); [lia| |].
  - apply relayed_none. unfold new_block. simpl. destruct fuel; [unfold enough in *; lia|].
    apply relay_blocks_end. rewrite int64_id; lia.
  - intros s1. apply (cosmos_loop_ok _ _ D); auto.
Qed.

(** What was sent to Ethereum, and the last block written to the database. *)
Definition relayed_of (acts : list Action) : list CosmosMsg :=
  omap (λ a, match a with Relayed m => Some m | _ => None end) acts.
Definition saved_of (acts : list Action) : list Z :=
  omap (λ a, match a with SavedCosmos b => Some b | _ => None end) acts.
Definition saved (acts : list Action) : option Z := last (saved_of acts).

Lemma sends_up ms acts : outside_up → sends ms acts → relayed_of acts = ms.
Proof.
  intros Hu H. induction H as [|m ms a acts [_ Hm] _ IH]; [done|].
  unfold relayed_of in *. by rewrite omap_app, IH, Hm.
Qed.
Lemma blocks_up t blk bs acts : outside_up → blocks_done t blk bs acts →
  relayed_of acts = concat (messages_of t <$> (blk <$> bs)).
Proof.
  intros Hu H. induction H as [|b bs a rest Ha _ IH]; [done|].
  apply (sends_up _ _ Hu) in Ha. unfold relayed_of in *. rewrite omap_app, Ha. csimpl. by f_equal.
Qed.
(** C17: The relayer of locks and burns, started on any database, works through every block after
    the one remembered (or else the first announced) up to the highest announced: block by block,
    in order, it tries each lock and burn at most five times, in their order, and saves the block
    afterwards, also when all five tries at a message failed, so that this message is then lost.
    The loops end however often the node fails to give a block, as long as it gives it within a
    bounded number of tries ([served]), which bounds their steps.  Only if everything on the side
    of Ethereum answers throughout ([outside_up]) is what is sent exactly the messages of these
    blocks, each once. *)
Theorem CosmosSub_Start_relays t blk D fuel heads s : translates t →
  0 <= last_cosmos_block s < 2 ^ 63 - 1 → heads ≠ [] → Forall (λ h, 0 < h < 2 ^ 63 - 1) heads →
  served blk D (last_block s heads) →
  let first := first_block s heads in let top := last_block s heads in
  (D + 2 + (D + 1) * Z.to_nat (top - first) <= fuel)%nat →
  ∃ s' acts, CosmosSub_Start t fuel heads s = (Ok (Some top), s') ∧
  s'.(rs_done) = s.(rs_done) ++ acts ∧
  blocks_done t blk (seqZ (first + 1) (top - first)) acts ∧
  s'.(rs_CosmosDB) = (if decide (top = first) then s.(rs_CosmosDB) else Some top) ∧
  (outside_up → relayed_of acts = concat (messages_of t <$> (blk <$> seqZ (first + 1) (top - first)))).
Proof.
  intros Ht Hl Hn Hh Hs first top Hf.
  destruct (CosmosSub_Start_ok t blk D fuel heads s Ht Hl Hn Hh Hs Hf) as (s' & acts & E & Hd & B & C).
  exists s', acts. split_and!; [done..|]. intros Hu. by apply blocks_up.
Qed.

(** ** Restarts *)
Lemma sends_unsaved ms acts : sends ms acts → saved_of acts = [].
Proof.
  intros H. induction H as [|m ms a acts [(j & _ & ->) _] _ IH]; [done|].
  unfold saved_of in *. rewrite omap_app, IH, app_nil_r. by induction j.
Qed.
Lemma prefix_at {A} (x : A) a rest p : p `prefix_of` a ++ x :: rest →
  p `prefix_of` a ∨ ∃ p', p = a ++ x :: p' ∧ p' `prefix_of` rest.
Proof.
  revert p. induction a as [|y a IH]; intros [|z p] Hp; try (left; apply prefix_nil).
  - right. apply prefix_cons_inv_1 in Hp as Hz. apply prefix_cons_inv_2 in Hp. subst. by exists p.
  - cbn [app] in Hp. apply prefix_cons_inv_1 in Hp as Hz. apply prefix_cons_inv_2 in Hp. subst.
    destruct (IH p Hp) as [H|(p' & -> & H)]; [left; by apply prefix_cons|right; by exists p'].
Qed.
Lemma saved_prefix p a : p `prefix_of` a → saved_of a = [] → saved_of p = [].
Proof. intros [r ->]. unfold saved_of. rewrite omap_app. by intros [H _]%app_nil. Qed.
(** What is done of some blocks when the program is stopped: some of them, then sends only. *)
Lemma blocks_stopped t blk bs acts : blocks_done t blk bs acts → ∀ p, p `prefix_of` acts →
  ∃ bs1 bs2 q r, bs = bs1 ++ bs2 ∧ p = q ++ r ∧ blocks_done t blk bs1 q ∧ saved_of r = [] ∧
  saved_of q = bs1.
Proof.
  intros H. induction H as [|b bs a rest Ha _ IH]; intros p Hp.
  - apply prefix_nil_inv in Hp as ->. exists [], [], [], []. split_and!; try done. constructor.
  - apply sends_unsaved in Ha as Hn. apply prefix_at in Hp as [Hp|(p' & -> & Hp)].
    + exists [], (b :: bs), [], p. split_and!; try done; [constructor|by eapply saved_prefix].
    + destruct (IH p' Hp) as (bs1 & bs2 & q & r & -> & -> & Hq & Hr & Hs).
      exists (b :: bs1), bs2, (a ++ SavedCosmos b :: q), r. rewrite <- app_assoc.
      split_and!; try done; [by constructor|]. unfold saved_of in *. rewrite omap_app, Hn. csimpl. by rewrite Hs.
Qed.
Lemma seqZ_prefix l1 : ∀ a n l2, seqZ a n = l1 ++ l2 → l1 = seqZ a (Z.of_nat (length l1)).
Proof.
  induction l1 as [|x l1 IH]; intros a n l2 H; [done|].
  destruct (decide (n <= 0)); [by rewrite seqZ_nil in H|]. rewrite seqZ_cons in H by lia.
  injection H as <- H. cbn [length]. rewrite (seqZ_cons a) by lia. f_equal.
  replace (Z.pred (Z.of_nat (S (length l1)))) with (Z.of_nat (length l1)) by lia. by eapply IH.
Qed.
Lemma last_seqZ a l : l = seqZ a (Z.of_nat (length l)) →
  last l = if decide (l = []) then None else Some (a + Z.of_nat (length l) - 1).
Proof.
  destruct l as [|x l] using rev_ind; [done|]. rewrite length_app, Nat.add_1_r, seqZ_S, last_snoc.
  intros [_ [= ->]]%app_inj_tail. rewrite decide_False by (by destruct l). f_equal. lia.
Qed.
Lemma max_below l a m : a < m → Forall (λ h, 0 < h < m) l → foldl Z.max a l < m.
Proof. intros Ha H. revert a Ha. induction H as [|x l Hx _ IH]; intros a Ha; [done|]. apply IH. lia. Qed.
(** A database with a block in it: the next run begins there. *)
Lemma first_block_saved s heads b : s.(rs_CosmosDB) = Some b → 0 < b < 2 ^ 63 →
  last_cosmos_block s = b ∧ first_block s heads = b.
Proof.
  intros E Hb. assert (last_cosmos_block s = b) as El.
  { unfold last_cosmos_block. rewrite E. apply int64_id. lia. }
  split; [done|]. unfold first_block. by rewrite El, (proj2 (Z.eqb_neq b 0)) by lia.
Qed.
(** C33: Stopping the relayer at any moment and starting it again, with what is then in the database
    and other heights announced, loses no block, provided that the database remembered a block
    when the first run began: what was done up to the last block saved, followed by what the
    second run does, is every block in order from where the first run began; what the first run
    sent of a block it did not save is sent again.  (With an empty database a run begins at the
    first height announced to it, so one that is stopped before its first save leaves nothing
    behind, and the next begins at a later height.) *)
Theorem restart_loses_nothing t blk D fuel heads s s' acts p heads2 fuel2 s2 : translates t →
  0 < last_cosmos_block s < 2 ^ 63 - 1 → heads ≠ [] → Forall (λ h, 0 < h < 2 ^ 63 - 1) heads →
  served blk D (last_block s heads) →
  (D + 2 + (D + 1) * Z.to_nat (last_block s heads - first_block s heads) <= fuel)%nat →
  CosmosSub_Start t fuel heads s = (Ok (Some (last_block s heads)), s') →
  s'.(rs_done) = s.(rs_done) ++ acts →
  p `prefix_of` acts → s2.(rs_CosmosDB) = (match saved p with Some b => Some b | None => s.(rs_CosmosDB) end) →
  heads2 ≠ [] → Forall (λ h, 0 < h < 2 ^ 63 - 1) heads2 → served blk D (last_block s2 heads2) →
  (D + 2 + (D + 1) * Z.to_nat (last_block s2 heads2 - first_block s2 heads2) <= fuel2)%nat →
  ∃ q r s2' acts2, p = q ++ r ∧ saved_of r = [] ∧
  CosmosSub_Start t fuel2 heads2 s2 = (Ok (Some (last_block s2 heads2)), s2') ∧
  s2'.(rs_done) = s2.(rs_done) ++ acts2 ∧
  blocks_done t blk (seqZ (last_cosmos_block s + 1) (last_block s2 heads2 - last_cosmos_block s)) (q ++ acts2).
Proof.
  intros Ht Hl Hn Hh Hs Hf E Hd Hp C Hn2 Hh2 Hs2 Hf2.
  destruct (CosmosSub_Start_ok t blk D fuel heads s Ht ltac:(lia) Hn Hh Hs Hf) as (s'' & acts' & E' & D' & B & _).
  rewrite E in E'. injection E' as <-. rewrite Hd in D'. apply app_inv_head in D' as <-.
  destruct (blocks_stopped _ _ _ _ B p Hp) as (bs1 & bs2 & q & r & Ebs & -> & Bq & Hr & Hq).
  assert (first_block s heads = last_cosmos_block s) as Ef.
  { unfold first_block. by rewrite (proj2 (Z.eqb_neq (last_cosmos_block s) 0)) by lia. }
  rewrite Ef in *. apply seqZ_prefix in Ebs as Eseq.
  assert (Z.of_nat (length bs1) <= last_block s heads - last_cosmos_block s) as Hlen.
  { pose proof (max_mono heads (last_cosmos_block s)) as Hm. unfold last_block. rewrite Ef.
    apply (f_equal length) in Ebs. rewrite length_seqZ, length_app in Ebs. unfold last_block in Ebs.
    rewrite Ef in Ebs. lia. }
  assert (last_block s heads < 2 ^ 63 - 1) as Htop by (unfold last_block; rewrite Ef; apply max_below; [lia|done]).
  set (k := last_cosmos_block s + Z.of_nat (length bs1)).
  assert (last_cosmos_block s2 = k ∧ first_block s2 heads2 = k) as [Ek Ek2].
  { assert (saved (q ++ r) = last bs1) as Ep.
    { unfold saved, saved_of in *. by rewrite omap_app, Hr, app_nil_r, Hq. }
    rewrite Ep, (last_seqZ _ _ Eseq) in C. case_decide as Hnil.
    - subst bs1. simpl in k. replace k with (last_cosmos_block s) by lia.
      unfold first_block, last_cosmos_block in *. rewrite C.
      by rewrite (proj2 (Z.eqb_neq _ 0)) by lia.
    - apply first_block_saved; [|lia]. rewrite C. f_equal. lia. }
  destruct (CosmosSub_Start_ok t blk D fuel2 heads2 s2 Ht ltac:(lia) Hn2 Hh2 Hs2 Hf2)
    as (s2' & acts2 & E2 & D2 & B2 & _).
  exists q, r, s2', acts2. split_and!; [done..|]. rewrite Ek2 in B2.
  pose proof (max_mono heads2 k) as Hm. rewrite Eseq in Bq.
  assert (k <= last_block s2 heads2) by (unfold last_block; by rewrite Ek2).
  replace (last_block s2 heads2 - last_cosmos_block s)
    with (Z.of_nat (length bs1) + (last_block s2 heads2 - k)) by lia.
  rewrite seqZ_app by lia. apply blocks_done_app; [done|].
  by replace (last_cosmos_block s + 1 + Z.of_nat (length bs1)) with (k + 1) by lia.
Qed.
End spec.

(** ** Witnesses *)
Example translator_total : translates ref_translator.
Proof. intros d. by exists d. Qed.
Example blocks_served top : served chain_blocks 1 top.
Proof.
  split.
  - intros n b txs. simpl. destruct (Nat.even n); [done|]. by intros [= <-].
  - intros n b _. simpl. destruct (Nat.even n) eqn:E.
    + exists 1%nat. split; [lia|]. rewrite Nat.add_1_r, Nat.even_succ, <- Nat.negb_even, E. done.
    + exists O. split; [lia|]. by rewrite Nat.add_0_r, E.
Qed.
Lemma lock_and_burn_read_witness :
  getOracleClaimType (lock_event lock_fury 3).(ev_Type) = Event_MsgLock ∧
  ∃ m, BurnLockEventToCosmosMsg Event_MsgLock (lock_event lock_fury 3).(ev_Attributes) ref_translator = Ok m ∧
    m.(cm_Symbol) = "fury" ∧ m.(cm_Amount) = Some 700.
Proof.
  assert (MsgLock_ValidateBasic lock_fury = Ok tt) as Hv by (vm_compute; reflexivity).
  destruct (proj1 (lock_and_burn_read ref_translator 3) lock_fury "fury" Hv
    ltac:(reflexivity) ltac:(reflexivity)) as [H1 H2].
  split; [exact H1|]. eexists. split; [exact H2|]. split; reflexivity.
Defined.
Lemma CosmosSub_Start_relays_witness : ∃ s' acts,
  CosmosSub_Start ref_translator 17 [12; 11; 14] (relayer_at (Some 10) None) = (Ok (Some 14), s') ∧
  s'.(rs_done) = acts ∧ s'.(rs_CosmosDB) = Some 14.
Proof.
  destruct (CosmosSub_Start_relays ref_translator chain_blocks 1 17 [12; 11; 14] (relayer_at (Some 10) None)
    translator_total ltac:(vm_compute; by split) ltac:(done) ltac:(repeat constructor) (blocks_served _)
    ltac:(vm_compute; lia)) as (s' & acts & E & D & _ & C & _).
  exists s', acts. split; [exact E|]. split; [exact D|exact C].
Defined.
(** The second of these runs follows a stop of the first one after block 11 and one of the two
    messages of block 12. *)
Definition first_run : RelayerState :=
  (CosmosSub_Start ref_translator 17 [12; 14] (relayer_at (Some 10) None)).2.
Lemma restart_loses_nothing_witness : ∃ q r acts2, take 2 first_run.(rs_done) = q ++ r ∧
  blocks_done ref_translator chain_blocks [11; 12; 13; 14; 15] (q ++ acts2).
Proof.
  destruct (restart_loses_nothing ref_translator chain_blocks 1 17 [12; 14] (relayer_at (Some 10) None)
    first_run first_run.(rs_done) (take 2 first_run.(rs_done)) [13; 15] 17 (relayer_at (Some 11) None)
    translator_total ltac:(vm_compute; by split) ltac:(done) ltac:(repeat constructor) (blocks_served _)
    ltac:(vm_compute; lia) ltac:(vm_compute; reflexivity) ltac:(reflexivity) ltac:(apply prefix_take)
    ltac:(vm_compute; reflexivity) ltac:(done) ltac:(repeat constructor) (blocks_served _)
    ltac:(vm_compute; lia)) as (q & r & s2' & acts2 & Hp & _ & _ & _ & B).
  exists q, r, acts2. split; [exact Hp|exact B].
Defined.
