(* ===== verification/RelayerEthSpec.v ===== *)
(** * RelayerEthSpec: the relayer from Ethereum

    The headers announced by Ethereum: which blocks are asked for events, what is broadcast of them,
    and what is remembered. *)

From S2P Require Import Oracle BridgeWorld.
From S2P Require Import Prelude Sdk SdkRef Rat Bank Keepers ClpExec World Scenario OracleSpec.
From S2P Require Import EthBridge Relayer RelayerSub RelayerSpec RelayerWorld.
Local Open Scope Z_scope.

Section spec.
Context {sdk : Sdk} {HL : SdkLaws sdk} {coins : CoinLib} {vals : ValAddressLib} {eth : EthLib}
  {bimap : BiMapLib} {outside : Outside} {errs : SdkErrors} {CL : CoinLaws coins}
  {RL : RelayerLaws sdk eth} {VL : ValAddressLaws vals}.
Implicit Type t : SymbolTranslator.

(** ** Events and claims *)
(** A log with a topic whose data decode without a panic, to an amount that fits the integers of
    this chain: larger ones make the relayer panic. *)
Definition readable_log (l : Log) : Prop :=
  l.(log_Topics) ≠ [] ∧ (∀ name, UnpackIntoInterface name l.(log_Data) ≠ Panic) ∧
  ∀ name e, UnpackIntoInterface name l.(log_Data) = Ok e → 0 <= e.(ee_Value) < 2 ^ 255.
Definition translates t : Prop := ∀ s, ∃ d, EthereumToOffsideswap t s = Ok d.
(** What the node may answer when it is asked up to 50 blocks below one of the heads. *)
Definition readable_logs (heads : list Z) : Prop := ∀ n a b logs,
  b + trailingBlocks ∈ heads → FilterLogs n a b = Some logs → Forall readable_log logs.
(** The event of a log. *)
Definition event_of (clientChainID : Z) (contract : EthereumAddress) (l : Log) : option EthereumEvent :=
  topic ← head l.(log_Topics);
  name ← (if String.eqb topic LogBurn_ID then Some "LogBurn"
          else if String.eqb topic LogLock_ID then Some "LogLock" else None);
  match UnpackIntoInterface name l.(log_Data) with
  | Ok e => Some (mkEthereumEvent e.(ee_To) e.(ee_Symbol) clientChainID e.(ee_Value) e.(ee_Nonce)
      (if String.eqb name "LogBurn" then CLAIM_TYPE_BURN else CLAIM_TYPE_LOCK) e.(ee_ID) contract
      e.(ee_From) e.(ee_Token))
  | _ => None
  end.
Definition claim_of t (valAddr : ValAddress) (e : EthereumEvent) : option EthBridgeClaim :=
  match EthereumEventToEthBridgeClaim valAddr e t with Ok c => Some c | _ => None end.
Definition valid_claim (c : EthBridgeClaim) : Prop :=
  MsgCreateEthBridgeClaim_ValidateBasic (mkMsgCreateEthBridgeClaim c) = Ok tt.
#[export] Instance valid_claim_dec c : Decision (valid_claim c).
Proof. unfold valid_claim. destruct (MsgCreateEthBridgeClaim_ValidateBasic _) as [[]| |]; [by left|by right..]. Defined.
Definition claim_messages t valAddr (events : list EthereumEvent) : list MsgCreateEthBridgeClaim :=
  mkMsgCreateEthBridgeClaim <$> filter valid_claim (omap (claim_of t valAddr) events).

Lemma ValidateBasic_total msg : MsgCreateEthBridgeClaim_ValidateBasic msg ≠ Panic.
Proof. unfold MsgCreateEthBridgeClaim_ValidateBasic. by repeat case_match. Qed.
Lemma valid_messages_eq claims :
  valid_messages claims = Ok (mkMsgCreateEthBridgeClaim <$> filter valid_claim claims).
Proof.
  induction claims as [|c l IH]; [done|]. cbn [valid_messages]. rewrite filter_cons.
  pose proof (ValidateBasic_total (mkMsgCreateEthBridgeClaim c)) as Hp. case_decide as Hv.
  - rewrite Hv, IH. done.
  - unfold valid_claim in Hv. by destruct (MsgCreateEthBridgeClaim_ValidateBasic _) as [[]| |].
Qed.
Lemma claim_not_panic t valAddr e : translates t → 0 <= e.(ee_Value) < 2 ^ 255 →
  EthereumEventToEthBridgeClaim valAddr e t ≠ Panic.
Proof.
  intros Ht Hv. unfold EthereumEventToEthBridgeClaim.
  pose proof (acc_not_panic e.(ee_To)) as Hp. destruct (AccAddressFromBech32 _) as [a| |]; [|done|done].
  destruct (Ht e.(ee_Symbol)) as [d Hd]. simpl. destruct (String.eqb a ""); [done|].
  rewrite int_new by lia. destruct (ee_ClaimType e); simpl; rewrite ?Hd; try done.
  by destruct (_ && _).
Qed.
Lemma readable_claims_eq t valAddr events : translates t →
  Forall (λ e, 0 <= e.(ee_Value) < 2 ^ 255) events →
  readable_claims valAddr t events = Ok (omap (claim_of t valAddr) events).
Proof.
  intros Ht H. induction H as [|e l He _ IH]; [done|]. cbn [readable_claims]. csimpl.
  pose proof (claim_not_panic t valAddr e Ht He). unfold claim_of at 1.
  destruct (EthereumEventToEthBridgeClaim valAddr e t); [|done|done]. by rewrite IH.
Qed.

(** ** Collecting the events of some blocks *)
Lemma does_log cid contract l : readable_log l →
  does (try (logToEvent cid contract l)) (λ r acts, acts = [] ∧
    match r with inr e => e = event_of cid contract l | inl _ => event_of cid contract l = None end).
Proof.
  intros (Hl & Hu & _) s. unfold try, logToEvent, event_of.
  destruct (log_Topics l) as [|topic l0]; [done|]. cbn [head mbind option_bind].
  destruct (String.eqb topic LogBurn_ID); [|destruct (String.eqb topic LogLock_ID)]; simpl.
  3: { do 3 eexists. by rewrite app_nil_r. }
  all: match goal with |- context [UnpackIntoInterface ?n ?d] =>
    specialize (Hu n); destruct (UnpackIntoInterface n d) end; try done; do 3 eexists;
    (split; [done|]); simpl; rewrite app_nil_r; done.
Qed.
Definition events_of cid contract (logs : list Log) : list EthereumEvent :=
  omap (event_of cid contract) logs.
Lemma does_collect cid contract logs : Forall readable_log logs →
  does (collect_events cid contract logs) (λ es acts, acts = [] ∧ es = events_of cid contract logs).
Proof.
  intros H. unfold collect_events. change (events_of cid contract logs) with ([] ++ events_of cid contract logs).
  generalize (@nil EthereumEvent) at 2 3. induction H as [|l logs Hl _ IH]; intros es; cbn [foldM].
  - apply does_ret. split; [done|]. by rewrite app_nil_r.
  - eapply (does_bind _ _ (λ es' acts, acts = [] ∧ es' = es ++ option_list (event_of cid contract l))).
    + eapply does_bind; [by apply does_log|]. intros r acts [-> Hr].
      destruct r as [e|[e|]]; apply does_ret; (split; [done|]).
      * by rewrite Hr, app_nil_r.
      * by rewrite <- Hr.
      * by rewrite <- Hr, app_nil_r.
    + intros es' acts [-> ->]. eapply does_weaken; [apply IH|]. intros es' acts' [-> ->]. split; [done|].
      rewrite <- app_assoc. f_equal. unfold events_of. csimpl. by destruct (event_of cid contract l).
Qed.
Lemma events_fit cid contract logs : Forall readable_log logs →
  Forall (λ e, 0 <= e.(ee_Value) < 2 ^ 255) (events_of cid contract logs).
Proof.
  intros Hl. apply Forall_forall. unfold events_of. intros e.
  rewrite list_elem_of_omap. intros (l & Hin & He). rewrite Forall_forall in Hl.
  destruct (Hl l Hin) as (_ & _ & Hv). unfold event_of in He.
  destruct (head _) as [topic|]; [|done]. simpl in He.
  destruct (String.eqb topic LogBurn_ID); [|destruct (String.eqb topic LogLock_ID); [|done]];
    simpl in He; (destruct (UnpackIntoInterface _ _) eqn:E; [|done|done]); simplify_eq/=;
    by eapply Hv.
Qed.

(** What follows a query: the claims of the events, if the key is there and the node takes them. *)
Definition eth_answers (valAddr : ValAddress) : Prop :=
  (∀ n, GetValAddressFromKeyring n = Some valAddr) ∧ (∀ n ms, BroadcastTx n ms = true).
Definition told t (events : list EthereumEvent) (acts : list Action) : Prop :=
  (acts = [] ∨ ∃ valAddr, acts = [Broadcasted (claim_messages t valAddr events)]) ∧
  (events = [] → acts = []) ∧
  ∀ valAddr, eth_answers valAddr → events ≠ [] → acts = [Broadcasted (claim_messages t valAddr events)].
Lemma told_nothing t events : (events = [] ∨ ∀ v, ¬ eth_answers v) → told t events [].
Proof. intros H. split_and!; [by left|done|]. intros v Hv Hn. destruct H as [|H]; [done|by destruct (H v)]. Qed.
Lemma told_claims t events valAddr : events ≠ [] → (∀ v, eth_answers v → v = valAddr) →
  told t events [Broadcasted (claim_messages t valAddr events)].
Proof. intros Hn H. split_and!; [right; by exists valAddr|done|]. by intros v ->%H _. Qed.
Lemma does_events t events : translates t → Forall (λ e, 0 <= e.(ee_Value) < 2 ^ 255) events →
  does (if (0 <? length events)%nat then ignore_err (handleEthereumEvent t events) else mret tt)
    (λ _, told t events).
Proof.
  intros Ht He. destruct events as [|e l]; [by apply does_ret, told_nothing; left|]. cbn [length].
  change (0 <? S (length l))%nat with true. set (events := e :: l) in *. intros s.
  unfold ignore_err, on_err, handleEthereumEvent. rewrite (bind_run (call _) _ s _ _ eq_refl).
  destruct (GetValAddressFromKeyring (rs_calls s)) as [valAddr|] eqn:Ek.
  - rewrite (bind_run (lift _) _ _ (omap (claim_of t valAddr) events) (s <| rs_calls ::= S |>))
      by (unfold lift; by rewrite readable_claims_eq).
    change (length events =? 0)%nat with false. cbv iota. unfold RelayToCosmos.
    rewrite (bind_run (lift _) _ _ (claim_messages t valAddr events) (s <| rs_calls ::= S |>))
      by (unfold lift; by rewrite valid_messages_eq).
    rewrite (bind_run (call _) _ _ _ _ eq_refl). destruct (BroadcastTx _ _) eqn:Eb; cbn [negb].
    + do 3 eexists. split; [done|]. split_and!; try done. apply told_claims; [done|].
      intros v [Hk _]. rewrite Hk in Ek. by injection Ek.
    + do 3 eexists. split; [done|]. simpl. rewrite app_nil_r. split_and!; try done. apply told_nothing. right.
      intros v [_ Hb]. by rewrite Hb in Eb.
  - do 3 eexists. split; [done|]. simpl. rewrite app_nil_r. split_and!; try done. apply told_nothing. right.
    intros v [Hk _]. by rewrite Hk in Ek.
Qed.

(** ** Headers *)
(** The blocks from [a] on are asked for their events, interval by interval, up to before [c]; what
    the events give is told, then the next block is saved. *)
Inductive eth_done t cid contract : Z → Z → list Action → Prop :=
| eth_nil a : eth_done t cid contract a a []
| eth_cons a b c n logs bc acts : FilterLogs n a b = Some logs → 0 <= b →
    told t (events_of cid contract logs) bc → eth_done t cid contract (b + 1) c acts →
    eth_done t cid contract a c (Queried a b :: bc ++ SavedEthereum (b + 1) :: acts).
Lemma eth_done_covers t cid contract a c acts : eth_done t cid contract a c acts →
  ∀ b, a <= b < c → ∃ from to, Queried from to ∈ acts ∧ from <= b <= to.
Proof.
  intros H. induction H as [|a b' c n logs bc acts _ _ _ _ IH]; intros b Hb; [lia|].
  destruct (decide (b <= b')).
  - exists a, b'. split; [by apply list_elem_of_here|lia].
  - destruct (IH b ltac:(lia)) as (from & to & Hin & ?). exists from, to. split; [|lia].
    apply list_elem_of_further, elem_of_app. right. by apply list_elem_of_further.
Qed.

(** What a header makes of the next block to ask for. *)
Inductive head_step t cid contract (number : Z) (db : option Z) : Z → Z → list Action → option Z → Prop :=
| head_waits last : number - trailingBlocks < 0 → head_step t cid contract number db last last [] db
| head_fails last : 0 <= number - trailingBlocks → head_step t cid contract number db last
    (if last =? 0 then number - trailingBlocks else last) [] db
| head_asks last n logs bc : let to := number - trailingBlocks in
    let from := if last =? 0 then to else last in 0 <= to → FilterLogs n from to = Some logs →
    told t (events_of cid contract logs) bc → head_step t cid contract number db last (to + 1)
      (Queried from to :: bc ++ [SavedEthereum (to + 1)]) (Some (to + 1)).
Lemma new_head_ok t cid contract last number s : translates t → readable_logs [number] → ∃ s' acts last',
  new_head t cid contract last number s = (Ok last', s') ∧ s'.(rs_done) = s.(rs_done) ++ acts ∧
  head_step t cid contract number s.(rs_EthereumDB) last last' acts s'.(rs_EthereumDB).
Proof.
  intros Ht Hlogs. unfold new_head. destruct (Z.ltb_spec (number - trailingBlocks) 0) as [Hn|Hn].
  { exists s, [], last. rewrite app_nil_r. split_and!; [done..|]. by constructor. }
  set (to := number - trailingBlocks) in *. set (from := if last =? 0 then to else last).
  rewrite (bind_run (call _) _ s _ _ eq_refl). destruct (FilterLogs (rs_calls s) from to) as [logs|] eqn:E.
  - rewrite (bind_run (act _) _ _ tt _ eq_refl).
    match goal with |- context [(_ ≫= _) ?x] => set (s1 := x) end.
    assert (Forall readable_log logs) as Hl.
    { apply (Hlogs _ _ _ _) in E; [done|]. unfold to. apply list_elem_of_singleton. lia. }
    destruct (does_collect cid contract logs Hl s1)
      as (es & s2 & a2 & E2 & D2 & _ & X2 & -> & ->). rewrite (bind_run _ _ _ _ _ E2).
    destruct (does_events t _ Ht (events_fit cid contract logs Hl) s2) as ([] & s3 & bc & E3 & D3 & _ & X3 & Htold).
    rewrite (bind_run _ _ _ _ _ E3). do 3 eexists. split; [reflexivity|]. split.
    + simpl. rewrite D3, D2. simpl. rewrite app_nil_r, <- !app_assoc. reflexivity.
    + simpl. rewrite Z.abs_eq by lia. by apply (head_asks _ _ _ _ _ _ (rs_calls s) logs).
  - do 3 eexists. split; [reflexivity|]. rewrite app_nil_r. split; [done|]. by apply head_fails.
Qed.
Lemma heads_ok t cid contract heads : translates t → readable_logs heads → ∀ last s, ∃ s' acts last' a,
  foldM (new_head t cid contract) last heads s = (Ok last', s') ∧
  s'.(rs_done) = s.(rs_done) ++ acts ∧ eth_done t cid contract a last' acts ∧
  (last ≠ 0 → a = last) ∧ (a = last ∨ (a + trailingBlocks) ∈ heads) ∧
  s'.(rs_EthereumDB) = (match acts with [] => s.(rs_EthereumDB) | _ => Some last' end).
Proof.
  intros Ht. induction heads as [|h heads IH]; intros Hlogs last s; cbn [foldM].
  { exists s, [], last, last. rewrite app_nil_r. split_and!; try done; [constructor|by left]. }
  destruct (new_head_ok t cid contract last h s Ht) as (s1 & a1 & l1 & E1 & D1 & Hstep).
  { intros n a b logs Hb%list_elem_of_singleton. apply Hlogs. rewrite Hb. by left. }
  destruct (IH ltac:(intros n a b logs Hb; apply Hlogs; by right) l1 s1) as (s2 & a2 & l2 & a & E2 & D2 & Hd & Ha & Hin & X2).
  rewrite (bind_run _ _ _ _ _ E1). exists s2, (a1 ++ a2), l2.
  rewrite D2, D1, app_assoc, E2, X2. inversion Hstep; subst; clear Hstep.
  - exists a. split_and!; try done. destruct Hin as [->|Hin]; [by left|right; by apply list_elem_of_further].
  - exists a. destruct (Z.eqb_spec last 0) as [->|Hne].
    + split_and!; try done. right. destruct Hin as [->|Hin]; [|by apply list_elem_of_further].
      replace (h - trailingBlocks + trailingBlocks) with h by lia. by apply list_elem_of_here.
    + split_and!; try done. left. by apply Ha.
  - assert (a = h - trailingBlocks + 1) as -> by (apply Ha; lia).
    exists (if last =? 0 then h - trailingBlocks else last). split_and!.
    + done.
    + done.
    + cbn [app]. rewrite <- app_assoc. by apply (eth_cons _ _ _ _ _ _ n logs).
    + by intros ->%Z.eqb_neq.
    + destruct (last =? 0); [right|by left].
      replace (h - trailingBlocks + trailingBlocks) with h by lia. by apply list_elem_of_here.
    + destruct a2; [|done]. by inversion Hd; subst.
Qed.
(** C18: The relayer of events, started on any database and with any headers announced, leaves no
    block out: the intervals it asks for follow one another, each event of them is told if the node
    takes it, and what is remembered is the block after the last interval, where a later run goes on.
    It begins with the block remembered, or else 50 blocks below one of the heights announced.  This
    holds as long as the logs that the node answers up to those heights can be read: each has a
    topic, and data that decode to an amount below 2^255; a larger amount, which a contract's
    uint256 allows, makes the relayer panic. *)
Theorem EthereumSub_Start_covers t cid contract heads s : translates t → readable_logs heads → ∃ s' acts first next,
  EthereumSub_Start t cid contract heads s = (Ok next, s') ∧ s'.(rs_done) = s.(rs_done) ++ acts ∧
  eth_done t cid contract first next acts ∧
  (∀ b, first <= b < next → ∃ from to, Queried from to ∈ acts ∧ from <= b <= to) ∧
  (∀ b, s.(rs_EthereumDB) = Some b → b ≠ 0 → first = b) ∧
  (first = default 0 s.(rs_EthereumDB) ∨ (first + trailingBlocks) ∈ heads) ∧
  s'.(rs_EthereumDB) = (match acts with [] => s.(rs_EthereumDB) | _ => Some next end).
Proof.
  intros Ht Hlogs. destruct (heads_ok t cid contract heads Ht Hlogs (default 0 s.(rs_EthereumDB)) s)
    as (s' & acts & next & first & E & D & Hd & Hf & Hin & X).
  exists s', acts, first, next. split_and!; try done.
  - by eapply eth_done_covers.
  - intros b Hb Hn. rewrite Hb in Hf. by apply Hf.
Qed.

(** ** Claims *)
Definition address20 (a : string) : Prop := String.length a = 20%nat.
Lemma EventProcessed_true claims1 c claims2 e : Forall (λ x, is_Some x.(eb_Nonce)) claims1 →
  c.(eb_EthereumSender) = e.(ee_From) → c.(eb_Nonce) = Some e.(ee_Nonce) →
  EventProcessed (claims1 ++ c :: claims2) e = Ok true.
Proof.
  intros H Hs Hn. induction H as [|x l [n Hx] _ IH]; cbn [app EventProcessed].
  - by rewrite Hs, String.eqb_refl, Hn, Z.eqb_refl.
  - rewrite Hx. destruct (String.eqb _ _); [|done]. by case_match.
Qed.
Lemma EventProcessed_found claims e : EventProcessed claims e = Ok true →
  ∃ c, c ∈ claims ∧ c.(eb_EthereumSender) = e.(ee_From) ∧ c.(eb_Nonce) = Some e.(ee_Nonce).
Proof.
  induction claims as [|x l IH]; [done|]. cbn [EventProcessed].
  destruct (String.eqb_spec e.(ee_From) x.(eb_EthereumSender)) as [Hs|]; [destruct (eb_Nonce x) as [n|] eqn:En; [|done]; destruct (Z.eqb_spec e.(ee_Nonce) n) as [->|]|].
  1: { exists x. by split; [apply list_elem_of_here|]. }
  all: intros (c & ? & ?)%IH; exists c; by split; [apply list_elem_of_further|].
Qed.
(** C35: The claim made of an event carries its numbers and addresses; and what x/ethbridge emits
    when it takes the claim is read back, on a replay, as a claim for that event by that validator:
    the event counts as processed, and only such claims make it so. *)
Theorem claim_carries_event t valAddr e claim : val_address_ok valAddr →
  address20 e.(ee_From) → address20 e.(ee_Token) → address20 e.(ee_BridgeContractAddress) →
  0 <= e.(ee_Nonce) < 2 ^ 63 → 0 <= e.(ee_Value) < 2 ^ 255 →
  EthereumEventToEthBridgeClaim valAddr e t = Ok claim →
  (∃ recipient symbol, AccAddressFromBech32 e.(ee_To) = Ok recipient ∧
     claim = mkEthBridgeClaim (int64 e.(ee_EthereumChainID)) (EthString e.(ee_BridgeContractAddress))
       e.(ee_Nonce) symbol (EthString e.(ee_Token)) (EthString e.(ee_From)) (AccString recipient)
       (ValString valAddr) e.(ee_Value) e.(ee_ClaimType) ∧
     match e.(ee_ClaimType) with
     | CLAIM_TYPE_LOCK => symbol = go_ToLower e.(ee_Symbol) ∧
         (symbol = "eth" → e.(ee_Token) = HexToAddress nullAddress)
     | CLAIM_TYPE_BURN => EthereumToOffsideswap t e.(ee_Symbol) = Ok symbol
     | CLAIM_TYPE_UNSPECIFIED => symbol = e.(ee_Symbol)
     end) ∧
  ∃ own, AttributesToEthereumBridgeClaim (create_claim_event claim).(ev_Attributes) = Ok own ∧
    own.(eb_CosmosSender) = valAddr ∧
    (∀ claims1 claims2, Forall (λ x, is_Some x.(eb_Nonce)) claims1 →
       EventProcessed (claims1 ++ own :: claims2) e = Ok true) ∧
    (∀ claims, EventProcessed claims e = Ok true →
       ∃ c, c ∈ claims ∧ c.(eb_EthereumSender) = e.(ee_From) ∧ c.(eb_Nonce) = Some e.(ee_Nonce)).
Proof.
  intros Hval Hf Htok Hc Hn Hv H. unfold EthereumEventToEthBridgeClaim, NewEthereumAddress in H.
  apply rbind_ok in H as (recipient & Er & H). destruct (String.eqb recipient ""); [done|].
  cbn [mbind res_bind] in H. apply rbind_ok in H as (symbol & Es & H).
  rewrite int_new in H by lia. cbn in H. injection H as <-. rewrite !eth_roundtrip by done.
  rewrite (int64_id e.(ee_Nonce)) by lia. split.
  - exists recipient, symbol. split_and!; [done..|]. destruct (ee_ClaimType e); [by injection Es|done|].
    unfold isZeroAddress in Es. destruct (String.eqb_spec (go_ToLower e.(ee_Symbol)) "eth") as [E|E].
    + destruct (String.eqb_spec e.(ee_Token) (HexToAddress nullAddress)); [|done]. by injection Es as <-.
    + injection Es as <-. by split.
  - exists (mkEthereumBridgeClaim e.(ee_From) valAddr (Some e.(ee_Nonce))). split_and!.
    + unfold AttributesToEthereumBridgeClaim, collect_claim. simpl. rewrite val_roundtrip by done. simpl.
      rewrite eth_is_hex by done. simpl. rewrite int_of_decimal by lia. simpl.
      by rewrite eth_roundtrip.
    + done.
    + intros claims1 claims2 H1. by apply EventProcessed_true.
    + intros claims. apply EventProcessed_found.
Qed.
End spec.

(** ** Witnesses *)
Example logs_readable heads : readable_logs heads.
Proof.
  intros n a b logs _. simpl. destruct (_ && _); intros [= <-]; [|constructor].
  apply Forall_singleton. split; [done|]. split; [done|]. by intros name e [= <-].
Qed.
(** The headers 105 and 130: the blocks 40 to 80, with the event of block 60. *)
Lemma EthereumSub_Start_covers_witness : ∃ s' acts,
  EthereumSub_Start ref_translator 1 bridge_bank [105; 130] (relayer_at None (Some 40)) = (Ok 81, s') ∧
  eth_done ref_translator 1 bridge_bank 40 81 acts ∧ ∃ from to, Queried from to ∈ acts ∧ from <= 60 <= to.
Proof.
  destruct (EthereumSub_Start_covers ref_translator 1 bridge_bank [105; 130] (relayer_at None (Some 40))
    ltac:(by intros x; exists x) (logs_readable _)) as (s' & acts & first & next & E & _ & Hd & Hc & Hf & _ & _).
  pose proof (f_equal fst E) as E1. vm_compute in E1. injection E1 as <-.
  assert (40 ≠ 0) as Hne by lia. pose proof (Hf 40 eq_refl Hne) as ->.
  exists s', acts. split; [exact E|]. split; [exact Hd|]. apply Hc. lia.
Defined.
Definition dai_event : EthereumEvent :=
  mkEthereumEvent "@bob" "DAI" 1 250 7 CLAIM_TYPE_LOCK "" bridge_bank eth_bob eth_dai.
Lemma claim_carries_event_witness : ∃ claim own,
  EthereumEventToEthBridgeClaim "v1" dai_event ref_translator = Ok claim ∧
  claim.(ec_Symbol) = "dai" ∧ claim.(ec_Amount) = 250 ∧
  AttributesToEthereumBridgeClaim (create_claim_event claim).(ev_Attributes) = Ok own ∧
  EventProcessed [own] dai_event = Ok true.
Proof.
  destruct (EthereumEventToEthBridgeClaim "v1" dai_event ref_translator) as [claim| |] eqn:E;
    [|by vm_compute in E..].
  destruct (claim_carries_event ref_translator "v1" dai_event claim ltac:(vm_compute; lia)
    ltac:(reflexivity) ltac:(reflexivity) ltac:(reflexivity) ltac:(vm_compute; by split)
    ltac:(vm_compute; by split) E) as [(r & symbol & _ & Hc & Hs & _) (own & Ho & _ & Hp & _)].
  exists claim, own. split; [done|]. rewrite Hc. split; [exact Hs|]. split; [done|].
  rewrite Hc in Ho. split; [exact Ho|]. by apply (Hp [] []).
Defined.
