(* ===== verification/RelayerReplaySpec.v ===== *)
(** * RelayerReplaySpec: what a replay takes for relayed

    The calls of the contract that a relayer made, read back from the blocks of Ethereum, and which
    locks and burns a replay recognises in them. *)

From S2P Require Import Oracle BridgeWorld.
From S2P Require Import Prelude Sdk SdkRef Rat Bank Keepers ClpExec World Scenario OracleSpec.
From S2P Require Import EthBridge Relayer RelayerSub RelayerSpec RelayerWorld.
Local Open Scope Z_scope.

(** ** Bytes *)
(** A number of bytes, the first the highest. *)
Fixpoint bytes_value (acc : Z) (s : string) : Z :=
  match s with
  | EmptyString => acc
  | String c s => bytes_value (256 * acc + Z.of_nat (nat_of_ascii c)) s
  end.
Lemma hex_value_char n : (n < 16)%nat → hex_value (hex_char n) = Some (Z.of_nat n).
Proof. intros H. do 16 (destruct n as [|n]; [done|]). lia. Qed.
Lemma hex_digits_Encode s : ∀ acc, hex_digits acc (hex_Encode s) = Some (bytes_value acc s).
Proof.
  induction s as [|c s IH]; intros acc; [done|]. cbn [hex_Encode hex_digits bytes_value].
  pose proof (nat_ascii_bounded c) as Hc. set (n := nat_of_ascii c) in *.
  assert (n / 16 < 16)%nat by (apply Nat.Div0.div_lt_upper_bound; lia).
  assert (n mod 16 < 16)%nat by (by apply Nat.mod_upper_bound).
  pose proof (Nat.div_mod_eq n 16) as Hn. set (q := (n / 16)%nat) in *. set (r := (n mod 16)%nat) in *.
  rewrite !hex_value_char by done. cbn [mbind option_bind]. rewrite IH. do 2 f_equal. lia.
Qed.
Lemma length_substring n : ∀ s m, (n + m <= String.length s)%nat → String.length (String.substring n m s) = m.
Proof.
  induction n as [|n IH]; intros s m H; (destruct s as [|c s]; cbn [String.length] in H; [by destruct m; [|lia]|]).
  - revert s c H. induction m as [|m IHm]; intros s c H; [by destruct s|].
    cbn [String.substring String.length]. f_equal. destruct s as [|c' s]; cbn [String.length] in *; [by destruct m; [|lia]|].
    apply (IHm s c'). lia.
  - cbn [String.substring]. apply IH. lia.
Qed.
Lemma length_slice a b s : (a <= b <= String.length s)%nat → String.length (slice a b s) = (b - a)%nat.
Proof. intros H. apply length_substring. lia. Qed.

(** ** The decoded calls *)
(** The third word is the sequence, the sender's text begins at the eighth. *)
Definition word_sequence (data : string) : Z := bytes_value 0 (slice 64 96 data).
Definition word_sender (data : string) : string := slice 224 266 data.
Lemma hex_Encode_empty s : s ≠ "" → hex_Encode s ≠ "".
Proof. by destruct s. Qed.
Lemma MyDecode_exact data : MyDecode data =
  if (String.length data <? 266)%nat then Err ErrAnonymous
  else if word_sequence data <? 2 ^ 32
       then Ok (mkProphecyClaimUnique (word_sequence data) (word_sender data)) else Err ErrAnonymous.
Proof.
  unfold MyDecode. change (32 * 7 + 42)%nat with 266%nat. change (32 * 7)%nat with 224%nat.
  destruct (Nat.ltb_spec (String.length data) 266) as [|H]; [done|]. cbv zeta.
  unfold ParseUint_16_32. rewrite (proj2 (String.eqb_neq _ _)).
  - rewrite hex_digits_Encode. fold (word_sequence data). by destruct (word_sequence data <? 2 ^ 32).
  - apply hex_Encode_empty. intros E. pose proof (length_slice 64 96 data ltac:(lia)) as Hl.
    by rewrite E in Hl.
Qed.
Lemma MyDecode_length data p : MyDecode data = Ok p → String.length p.(pc_CosmosSender) = 42%nat.
Proof.
  rewrite MyDecode_exact. destruct (Nat.ltb_spec (String.length data) 266); [done|].
  destruct (_ <? _); [|done]. intros [= <-]. apply length_slice. lia.
Qed.
Lemma MyDecode_total data : MyDecode data ≠ Panic.
Proof. rewrite MyDecode_exact. by repeat case_match. Qed.

Section spec.
Context {outside : Outside} {sdk : Sdk} {coins : CoinLib} {vals : ValAddressLib} {eth : EthLib}.

(** A call of newProphecyClaim by [addr] for the message. *)
Definition call_for (addr : EthereumAddress) (sender : string) (sequence : Z) (tx : EthTx) : Prop :=
  tx.(tx_Sender) = Some addr ∧ (4 <= String.length tx.(tx_Data))%nat ∧
  slice 0 4 tx.(tx_Data) = NewProphecyClaim_ID ∧
  let data := slice 4 (String.length tx.(tx_Data)) tx.(tx_Data) in
  (266 <= String.length data)%nat ∧ word_sequence data = sequence ∧ word_sender data = sender.
Lemma decode_call addr sender sequence tx : call_for addr sender sequence tx → sequence < 2 ^ 32 →
  decode_tx addr tx = Ok (Some (mkProphecyClaimUnique sequence sender)).
Proof.
  intros (Hs & Hl & Hid & Hd & Hq & Hw) Hlt. unfold decode_tx. rewrite Hs, String.eqb_refl.
  cbn [negb]. rewrite (proj2 (Nat.ltb_ge _ 4) Hl), Hid, String.eqb_refl. cbn [negb].
  rewrite MyDecode_exact, (proj2 (Nat.ltb_ge _ 266) Hd), Hq, Hw, (proj2 (Z.ltb_lt _ _) Hlt). done.
Qed.
Lemma decode_length addr tx : ∃ r, decode_tx addr tx = Ok r ∧
  Forall (λ p, String.length p.(pc_CosmosSender) = 42%nat) (option_list r).
Proof.
  unfold decode_tx. destruct (tx_Sender tx) as [a|]; [|by exists None].
  destruct (negb _); [by exists None|]. destruct (_ <? 4)%nat; [by exists None|].
  destruct (negb _); [by exists None|]. destruct (MyDecode _) as [p| |] eqn:E.
  - apply MyDecode_length in E. exists (Some p). split; [done|]. by constructor.
  - by exists None.
  - by apply MyDecode_total in E.
Qed.

(** A loop that collects. *)
Definition collects {A} (I : A → Prop) (Q : list A → Prop) (m : R (list A)) (acc : list A) : Prop :=
  does m (λ r acts, acts = [] ∧ ∃ new, r = acc ++ new ∧ Forall I new ∧ Q new).
Lemma collects_foldM {A B} (I : A → Prop) (p : A) (good : B → Prop) f l :
  (∀ acc x, x ∈ l → collects I (λ new, good x → p ∈ new) (f acc x) acc) → ∀ acc,
  collects I (λ new, (∃ x, x ∈ l ∧ good x) → p ∈ new) (foldM f acc l) acc.
Proof.
  induction l as [|x l IH]; intros Hf acc; cbn [foldM].
  - apply does_ret. split; [done|]. exists []. rewrite app_nil_r. split_and!; [done..|].
    by intros (x & ?%elem_of_nil & _).
  - eapply does_bind; [apply Hf, list_elem_of_here|]. intros r acts (-> & new & -> & HI & Hp).
    eapply does_weaken; [apply IH; intros ???; apply Hf; by apply list_elem_of_further|].
    intros r acts (-> & new' & -> & HI' & Hp'). split; [done|]. exists (new ++ new').
    split_and!; [by rewrite app_assoc|by apply Forall_app|]. intros (y & Hy & Hg). apply elem_of_app.
    apply list_elem_of_In in Hy as [->|Hy]; [left; by apply Hp|right; apply Hp'].
    exists y. split; [by apply list_elem_of_In|done].
Qed.
Lemma does_GetAllProphecyClaim addr from to sender sequence : sequence < 2 ^ 32 →
  does (GetAllProphecyClaim addr from to) (λ claims acts, acts = [] ∧
    Forall (λ p, String.length p.(pc_CosmosSender) = 42%nat) claims ∧
    ((∃ b, from <= b < to ∧ ∀ n, ∃ txs, BlockByNumber n b = Some txs ∧
        ∃ tx, tx ∈ txs ∧ call_for addr sender sequence tx) →
     mkProphecyClaimUnique sequence sender ∈ claims)).
Proof.
  intros Hlt. set (p := mkProphecyClaimUnique sequence sender). unfold GetAllProphecyClaim.
  eapply does_weaken.
  - apply (collects_foldM (λ p, String.length p.(pc_CosmosSender) = 42%nat) p
      (λ b, ∀ n, ∃ txs, BlockByNumber n b = Some txs ∧ ∃ tx, tx ∈ txs ∧ call_for addr sender sequence tx)).
    intros acc b _. eapply (does_bind _ _ (λ r acts, acts = [] ∧ ∃ n, r = BlockByNumber n b)).
    { apply does_call. intros n. split; [done|]. by exists n. }
    intros r acts (-> & n & ->). destruct (BlockByNumber n b) as [txs|] eqn:E.
    + eapply does_weaken; [apply (collects_foldM (λ p, String.length p.(pc_CosmosSender) = 42%nat) p (call_for addr sender sequence))|].
      * intros acc' tx _. destruct (decode_length addr tx) as (r & Er & Hr). rewrite Er.
        intros s. exists (acc' ++ option_list r), s, []. rewrite app_nil_r. split_and!; try done.
        exists (option_list r). split_and!; [done..|]. intros Hc.
        rewrite (decode_call _ _ _ _ Hc Hlt) in Er. injection Er as <-. apply list_elem_of_here.
      * intros r acts (-> & new & -> & HI & Hp). split; [done|]. exists new. split_and!; [done..|].
        intros Hb. destruct (Hb n) as (txs' & E' & Hex). rewrite E in E'. injection E' as <-. by apply Hp.
    + apply does_ret. split; [done|]. exists []. rewrite app_nil_r. split_and!; [done..|].
      intros Hb. destruct (Hb n) as (txs' & E' & _). congruence.
  - intros r acts (-> & new & -> & HI & Hp). split_and!; [done..|]. intros (b & Hb & Hg).
    apply Hp. exists b. split; [|done]. apply elem_of_seqZ. lia.
Qed.

(** ** Recognition *)
#[export] Instance ProphecyClaimUnique_eq_dec : EqDecision ProphecyClaimUnique.
Proof. solve_decision. Defined.
Lemma MessageProcessed_exact msg sequence claims : msg.(cm_CosmosSenderSequence) = Some sequence →
  MessageProcessed msg claims =
  Ok (bool_decide (mkProphecyClaimUnique sequence msg.(cm_CosmosSender) ∈ claims)).
Proof.
  intros Hs. induction claims as [|[q a] l IH]; cbn [MessageProcessed].
  { rewrite bool_decide_eq_false_2; [done|]. apply not_elem_of_nil. }
  cbn [pc_CosmosSender pc_CosmosSenderSequence]. rewrite Hs, IH.
  destruct (String.eqb_spec (cm_CosmosSender msg) a) as [<-|Ha]; [destruct (Z.eqb_spec sequence q) as [<-|Hq]|].
  - rewrite bool_decide_eq_true_2; [done|]. apply list_elem_of_here.
  - f_equal. apply bool_decide_ext. rewrite elem_of_cons. split; [by right|]. intros [[= ?]|?]; done.
  - f_equal. apply bool_decide_ext. rewrite elem_of_cons. split; [by right|]. intros [[= ?]|?]; done.
Qed.

(** On a replay a lock or a burn counts as relayed exactly when the relayer's own calls, in the
    blocks it reads, hold its sender and sequence.  The sender is cut out of a call as a text of 42
    bytes: the message of an account whose text has another length is never recognised, whatever
    was relayed, and is sent again. *)
Theorem replay_recognises addr from to s msg sequence : msg.(cm_CosmosSenderSequence) = Some sequence →
  sequence < 2 ^ 32 →
  ∃ claims s', GetAllProphecyClaim addr from to s = (Ok claims, s') ∧ s'.(rs_done) = s.(rs_done) ∧
  (∀ k, unprocessed claims k msg =
     if decide (mkProphecyClaimUnique sequence msg.(cm_CosmosSender) ∈ claims) then mret tt else k msg) ∧
  (String.length msg.(cm_CosmosSender) ≠ 42%nat → ∀ k, unprocessed claims k msg = k msg) ∧
  (∀ b, from <= b < to → (∀ n, ∃ txs, BlockByNumber n b = Some txs ∧
       ∃ tx, tx ∈ txs ∧ call_for addr msg.(cm_CosmosSender) sequence tx) →
     ∀ k, unprocessed claims k msg = mret tt).
Proof.
  intros Hs Hlt.
  destruct (does_GetAllProphecyClaim addr from to msg.(cm_CosmosSender) sequence Hlt s)
    as (claims & s' & acts & E & D & _ & _ & -> & Hl & Hin).
  assert (∀ k, unprocessed claims k msg =
     if decide (mkProphecyClaimUnique sequence msg.(cm_CosmosSender) ∈ claims) then mret tt else k msg) as Hu.
  { intros k. unfold unprocessed. rewrite (MessageProcessed_exact _ _ _ Hs).
    by case_bool_decide; [rewrite decide_True by done|rewrite decide_False by done]. }
  exists claims, s'. rewrite app_nil_r in D. split_and!; [done..| |].
  - intros Hn k. rewrite Hu, decide_False; [done|]. intros H.
    by rewrite Forall_forall in Hl; apply Hl in H.
  - intros b Hb Hg k. rewrite Hu, decide_True; [done|]. apply Hin. by exists b.
Qed.
End spec.

(** ** Witnesses *)
Definition long_lock : CosmosMsg := mkCosmosMsg long_account (Some 9) "fury" (Some 5) eth_bob Event_MsgLock.
Definition short_lock : CosmosMsg := mkCosmosMsg "@alice" (Some 9) "fury" (Some 5) eth_bob Event_MsgLock.
Lemma replay_recognises_witness : ∃ claims s',
  GetAllProphecyClaim eth_bob 3 8 (relayer_at None None) = (Ok claims, s') ∧
  (∀ k, unprocessed claims k long_lock = mret tt) ∧ (∀ k, unprocessed claims k short_lock = k short_lock).
Proof.
  destruct (replay_recognises eth_bob 3 8 (relayer_at None None) long_lock 9 ltac:(done) ltac:(done))
    as (claims & s' & E & _ & _ & _ & H1).
  destruct (replay_recognises eth_bob 3 8 (relayer_at None None) short_lock 9 ltac:(done) ltac:(done))
    as (claims2 & s2 & E2 & _ & _ & H2 & _).
  rewrite E in E2. injection E2 as <- <-. exists claims, s'. split; [exact E|]. split; [|by apply H2].
  apply (H1 5); [done|]. intros n. exists [claim_call]. split; [done|]. exists claim_call.
  split; [apply list_elem_of_here|]. unfold call_for; cbv zeta; split_and!; [done|vm_compute; lia|vm_compute; reflexivity|vm_compute; lia|vm_compute; reflexivity..].
Defined.
